(* ===== verification/_CoqProject ===== *)
-Q . S2P
Prelude.v
Types.v
Effects.v
Handlers.v
Codec.v
Reference.v
Merkle.v
Frame.v
Domain.v
Epochs.v
Transfers.v
TransfersProofs.v
Governance.v
GovernanceProofs.v
VotingProofs.v
PublicationProofs.v
GovernanceOrigins.v
GovernanceWitnesses.v
Runtime.v
RuntimeProofs.v
Config.v
Relay.v
RelayProofs.v
RelaySafety.v
RelayWitnesses.v
Verify.v
VerifyProofs.v
Importer.v
ImporterProofs.v
ImporterSafety.v
ChainProgress.v
ImporterLiveness.v
CrossChain.v
Supply.v
NetworkExample.v
ImporterWitnesses.v
Exporter.v
Services.v
ChainSpec.v
ExporterProofs.v
ExporterSafety.v
ExporterChain.v
ExporterRelay.v
ExporterWitnesses.v
LiveNode.v
Readiness.v
ReadinessProofs.v
Pipeline.v
Delivery.v
PipelineWitnesses.v
DeliveryWitnesses.v
Agreement.v
AgreementWitnesses.v
Harness.v
HarnessProofs.v
HarnessWitnesses.v
