(* ===== verification/Prelude.v ===== *)
(** * IALP: a verified model of the Interplanetary Asynchronous Ledger Protocol

    ** The program

    IALP connects three chains, Earth, Moon and Mars, over links that are slow and
    go dark.  Each chain is a Substrate chain with four pallets
    ([chain/pallets/*]).  [epochs] cuts the chain into epochs and closes each with a
    summary header, which is linked to its predecessor by hash and carries the roots
    of the epoch's exports, finalized imports and governance leaves.  [transfers]
    puts the amount of an outbound transfer on hold, mints inbound ones and burns
    what was held once the other chain has acknowledged.  [governance] decides
    changes of the protocol version and schedules them on all target chains.
    [domain] holds the identity.  [chain/runtime] composes them; [chain/node] adds
    the RPC method that certifies a summary by GRANDPA finality.

    Three services per domain carry packages: the exporter
    ([services/exporter]) asks the node for certified summaries, builds a package
    per target domain and submits it to the relay; the relay ([services/relay])
    keeps it for the link's delay, avoids blackouts and delivers it to the target's
    importer; the importer ([services/importer]) verifies hash, certificate and
    Merkle proofs and submits calls to its own chain, whose next summary carries
    the completion back.  [crates/common-types] and [crates/common-config] hold the
    shared data and the configuration; [tests/scenario-harness] runs it all.

    ** The files, in dependency order

    - Shared.  [Prelude]: machine integers, bytes, results, sorting, sums over
      maps, tactics.  [Types]: the data of common-types.  [Effects], [Handlers]: the
      state-and-error monad of the services and its program logic.  [Codec]: hashes,
      identifiers, packages and storage keys over an interface for SCALE and the
      hash functions, with its laws.  [Reference]: an instance of that interface.
      [Merkle]: the three commitment trees, as one.
    - The chain.  [Frame]: accounts, origins and the currency as interfaces.
      [Domain], [Epochs], [Transfers] with [TransfersProofs], [Governance] with
      [GovernanceProofs], [VotingProofs], [PublicationProofs], [GovernanceOrigins]
      and [GovernanceWitnesses]: state as a record of the storage items, one
      definition per dispatchable and hook, the pallet as a transition system.
      [Runtime], [RuntimeProofs]: calls, blocks and genesis.
    - Configuration and the relay.  [Config]; [Relay], [RelayProofs],
      [RelaySafety], [RelayWitnesses].
    - The importer.  [Verify], [VerifyProofs]: package verification.  [Importer],
      [ImporterProofs], [ImporterSafety], [ImporterWitnesses].  [ChainProgress]: what
      the importer's calls do to a chain that others use too.  [ImporterLiveness]: the
      importer on a node that answers.
    - Chains together.  [CrossChain]: the records of transfers over all chains.
      [Supply]: what the calls of a run do to the currency, from the log of the run.
      [NetworkExample]: one concrete transfer there and back.
    - The exporter.  [Exporter], [ExporterProofs], [ExporterSafety],
      [ExporterChain], [ExporterRelay], [ExporterWitnesses].  [LiveNode]: a node that
      answers.  [Services]: settings
      and commands of the three services.  [ChainSpec]: from a configuration to a
      chain ([chain/node/src/chain_spec.rs], [command.rs]).
    - Certification.  [Readiness], [ReadinessProofs]: [chain/node/src/rpc.rs].
      [Pipeline], [PipelineWitnesses]: node, exporter and importer together.
      [Delivery], [DeliveryWitnesses]: and the chain of the destination.
    - Governance over all chains.  [Agreement], [AgreementWitnesses].
    - The harness.  [Harness], [HarnessProofs], [HarnessWitnesses].

    Definitions keep the names of the source.  A struct is a record, an enum an
    inductive type, a [u64] a [Z] whose saturating or wrapping operations are
    written out, a [Result] is [result], a storage map or a [BTreeMap] a [gmap], a
    store directory a map from paths to contents.  Handlers of the services run in
    [M S E A], a state transformer that may fail and keeps the state it reached;
    nodes, relays, clocks and file contents outside a service are fields of a class
    ([NodeRpc], [ExporterEnv], [HarnessEnv], ...), so that theorems hold for
    whatever they answer.

    ** What the theorems show

    - Money ([TransfersProofs], [CrossChain], [Supply]): holds are the sum of the
      exports not yet resolved; every import is a committed export of its source
      chain; exports are resolved once.  The currency itself is measured over the
      log of a run, the successful calls with the balances before and after each:
      a finalized import raises the total issuance and its recipient's balance by
      its amount, once; between any two chains burned <= minted <= put on hold; and
      no other call changes the total issuance.
    - Epochs and commitments ([Merkle], [Epochs], [TransfersProofs],
      [RuntimeProofs]): headers form a hash-linked chain; an accepted proof is of a
      committed leaf; a header's roots anchor exactly the epoch's leaves; every
      block of the runtime is a run of each pallet's transition system.
    - Governance ([VotingProofs], [GovernanceProofs], [PublicationProofs],
      [Agreement]): tallies are exact; closing decides by quorum and majority;
      activation needs every acknowledgement and happens on time; chains agree on
      the terms of a proposal.
    - The relay ([RelayProofs], [RelaySafety]): what is delivered, when, how often,
      counting the requests it has sent ([rl_posts]); nothing accepted is lost or
      changed; a tick of the scheduler settles the packages that are due, unless an
      earlier record makes it fail.  Deliveries are planned in whole milliseconds,
      which may lie in the last, broken millisecond of a blackout
      ([next_delivery_earliest]).
    - The importer ([VerifyProofs], [ImporterProofs], [ImporterSafety]): it submits
      only what a certified package says, agrees with the relay on packages, and
      acknowledges only what the node has reported as done.
    - The exporter and the node ([ExporterSafety], [ReadinessProofs], [Pipeline]):
      the index is true, packages are final, certificates do not change, and after
      one synchronisation every certifiable epoch has, for every domain, a stored
      package that the relay and the importer of that domain accept with all its items.
    - Progress ([ImporterLiveness], [Delivery]): on a responsive node the importer
      works through a verified package until the chain has done everything the
      package proves, whatever other accounts do meanwhile; so what a certified epoch
      says to a domain happens there, once the exporter has synchronised and the
      package has come to the importer.
    - Configuration ([Config], [Services], [ChainSpec]): what validation
      guarantees; services of one transport configuration reach each other; a
      validated domain configuration starts a chain of its domain, whose
      authorities are the ones the importers expect.
    - The harness ([HarnessProofs]): scenarios end; the summary tells the outcome;
      a green transfer scenario has settled its transfer on both chains.

    Theorems about hashes have the form "the property, or a collision": the hash
    functions are parameters and no collision resistance is assumed.

    ** Fuel and bounds

    [reduce_levels] and [build_siblings] of [Merkle] run on as much fuel as there
    are leaves, each level being shorter; UTF-8 decoding on the length of the text
    plus one; [next_delivery_after] on the number of blackout windows plus one, each
    step leaving one window behind ([next_delivery_earliest]); the importer's wait
    loops on the 60 attempts of the source; [stage_loop] on one poll for every
    second of the timeout plus one, which suffices for any clock that runs
    ([scenario_ends]); [decimal] on the 39 digits of a [u128].  Loops over block
    numbers and epochs are over [seqZ].  Identifiers are derived from 64-bit
    sequence numbers that saturate: theorems about many calls assume that the
    sequences have not reached their end ([call_admissible]).

    ** What is assumed of code outside the repository

    SCALE encodings decode, and encodings of different kinds of leaves and nodes
    differ ([CodecOk], [CodecSep], from the widths of the fields); hold, mint and
    burn move balances as documented ([CurrencyOk]); an account encodes to at most
    32 bytes ([AccountOk]); a trie proof that checks is of the trie
    ([read_proof_sound]); GRANDPA justifies blocks of the chain only
    ([grandpa_finality]); a node serves its chain's storage ([Serves],
    [serves_chains] and the like); chains grow and do not fork ([ServedChains]);
    calls return; time does not run backwards ([Clock], [relay_step]).  For the
    theorems on progress, the node takes calls that are signed with the right nonce
    and puts them into blocks in order, before the importer's 60 queries are over,
    and balances can be credited ([Responsive]); the chain takes the importer's
    calls and does not contradict the items ([deliverable]), and exports name
    accounts ([sound_items], [recipients_exist]).  Each theorem that uses
    such an assumption has a witness on concrete instances ([Reference],
    [NetworkExample], [LiveNode], [*Witnesses]).

    Idealisations.  An encoding is injective on all of [Z] ([CodecOk]), where SCALE
    is on the widths of the fields; a genesis with an account endowed twice is built,
    where the balances pallet panics; identifiers of different sequence numbers
    below [u64::MAX] are taken to differ.  A handler of the importer is one step
    ([importer_step]); in the source requests and the loop over packages are tasks
    that may interleave where they wait for the node
    ([services/importer/src/lib.rs:228], [312-347]), which affects the saved index
    (see [processed_package_restores_index]); each call is still one that a verified
    package certifies.

    ** Not modelled

    Substrate's node service and networking ([chain/node/src/service.rs]), command
    lines, the TOML, JSON and HTTP formats and their libraries, subscriptions,
    logging and the [json_summary] views: input and output of third-party code, or
    views without decisions.  Dispatch weights and fees: the fee of an extrinsic is
    a parameter of its execution.  The runtime APIs and the balances, consensus and
    sudo pallets belong to Substrate.  The harness's rebuilding of binaries with
    cargo is one call of its environment; tests are not part of the program. *)

From stdpp Require Export gmap strings list fin_maps sorting.
From coqutil Require Export Datatypes.RecordSetters.
Export DoubleBraceUpdate.

#[global] Open Scope Z_scope.

(** ** Record updates

    [r {{ field := v }}] and [r {{ field ::= f }}] are coqutil's.  An instance
    of [Settable] makes the updated record mention the other fields by their
    projections, so that [simpl] leaves readable goals. *)
Class Settable (R : Type) := settable : R -> R.

Ltac settable_setter R E getter :=
  let app := constr:(@settable R _) in
  let inst := lazymatch app with @settable R ?i => i end in
  let h := RecordSetters.head inst in
  exact (fun (u : E -> E) (r : R) => ltac:(
    let b := eval cbv beta delta [settable h] in (@settable R inst r) in
    let g := eval cbv beta in (getter r) in
    lazymatch b with context C[g] => let b' := context C[u g] in exact b' end)).

#[global] Hint Extern 0 (@Setter ?R ?E ?getter) => settable_setter R E getter : typeclass_instances.
#[global] Arguments constant {E} newValue _ /.

(** ** Machine integers

    A [w]-bit unsigned integer of the source is a [Z]; the operations the code
    uses on it are written with their width. *)

Definition umax (w : Z) : Z := 2 ^ w - 1.
Definition u8_max : Z := umax 8.
Definition u16_max : Z := umax 16.
Definition u32_max : Z := umax 32.
Definition u64_max : Z := umax 64.
Definition u128_max : Z := umax 128.

(** [x.saturating_add(y)], [x.saturating_sub(y)] and [x.saturating_mul(y)] on
    an unsigned type whose largest value is [m]. *)
Definition sat_add (m x y : Z) : Z := Z.min (x + y) m.
Definition sat_sub (x y : Z) : Z := Z.max (x - y) 0.
Definition sat_mul (m x y : Z) : Z := Z.min (x * y) m.

(** [x as u32]: truncation to the low 32 bits. *)
Definition as_u32 (x : Z) : Z := x mod 2 ^ 32.

Lemma sat_add_bounds m x y : 0 <= x -> 0 <= y -> x <= m -> x <= sat_add m x y <= m.
Proof. unfold sat_add. lia. Qed.
Lemma sat_add_exact m x y : x + y <= m -> sat_add m x y = x + y.
Proof. unfold sat_add. lia. Qed.
Lemma sat_mul_exact m x y : x * y <= m -> sat_mul m x y = x * y.
Proof. unfold sat_mul. lia. Qed.
Lemma as_u32_small x : 0 <= x <= u32_max -> as_u32 x = x.
Proof. unfold as_u32, u32_max, umax. intros. apply Z.mod_small. lia. Qed.

(** ** Bytes

    A byte is a [Z]; [[u8; N]] and [Vec<u8>] are lists of bytes.  Hashes,
    account ids, export ids and proposal ids are all [[u8; 32]]. *)

Abbreviation bytes := (list Z).
Abbreviation hash := (list Z).

(** [<[u8; N] as Ord>::cmp]: lexicographic. *)
Fixpoint bytes_cmp (a b : bytes) : comparison :=
  match a, b with
  | [], [] => Eq
  | [], _ :: _ => Lt
  | _ :: _, [] => Gt
  | x :: a', y :: b' =>
      match x ?= y with
      | Eq => bytes_cmp a' b'
      | c => c
      end
  end.

(** [a.then(b)] of [core::cmp::Ordering]. *)
Definition cmp_then (a b : comparison) : comparison :=
  match a with Eq => b | _ => a end.

Infix "`then`" := cmp_then (at level 50, left associativity).

(** ** Comparison functions as total preorders

    What [sort_by] needs of its comparator, and what makes the sorted order
    unique.  The instances for the leaf orderings live with the leaves. *)
Class TotalCmp {A} (cmp : A -> A -> comparison) : Prop := {
  cmp_refl : forall x, cmp x x = Eq;
  cmp_antisym : forall x y, cmp y x = CompOpp (cmp x y);
  cmp_le_trans : forall x y z, cmp x y <> Gt -> cmp y z <> Gt -> cmp x z <> Gt
}.
Arguments cmp_refl {A} cmp {_} x.
Arguments cmp_antisym {A} cmp {_} x y.
Arguments cmp_le_trans {A} cmp {_} x y z.

Definition cmp_le {A} (cmp : A -> A -> comparison) (x y : A) : Prop := cmp x y <> Gt.

#[export] Instance cmp_le_dec {A} (cmp : A -> A -> comparison) x y : Decision (cmp_le cmp x y).
Proof. unfold cmp_le. destruct (cmp x y); [left|left|right]; congruence. Defined.

Section TotalCmpFacts.
Context {A} (cmp : A -> A -> comparison) `{!TotalCmp cmp}.

#[export] Instance cmp_le_preorder : PreOrder (cmp_le cmp).
Proof.
  split; [intros x; unfold cmp_le; by rewrite cmp_refl|].
  intros x y z. apply (cmp_le_trans cmp).
Qed.

Lemma cmp_le_flip x y : cmp_le cmp y x <-> cmp x y <> Lt.
Proof. unfold cmp_le. rewrite (cmp_antisym cmp x y). by destruct (cmp x y). Qed.

Lemma cmp_le_total x y : cmp_le cmp x y \/ cmp_le cmp y x.
Proof. rewrite (cmp_le_flip x y). unfold cmp_le. destruct (cmp x y); [by left|by left|by right]. Qed.

Lemma cmp_le_antisym x y : cmp_le cmp x y -> cmp_le cmp y x -> cmp x y = Eq.
Proof. rewrite (cmp_le_flip x y). unfold cmp_le. by destruct (cmp x y). Qed.

Lemma cmp_eq_le x y : cmp x y = Eq -> cmp_le cmp x y /\ cmp_le cmp y x.
Proof. rewrite (cmp_le_flip x y). unfold cmp_le. intros ->. done. Qed.
End TotalCmpFacts.

(** A comparator obtained from another one through a key. *)
Lemma total_cmp_key {A B} (f : A -> B) (cmp : B -> B -> comparison) :
  TotalCmp cmp -> TotalCmp (fun x y => cmp (f x) (f y)).
Proof.
  intros H. split; intros.
  - apply (cmp_refl cmp).
  - apply (cmp_antisym cmp).
  - by eapply (cmp_le_trans cmp).
Qed.

Lemma comp_opp_then a b : CompOpp (a `then` b) = CompOpp a `then` CompOpp b.
Proof. by destruct a. Qed.

Lemma total_cmp_strict {A} (cmp : A -> A -> comparison) `{!TotalCmp cmp} x y z :
  cmp_le cmp x y -> cmp_le cmp y z -> cmp x z = Eq -> cmp x y = Eq /\ cmp y z = Eq.
Proof.
  intros Hxy Hyz E. destruct (cmp_eq_le cmp x z E) as [_ Hzx]. split.
  - apply (cmp_le_antisym cmp); [done|]. by transitivity z.
  - apply (cmp_le_antisym cmp); [done|]. by transitivity x.
Qed.

(** The lexicographic combination [a.cmp(b).then(c.cmp(d))]. *)
#[export] Instance total_cmp_then {A} (c1 c2 : A -> A -> comparison) :
  TotalCmp c1 -> TotalCmp c2 -> TotalCmp (fun x y => c1 x y `then` c2 x y).
Proof.
  intros H1 H2. split; intros.
  - by rewrite (cmp_refl c1), (cmp_refl c2).
  - by rewrite (cmp_antisym c1 x y), (cmp_antisym c2 x y), comp_opp_then.
  - assert (cmp_le c1 x y /\ cmp_le c1 y z) as [L1 L2].
    { unfold cmp_le. destruct (c1 x y), (c1 y z); simpl in *; done. }
    assert (cmp_le c1 x z) as L by (by transitivity y).
    unfold cmp_le in L. destruct (c1 x z) eqn:E; simpl; [|done|done].
    destruct (total_cmp_strict c1 x y z) as [E1 E2]; [done..|].
    rewrite E1 in H. rewrite E2 in H0. simpl in *.
    by eapply (cmp_le_trans c2).
Qed.

#[export] Instance total_cmp_Z : TotalCmp Z.compare.
Proof.
  split; intros.
  - apply Z.compare_refl.
  - apply Z.compare_antisym.
  - rewrite !Z.compare_ngt_iff in *. lia.
Qed.

Lemma bytes_cmp_eq a b : bytes_cmp a b = Eq <-> a = b.
Proof.
  revert b. induction a as [|x a IH]; intros [|y b]; simpl; try done.
  destruct (Z.compare_spec x y); [rewrite IH| |]; split; try done; intros; simplify_eq; try lia; done.
Qed.

#[export] Instance total_cmp_bytes : TotalCmp bytes_cmp.
Proof.
  split.
  - intros x. by apply bytes_cmp_eq.
  - induction x as [|x a IH]; intros [|y b]; simpl; try done.
    rewrite (Z.compare_antisym x y), IH. by destruct (x ?= y).
  - induction x as [|x a IH]; intros [|y b] [|z c]; simpl; try done.
    destruct (Z.compare_spec x y), (Z.compare_spec y z), (Z.compare_spec x z);
      subst; try done; try lia. apply IH.
Qed.

(** ** Stable sorting and deduplication

    [slice::sort_by] is a stable sort; the stable sort of a list is unique, so
    insertion sort computes the same value.  [Vec::dedup] removes consecutive
    repeated elements. *)
Section SortBy.
Context {A} (cmp : A -> A -> comparison).

Fixpoint insert_by (x : A) (l : list A) : list A :=
  match l with
  | [] => [x]
  | y :: l' => match cmp x y with
               | Gt => y :: insert_by x l'
               | _ => x :: y :: l'
               end
  end.

Fixpoint sort_by (l : list A) : list A :=
  match l with
  | [] => []
  | x :: l' => insert_by x (sort_by l')
  end.

Lemma insert_by_perm x l : insert_by x l ≡ₚ x :: l.
Proof.
  induction l as [|y l IH]; simpl; [done|].
  destruct (cmp x y); [done|done|]. rewrite IH. constructor.
Qed.

Lemma sort_by_perm l : sort_by l ≡ₚ l.
Proof. induction l as [|x l IH]; simpl; [done|]. by rewrite insert_by_perm, IH. Qed.

Lemma length_sort_by l : length (sort_by l) = length l.
Proof. by rewrite sort_by_perm. Qed.

Lemma elem_of_sort_by x l : x ∈ sort_by l <-> x ∈ l.
Proof. by rewrite sort_by_perm. Qed.

Lemma Forall_sort_by P l : Forall P (sort_by l) <-> Forall P l.
Proof. by rewrite sort_by_perm. Qed.

Context `{!TotalCmp cmp}.

Lemma insert_by_sorted x l :
  StronglySorted (cmp_le cmp) l -> StronglySorted (cmp_le cmp) (insert_by x l).
Proof.
  induction 1 as [|y l Hl IH Hy]; simpl; [repeat constructor|].
  destruct (cmp x y) eqn:E.
  1,2: constructor; [by constructor|]; constructor; [unfold cmp_le; congruence|];
    eapply Forall_impl; [exact Hy|]; intros z Hz; transitivity y; [unfold cmp_le; congruence|done].
  constructor; [done|]. rewrite insert_by_perm. constructor; [|done].
  apply (cmp_le_flip cmp). congruence.
Qed.

Lemma sort_by_sorted l : StronglySorted (cmp_le cmp) (sort_by l).
Proof. induction l; simpl; [constructor|]. by apply insert_by_sorted. Qed.

Lemma insert_by_head x l : Forall (cmp_le cmp x) l -> insert_by x l = x :: l.
Proof.
  intros Hf. destruct l as [|y l]; [done|]. inv Hf. simpl.
  unfold cmp_le in *. by destruct (cmp x y).
Qed.

Lemma sort_by_id l : StronglySorted (cmp_le cmp) l -> sort_by l = l.
Proof. induction 1; simpl; [done|]. rewrite IHStronglySorted. by apply insert_by_head. Qed.

Lemma sort_by_idemp l : sort_by (sort_by l) = sort_by l.
Proof. apply sort_by_id, sort_by_sorted. Qed.

(** When members that compare equal are equal, the sorted list depends only
    on the multiset of members. *)
Lemma sort_by_permutation l1 l2 :
  (forall x y, x ∈ l1 -> y ∈ l1 -> cmp x y = Eq -> x = y) ->
  l1 ≡ₚ l2 -> sort_by l1 = sort_by l2.
Proof.
  intros Hkey Hp.
  apply (StronglySorted_unique_strong (cmp_le cmp));
    [|apply sort_by_sorted..|by rewrite !sort_by_perm].
  intros x y Hx Hy Hxy Hyx. rewrite elem_of_sort_by in Hx, Hy. rewrite <-Hp in Hy.
  apply Hkey; [done..|]. by apply (cmp_le_antisym cmp).
Qed.
End SortBy.

Section Dedup.
Context {A} `{!EqDecision A}.

(** [Vec::dedup]. *)
Fixpoint dedup (l : list A) : list A :=
  match l with
  | [] => []
  | x :: l' => match l' with
               | [] => [x]
               | y :: _ => if decide (x = y) then dedup l' else x :: dedup l'
               end
  end.

Lemma elem_of_dedup x l : x ∈ dedup l <-> x ∈ l.
Proof.
  induction l as [|y [|z l] IH]; simpl in *; [done|done|].
  destruct (decide (y = z)) as [->|]; set_solver.
Qed.

Lemma dedup_length l : (length (dedup l) <= length l)%nat.
Proof.
  induction l as [|y [|z l] IH]; simpl in *; [lia|lia|].
  destruct (decide (y = z)); simpl in *; lia.
Qed.

Lemma dedup_nodup_id l : NoDup l -> dedup l = l.
Proof.
  induction 1 as [|x l Hx Hl IH]; simpl; [done|].
  destruct l as [|y l]; [done|]. rewrite decide_False by set_solver. by rewrite IH.
Qed.

Context (cmp : A -> A -> comparison) `{!TotalCmp cmp}.
Context (cmp_eq : forall x y, cmp x y = Eq -> x = y).

Lemma dedup_sorted_nodup l : StronglySorted (cmp_le cmp) l -> NoDup (dedup l).
Proof.
  induction 1 as [|x l Hl IH Hx]; simpl; [constructor|].
  destruct l as [|y l]; [apply NoDup_singleton|].
  destruct (decide (x = y)) as [->|Hne]; [done|].
  constructor; [|done]. rewrite elem_of_dedup. intros Hin. apply Hne.
  inversion_clear Hx. inversion_clear Hl. apply cmp_eq, (cmp_le_antisym cmp); [done|].
  apply elem_of_cons in Hin as [->|Hin]; [done|].
  match goal with H : Forall _ l |- _ => by apply (proj1 (Forall_forall _ _) H) end.
Qed.

(** [v.sort(); v.dedup()] is a duplicate-free list with the same members. *)
Lemma sort_dedup_nodup l : NoDup (dedup (sort_by cmp l)).
Proof. apply dedup_sorted_nodup, sort_by_sorted, _. Qed.

Lemma elem_of_sort_dedup x l : x ∈ dedup (sort_by cmp l) <-> x ∈ l.
Proof. by rewrite elem_of_dedup, elem_of_sort_by. Qed.

(** The length test of [canonicalize_target_domains] detects duplicates. *)
Lemma dedup_length_nodup l :
  length (dedup (sort_by cmp l)) = length l <-> NoDup l.
Proof.
  split.
  - intros Hlen.
    assert (l ≡ₚ dedup (sort_by cmp l)) as ->; [|apply sort_dedup_nodup].
    symmetry. apply submseteq_length_Permutation; [|lia].
    apply NoDup_submseteq; [apply sort_dedup_nodup|]. intros x. by rewrite elem_of_sort_dedup.
  - intros Hnd. rewrite dedup_nodup_id; [by rewrite length_sort_by|]. by rewrite sort_by_perm.
Qed.
End Dedup.

(** Members of a list with distinct keys are determined by their key. *)
Lemma NoDup_map_key {A K} (key : A -> K) (l : list A) x y :
  NoDup (map key l) -> x ∈ l -> y ∈ l -> key x = key y -> x = y.
Proof.
  intros Hnd (i & Hi)%list_elem_of_lookup (j & Hj)%list_elem_of_lookup E.
  assert (i = j) as ->; [|congruence].
  apply (NoDup_lookup (key <$> l) i j (key x)); [done| |];
    rewrite list_lookup_fmap; [by rewrite Hi|rewrite Hj, E; done].
Qed.

Lemma omap_ext_in {X Y} (f g : X -> option Y) (l : list X) :
  (forall x, x ∈ l -> f x = g x) -> omap f l = omap g l.
Proof.
  induction l as [|x l IH]; intros Hfg; [done|]. cbn.
  rewrite (Hfg x) by set_solver. destruct (g x); [f_equal|]; apply IH; set_solver.
Qed.

Lemma omap_ext_or {X Y} (f g : X -> option Y) (P : Prop) (l : list X) :
  (forall x, x ∈ l -> f x = g x \/ P) -> omap f l = omap g l \/ P.
Proof.
  induction l as [|x l IH]; intros Hfg; [by left|].
  destruct (Hfg x) as [E|?]; [set_solver| |by right]. destruct IH as [IH|?]; [set_solver| |by right].
  left. cbn. rewrite E. destruct (g x); [f_equal|]; exact IH.
Qed.

Lemma omap_length_le {A B} (f : A -> option B) (l : list A) : (length (omap f l) <= length l)%nat.
Proof. induction l as [|x l IH]; csimpl; [done|]. destruct (f x); simpl; lia. Qed.

(** ** Results

    [Result<A, E>]; [?] on a result is [let?], on an [Option] with [ok_or] it is
    [let?? ... else], and [ensure!] is the macro of [frame_support]. *)
Inductive result (E A : Type) : Type :=
| Ok (a : A)
| Err (e : E).
Arguments Ok {E A} a.
Arguments Err {E A} e.

Declare Scope result_scope.
Delimit Scope result_scope with result.
#[global] Open Scope result_scope.

Notation "'let?' x ':=' m 'in' k" :=
  (match m with Ok x => k | Err e => Err e end)
  (at level 10, x pattern, m at level 100, k at level 200) : result_scope.
Notation "'let??' x ':=' m 'else' e 'in' k" :=
  (match m with Some x => k | None => Err e end)
  (at level 10, x pattern, m at level 100, e at level 100, k at level 200)
  : result_scope.
Notation "'ensure!' b 'else' e 'in' k" :=
  (if b then k else Err e)
  (at level 10, b at level 100, e at level 100, k at level 200)
  : result_scope.

#[export] Instance result_eq_dec {E A} `{!EqDecision E, !EqDecision A} : EqDecision (result E A).
Proof. solve_decision. Defined.

(** ** Hash collisions

    The theorems about hash-based structures end in "or two distinct inputs of
    the hash function collide": no injectivity is assumed of the hash. *)
Definition collision (H : bytes -> hash) : Prop := exists x y, x <> y /\ H x = H y.

Lemma hash_eq_or_collision (H : bytes -> hash) x y : H x = H y -> x = y \/ collision H.
Proof. intros E. destruct (decide (x = y)); [by left|right]. by exists x, y. Qed.

(** ** Sums over finite maps *)
Section MapSum.
Context `{Countable K} {A : Type}.

(** The sum of [f k a] over the entries of a map, and of [f a]. *)
Definition entry_sum (f : K -> A -> Z) (m : gmap K A) : Z :=
  map_fold (fun k a acc => f k a + acc) 0 m.
Definition map_sum (f : A -> Z) (m : gmap K A) : Z := entry_sum (fun _ => f) m.

Lemma entry_sum_empty f : entry_sum f (∅ : gmap K A) = 0.
Proof. apply map_fold_empty. Qed.

Lemma entry_sum_insert_new f m k a :
  m !! k = None -> entry_sum f (<[k:=a]> m) = f k a + entry_sum f m.
Proof.
  intros Hk. unfold entry_sum. rewrite map_fold_insert_L; [done| |done]. intros; lia.
Qed.

Lemma entry_sum_delete f m k a : m !! k = Some a -> entry_sum f m = f k a + entry_sum f (delete k m).
Proof.
  intros Hk. rewrite <-(entry_sum_insert_new f (delete k m) k a) by apply lookup_delete_eq.
  by rewrite insert_delete_id.
Qed.

Lemma entry_sum_insert f m k a :
  entry_sum f (<[k:=a]> m) = entry_sum f m - from_option (f k) 0 (m !! k) + f k a.
Proof.
  destruct (m !! k) as [b|] eqn:E; simpl.
  - rewrite (entry_sum_delete f m k b E), <-insert_delete_eq.
    rewrite entry_sum_insert_new by apply lookup_delete_eq. lia.
  - rewrite entry_sum_insert_new by done. lia.
Qed.

Lemma entry_sum_nonneg f m : (forall k a, m !! k = Some a -> 0 <= f k a) -> 0 <= entry_sum f m.
Proof.
  induction m as [|k a m Hk IH] using map_ind; intros Hf; [by rewrite entry_sum_empty|].
  rewrite entry_sum_insert_new by done.
  assert (0 <= f k a) by (apply (Hf k); by simplify_map_eq).
  assert (0 <= entry_sum f m); [|lia]. apply IH. intros j b Hj. apply (Hf j).
  rewrite lookup_insert_ne; [done|]. congruence.
Qed.

Lemma entry_sum_ext f g m :
  (forall k a, m !! k = Some a -> f k a = g k a) -> entry_sum f m = entry_sum g m.
Proof.
  induction m as [|k a m Hk IH] using map_ind; intros Hf; [by rewrite !entry_sum_empty|].
  rewrite !entry_sum_insert_new by done. rewrite IH, (Hf k a); [done|by simplify_map_eq|].
  intros j b Hj. apply (Hf j). rewrite lookup_insert_ne; [done|]. congruence.
Qed.

Lemma entry_sum_zero f m : (forall k a, m !! k = Some a -> f k a = 0) -> entry_sum f m = 0.
Proof.
  induction m as [|k a m Hk IH] using map_ind; intros Hf; [by rewrite entry_sum_empty|].
  rewrite entry_sum_insert_new, IH, (Hf k a); [done|by simplify_map_eq| |done].
  intros j b Hj. apply (Hf j). rewrite lookup_insert_ne; [done|]. congruence.
Qed.

Lemma entry_sum_add f g m : entry_sum (fun k a => f k a + g k a) m = entry_sum f m + entry_sum g m.
Proof.
  induction m as [|k a m Hk IH] using map_ind; [by rewrite !entry_sum_empty|].
  rewrite !entry_sum_insert_new, IH by done. lia.
Qed.

Lemma map_sum_empty f : map_sum f (∅ : gmap K A) = 0.
Proof. apply entry_sum_empty. Qed.

Lemma map_sum_insert_new f m k a :
  m !! k = None -> map_sum f (<[k:=a]> m) = f a + map_sum f m.
Proof. apply (entry_sum_insert_new (fun _ => f)). Qed.

Lemma map_sum_insert f m k a :
  map_sum f (<[k:=a]> m) = map_sum f m - from_option f 0 (m !! k) + f a.
Proof. apply (entry_sum_insert (fun _ => f)). Qed.

Lemma map_sum_nonneg f m : (forall k a, m !! k = Some a -> 0 <= f a) -> 0 <= map_sum f m.
Proof. apply (entry_sum_nonneg (fun _ => f)). Qed.

Lemma map_sum_member f m k a :
  (forall k a, m !! k = Some a -> 0 <= f a) -> m !! k = Some a -> f a <= map_sum f m.
Proof.
  intros Hf Hk. unfold map_sum. rewrite (entry_sum_delete (fun _ => f) m k a Hk).
  assert (0 <= map_sum f (delete k m)); [|unfold map_sum in *; lia]. apply map_sum_nonneg.
  intros j b Hj. apply lookup_delete_Some in Hj as [_ Hj]. eauto.
Qed.
End MapSum.

(** Entries of one map that are matched, key by key, by entries of another that
    weigh at least as much. *)
Lemma entry_sum_dominated `{Countable K} {A B} (f : K -> A -> Z) (g : K -> B -> Z) m m' :
  (forall k b, m' !! k = Some b -> 0 <= g k b) ->
  (forall k a, m !! k = Some a -> exists b, m' !! k = Some b /\ f k a <= g k b) ->
  entry_sum f m <= entry_sum g m'.
Proof.
  revert m'. induction m as [|k a m Hk IH] using map_ind; intros m' Hg Hf.
  { rewrite entry_sum_empty. by apply entry_sum_nonneg. }
  destruct (Hf k a) as (b & Hb & Hle); [by rewrite lookup_insert_eq|].
  rewrite entry_sum_insert_new, (entry_sum_delete g m' k b Hb) by done.
  enough (entry_sum f m <= entry_sum g (delete k m')) by lia. apply IH.
  - intros j c [_ Hj]%lookup_delete_Some. eauto.
  - intros j c Hj. assert (j <> k) by congruence. rewrite lookup_delete_ne by done.
    apply Hf. by rewrite lookup_insert_ne.
Qed.

(** ** Proof automation

    [dispatch_inv H] takes apart a hypothesis [H : <handler> = Ok s]: it splits
    every guard, lookup and [let?] of the handler and discards the branches that
    return an error, leaving one goal per successful path. *)
Ltac dispatch_step H :=
  cbv beta iota zeta in H;
  lazymatch type of H with
  | match ?x with _ => _ end = _ => let E := fresh "E" in destruct x eqn:E; try discriminate H
  end.

Ltac dispatch_inv H :=
  repeat dispatch_step H; try (injection H as H).

(** Boolean guards to propositions. *)
Ltac bool_to_prop :=
  repeat match goal with
  | H : bool_decide _ = true |- _ => apply bool_decide_eq_true_1 in H
  | H : bool_decide _ = false |- _ => apply bool_decide_eq_false_1 in H
  | H : (_ && _) = true |- _ => apply andb_true_iff in H as [? ?]
  | H : (_ || _) = false |- _ => apply orb_false_iff in H as [? ?]
  | H : negb _ = true |- _ => apply negb_true_iff in H
  | H : negb _ = false |- _ => apply negb_false_iff in H
  | H : (_ <? _) = true |- _ => apply Z.ltb_lt in H
  | H : (_ <? _) = false |- _ => apply Z.ltb_ge in H
  | H : (_ <=? _) = true |- _ => apply Z.leb_le in H
  | H : (_ <=? _) = false |- _ => apply Z.leb_gt in H
  | H : (_ =? _) = true |- _ => apply Z.eqb_eq in H
  | H : (_ =? _) = false |- _ => apply Z.eqb_neq in H
  end.

Create HintDb ialp.
#[export] Hint Resolve sat_add_bounds sat_add_exact as_u32_small : ialp.
#[export] Hint Resolve sort_by_sorted sort_dedup_nodup : ialp.
