(* ===== verification/Types.v ===== *)
(** * Data of the protocol ([crates/common-types/src/lib.rs])

    The structs and enums every component exchanges, with the source's fields
    (prefixed per struct, since Rocq projections share one name space), the
    protocol constants, and the pure operations that need neither hashing nor
    encoding: domain names, fixed-width text, leaf orderings, conversions. *)

From S2P Require Import Prelude.

(** ** Structs and enums

    Every type has decidable equality, the derived [PartialEq] of the source. *)

Inductive DomainId : Type :=
| Earth
| Moon
| Mars.
#[export] Instance DomainId_eq_dec : EqDecision DomainId.
Proof. solve_decision. Defined.
#[export] Instance DomainId_countable : Countable DomainId.
Proof.
  refine (inj_countable' (fun r => match r with Earth => 0 | Moon => 1 | Mars => 2 end)
    (fun c => match c with 0 => Earth | 1 => Moon | _ => Mars end) _); by intros [].
Defined.

Record ChainIdentity : Type := mkChainIdentity {
  ci_domain_id : DomainId;
  ci_chain_id : bytes;
  ci_chain_name : bytes;
  ci_token_symbol : bytes;
  ci_token_decimals : Z
}.
#[export] Instance ChainIdentity_settable : Settable ChainIdentity :=
  fun r => mkChainIdentity (ci_domain_id r) (ci_chain_id r) (ci_chain_name r) (ci_token_symbol r)
      (ci_token_decimals r).
#[export] Instance ChainIdentity_eq_dec : EqDecision ChainIdentity.
Proof. solve_decision. Defined.

Record SummaryCommitment : Type := mkSummaryCommitment {
  sc_version : Z;
  sc_domain_id : DomainId;
  sc_epoch_id : Z;
  sc_prev_summary_hash : hash;
  sc_start_block_height : Z;
  sc_end_block_height : Z;
  sc_state_root : hash;
  sc_block_root : hash;
  sc_tx_root : hash;
  sc_event_root : hash;
  sc_export_root : hash;
  sc_import_root : hash;
  sc_governance_root : hash;
  sc_validator_set_hash : hash;
  sc_summary_hash : hash
}.
#[export] Instance SummaryCommitment_settable : Settable SummaryCommitment :=
  fun r => mkSummaryCommitment (sc_version r) (sc_domain_id r) (sc_epoch_id r)
      (sc_prev_summary_hash r) (sc_start_block_height r) (sc_end_block_height r) (sc_state_root r)
      (sc_block_root r) (sc_tx_root r) (sc_event_root r) (sc_export_root r) (sc_import_root r)
      (sc_governance_root r) (sc_validator_set_hash r) (sc_summary_hash r).
#[export] Instance SummaryCommitment_eq_dec : EqDecision SummaryCommitment.
Proof. solve_decision. Defined.

Record EpochSummaryHashInput : Type := mkEpochSummaryHashInput {
  shi_version : Z;
  shi_domain_id : DomainId;
  shi_epoch_id : Z;
  shi_prev_summary_hash : hash;
  shi_start_block_height : Z;
  shi_end_block_height : Z;
  shi_state_root : hash;
  shi_block_root : hash;
  shi_tx_root : hash;
  shi_event_root : hash;
  shi_export_root : hash;
  shi_import_root : hash;
  shi_governance_root : hash;
  shi_validator_set_hash : hash
}.
#[export] Instance EpochSummaryHashInput_settable : Settable EpochSummaryHashInput :=
  fun r => mkEpochSummaryHashInput (shi_version r) (shi_domain_id r) (shi_epoch_id r)
      (shi_prev_summary_hash r) (shi_start_block_height r) (shi_end_block_height r)
      (shi_state_root r) (shi_block_root r) (shi_tx_root r) (shi_event_root r) (shi_export_root r)
      (shi_import_root r) (shi_governance_root r) (shi_validator_set_hash r).
#[export] Instance EpochSummaryHashInput_eq_dec : EqDecision EpochSummaryHashInput.
Proof. solve_decision. Defined.

Record EpochSummaryHeader : Type := mkEpochSummaryHeader {
  sh_version : Z;
  sh_domain_id : DomainId;
  sh_epoch_id : Z;
  sh_prev_summary_hash : hash;
  sh_start_block_height : Z;
  sh_end_block_height : Z;
  sh_state_root : hash;
  sh_block_root : hash;
  sh_tx_root : hash;
  sh_event_root : hash;
  sh_export_root : hash;
  sh_import_root : hash;
  sh_governance_root : hash;
  sh_validator_set_hash : hash;
  sh_summary_hash : hash
}.
#[export] Instance EpochSummaryHeader_settable : Settable EpochSummaryHeader :=
  fun r => mkEpochSummaryHeader (sh_version r) (sh_domain_id r) (sh_epoch_id r)
      (sh_prev_summary_hash r) (sh_start_block_height r) (sh_end_block_height r) (sh_state_root r)
      (sh_block_root r) (sh_tx_root r) (sh_event_root r) (sh_export_root r) (sh_import_root r)
      (sh_governance_root r) (sh_validator_set_hash r) (sh_summary_hash r).
#[export] Instance EpochSummaryHeader_eq_dec : EqDecision EpochSummaryHeader.
Proof. solve_decision. Defined.

Record StagedSummaryRecord : Type := mkStagedSummaryRecord {
  ssr_header : EpochSummaryHeader;
  ssr_staged_at_block_number : Z
}.
#[export] Instance StagedSummaryRecord_settable : Settable StagedSummaryRecord :=
  fun r => mkStagedSummaryRecord (ssr_header r) (ssr_staged_at_block_number r).
#[export] Instance StagedSummaryRecord_eq_dec : EqDecision StagedSummaryRecord.
Proof. solve_decision. Defined.

Inductive ExportStatus : Type :=
| LocalFinal
| Exported
| RemoteFinalized.
#[export] Instance ExportStatus_eq_dec : EqDecision ExportStatus.
Proof. solve_decision. Defined.

Inductive ImportObservationStatus : Type :=
| ImportRemoteObserved
| ImportRemoteFinalized.
#[export] Instance ImportObservationStatus_eq_dec : EqDecision ImportObservationStatus.
Proof. solve_decision. Defined.

Record ExportLeafHashInput : Type := mkExportLeafHashInput {
  eli_version : Z;
  eli_export_id : hash;
  eli_source_domain : DomainId;
  eli_target_domain : DomainId;
  eli_sender : hash;
  eli_recipient : hash;
  eli_amount : Z;
  eli_source_epoch_id : Z;
  eli_source_block_height : Z;
  eli_extrinsic_index : Z
}.
#[export] Instance ExportLeafHashInput_settable : Settable ExportLeafHashInput :=
  fun r => mkExportLeafHashInput (eli_version r) (eli_export_id r) (eli_source_domain r)
      (eli_target_domain r) (eli_sender r) (eli_recipient r) (eli_amount r) (eli_source_epoch_id
      r) (eli_source_block_height r) (eli_extrinsic_index r).
#[export] Instance ExportLeafHashInput_eq_dec : EqDecision ExportLeafHashInput.
Proof. solve_decision. Defined.

Record ExportLeaf : Type := mkExportLeaf {
  el_version : Z;
  el_export_id : hash;
  el_source_domain : DomainId;
  el_target_domain : DomainId;
  el_sender : hash;
  el_recipient : hash;
  el_amount : Z;
  el_source_epoch_id : Z;
  el_source_block_height : Z;
  el_extrinsic_index : Z;
  el_export_hash : hash
}.
#[export] Instance ExportLeaf_settable : Settable ExportLeaf :=
  fun r => mkExportLeaf (el_version r) (el_export_id r) (el_source_domain r) (el_target_domain r)
      (el_sender r) (el_recipient r) (el_amount r) (el_source_epoch_id r) (el_source_block_height
      r) (el_extrinsic_index r) (el_export_hash r).
#[export] Instance ExportLeaf_eq_dec : EqDecision ExportLeaf.
Proof. solve_decision. Defined.

Record ExportRecord : Type := mkExportRecord {
  er_leaf : ExportLeaf;
  er_status : ExportStatus;
  er_completion_summary_hash : option hash;
  er_completion_package_hash : option hash;
  er_resolved_at_source_block_height : option Z;
  er_resolver_account : option hash
}.
#[export] Instance ExportRecord_settable : Settable ExportRecord :=
  fun r => mkExportRecord (er_leaf r) (er_status r) (er_completion_summary_hash r)
      (er_completion_package_hash r) (er_resolved_at_source_block_height r) (er_resolver_account
      r).
#[export] Instance ExportRecord_eq_dec : EqDecision ExportRecord.
Proof. solve_decision. Defined.

Record ObservedImportClaim : Type := mkObservedImportClaim {
  oic_version : Z;
  oic_export_id : hash;
  oic_source_domain : DomainId;
  oic_target_domain : DomainId;
  oic_source_epoch_id : Z;
  oic_summary_hash : hash;
  oic_package_hash : hash;
  oic_recipient : hash;
  oic_amount : Z
}.
#[export] Instance ObservedImportClaim_settable : Settable ObservedImportClaim :=
  fun r => mkObservedImportClaim (oic_version r) (oic_export_id r) (oic_source_domain r)
      (oic_target_domain r) (oic_source_epoch_id r) (oic_summary_hash r) (oic_package_hash r)
      (oic_recipient r) (oic_amount r).
#[export] Instance ObservedImportClaim_eq_dec : EqDecision ObservedImportClaim.
Proof. solve_decision. Defined.

Record ObservedImportRecord : Type := mkObservedImportRecord {
  oir_version : Z;
  oir_export_id : hash;
  oir_source_domain : DomainId;
  oir_target_domain : DomainId;
  oir_source_epoch_id : Z;
  oir_summary_hash : hash;
  oir_package_hash : hash;
  oir_recipient : hash;
  oir_amount : Z;
  oir_observed_at_local_block_height : Z;
  oir_observer_account : hash;
  oir_status : ImportObservationStatus;
  oir_finalized_at_local_block_height : option Z;
  oir_finalizer_account : option hash
}.
#[export] Instance ObservedImportRecord_settable : Settable ObservedImportRecord :=
  fun r => mkObservedImportRecord (oir_version r) (oir_export_id r) (oir_source_domain r)
      (oir_target_domain r) (oir_source_epoch_id r) (oir_summary_hash r) (oir_package_hash r)
      (oir_recipient r) (oir_amount r) (oir_observed_at_local_block_height r)
      (oir_observer_account r) (oir_status r) (oir_finalized_at_local_block_height r)
      (oir_finalizer_account r).
#[export] Instance ObservedImportRecord_eq_dec : EqDecision ObservedImportRecord.
Proof. solve_decision. Defined.

Inductive GovernancePayload : Type :=
| SetProtocolVersion (new_version : Z).
#[export] Instance GovernancePayload_eq_dec : EqDecision GovernancePayload.
Proof. solve_decision. Defined.

Inductive GovernanceVoteChoice : Type :=
| Yes
| No
| Abstain.
#[export] Instance GovernanceVoteChoice_eq_dec : EqDecision GovernanceVoteChoice.
Proof. solve_decision. Defined.

Inductive GovernanceProposalStatus : Type :=
| Created
| Voting
| Rejected
| LocallyFinalized
| Scheduled
| Activated.
#[export] Instance GovernanceProposalStatus_eq_dec : EqDecision GovernanceProposalStatus.
Proof. solve_decision. Defined.

Record GovernanceVote : Type := mkGovernanceVote {
  gv_version : Z;
  gv_proposal_id : hash;
  gv_voter : hash;
  gv_choice : GovernanceVoteChoice;
  gv_voting_power : Z;
  gv_cast_epoch : Z;
  gv_cast_block_height : Z
}.
#[export] Instance GovernanceVote_settable : Settable GovernanceVote :=
  fun r => mkGovernanceVote (gv_version r) (gv_proposal_id r) (gv_voter r) (gv_choice r)
      (gv_voting_power r) (gv_cast_epoch r) (gv_cast_block_height r).
#[export] Instance GovernanceVote_eq_dec : EqDecision GovernanceVote.
Proof. solve_decision. Defined.

Record GovernanceProposal : Type := mkGovernanceProposal {
  gp_version : Z;
  gp_proposal_id : hash;
  gp_source_domain : DomainId;
  gp_target_domains : list DomainId;
  gp_proposer : hash;
  gp_payload : GovernancePayload;
  gp_payload_hash : hash;
  gp_created_epoch : Z;
  gp_voting_start_epoch : Z;
  gp_voting_end_epoch : Z;
  gp_approval_epoch : option Z;
  gp_activation_epoch : Z;
  gp_snapshot_total_voting_power : Z;
  gp_quorum_numerator : Z;
  gp_quorum_denominator : Z;
  gp_yes_voting_power : Z;
  gp_no_voting_power : Z;
  gp_abstain_voting_power : Z;
  gp_status : GovernanceProposalStatus
}.
#[export] Instance GovernanceProposal_settable : Settable GovernanceProposal :=
  fun r => mkGovernanceProposal (gp_version r) (gp_proposal_id r) (gp_source_domain r)
      (gp_target_domains r) (gp_proposer r) (gp_payload r) (gp_payload_hash r) (gp_created_epoch
      r) (gp_voting_start_epoch r) (gp_voting_end_epoch r) (gp_approval_epoch r)
      (gp_activation_epoch r) (gp_snapshot_total_voting_power r) (gp_quorum_numerator r)
      (gp_quorum_denominator r) (gp_yes_voting_power r) (gp_no_voting_power r)
      (gp_abstain_voting_power r) (gp_status r).
#[export] Instance GovernanceProposal_eq_dec : EqDecision GovernanceProposal.
Proof. solve_decision. Defined.

Record GovernanceAckRecord : Type := mkGovernanceAckRecord {
  gar_version : Z;
  gar_proposal_id : hash;
  gar_source_domain : DomainId;
  gar_acknowledging_domain : DomainId;
  gar_target_domains : list DomainId;
  gar_activation_epoch : Z;
  gar_payload_hash : hash;
  gar_new_protocol_version : Z;
  gar_acknowledged_epoch : Z;
  gar_acknowledged_at_local_block_height : Z
}.
#[export] Instance GovernanceAckRecord_settable : Settable GovernanceAckRecord :=
  fun r => mkGovernanceAckRecord (gar_version r) (gar_proposal_id r) (gar_source_domain r)
      (gar_acknowledging_domain r) (gar_target_domains r) (gar_activation_epoch r)
      (gar_payload_hash r) (gar_new_protocol_version r) (gar_acknowledged_epoch r)
      (gar_acknowledged_at_local_block_height r).
#[export] Instance GovernanceAckRecord_eq_dec : EqDecision GovernanceAckRecord.
Proof. solve_decision. Defined.

Record GovernanceActivationRecord : Type := mkGovernanceActivationRecord {
  gac_version : Z;
  gac_proposal_id : hash;
  gac_source_domain : DomainId;
  gac_target_domains : list DomainId;
  gac_payload_hash : hash;
  gac_new_protocol_version : Z;
  gac_activation_epoch : Z;
  gac_known_ack_domains : list DomainId;
  gac_scheduled_at_epoch : option Z;
  gac_activated_at_epoch : option Z;
  gac_activated_at_local_block_height : option Z;
  gac_status : GovernanceProposalStatus
}.
#[export] Instance GovernanceActivationRecord_settable : Settable GovernanceActivationRecord :=
  fun r => mkGovernanceActivationRecord (gac_version r) (gac_proposal_id r) (gac_source_domain r)
      (gac_target_domains r) (gac_payload_hash r) (gac_new_protocol_version r)
      (gac_activation_epoch r) (gac_known_ack_domains r) (gac_scheduled_at_epoch r)
      (gac_activated_at_epoch r) (gac_activated_at_local_block_height r) (gac_status r).
#[export] Instance GovernanceActivationRecord_eq_dec : EqDecision GovernanceActivationRecord.
Proof. solve_decision. Defined.

Record GovernanceProposalLeaf : Type := mkGovernanceProposalLeaf {
  gpl_version : Z;
  gpl_proposal_id : hash;
  gpl_source_domain : DomainId;
  gpl_target_domain : DomainId;
  gpl_target_domains : list DomainId;
  gpl_proposer : hash;
  gpl_payload_hash : hash;
  gpl_new_protocol_version : Z;
  gpl_created_epoch : Z;
  gpl_voting_start_epoch : Z;
  gpl_voting_end_epoch : Z;
  gpl_approval_epoch : Z;
  gpl_activation_epoch : Z;
  gpl_leaf_hash : hash
}.
#[export] Instance GovernanceProposalLeaf_settable : Settable GovernanceProposalLeaf :=
  fun r => mkGovernanceProposalLeaf (gpl_version r) (gpl_proposal_id r) (gpl_source_domain r)
      (gpl_target_domain r) (gpl_target_domains r) (gpl_proposer r) (gpl_payload_hash r)
      (gpl_new_protocol_version r) (gpl_created_epoch r) (gpl_voting_start_epoch r)
      (gpl_voting_end_epoch r) (gpl_approval_epoch r) (gpl_activation_epoch r) (gpl_leaf_hash r).
#[export] Instance GovernanceProposalLeaf_eq_dec : EqDecision GovernanceProposalLeaf.
Proof. solve_decision. Defined.

Record ImportedGovernanceProposalClaim : Type := mkImportedGovernanceProposalClaim {
  igp_version : Z;
  igp_leaf : GovernanceProposalLeaf;
  igp_summary_hash : hash;
  igp_package_hash : hash
}.
#[export] Instance ImportedGovernanceProposalClaim_settable : Settable
    ImportedGovernanceProposalClaim :=
  fun r => mkImportedGovernanceProposalClaim (igp_version r) (igp_leaf r) (igp_summary_hash r)
      (igp_package_hash r).
#[export] Instance ImportedGovernanceProposalClaim_eq_dec : EqDecision
    ImportedGovernanceProposalClaim.
Proof. solve_decision. Defined.

Record GovernanceAckLeaf : Type := mkGovernanceAckLeaf {
  gal_version : Z;
  gal_proposal_id : hash;
  gal_source_domain : DomainId;
  gal_target_domain : DomainId;
  gal_acknowledging_domain : DomainId;
  gal_target_domains : list DomainId;
  gal_payload_hash : hash;
  gal_new_protocol_version : Z;
  gal_activation_epoch : Z;
  gal_acknowledged_epoch : Z;
  gal_leaf_hash : hash
}.
#[export] Instance GovernanceAckLeaf_settable : Settable GovernanceAckLeaf :=
  fun r => mkGovernanceAckLeaf (gal_version r) (gal_proposal_id r) (gal_source_domain r)
      (gal_target_domain r) (gal_acknowledging_domain r) (gal_target_domains r) (gal_payload_hash
      r) (gal_new_protocol_version r) (gal_activation_epoch r) (gal_acknowledged_epoch r)
      (gal_leaf_hash r).
#[export] Instance GovernanceAckLeaf_eq_dec : EqDecision GovernanceAckLeaf.
Proof. solve_decision. Defined.

Record ImportedGovernanceAckClaim : Type := mkImportedGovernanceAckClaim {
  iga_version : Z;
  iga_leaf : GovernanceAckLeaf;
  iga_summary_hash : hash;
  iga_package_hash : hash
}.
#[export] Instance ImportedGovernanceAckClaim_settable : Settable ImportedGovernanceAckClaim :=
  fun r => mkImportedGovernanceAckClaim (iga_version r) (iga_leaf r) (iga_summary_hash r)
      (iga_package_hash r).
#[export] Instance ImportedGovernanceAckClaim_eq_dec : EqDecision ImportedGovernanceAckClaim.
Proof. solve_decision. Defined.

Record GovernanceProposalLeafHashInput : Type := mkGovernanceProposalLeafHashInput {
  gpi_version : Z;
  gpi_proposal_id : hash;
  gpi_source_domain : DomainId;
  gpi_target_domain : DomainId;
  gpi_target_domains : list DomainId;
  gpi_proposer : hash;
  gpi_payload_hash : hash;
  gpi_new_protocol_version : Z;
  gpi_created_epoch : Z;
  gpi_voting_start_epoch : Z;
  gpi_voting_end_epoch : Z;
  gpi_approval_epoch : Z;
  gpi_activation_epoch : Z
}.
#[export] Instance GovernanceProposalLeafHashInput_settable : Settable
    GovernanceProposalLeafHashInput :=
  fun r => mkGovernanceProposalLeafHashInput (gpi_version r) (gpi_proposal_id r)
      (gpi_source_domain r) (gpi_target_domain r) (gpi_target_domains r) (gpi_proposer r)
      (gpi_payload_hash r) (gpi_new_protocol_version r) (gpi_created_epoch r)
      (gpi_voting_start_epoch r) (gpi_voting_end_epoch r) (gpi_approval_epoch r)
      (gpi_activation_epoch r).
#[export] Instance GovernanceProposalLeafHashInput_eq_dec : EqDecision
    GovernanceProposalLeafHashInput.
Proof. solve_decision. Defined.

Record GovernanceAckLeafHashInput : Type := mkGovernanceAckLeafHashInput {
  gai_version : Z;
  gai_proposal_id : hash;
  gai_source_domain : DomainId;
  gai_target_domain : DomainId;
  gai_acknowledging_domain : DomainId;
  gai_target_domains : list DomainId;
  gai_payload_hash : hash;
  gai_new_protocol_version : Z;
  gai_activation_epoch : Z;
  gai_acknowledged_epoch : Z
}.
#[export] Instance GovernanceAckLeafHashInput_settable : Settable GovernanceAckLeafHashInput :=
  fun r => mkGovernanceAckLeafHashInput (gai_version r) (gai_proposal_id r) (gai_source_domain r)
      (gai_target_domain r) (gai_acknowledging_domain r) (gai_target_domains r) (gai_payload_hash
      r) (gai_new_protocol_version r) (gai_activation_epoch r) (gai_acknowledged_epoch r).
#[export] Instance GovernanceAckLeafHashInput_eq_dec : EqDecision GovernanceAckLeafHashInput.
Proof. solve_decision. Defined.

Inductive GovernanceLeaf : Type :=
| ProposalV1 (x : GovernanceProposalLeaf)
| AckV1 (x : GovernanceAckLeaf).
#[export] Instance GovernanceLeaf_eq_dec : EqDecision GovernanceLeaf.
Proof. solve_decision. Defined.

Record GovernanceInclusionProof : Type := mkGovernanceInclusionProof {
  gip_version : Z;
  gip_leaf : GovernanceLeaf;
  gip_leaf_index : Z;
  gip_leaf_count : Z;
  gip_siblings : list hash
}.
#[export] Instance GovernanceInclusionProof_settable : Settable GovernanceInclusionProof :=
  fun r => mkGovernanceInclusionProof (gip_version r) (gip_leaf r) (gip_leaf_index r)
      (gip_leaf_count r) (gip_siblings r).
#[export] Instance GovernanceInclusionProof_eq_dec : EqDecision GovernanceInclusionProof.
Proof. solve_decision. Defined.

Inductive CertificationPendingReason : Type :=
| TargetBlockNotFinalized
| NoJustifiedDescendantYet
| MissingTargetBlockHash
| HistoricalStateUnavailable
| StorageProofConstructionFailed.
#[export] Instance CertificationPendingReason_eq_dec : EqDecision CertificationPendingReason.
Proof. solve_decision. Defined.

Record RelayPackageEnvelopeV1 : Type := mkRelayPackageEnvelopeV1 {
  env_version : Z;
  env_source_domain : DomainId;
  env_target_domain : DomainId;
  env_epoch_id : Z;
  env_summary_hash : hash;
  env_package_hash : hash;
  env_package_bytes : bytes;
  env_export_count : Z;
  env_relay_submitted_at_unix_ms : Z
}.
#[export] Instance RelayPackageEnvelopeV1_settable : Settable RelayPackageEnvelopeV1 :=
  fun r => mkRelayPackageEnvelopeV1 (env_version r) (env_source_domain r) (env_target_domain r)
      (env_epoch_id r) (env_summary_hash r) (env_package_hash r) (env_package_bytes r)
      (env_export_count r) (env_relay_submitted_at_unix_ms r).
#[export] Instance RelayPackageEnvelopeV1_eq_dec : EqDecision RelayPackageEnvelopeV1.
Proof. solve_decision. Defined.

Inductive ImporterPackageState : Type :=
| Received
| Verifying
| SubmissionRetrying
| AckedVerified
| AckedDuplicateLocal
| AckedDuplicateRemote
| AckedInvalid.
#[export] Instance ImporterPackageState_eq_dec : EqDecision ImporterPackageState.
Proof. solve_decision. Defined.

Record ImporterPackageStatusView : Type := mkImporterPackageStatusView {
  isv_source_domain : DomainId;
  isv_target_domain : DomainId;
  isv_epoch_id : Z;
  isv_package_hash : hash;
  isv_summary_hash : hash;
  isv_state : ImporterPackageState;
  isv_terminal : bool;
  isv_reason : option string;
  isv_export_count : Z;
  isv_tx_hashes : list string
}.
#[export] Instance ImporterPackageStatusView_settable : Settable ImporterPackageStatusView :=
  fun r => mkImporterPackageStatusView (isv_source_domain r) (isv_target_domain r) (isv_epoch_id
      r) (isv_package_hash r) (isv_summary_hash r) (isv_state r) (isv_terminal r) (isv_reason r)
      (isv_export_count r) (isv_tx_hashes r).
#[export] Instance ImporterPackageStatusView_eq_dec : EqDecision ImporterPackageStatusView.
Proof. solve_decision. Defined.

Record GrandpaFinalityCertificate : Type := mkGrandpaFinalityCertificate {
  gfc_version : Z;
  gfc_grandpa_set_id : Z;
  gfc_target_block_number : Z;
  gfc_target_block_hash : hash;
  gfc_proof_block_number : Z;
  gfc_proof_block_hash : hash;
  gfc_justification : bytes;
  gfc_ancestry_headers : list bytes
}.
#[export] Instance GrandpaFinalityCertificate_settable : Settable GrandpaFinalityCertificate :=
  fun r => mkGrandpaFinalityCertificate (gfc_version r) (gfc_grandpa_set_id r)
      (gfc_target_block_number r) (gfc_target_block_hash r) (gfc_proof_block_number r)
      (gfc_proof_block_hash r) (gfc_justification r) (gfc_ancestry_headers r).
#[export] Instance GrandpaFinalityCertificate_eq_dec : EqDecision GrandpaFinalityCertificate.
Proof. solve_decision. Defined.

Record SummaryHeaderStorageProof : Type := mkSummaryHeaderStorageProof {
  shp_version : Z;
  shp_proof_block_number : Z;
  shp_proof_block_hash : hash;
  shp_proof_block_header : bytes;
  shp_storage_key : bytes;
  shp_trie_nodes : list bytes
}.
#[export] Instance SummaryHeaderStorageProof_settable : Settable SummaryHeaderStorageProof :=
  fun r => mkSummaryHeaderStorageProof (shp_version r) (shp_proof_block_number r)
      (shp_proof_block_hash r) (shp_proof_block_header r) (shp_storage_key r) (shp_trie_nodes r).
#[export] Instance SummaryHeaderStorageProof_eq_dec : EqDecision SummaryHeaderStorageProof.
Proof. solve_decision. Defined.

Record ExportInclusionProof : Type := mkExportInclusionProof {
  eip_version : Z;
  eip_leaf : ExportLeaf;
  eip_leaf_index : Z;
  eip_leaf_count : Z;
  eip_siblings : list hash
}.
#[export] Instance ExportInclusionProof_settable : Settable ExportInclusionProof :=
  fun r => mkExportInclusionProof (eip_version r) (eip_leaf r) (eip_leaf_index r) (eip_leaf_count
      r) (eip_siblings r).
#[export] Instance ExportInclusionProof_eq_dec : EqDecision ExportInclusionProof.
Proof. solve_decision. Defined.

Record FinalizedImportLeafHashInput : Type := mkFinalizedImportLeafHashInput {
  fli_version : Z;
  fli_export_id : hash;
  fli_source_domain : DomainId;
  fli_target_domain : DomainId;
  fli_recipient : hash;
  fli_amount : Z;
  fli_source_epoch_id : Z;
  fli_summary_hash : hash;
  fli_package_hash : hash
}.
#[export] Instance FinalizedImportLeafHashInput_settable : Settable FinalizedImportLeafHashInput :=
  fun r => mkFinalizedImportLeafHashInput (fli_version r) (fli_export_id r) (fli_source_domain r)
      (fli_target_domain r) (fli_recipient r) (fli_amount r) (fli_source_epoch_id r)
      (fli_summary_hash r) (fli_package_hash r).
#[export] Instance FinalizedImportLeafHashInput_eq_dec : EqDecision FinalizedImportLeafHashInput.
Proof. solve_decision. Defined.

Record FinalizedImportLeaf : Type := mkFinalizedImportLeaf {
  fl_version : Z;
  fl_export_id : hash;
  fl_source_domain : DomainId;
  fl_target_domain : DomainId;
  fl_recipient : hash;
  fl_amount : Z;
  fl_source_epoch_id : Z;
  fl_summary_hash : hash;
  fl_package_hash : hash;
  fl_import_hash : hash
}.
#[export] Instance FinalizedImportLeaf_settable : Settable FinalizedImportLeaf :=
  fun r => mkFinalizedImportLeaf (fl_version r) (fl_export_id r) (fl_source_domain r)
      (fl_target_domain r) (fl_recipient r) (fl_amount r) (fl_source_epoch_id r) (fl_summary_hash
      r) (fl_package_hash r) (fl_import_hash r).
#[export] Instance FinalizedImportLeaf_eq_dec : EqDecision FinalizedImportLeaf.
Proof. solve_decision. Defined.

Record FinalizedImportInclusionProof : Type := mkFinalizedImportInclusionProof {
  fip_version : Z;
  fip_leaf : FinalizedImportLeaf;
  fip_leaf_index : Z;
  fip_leaf_count : Z;
  fip_siblings : list hash
}.
#[export] Instance FinalizedImportInclusionProof_settable : Settable FinalizedImportInclusionProof
    :=
  fun r => mkFinalizedImportInclusionProof (fip_version r) (fip_leaf r) (fip_leaf_index r)
      (fip_leaf_count r) (fip_siblings r).
#[export] Instance FinalizedImportInclusionProof_eq_dec : EqDecision FinalizedImportInclusionProof.
Proof. solve_decision. Defined.

Record RemoteFinalizationClaim : Type := mkRemoteFinalizationClaim {
  rfc_version : Z;
  rfc_export_id : hash;
  rfc_source_domain : DomainId;
  rfc_target_domain : DomainId;
  rfc_source_epoch_id : Z;
  rfc_recipient : hash;
  rfc_amount : Z;
  rfc_completion_summary_hash : hash;
  rfc_completion_package_hash : hash
}.
#[export] Instance RemoteFinalizationClaim_settable : Settable RemoteFinalizationClaim :=
  fun r => mkRemoteFinalizationClaim (rfc_version r) (rfc_export_id r) (rfc_source_domain r)
      (rfc_target_domain r) (rfc_source_epoch_id r) (rfc_recipient r) (rfc_amount r)
      (rfc_completion_summary_hash r) (rfc_completion_package_hash r).
#[export] Instance RemoteFinalizationClaim_eq_dec : EqDecision RemoteFinalizationClaim.
Proof. solve_decision. Defined.

Inductive InclusionProof : Type :=
| SummaryHeaderStorageV1 (x : SummaryHeaderStorageProof)
| ExportV1 (x : ExportInclusionProof)
| FinalizedImportV1 (x : FinalizedImportInclusionProof)
| GovernanceV1 (x : GovernanceInclusionProof).
#[export] Instance InclusionProof_eq_dec : EqDecision InclusionProof.
Proof. solve_decision. Defined.

Inductive SummaryCertificate : Type :=
| GrandpaV1 (x : GrandpaFinalityCertificate).
#[export] Instance SummaryCertificate_eq_dec : EqDecision SummaryCertificate.
Proof. solve_decision. Defined.

Record SummaryCertificationBundle : Type := mkSummaryCertificationBundle {
  scb_certificate : SummaryCertificate;
  scb_summary_header_storage_proof : SummaryHeaderStorageProof
}.
#[export] Instance SummaryCertificationBundle_settable : Settable SummaryCertificationBundle :=
  fun r => mkSummaryCertificationBundle (scb_certificate r) (scb_summary_header_storage_proof r).
#[export] Instance SummaryCertificationBundle_eq_dec : EqDecision SummaryCertificationBundle.
Proof. solve_decision. Defined.

Inductive SummaryCertificationState : Type :=
| Pending (x : CertificationPendingReason)
| Ready (x : SummaryCertificationBundle).
#[export] Instance SummaryCertificationState_eq_dec : EqDecision SummaryCertificationState.
Proof. solve_decision. Defined.

Record SummaryCertificationReadiness : Type := mkSummaryCertificationReadiness {
  scr_epoch_id : Z;
  scr_staged_at_block_number : Z;
  scr_staged_at_block_hash : hash;
  scr_latest_finalized_block_number : Z;
  scr_latest_finalized_block_hash : hash;
  scr_state : SummaryCertificationState
}.
#[export] Instance SummaryCertificationReadiness_settable : Settable SummaryCertificationReadiness
    :=
  fun r => mkSummaryCertificationReadiness (scr_epoch_id r) (scr_staged_at_block_number r)
      (scr_staged_at_block_hash r) (scr_latest_finalized_block_number r)
      (scr_latest_finalized_block_hash r) (scr_state r).
#[export] Instance SummaryCertificationReadiness_eq_dec : EqDecision SummaryCertificationReadiness.
Proof. solve_decision. Defined.

Record CertifiedSummaryPackageHashInput : Type := mkCertifiedSummaryPackageHashInput {
  phi_version : Z;
  phi_header : EpochSummaryHeader;
  phi_certificate : SummaryCertificate;
  phi_inclusion_proofs : list bytes;
  phi_artifacts : list bytes
}.
#[export] Instance CertifiedSummaryPackageHashInput_settable : Settable
    CertifiedSummaryPackageHashInput :=
  fun r => mkCertifiedSummaryPackageHashInput (phi_version r) (phi_header r) (phi_certificate r)
      (phi_inclusion_proofs r) (phi_artifacts r).
#[export] Instance CertifiedSummaryPackageHashInput_eq_dec : EqDecision
    CertifiedSummaryPackageHashInput.
Proof. solve_decision. Defined.

Record CertifiedSummaryPackage : Type := mkCertifiedSummaryPackage {
  pkg_version : Z;
  pkg_package_hash : hash;
  pkg_header : EpochSummaryHeader;
  pkg_certificate : SummaryCertificate;
  pkg_inclusion_proofs : list bytes;
  pkg_artifacts : list bytes
}.
#[export] Instance CertifiedSummaryPackage_settable : Settable CertifiedSummaryPackage :=
  fun r => mkCertifiedSummaryPackage (pkg_version r) (pkg_package_hash r) (pkg_header r)
      (pkg_certificate r) (pkg_inclusion_proofs r) (pkg_artifacts r).
#[export] Instance CertifiedSummaryPackage_eq_dec : EqDecision CertifiedSummaryPackage.
Proof. solve_decision. Defined.

(** ** Constants *)

Definition CHAIN_ID_BYTES : nat := 64.
Definition CHAIN_NAME_BYTES : nat := 64.
Definition TOKEN_SYMBOL_BYTES : nat := 16.
Definition EPOCH_SUMMARY_VERSION : Z := 1.
Definition EMPTY_HASH : hash := replicate 32 0.
Definition BLOCK_ROOT_LABEL : string := "IALP:block-root:v1".
Definition TX_ROOT_LABEL : string := "IALP:tx-root:v1".
Definition EVENT_ROOT_LABEL : string := "IALP:event-root:v1".
Definition CERTIFIED_SUMMARY_PACKAGE_VERSION : Z := 1.
Definition GRANDPA_FINALITY_CERTIFICATE_VERSION : Z := 1.
Definition SUMMARY_HEADER_STORAGE_PROOF_VERSION : Z := 1.
Definition EXPORT_LEAF_VERSION : Z := 1.
Definition OBSERVED_IMPORT_VERSION : Z := 1.
Definition EXPORT_INCLUSION_PROOF_VERSION : Z := 1.
Definition FINALIZED_IMPORT_LEAF_VERSION : Z := 1.
Definition FINALIZED_IMPORT_INCLUSION_PROOF_VERSION : Z := 1.
Definition REMOTE_FINALIZATION_CLAIM_VERSION : Z := 1.
Definition GOVERNANCE_PAYLOAD_VERSION : Z := 1.
Definition GOVERNANCE_PROPOSAL_VERSION : Z := 1.
Definition GOVERNANCE_VOTE_VERSION : Z := 1.
Definition GOVERNANCE_ACK_RECORD_VERSION : Z := 1.
Definition GOVERNANCE_ACTIVATION_RECORD_VERSION : Z := 1.
Definition GOVERNANCE_PROPOSAL_LEAF_VERSION : Z := 1.
Definition GOVERNANCE_ACK_LEAF_VERSION : Z := 1.
Definition GOVERNANCE_INCLUSION_PROOF_VERSION : Z := 1.
Definition EXPORT_MERKLE_NODE_LABEL : string := "IALP:export-merkle-node:v1".
Definition EXPORT_MERKLE_EMPTY_LABEL : string := "IALP:export-merkle-empty:v1".
Definition IMPORT_MERKLE_NODE_LABEL : string := "IALP:import-merkle-node:v1".
Definition IMPORT_MERKLE_EMPTY_LABEL : string := "IALP:import-merkle-empty:v1".
Definition GOVERNANCE_MERKLE_NODE_LABEL : string := "IALP:governance-merkle-node:v1".
Definition GOVERNANCE_MERKLE_EMPTY_LABEL : string := "IALP:governance-merkle-empty:v1".
Definition RELAY_PACKAGE_ENVELOPE_VERSION : Z := 1.

(** ** Domain identifiers *)

Definition domain_as_str (d : DomainId) : string :=
  match d with
  | Earth => "earth"
  | Moon => "moon"
  | Mars => "mars"
  end.

Definition domain_from_str (value : string) : result string DomainId :=
  if decide (value = "earth"%string) then Ok Earth
  else if decide (value = "moon"%string) then Ok Moon
  else if decide (value = "mars"%string) then Ok Mars
  else Err "unsupported domain id"%string.

(** The derived [Ord] of [DomainId]: declaration order. *)
Definition domain_index (d : DomainId) : Z :=
  match d with Earth => 0 | Moon => 1 | Mars => 2 end.
Definition domain_cmp (x y : DomainId) : comparison := domain_index x ?= domain_index y.

#[export] Instance domain_cmp_total : TotalCmp domain_cmp.
Proof. apply (total_cmp_key domain_index), _. Qed.

Lemma domain_cmp_eq x y : domain_cmp x y = Eq -> x = y.
Proof. by destruct x, y. Qed.

(** ** Fixed-width fields *)

(** [fixed_bytes::<N>]: zero padded on the right.  A value longer than [N]
    makes the slice index panic, which is [None]. *)
Definition fixed_bytes (N : nat) (value : bytes) : option bytes :=
  if (length value <=? N)%nat then Some (value ++ replicate (N - length value) 0) else None.

(** [core::str::from_utf8]'s acceptance: well-formed UTF-8 (no overlong forms,
    no surrogates, nothing above U+10FFFF). *)
Definition utf8_cont (b : Z) : bool := (128 <=? b) && (b <=? 191).
Fixpoint utf8_valid_fuel (fuel : nat) (v : bytes) : bool :=
  match fuel with
  | O => false
  | S fuel =>
    match v with
    | [] => true
    | b0 :: r0 =>
      if (0 <=? b0) && (b0 <=? 127) then utf8_valid_fuel fuel r0
      else if (194 <=? b0) && (b0 <=? 223) then
        match r0 with
        | b1 :: r => utf8_cont b1 && utf8_valid_fuel fuel r
        | _ => false
        end
      else if (224 <=? b0) && (b0 <=? 239) then
        match r0 with
        | b1 :: b2 :: r =>
            ((if b0 =? 224 then 160 else 128) <=? b1) && (b1 <=? (if b0 =? 237 then 159 else 191))
            && utf8_cont b2 && utf8_valid_fuel fuel r
        | _ => false
        end
      else if (240 <=? b0) && (b0 <=? 244) then
        match r0 with
        | b1 :: b2 :: b3 :: r =>
            ((if b0 =? 240 then 144 else 128) <=? b1) && (b1 <=? (if b0 =? 244 then 143 else 191))
            && utf8_cont b2 && utf8_cont b3 && utf8_valid_fuel fuel r
        | _ => false
        end
      else false
    end
  end.
(** Every iteration consumes a byte, so one more step than bytes suffices. *)
Definition utf8_valid (v : bytes) : bool := utf8_valid_fuel (S (length v)) v.

Definition decode_fixed_utf8 (N : nat) (value : bytes) : result string (option bytes) :=
  if (N <? length value)%nat then Err "value exceeds fixed-width field capacity"%string
  else Ok (fixed_bytes N value).

(** The bytes before the first zero byte, or all of them. *)
Fixpoint until_zero (value : bytes) : bytes :=
  match value with
  | [] => []
  | b :: r => if b =? 0 then [] else b :: until_zero r
  end.
Definition encode_fixed_utf8 (value : bytes) : result string bytes :=
  let s := until_zero value in
  if utf8_valid s then Ok s else Err "value contains invalid utf-8"%string.

Lemma until_zero_padded v n : 0 ∉ v -> until_zero (v ++ replicate n 0) = v.
Proof.
  induction v as [|b v IH]; intros Hv; simpl; [by destruct n|].
  rewrite (proj2 (Z.eqb_neq b 0)) by set_solver. rewrite IH; [done|set_solver].
Qed.

Lemma fixed_bytes_length N v b : fixed_bytes N v = Some b -> length b = N.
Proof.
  unfold fixed_bytes. destruct (length v <=? N)%nat eqn:E; [|done]. intros; simplify_eq.
  apply Nat.leb_le in E. rewrite length_app, length_replicate. lia.
Qed.

(** ** Header, claim and record conversions *)

Definition hash_input (h : EpochSummaryHeader) : EpochSummaryHashInput :=
  {| shi_version := sh_version h;
     shi_domain_id := sh_domain_id h;
     shi_epoch_id := sh_epoch_id h;
     shi_prev_summary_hash := sh_prev_summary_hash h;
     shi_start_block_height := sh_start_block_height h;
     shi_end_block_height := sh_end_block_height h;
     shi_state_root := sh_state_root h;
     shi_block_root := sh_block_root h;
     shi_tx_root := sh_tx_root h;
     shi_event_root := sh_event_root h;
     shi_export_root := sh_export_root h;
     shi_import_root := sh_import_root h;
     shi_governance_root := sh_governance_root h;
     shi_validator_set_hash := sh_validator_set_hash h |}.

Definition commitment (h : EpochSummaryHeader) : SummaryCommitment :=
  {| sc_version := sh_version h;
     sc_domain_id := sh_domain_id h;
     sc_epoch_id := sh_epoch_id h;
     sc_prev_summary_hash := sh_prev_summary_hash h;
     sc_start_block_height := sh_start_block_height h;
     sc_end_block_height := sh_end_block_height h;
     sc_state_root := sh_state_root h;
     sc_block_root := sh_block_root h;
     sc_tx_root := sh_tx_root h;
     sc_event_root := sh_event_root h;
     sc_export_root := sh_export_root h;
     sc_import_root := sh_import_root h;
     sc_governance_root := sh_governance_root h;
     sc_validator_set_hash := sh_validator_set_hash h;
     sc_summary_hash := sh_summary_hash h |}.

Definition export_hash_input (l : ExportLeaf) : ExportLeafHashInput :=
  {| eli_version := el_version l;
     eli_export_id := el_export_id l;
     eli_source_domain := el_source_domain l;
     eli_target_domain := el_target_domain l;
     eli_sender := el_sender l;
     eli_recipient := el_recipient l;
     eli_amount := el_amount l;
     eli_source_epoch_id := el_source_epoch_id l;
     eli_source_block_height := el_source_block_height l;
     eli_extrinsic_index := el_extrinsic_index l |}.

Definition import_hash_input (l : FinalizedImportLeaf) : FinalizedImportLeafHashInput :=
  {| fli_version := fl_version l;
     fli_export_id := fl_export_id l;
     fli_source_domain := fl_source_domain l;
     fli_target_domain := fl_target_domain l;
     fli_recipient := fl_recipient l;
     fli_amount := fl_amount l;
     fli_source_epoch_id := fl_source_epoch_id l;
     fli_summary_hash := fl_summary_hash l;
     fli_package_hash := fl_package_hash l |}.

Definition proposal_hash_input (l : GovernanceProposalLeaf) : GovernanceProposalLeafHashInput :=
  {| gpi_version := gpl_version l;
     gpi_proposal_id := gpl_proposal_id l;
     gpi_source_domain := gpl_source_domain l;
     gpi_target_domain := gpl_target_domain l;
     gpi_target_domains := gpl_target_domains l;
     gpi_proposer := gpl_proposer l;
     gpi_payload_hash := gpl_payload_hash l;
     gpi_new_protocol_version := gpl_new_protocol_version l;
     gpi_created_epoch := gpl_created_epoch l;
     gpi_voting_start_epoch := gpl_voting_start_epoch l;
     gpi_voting_end_epoch := gpl_voting_end_epoch l;
     gpi_approval_epoch := gpl_approval_epoch l;
     gpi_activation_epoch := gpl_activation_epoch l |}.

Definition ack_hash_input (l : GovernanceAckLeaf) : GovernanceAckLeafHashInput :=
  {| gai_version := gal_version l;
     gai_proposal_id := gal_proposal_id l;
     gai_source_domain := gal_source_domain l;
     gai_target_domain := gal_target_domain l;
     gai_acknowledging_domain := gal_acknowledging_domain l;
     gai_target_domains := gal_target_domains l;
     gai_payload_hash := gal_payload_hash l;
     gai_new_protocol_version := gal_new_protocol_version l;
     gai_activation_epoch := gal_activation_epoch l;
     gai_acknowledged_epoch := gal_acknowledged_epoch l |}.

Definition package_hash_input (p : CertifiedSummaryPackage) : CertifiedSummaryPackageHashInput :=
  {| phi_version := pkg_version p;
     phi_header := pkg_header p;
     phi_certificate := pkg_certificate p;
     phi_inclusion_proofs := pkg_inclusion_proofs p;
     phi_artifacts := pkg_artifacts p |}.

(** [ObservedImportRecord::from_claim]. *)
Definition from_claim (claim : ObservedImportClaim) (observed_at : Z) (observer : hash)
    : ObservedImportRecord :=
  {| oir_version := oic_version claim;
     oir_export_id := oic_export_id claim;
     oir_source_domain := oic_source_domain claim;
     oir_target_domain := oic_target_domain claim;
     oir_source_epoch_id := oic_source_epoch_id claim;
     oir_summary_hash := oic_summary_hash claim;
     oir_package_hash := oic_package_hash claim;
     oir_recipient := oic_recipient claim;
     oir_amount := oic_amount claim;
     oir_observed_at_local_block_height := observed_at;
     oir_observer_account := observer;
     oir_status := ImportRemoteObserved;
     oir_finalized_at_local_block_height := None;
     oir_finalizer_account := None |}.

Definition protocol_version (p : GovernancePayload) : Z :=
  match p with SetProtocolVersion new_version => new_version end.

(** [RelayPackageEnvelopeV1::new]. *)
Definition new_envelope (source_domain target_domain : DomainId) (epoch_id : Z)
    (summary_hash package_hash : hash) (package_bytes : bytes)
    (export_count relay_submitted_at_unix_ms : Z) : RelayPackageEnvelopeV1 :=
  {| env_version := RELAY_PACKAGE_ENVELOPE_VERSION;
     env_source_domain := source_domain;
     env_target_domain := target_domain;
     env_epoch_id := epoch_id;
     env_summary_hash := summary_hash;
     env_package_hash := package_hash;
     env_package_bytes := package_bytes;
     env_export_count := export_count;
     env_relay_submitted_at_unix_ms := relay_submitted_at_unix_ms |}.

Definition importer_state_is_terminal (s : ImporterPackageState) : bool :=
  match s with
  | AckedVerified | AckedDuplicateLocal | AckedDuplicateRemote | AckedInvalid => true
  | _ => false
  end.

(** ** Governance leaves *)

Definition leaf_target_domain (l : GovernanceLeaf) : DomainId :=
  match l with ProposalV1 p => gpl_target_domain p | AckV1 a => gal_target_domain a end.
Definition leaf_proposal_id (l : GovernanceLeaf) : hash :=
  match l with ProposalV1 p => gpl_proposal_id p | AckV1 a => gal_proposal_id a end.
Definition leaf_hash (l : GovernanceLeaf) : hash :=
  match l with ProposalV1 p => gpl_leaf_hash p | AckV1 a => gal_leaf_hash a end.
Definition ordering_domain (l : GovernanceLeaf) : DomainId :=
  match l with ProposalV1 p => gpl_source_domain p | AckV1 a => gal_acknowledging_domain a end.
Definition kind_order (l : GovernanceLeaf) : Z :=
  match l with ProposalV1 _ => 0 | AckV1 _ => 1 end.

(** ** Leaf orderings and canonical sorts *)

Definition export_leaf_ordering (l r : ExportLeaf) : comparison :=
  (el_source_block_height l ?= el_source_block_height r)
  `then` (el_extrinsic_index l ?= el_extrinsic_index r)
  `then` bytes_cmp (el_export_id l) (el_export_id r).
Definition sort_export_leaves : list ExportLeaf -> list ExportLeaf := sort_by export_leaf_ordering.

Definition finalized_import_leaf_ordering (l r : FinalizedImportLeaf) : comparison :=
  bytes_cmp (fl_export_id l) (fl_export_id r).
Definition sort_finalized_import_leaves : list FinalizedImportLeaf -> list FinalizedImportLeaf :=
  sort_by finalized_import_leaf_ordering.

Definition governance_leaf_ordering (l r : GovernanceLeaf) : comparison :=
  domain_cmp (leaf_target_domain l) (leaf_target_domain r)
  `then` (kind_order l ?= kind_order r)
  `then` bytes_cmp (leaf_proposal_id l) (leaf_proposal_id r)
  `then` domain_cmp (ordering_domain l) (ordering_domain r).
Definition sort_governance_leaves : list GovernanceLeaf -> list GovernanceLeaf :=
  sort_by governance_leaf_ordering.

#[export] Instance export_leaf_ordering_total : TotalCmp export_leaf_ordering.
Proof.
  unfold export_leaf_ordering. apply total_cmp_then; [apply total_cmp_then|].
  - apply (total_cmp_key el_source_block_height), _.
  - apply (total_cmp_key el_extrinsic_index), _.
  - apply (total_cmp_key el_export_id), _.
Qed.
#[export] Instance finalized_import_leaf_ordering_total : TotalCmp finalized_import_leaf_ordering.
Proof. apply (total_cmp_key fl_export_id), _. Qed.
#[export] Instance governance_leaf_ordering_total : TotalCmp governance_leaf_ordering.
Proof.
  unfold governance_leaf_ordering. repeat apply total_cmp_then.
  - apply (total_cmp_key leaf_target_domain), _.
  - apply (total_cmp_key kind_order), _.
  - apply (total_cmp_key leaf_proposal_id), _.
  - apply (total_cmp_key ordering_domain), _.
Qed.

Lemma cmp_then_eq a b : a `then` b = Eq -> a = Eq /\ b = Eq.
Proof. by destruct a. Qed.

(** Leaves that compare equal agree on the keys they are identified by. *)
Lemma export_leaf_ordering_eq l r :
  export_leaf_ordering l r = Eq -> el_export_id l = el_export_id r.
Proof. intros [_ E]%cmp_then_eq. by apply bytes_cmp_eq. Qed.
Lemma finalized_import_leaf_ordering_eq l r :
  finalized_import_leaf_ordering l r = Eq -> fl_export_id l = fl_export_id r.
Proof. apply bytes_cmp_eq. Qed.

(** Every domain name parses back to its domain, and nothing else parses. *)
Theorem domain_from_str_spec value d :
  domain_from_str value = Ok d <-> value = domain_as_str d.
Proof.
  unfold domain_from_str. repeat case_decide; subst; split; intros Heq; simplify_eq;
    try done; by destruct d.
Qed.

Lemma fixed_text_reads_back N value :
  (length value <= N)%nat -> 0 ∉ value -> utf8_valid value = true ->
  exists field, fixed_bytes N value = Some field /\ encode_fixed_utf8 field = Ok value.
Proof.
  intros Hlen Hz Hutf. unfold fixed_bytes. rewrite (proj2 (Nat.leb_le _ _)) by lia. eexists. split; [done|].
  unfold encode_fixed_utf8. by rewrite until_zero_padded, Hutf.
Qed.

(** A text without zero bytes that is valid UTF-8 and fits the field is read
    back from the fixed-width field it was stored in. *)
Theorem fixed_utf8_roundtrip N value :
  (length value <= N)%nat -> 0 ∉ value -> utf8_valid value = true ->
  exists field, decode_fixed_utf8 N value = Ok (Some field) /\ length field = N /\
                encode_fixed_utf8 field = Ok value.
Proof.
  intros Hlen Hz Hutf. unfold decode_fixed_utf8. rewrite (proj2 (Nat.ltb_ge N (length value))) by lia.
  destruct (fixed_text_reads_back N value) as (field & E & Hr); [done..|].
  exists field. rewrite E. split_and!; [done|by eapply fixed_bytes_length|done].
Qed.

(** "ear" followed by U+00E9, stored in the 16-byte token symbol. *)
Lemma fixed_utf8_roundtrip_witness :
  exists field, decode_fixed_utf8 TOKEN_SYMBOL_BYTES [101; 97; 114; 195; 169] = Ok (Some field) /\
    length field = TOKEN_SYMBOL_BYTES /\
    encode_fixed_utf8 field = Ok [101; 97; 114; 195; 169].
Proof.
  apply (fixed_utf8_roundtrip TOKEN_SYMBOL_BYTES [101; 97; 114; 195; 169]);
    [vm_compute; lia|set_solver|reflexivity].
Defined.
