(* ===== verification/Effects.v ===== *)
(** * What the services share

    The services run handlers that read and write files and answer with an error
    at the first step that fails.  A handler is a function from the state to the
    new state and a result: an error keeps the changes made before it.  The stores
    write hashes in hexadecimal, with the functions of the [hex] crate. *)

From S2P Require Import Prelude Types.

Definition M (S E A : Type) : Type := S -> S * result E A.

Section Monad.
Context {S E : Type}.

Definition ret {A} (a : A) : M S E A := fun s => (s, Ok a).
Definition fail {A} (e : E) : M S E A := fun s => (s, Err e).
Definition bind {A B} (m : M S E A) (k : A -> M S E B) : M S E B :=
  fun s => let '(s, res) := m s in match res with Ok a => k a s | Err e => (s, Err e) end.
Definition lift {A} (res : result E A) : M S E A := fun s => (s, res).
Definition gets {A} (f : S -> A) : M S E A := fun s => (s, Ok (f s)).
Definition modify (f : S -> S) : M S E unit := fun s => (f s, Ok tt).
End Monad.

(** [.map_err(..)?]: the same handler with another error type. *)
Definition map_err {S E E' A} (f : E -> E') (m : M S E A) : M S E' A :=
  fun s => let '(s, res) := m s in (s, match res with Ok a => Ok a | Err e => Err (f e) end).

(** [match handler { Ok(a) => .., Err(e) => .. }]: errors as values. *)
Definition try {S E E' A} (m : M S E A) : M S E' (result E A) :=
  fun s => let '(s, res) := m s in (s, Ok res).

Notation "'do!' x ':=' m 'in' k" := (bind m (fun x => k))
  (at level 10, x pattern, m at level 100, k at level 200) : result_scope.
Notation "'check!' b 'else' e 'in' k" := (if b then k else fail e)
  (at level 10, b at level 100, e at level 100, k at level 200) : result_scope.

(** ** The [hex] crate *)
Class HexCodec := {
  hex_encode : bytes -> bytes;
  hex_decode : bytes -> option bytes
}.
Class HexCodecOk `{!HexCodec} : Prop := {
  hex_decode_encode : forall b, hex_decode (hex_encode b) = Some b
}.

Definition hex_hash `{!HexCodec} (h : hash) : bytes := [48; 120] ++ hex_encode h.

(** [strip_prefix("0x")]. *)
Definition strip_0x (value : bytes) : bytes :=
  match value with 48 :: 120 :: rest => rest | _ => value end.

(** Source, target, epoch and package hash: what paths are formatted from. *)
Definition PackagePath : Type := DomainId * DomainId * Z * hash.
