(* ===== verification/Handlers.v ===== *)
(** * A logic for the handlers of the services

    [ensures Inv R s m Q]: from a state [s] with [Inv], handler [m] ends in a state
    with [Inv] that is related to [s] by [R], also when it ends with an error, and
    a result satisfies [Q].  The importer uses it with its invariant and the order
    of its states, the exporter between two writes of its index.

    [yields s m Q]: from state [s], handler [m] ends with a result and a state that
    satisfy [Q].  The liveness of the importer is proved with it. *)

From S2P Require Import Prelude Types Effects.

Section Logic.
Context {S : Type} {Inv : S -> Prop} {R : S -> S -> Prop} `{!PreOrder R}.
Implicit Types s : S.

Definition ensures {E A} s (m : M S E A) (Q : A -> S -> Prop) : Prop :=
  Inv s -> let '(s', res) := m s in Inv s' /\ R s s' /\ match res with Ok a => Q a s' | Err _ => True end.

Lemma ensures_ret {E A} s (a : A) (Q : A -> S -> Prop) : Q a s -> ensures s (ret a : M S E A) Q.
Proof. intros HQ Hs. by split_and!. Qed.
Lemma ensures_fail {E A} s (e : E) (Q : A -> S -> Prop) : ensures s (fail e) Q.
Proof. intros Hs. by split_and!. Qed.
Lemma ensures_bind {E A B} s (m : M S E A) (k : A -> M S E B) Q Q' :
  ensures s m Q -> (forall a s', R s s' -> Q a s' -> ensures s' (k a) Q') -> ensures s (bind m k) Q'.
Proof.
  intros Hm Hk Hs. unfold bind. specialize (Hm Hs). destruct (m s) as [s' [a|e]]; [|by destruct Hm as (? & ? & _)].
  destruct Hm as (Hs' & Hl & HQ). specialize (Hk a s' Hl HQ Hs'). destruct (k a s') as [s'' res].
  destruct Hk as (? & ? & ?). split_and!; [done|by etransitivity|done].
Qed.
Lemma ensures_mono {E A} s (m : M S E A) (Q Q' : A -> S -> Prop) :
  ensures s m Q -> (forall a s', R s s' -> Q a s' -> Q' a s') -> ensures s m Q'.
Proof.
  intros Hm HQ Hs. specialize (Hm Hs). destruct (m s) as [s' [a|e]]; destruct Hm as (? & ? & ?); split_and!; auto.
Qed.
Lemma ensures_any {E A} s (m : M S E A) Q : ensures s m Q -> ensures s m (fun _ _ => True).
Proof. intros Hm. by eapply ensures_mono. Qed.
Lemma ensures_map_err {E E' A} s (f : E -> E') (m : M S E A) Q : ensures s m Q -> ensures s (map_err f m) Q.
Proof. intros Hm Hs. unfold map_err. specialize (Hm Hs). by destruct (m s) as [s' [a|e]]. Qed.
Lemma ensures_try {E E' A} s (m : M S E A) Q :
  ensures s m Q -> ensures s (try m : M S E' _) (fun res s' => match res with Ok a => Q a s' | Err _ => True end).
Proof. intros Hm Hs. unfold try. specialize (Hm Hs). by destruct (m s). Qed.

(** Strongest postconditions, and the rules for a given one. *)
Lemma ensures_lift {E A} s (res : result E A) : ensures s (lift res) (fun a s' => res = Ok a /\ s' = s).
Proof. intros Hs. split_and!; [done..|]. by destruct res. Qed.
Lemma ensures_gets {E A} s (f : S -> A) : ensures s (gets f : M S E A) (fun a s' => a = f s /\ s' = s).
Proof. intros Hs. by split_and!. Qed.
Lemma ensures_lift_if {E A} s (res : result E A) (Q : A -> S -> Prop) :
  (forall a, res = Ok a -> Q a s) -> ensures s (lift res) Q.
Proof. intros HQ. eapply ensures_mono; [apply ensures_lift|]. intros a s' _ [Ea ->]. auto. Qed.
Lemma ensures_gets_if {E A} s (f : S -> A) (Q : A -> S -> Prop) : Q (f s) s -> ensures s (gets f : M S E A) Q.
Proof. intros HQ Hs. by split_and!. Qed.
Lemma ensures_result {E A} s (m : M S E A) Q : ensures s m Q -> ensures s m (fun a s' => Q a s' /\ snd (m s) = Ok a).
Proof. intros Hm Hs. specialize (Hm Hs). destruct (m s) as [s' [a|e]]; destruct Hm as (? & ? & ?); by split_and!. Qed.
End Logic.
Arguments ensures {S} Inv R {E A} s m Q.

(** Without an invariant. *)
Lemma ensures_plain {S E A} (R : S -> S -> Prop) s (m : M S E A) Q :
  ensures (fun _ => True) R s m Q <-> let '(s', res) := m s in R s s' /\ match res with Ok a => Q a s' | Err _ => True end.
Proof. unfold ensures. destruct (m s) as [s' [a|e]]; naive_solver. Qed.

(** ** Handlers that end with a result *)
Section Total.
Context {S : Type}.
Implicit Types s : S.

Definition yields {E A} s (m : M S E A) (Q : A -> S -> Prop) : Prop :=
  exists s' a, m s = (s', Ok a) /\ Q a s'.

Lemma yields_ret {E A} s (a : A) (Q : A -> S -> Prop) : Q a s -> yields s (ret a : M S E A) Q.
Proof. intros HQ. by exists s, a. Qed.
Lemma yields_bind {E A B} s (m : M S E A) (k : A -> M S E B) Q Q' :
  yields s m Q -> (forall a s', Q a s' -> yields s' (k a) Q') -> yields s (bind m k) Q'.
Proof.
  intros (s' & a & Em & Ha) Hk. destruct (Hk a s' Ha) as (s'' & b & Ek & Hb). exists s'', b.
  split; [|done]. unfold bind. by rewrite Em.
Qed.
Lemma yields_mono {E A} s (m : M S E A) (Q Q' : A -> S -> Prop) :
  yields s m Q -> (forall a s', Q a s' -> Q' a s') -> yields s m Q'.
Proof. intros (s' & a & Em & Ha) HQ. exists s', a. auto. Qed.
Lemma yields_map_err {E E' A} s (f : E -> E') (m : M S E A) Q : yields s m Q -> yields s (map_err f m) Q.
Proof. intros (s' & a & Em & Ha). exists s', a. split; [|done]. unfold map_err. by rewrite Em. Qed.
Lemma yields_try {E E' A} s (m : M S E A) (Q : A -> S -> Prop) :
  yields s m Q -> yields s (try m : M S E' _) (fun res s' => exists a, res = Ok a /\ Q a s').
Proof. intros (s' & a & Em & Ha). exists s', (Ok a). split; [unfold try; by rewrite Em|by exists a]. Qed.
Lemma yields_gets {E A} s (f : S -> A) (Q : A -> S -> Prop) : Q (f s) s -> yields s (gets f : M S E A) Q.
Proof. intros HQ. by exists s, (f s). Qed.
Lemma yields_modify {E} s (f : S -> S) (Q : unit -> S -> Prop) : Q tt (f s) -> yields s (modify f : M S E unit) Q.
Proof. intros HQ. by exists (f s), tt. Qed.
Lemma yields_lift {E A} s (a : A) (Q : A -> S -> Prop) : Q a s -> yields s (lift (Ok a) : M S E A) Q.
Proof. intros HQ. by exists s, a. Qed.
End Total.
