(* ===== verification/Codec.v ===== *)
(** * Encoding, hashing and the derived identifiers ([crates/common-types/src/lib.rs])

    SCALE encoding and the hash functions are third-party code: they are the
    operations of the class [Codec], with what the program relies on in
    [CodecOk] (encodings decode, also with trailing bytes) and [CodecSep]
    (values that are hashed into one commitment never share an encoding).  The
    file then models every hash, identifier and storage key the source derives
    from them.  [Reference.v] has a concrete instance of the interface, in which
    the witnesses of the development evaluate. *)

From S2P Require Import Prelude Types.

(** ** The SCALE interface

    [Encode::encode] and [Decode::decode] of one type. *)
Class Scale (A : Type) := {
  scale_encode : A -> bytes;
  scale_decode : bytes -> option A
}.

(** [T::decode(&mut &bytes[..])] reads a value and leaves the rest unread. *)
Class ScaleOk (A : Type) `{!Scale A} : Prop :=
  scale_decode_encode : forall (a : A) rest, scale_decode (scale_encode a ++ rest) = Some a.

Lemma decode_whole {A} `{!Scale A, !ScaleOk A} (a : A) : scale_decode (scale_encode a) = Some a.
Proof. rewrite <-(app_nil_r (scale_encode a)). apply scale_decode_encode. Qed.

(** Every type the program encodes, and the hash functions of [sp_io::hashing].
    The integer widths are those of the source's field types. *)
Class Codec := {
  blake2_256 : bytes -> hash;
  blake2_128 : bytes -> bytes;
  twox_128 : bytes -> bytes;
  scale_u64 :: Scale Z;
  scale_hash :: Scale hash;
  scale_domain_seq :: Scale (DomainId * Z);
  scale_ack_key :: Scale (hash * DomainId);
  scale_seed :: Scale (string * Z * DomainId * Z);
  scale_fold :: Scale (hash * Z * hash);
  scale_event_envelope :: Scale (Z * Z);
  scale_tx_envelope :: Scale (Z * Z * Z);
  scale_commitment_empty :: Scale (string * Z * DomainId * Z * Z * Z);
  scale_merkle_empty :: Scale (string * DomainId * Z * Z * Z);
  scale_merkle_node :: Scale (string * hash * hash);
  scale_authorities :: Scale (Z * list (bytes * Z));
  scale_payload :: Scale (Z * GovernancePayload);
  scale_summary_input :: Scale EpochSummaryHashInput;
  scale_export_input :: Scale ExportLeafHashInput;
  scale_import_input :: Scale FinalizedImportLeafHashInput;
  scale_proposal_input :: Scale GovernanceProposalLeafHashInput;
  scale_ack_input :: Scale GovernanceAckLeafHashInput;
  scale_header :: Scale EpochSummaryHeader;
  scale_inclusion_proof :: Scale InclusionProof;
  scale_package_input :: Scale CertifiedSummaryPackageHashInput;
  scale_package :: Scale CertifiedSummaryPackage;
  scale_envelope :: Scale RelayPackageEnvelopeV1
}.

Class CodecOk `{!Codec} : Prop := {
  length_blake2_128 : forall b, length (blake2_128 b) = 16%nat;
  length_twox_128 : forall b, length (twox_128 b) = 16%nat;
  u64_ok :: ScaleOk Z;
  hash_ok :: ScaleOk hash;
  domain_seq_ok :: ScaleOk (DomainId * Z);
  ack_key_ok :: ScaleOk (hash * DomainId);
  seed_ok :: ScaleOk (string * Z * DomainId * Z);
  fold_ok :: ScaleOk (hash * Z * hash);
  event_envelope_ok :: ScaleOk (Z * Z);
  tx_envelope_ok :: ScaleOk (Z * Z * Z);
  commitment_empty_ok :: ScaleOk (string * Z * DomainId * Z * Z * Z);
  merkle_empty_ok :: ScaleOk (string * DomainId * Z * Z * Z);
  merkle_node_ok :: ScaleOk (string * hash * hash);
  authorities_ok :: ScaleOk (Z * list (bytes * Z));
  payload_ok :: ScaleOk (Z * GovernancePayload);
  summary_input_ok :: ScaleOk EpochSummaryHashInput;
  export_input_ok :: ScaleOk ExportLeafHashInput;
  import_input_ok :: ScaleOk FinalizedImportLeafHashInput;
  proposal_input_ok :: ScaleOk GovernanceProposalLeafHashInput;
  ack_input_ok :: ScaleOk GovernanceAckLeafHashInput;
  header_ok :: ScaleOk EpochSummaryHeader;
  inclusion_proof_ok :: ScaleOk InclusionProof;
  package_input_ok :: ScaleOk CertifiedSummaryPackageHashInput;
  package_ok :: ScaleOk CertifiedSummaryPackage;
  envelope_ok :: ScaleOk RelayPackageEnvelopeV1
}.

(** A list of targets as the pallet makes them: there are three domains, and it
    refuses duplicates. *)
Definition plain_targets (targets : list DomainId) : Prop := (length targets <= 4)%nat.

(** Encodings that never coincide, from the widths of their fields.

    - An interior node is a length-prefixed label and two hashes: 91 bytes for
      exports and imports, 95 for governance.  An empty commitment takes 45
      (exports, imports) or 49 bytes.  Export leaves take 132 bytes, import
      leaves 156, proposal leaves at least 145 and acknowledgement leaves 90
      plus their number of targets: at most 94 for up to four targets. *)
Class CodecSep `{!Codec} : Prop := {
  export_leaf_node : forall (i : ExportLeafHashInput) s (l r : hash),
    scale_encode i <> scale_encode (s, l, r);
  import_leaf_node : forall (i : FinalizedImportLeafHashInput) s (l r : hash),
    scale_encode i <> scale_encode (s, l, r);
  proposal_leaf_node : forall (i : GovernanceProposalLeafHashInput) (l r : hash),
    scale_encode i <> scale_encode (GOVERNANCE_MERKLE_NODE_LABEL, l, r);
  ack_leaf_node : forall (i : GovernanceAckLeafHashInput) (l r : hash),
    plain_targets (gai_target_domains i) ->
    scale_encode i <> scale_encode (GOVERNANCE_MERKLE_NODE_LABEL, l, r);
  proposal_ack_leaf : forall (p : GovernanceProposalLeafHashInput) (a : GovernanceAckLeafHashInput),
    plain_targets (gai_target_domains a) ->
    scale_encode p <> scale_encode a;
  node_empty : forall s (l r : hash) (e : string * DomainId * Z * Z * Z),
    scale_encode (s, l, r) <> scale_encode e;
  export_leaf_empty : forall (i : ExportLeafHashInput) (e : string * DomainId * Z * Z * Z),
    scale_encode i <> scale_encode e;
  import_leaf_empty : forall (i : FinalizedImportLeafHashInput) (e : string * DomainId * Z * Z * Z),
    scale_encode i <> scale_encode e;
  proposal_leaf_empty : forall (i : GovernanceProposalLeafHashInput) (e : string * DomainId * Z * Z * Z),
    scale_encode i <> scale_encode e;
  ack_leaf_empty : forall (i : GovernanceAckLeafHashInput) (e : string * DomainId * Z * Z * Z),
    scale_encode i <> scale_encode e
}.

Lemma scale_encode_inj `{!Scale A, !ScaleOk A} (a b : A) : scale_encode a = scale_encode b -> a = b.
Proof.
  intros E. apply (inj Some). rewrite <-(scale_decode_encode a []), <-(scale_decode_encode b []).
  by rewrite E.
Qed.

(** Equal hashes of encoded values: equal values or a collision. *)
Lemma hash_encode_inj `{!Codec, !Scale A, !ScaleOk A} (a b : A) :
  blake2_256 (scale_encode a) = blake2_256 (scale_encode b) -> a = b \/ collision blake2_256.
Proof.
  intros [E|?]%hash_eq_or_collision; [left|by right]. by apply scale_encode_inj.
Qed.

Lemma hash_encode_ne `{!Codec, !Scale A, !Scale B} (a : A) (b : B) :
  scale_encode a <> scale_encode b ->
  blake2_256 (scale_encode a) = blake2_256 (scale_encode b) -> collision blake2_256.
Proof. intros Hne [E|?]%hash_eq_or_collision; done. Qed.

(** ** Hashes and identifiers *)
Section Hashes.
Context `{!Codec}.

(** [EpochSummaryHashInput::summary_hash]. *)
Definition summary_hash (i : EpochSummaryHashInput) : hash := blake2_256 (scale_encode i).

(** [EpochSummaryHeader::from_hash_input]. *)
Definition from_hash_input (i : EpochSummaryHashInput) : EpochSummaryHeader :=
  {| sh_version := shi_version i;
     sh_domain_id := shi_domain_id i;
     sh_epoch_id := shi_epoch_id i;
     sh_prev_summary_hash := shi_prev_summary_hash i;
     sh_start_block_height := shi_start_block_height i;
     sh_end_block_height := shi_end_block_height i;
     sh_state_root := shi_state_root i;
     sh_block_root := shi_block_root i;
     sh_tx_root := shi_tx_root i;
     sh_event_root := shi_event_root i;
     sh_export_root := shi_export_root i;
     sh_import_root := shi_import_root i;
     sh_governance_root := shi_governance_root i;
     sh_validator_set_hash := shi_validator_set_hash i;
     sh_summary_hash := summary_hash i |}.

Definition compute_summary_hash (h : EpochSummaryHeader) : hash := summary_hash (hash_input h).

(** [ExportLeafHashInput::export_hash] and [ExportLeaf]. *)
Definition export_hash (i : ExportLeafHashInput) : hash := blake2_256 (scale_encode i).

Definition export_from_hash_input (i : ExportLeafHashInput) : ExportLeaf :=
  {| el_version := eli_version i;
     el_export_id := eli_export_id i;
     el_source_domain := eli_source_domain i;
     el_target_domain := eli_target_domain i;
     el_sender := eli_sender i;
     el_recipient := eli_recipient i;
     el_amount := eli_amount i;
     el_source_epoch_id := eli_source_epoch_id i;
     el_source_block_height := eli_source_block_height i;
     el_extrinsic_index := eli_extrinsic_index i;
     el_export_hash := export_hash i |}.

Definition compute_export_hash (l : ExportLeaf) : hash := export_hash (export_hash_input l).

(** [FinalizedImportLeafHashInput::import_hash] and [FinalizedImportLeaf]. *)
Definition import_hash (i : FinalizedImportLeafHashInput) : hash := blake2_256 (scale_encode i).

Definition import_from_hash_input (i : FinalizedImportLeafHashInput) : FinalizedImportLeaf :=
  {| fl_version := fli_version i;
     fl_export_id := fli_export_id i;
     fl_source_domain := fli_source_domain i;
     fl_target_domain := fli_target_domain i;
     fl_recipient := fli_recipient i;
     fl_amount := fli_amount i;
     fl_source_epoch_id := fli_source_epoch_id i;
     fl_summary_hash := fli_summary_hash i;
     fl_package_hash := fli_package_hash i;
     fl_import_hash := import_hash i |}.

Definition compute_import_hash (l : FinalizedImportLeaf) : hash := import_hash (import_hash_input l).

(** [ObservedImportRecord::finalized_leaf]. *)
Definition finalized_leaf (r : ObservedImportRecord) : option FinalizedImportLeaf :=
  if bool_decide (oir_status r <> ImportRemoteFinalized) then None
  else Some (import_from_hash_input
    {| fli_version := FINALIZED_IMPORT_LEAF_VERSION;
       fli_export_id := oir_export_id r;
       fli_source_domain := oir_source_domain r;
       fli_target_domain := oir_target_domain r;
       fli_recipient := oir_recipient r;
       fli_amount := oir_amount r;
       fli_source_epoch_id := oir_source_epoch_id r;
       fli_summary_hash := oir_summary_hash r;
       fli_package_hash := oir_package_hash r |}).

(** Governance leaves. *)
Definition proposal_leaf_hash (i : GovernanceProposalLeafHashInput) : hash :=
  blake2_256 (scale_encode i).
Definition ack_leaf_hash (i : GovernanceAckLeafHashInput) : hash := blake2_256 (scale_encode i).

Definition proposal_from_hash_input (i : GovernanceProposalLeafHashInput) : GovernanceProposalLeaf :=
  {| gpl_version := gpi_version i;
     gpl_proposal_id := gpi_proposal_id i;
     gpl_source_domain := gpi_source_domain i;
     gpl_target_domain := gpi_target_domain i;
     gpl_target_domains := gpi_target_domains i;
     gpl_proposer := gpi_proposer i;
     gpl_payload_hash := gpi_payload_hash i;
     gpl_new_protocol_version := gpi_new_protocol_version i;
     gpl_created_epoch := gpi_created_epoch i;
     gpl_voting_start_epoch := gpi_voting_start_epoch i;
     gpl_voting_end_epoch := gpi_voting_end_epoch i;
     gpl_approval_epoch := gpi_approval_epoch i;
     gpl_activation_epoch := gpi_activation_epoch i;
     gpl_leaf_hash := proposal_leaf_hash i |}.

Definition ack_from_hash_input (i : GovernanceAckLeafHashInput) : GovernanceAckLeaf :=
  {| gal_version := gai_version i;
     gal_proposal_id := gai_proposal_id i;
     gal_source_domain := gai_source_domain i;
     gal_target_domain := gai_target_domain i;
     gal_acknowledging_domain := gai_acknowledging_domain i;
     gal_target_domains := gai_target_domains i;
     gal_payload_hash := gai_payload_hash i;
     gal_new_protocol_version := gai_new_protocol_version i;
     gal_activation_epoch := gai_activation_epoch i;
     gal_acknowledged_epoch := gai_acknowledged_epoch i;
     gal_leaf_hash := ack_leaf_hash i |}.

Definition proposal_compute_leaf_hash (l : GovernanceProposalLeaf) : hash :=
  proposal_leaf_hash (proposal_hash_input l).
Definition ack_compute_leaf_hash (l : GovernanceAckLeaf) : hash := ack_leaf_hash (ack_hash_input l).

(** [GovernanceLeaf::compute_leaf_hash]. *)
Definition compute_leaf_hash (l : GovernanceLeaf) : hash :=
  match l with
  | ProposalV1 p => proposal_compute_leaf_hash p
  | AckV1 a => ack_compute_leaf_hash a
  end.

(** [GovernancePayload::payload_hash]. *)
Definition payload_hash (p : GovernancePayload) : hash :=
  blake2_256 (scale_encode (GOVERNANCE_PAYLOAD_VERSION, p)).

Definition export_id (source_domain : DomainId) (export_sequence : Z) : hash :=
  blake2_256 (scale_encode (source_domain, export_sequence)).
Definition governance_proposal_id (source_domain : DomainId) (proposal_sequence : Z) : hash :=
  blake2_256 (scale_encode (source_domain, proposal_sequence)).

(** Epoch accumulators and per-block envelopes. *)
Definition seed_epoch_accumulator (label : string) (domain_id : DomainId) (epoch_id : Z) : hash :=
  blake2_256 (scale_encode (label, EPOCH_SUMMARY_VERSION, domain_id, epoch_id)).
Definition fold_epoch_accumulator (accumulator : hash) (block_number : Z) (payload : hash) : hash :=
  blake2_256 (scale_encode (accumulator, block_number, payload)).
Definition tx_envelope_hash (block_number extrinsic_count all_extrinsics_len : Z) : hash :=
  blake2_256 (scale_encode (block_number, extrinsic_count, all_extrinsics_len)).
Definition event_envelope_hash (block_number event_count : Z) : hash :=
  blake2_256 (scale_encode (block_number, event_count)).
Definition empty_commitment_root (label : string) (domain_id : DomainId)
    (epoch_id start_block_height end_block_height : Z) : hash :=
  blake2_256 (scale_encode
    (label, EPOCH_SUMMARY_VERSION, domain_id, epoch_id, start_block_height, end_block_height)).
Definition validator_set_hash (grandpa_set_id : Z) (authorities : list (bytes * Z)) : hash :=
  blake2_256 (scale_encode (grandpa_set_id, authorities)).

(** ** Certified packages *)
Definition package_hash (i : CertifiedSummaryPackageHashInput) : hash :=
  blake2_256 (scale_encode i).
Definition compute_package_hash (p : CertifiedSummaryPackage) : hash :=
  package_hash (package_hash_input p).

Definition from_fields (header : EpochSummaryHeader) (certificate : SummaryCertificate)
    (inclusion_proofs artifacts : list bytes) : CertifiedSummaryPackage :=
  let package :=
    {| pkg_version := CERTIFIED_SUMMARY_PACKAGE_VERSION;
       pkg_package_hash := EMPTY_HASH;
       pkg_header := header;
       pkg_certificate := certificate;
       pkg_inclusion_proofs := inclusion_proofs;
       pkg_artifacts := artifacts |} in
  package {{ pkg_package_hash := compute_package_hash package }}.

Definition from_parts (header : EpochSummaryHeader) (certificate : SummaryCertificate)
    : CertifiedSummaryPackage :=
  from_fields header certificate [] [].

Definition from_bundle_with_mixed_proofs (header : EpochSummaryHeader)
    (bundle : SummaryCertificationBundle)
    (export_proofs : list ExportInclusionProof)
    (finalized_import_proofs : list FinalizedImportInclusionProof)
    (governance_proofs : list GovernanceInclusionProof) : CertifiedSummaryPackage :=
  let inclusion_proofs :=
    [scale_encode (SummaryHeaderStorageV1 (scb_summary_header_storage_proof bundle))]
    ++ map (fun p => scale_encode (ExportV1 p)) export_proofs
    ++ map (fun p => scale_encode (FinalizedImportV1 p)) finalized_import_proofs
    ++ map (fun p => scale_encode (GovernanceV1 p)) governance_proofs in
  from_fields header (scb_certificate bundle) inclusion_proofs [].

Definition from_bundle_with_export_proofs header bundle export_proofs : CertifiedSummaryPackage :=
  from_bundle_with_mixed_proofs header bundle export_proofs [] [].
Definition from_bundle_with_finalized_import_proofs header bundle proofs : CertifiedSummaryPackage :=
  from_bundle_with_mixed_proofs header bundle [] proofs [].
Definition from_bundle_with_governance_proofs header bundle proofs : CertifiedSummaryPackage :=
  from_bundle_with_mixed_proofs header bundle [] [] proofs.
Definition from_bundle header bundle : CertifiedSummaryPackage :=
  from_bundle_with_export_proofs header bundle [].

(** ** Storage keys *)

(** The bytes of a [b"..."] literal. *)
Definition str_bytes (s : string) : bytes :=
  (fun c => Z.of_N (Ascii.N_of_ascii c)) <$> String.list_ascii_of_string s.

Definition storage_value_key (pallet storage : bytes) : bytes := twox_128 pallet ++ twox_128 storage.
Definition storage_map_key (pallet storage encoded_key : bytes) : bytes :=
  storage_value_key pallet storage ++ blake2_128 encoded_key ++ encoded_key.

Definition summary_header_storage_key (epoch_id : Z) : bytes :=
  storage_map_key (str_bytes "Epochs") (str_bytes "SummaryHeaders") (scale_encode epoch_id).
Definition epoch_export_ids_storage_key (epoch_id : Z) : bytes :=
  storage_map_key (str_bytes "Transfers") (str_bytes "EpochExportIds") (scale_encode epoch_id).
Definition export_record_storage_key (id : hash) : bytes :=
  storage_map_key (str_bytes "Transfers") (str_bytes "ExportsById") (scale_encode id).
Definition observed_import_storage_key (id : hash) : bytes :=
  storage_map_key (str_bytes "Transfers") (str_bytes "ObservedImportsById") (scale_encode id).
Definition epoch_finalized_import_ids_storage_key (epoch_id : Z) : bytes :=
  storage_map_key (str_bytes "Transfers") (str_bytes "EpochFinalizedImportIds")
    (scale_encode epoch_id).
Definition importer_account_storage_key : bytes :=
  storage_value_key (str_bytes "Transfers") (str_bytes "ImporterAccount").
Definition governance_protocol_version_storage_key : bytes :=
  storage_value_key (str_bytes "Governance") (str_bytes "ProtocolVersion").
Definition governance_importer_account_storage_key : bytes :=
  storage_value_key (str_bytes "Governance") (str_bytes "ImporterAccount").
Definition governance_voters_storage_key : bytes :=
  storage_value_key (str_bytes "Governance") (str_bytes "GovernanceVoters").
Definition governance_proposal_storage_key (id : hash) : bytes :=
  storage_map_key (str_bytes "Governance") (str_bytes "ProposalsById") (scale_encode id).
Definition governance_activation_record_storage_key (id : hash) : bytes :=
  storage_map_key (str_bytes "Governance") (str_bytes "ActivationRecordsById") (scale_encode id).
Definition governance_ack_record_storage_key (id : hash) (acknowledging_domain : DomainId) : bytes :=
  storage_map_key (str_bytes "Governance") (str_bytes "AckRecordsByKey")
    (scale_encode (id, acknowledging_domain)).
Definition epoch_governance_leaf_ids_storage_key (epoch_id : Z) : bytes :=
  storage_map_key (str_bytes "Governance") (str_bytes "EpochGovernanceLeafIds")
    (scale_encode epoch_id).
Definition governance_leaf_storage_key (h : hash) : bytes :=
  storage_map_key (str_bytes "Governance") (str_bytes "GovernanceLeavesById") (scale_encode h).

(** ** Well-hashed values

    A header, leaf or package whose stored hash is the hash of its fields. *)
Definition header_hashed (h : EpochSummaryHeader) : Prop :=
  sh_summary_hash h = compute_summary_hash h.
Definition export_hashed (l : ExportLeaf) : Prop := el_export_hash l = compute_export_hash l.
Definition import_hashed (l : FinalizedImportLeaf) : Prop := fl_import_hash l = compute_import_hash l.
Definition leaf_hashed (l : GovernanceLeaf) : Prop := leaf_hash l = compute_leaf_hash l.

Lemma from_hash_input_hashed i : header_hashed (from_hash_input i) /\ hash_input (from_hash_input i) = i.
Proof. by destruct i. Qed.
Lemma export_from_hash_input_hashed i :
  export_hashed (export_from_hash_input i) /\ export_hash_input (export_from_hash_input i) = i.
Proof. by destruct i. Qed.
Lemma import_from_hash_input_hashed i :
  import_hashed (import_from_hash_input i) /\ import_hash_input (import_from_hash_input i) = i.
Proof. by destruct i. Qed.
Lemma from_fields_hashed h c ps artifacts :
  pkg_package_hash (from_fields h c ps artifacts) = compute_package_hash (from_fields h c ps artifacts).
Proof. done. Qed.
End Hashes.

#[export] Hint Resolve from_hash_input_hashed export_from_hash_input_hashed
  import_from_hash_input_hashed : ialp.

Section Binding.
Context `{!Codec, !CodecOk}.

(** A hashed value is determined by the fields that are hashed. *)
Lemma header_hashed_inj h h' :
  header_hashed h -> header_hashed h' -> hash_input h = hash_input h' -> h = h'.
Proof.
  intros H1 H2 E. unfold header_hashed, compute_summary_hash in *.
  rewrite E, <-H2 in H1. destruct h, h'. injection E; intros. by simplify_eq/=.
Qed.
Lemma export_hashed_inj l l' :
  export_hashed l -> export_hashed l' -> export_hash_input l = export_hash_input l' -> l = l'.
Proof.
  intros H1 H2 E. unfold export_hashed, compute_export_hash in *.
  rewrite E, <-H2 in H1. destruct l, l'. injection E; intros. by simplify_eq/=.
Qed.
Lemma import_hashed_inj l l' :
  import_hashed l -> import_hashed l' -> import_hash_input l = import_hash_input l' -> l = l'.
Proof.
  intros H1 H2 E. unfold import_hashed, compute_import_hash in *.
  rewrite E, <-H2 in H1. destruct l, l'. injection E; intros. by simplify_eq/=.
Qed.
Lemma proposal_hashed_inj l l' :
  leaf_hashed (ProposalV1 l) -> leaf_hashed (ProposalV1 l') ->
  proposal_hash_input l = proposal_hash_input l' -> l = l'.
Proof.
  intros H1 H2 E. unfold leaf_hashed in *. simpl in *. unfold proposal_compute_leaf_hash in *.
  rewrite E, <-H2 in H1. destruct l, l'. injection E; intros. by simplify_eq/=.
Qed.
Lemma ack_hashed_inj l l' :
  leaf_hashed (AckV1 l) -> leaf_hashed (AckV1 l') -> ack_hash_input l = ack_hash_input l' -> l = l'.
Proof.
  intros H1 H2 E. unfold leaf_hashed in *. simpl in *. unfold ack_compute_leaf_hash in *.
  rewrite E, <-H2 in H1. destruct l, l'. injection E; intros. by simplify_eq/=.
Qed.

(** A summary hash binds its header: two headers whose stored hash is the
    hash of their fields and which carry the same summary hash are the same
    header, or two inputs of [blake2_256] collide. *)
Theorem summary_hash_binding h h' :
  header_hashed h -> header_hashed h' -> sh_summary_hash h = sh_summary_hash h' ->
  h = h' \/ collision blake2_256.
Proof.
  intros H1 H2 E. assert (compute_summary_hash h = compute_summary_hash h') as Ec by congruence.
  apply hash_encode_inj in Ec as [Ec|?]; [left|by right]. by apply header_hashed_inj.
Qed.

(** A package hash binds the package: header, certificate, every inclusion
    proof and every artifact. *)
Theorem package_hash_binding p p' :
  pkg_package_hash p = compute_package_hash p -> pkg_package_hash p' = compute_package_hash p' ->
  pkg_package_hash p = pkg_package_hash p' -> p = p' \/ collision blake2_256.
Proof.
  intros H1 H2 E. assert (compute_package_hash p = compute_package_hash p') as Ec by congruence.
  apply hash_encode_inj in Ec as [Ec|?]; [left|by right].
  destruct p, p'. unfold package_hash_input in Ec. simpl in *. congruence.
Qed.

(** The proofs of a package built from a certification bundle decode back,
    in order, to the summary-header storage proof, the export proofs, the
    finalized-import proofs and the governance proofs it was built from. *)
Theorem package_proofs_roundtrip header bundle eps fps gps :
  map scale_decode (pkg_inclusion_proofs (from_bundle_with_mixed_proofs header bundle eps fps gps))
  = map Some ([SummaryHeaderStorageV1 (scb_summary_header_storage_proof bundle)]
              ++ map ExportV1 eps ++ map FinalizedImportV1 fps ++ map GovernanceV1 gps).
Proof.
  assert (forall p : InclusionProof, scale_decode (scale_encode p) = Some p) as Hd.
  { intros p. rewrite <-(app_nil_r (scale_encode p)). apply scale_decode_encode. }
  simpl. rewrite Hd. f_equal. rewrite !map_app, !map_map.
  f_equal; [|f_equal]; apply map_ext; intros; apply Hd.
Qed.

Lemma app_inj_16 (a b c d : bytes) :
  length a = 16%nat -> length c = 16%nat -> a ++ b = c ++ d -> a = c /\ b = d.
Proof. intros Ha Hc E. apply app_inj_1 in E; [done|congruence]. Qed.

(** Storage keys are injective: two map keys are equal only for the same
    item of the same map, up to a collision of the 128-bit name hash. *)
Theorem storage_map_key_inj pallet storage k pallet' storage' k' :
  storage_map_key pallet storage k = storage_map_key pallet' storage' k' ->
  k = k' /\ (pallet = pallet' /\ storage = storage' \/ collision twox_128).
Proof.
  unfold storage_map_key, storage_value_key. rewrite <-!app_assoc.
  intros [E1 [E2 [_ Ek]%app_inj_16]%app_inj_16]%app_inj_16;
    try first [apply length_twox_128 | apply length_blake2_128].
  split; [done|].
  destruct (hash_eq_or_collision twox_128 _ _ E1); [|by right].
  destruct (hash_eq_or_collision twox_128 _ _ E2); [|by right]. by left.
Qed.
End Binding.
