(* ===== verification/Reference.v ===== *)
(** * A reference instance of the codec

    A concrete codec that satisfies every law of [Codec.v]: a value is written
    as a flat sequence, lists with their length in front, structs field by
    field, enums with their variant index, in the manner of SCALE; a tag in
    front tells the encoded types apart and hashing is the identity.  The
    witnesses of the development evaluate in it, which shows that the laws the
    theorems assume can hold together. *)

From S2P Require Import Prelude Types Codec.

(** ** Flat encodings *)
Class Flat (A : Type) := {
  flat : A -> list Z;
  unflat : list Z -> option (A * list Z)
}.
Class FlatOk (A : Type) `{!Flat A} : Prop :=
  unflat_flat : forall (a : A) rest, unflat (flat a ++ rest) = Some (a, rest).

#[export] Instance flat_Z : Flat Z := {
  flat z := [z];
  unflat b := match b with z :: rest => Some (z, rest) | [] => None end
}.
#[export] Instance flat_Z_ok : FlatOk Z.
Proof. done. Qed.

#[export] Instance flat_prod `{!Flat A, !Flat B} : Flat (A * B) := {
  flat p := flat p.1 ++ flat p.2;
  unflat l := '(a, l) ← unflat l; '(b, l) ← unflat l; Some ((a, b), l)
}.
#[export] Instance flat_prod_ok `{!Flat A, !Flat B, !FlatOk A, !FlatOk B} : FlatOk (A * B).
Proof. intros [a b] rest. simpl. rewrite <-app_assoc, unflat_flat. simpl. by rewrite unflat_flat. Qed.

#[export] Instance flat_sum `{!Flat A, !Flat B} : Flat (A + B) := {
  flat s := match s with inl a => 0 :: flat a | inr b => 1 :: flat b end;
  unflat l := match l with
              | 0 :: l => '(a, l) ← unflat l; Some (inl a, l)
              | _ :: l => '(b, l) ← unflat l; Some (inr b, l)
              | [] => None
              end
}.
#[export] Instance flat_sum_ok `{!Flat A, !Flat B, !FlatOk A, !FlatOk B} : FlatOk (A + B).
Proof. intros [a|b] rest; simpl; by rewrite unflat_flat. Qed.

#[export] Instance flat_option `{!Flat A} : Flat (option A) := {
  flat o := match o with None => [0] | Some a => 1 :: flat a end;
  unflat l := match l with
              | 0 :: l => Some (None, l)
              | _ :: l => '(a, l) ← unflat l; Some (Some a, l)
              | [] => None
              end
}.
#[export] Instance flat_option_ok `{!Flat A, !FlatOk A} : FlatOk (option A).
Proof. intros [a|] rest; simpl; [by rewrite unflat_flat|done]. Qed.

Fixpoint unflat_n `{!Flat A} (n : nat) (l : list Z) : option (list A * list Z) :=
  match n with
  | O => Some ([], l)
  | S n => '(a, l) ← unflat l; '(rest, l) ← unflat_n n l; Some (a :: rest, l)
  end.
#[export] Instance flat_list `{!Flat A} : Flat (list A) := {
  flat l := Z.of_nat (length l) :: flat_map flat l;
  unflat l := match l with n :: l => unflat_n (Z.to_nat n) l | [] => None end
}.
#[export] Instance flat_list_ok `{!Flat A, !FlatOk A} : FlatOk (list A).
Proof.
  intros l rest. cbn [flat unflat flat_list app]. rewrite Nat2Z.id.
  induction l as [|a l IH]; simpl; [done|].
  rewrite <-app_assoc, unflat_flat. simpl. by rewrite IH.
Qed.

Definition flat_iso {A B} `{!Flat B} (f : A -> B) (g : B -> A) : Flat A := {|
  flat a := flat (f a);
  unflat l := '(b, l) ← unflat l; Some (g b, l)
|}.
Lemma flat_iso_ok {A B} `{!Flat B, !FlatOk B} (f : A -> B) (g : B -> A) :
  (forall a, g (f a) = a) -> @FlatOk A (flat_iso f g).
Proof. intros Hgf a rest. simpl. rewrite unflat_flat. simpl. by rewrite Hgf. Qed.

#[export] Instance flat_string : Flat string :=
  flat_iso (fun s => map (fun c => Z.of_N (Ascii.N_of_ascii c)) (String.list_ascii_of_string s))
    (fun l => String.string_of_list_ascii (map (fun z => Ascii.ascii_of_N (Z.to_N z)) l)).
#[export] Instance flat_string_ok : FlatOk string.
Proof.
  apply flat_iso_ok. intros s. rewrite map_map.
  rewrite <-(String.string_of_list_ascii_of_string s) at 2. f_equal.
  rewrite <-(map_id (String.list_ascii_of_string s)) at 2. apply map_ext.
  intros c. by rewrite N2Z.id, Ascii.ascii_N_embedding.
Qed.

(** ** The protocol's types *)

#[export] Instance DomainId_flat : Flat DomainId :=
  flat_iso (fun r => match r with Earth => 0 | Moon => 1 | Mars => 2 end)
    (fun c => match c with 0 => Earth | 1 => Moon | _ => Mars end).
#[export] Instance DomainId_flat_ok : FlatOk DomainId.
Proof. apply flat_iso_ok. by intros []. Qed.

#[export] Instance ChainIdentity_flat : Flat ChainIdentity :=
  flat_iso (fun r => (ci_domain_id r, ci_chain_id r, ci_chain_name r, ci_token_symbol r,
      ci_token_decimals r))
    (fun '(x0, x1, x2, x3, x4) => mkChainIdentity x0 x1 x2 x3 x4).
#[export] Instance ChainIdentity_flat_ok : FlatOk ChainIdentity.
Proof. apply flat_iso_ok. by intros []. Qed.

#[export] Instance SummaryCommitment_flat : Flat SummaryCommitment :=
  flat_iso (fun r => (sc_version r, sc_domain_id r, sc_epoch_id r, sc_prev_summary_hash r,
      sc_start_block_height r, sc_end_block_height r, sc_state_root r, sc_block_root r, sc_tx_root
      r, sc_event_root r, sc_export_root r, sc_import_root r, sc_governance_root r,
      sc_validator_set_hash r, sc_summary_hash r))
    (fun '(x0, x1, x2, x3, x4, x5, x6, x7, x8, x9, x10, x11, x12, x13, x14) => mkSummaryCommitment
        x0 x1 x2 x3 x4 x5 x6 x7 x8 x9 x10 x11 x12 x13 x14).
#[export] Instance SummaryCommitment_flat_ok : FlatOk SummaryCommitment.
Proof. apply flat_iso_ok. by intros []. Qed.

#[export] Instance EpochSummaryHashInput_flat : Flat EpochSummaryHashInput :=
  flat_iso (fun r => (shi_version r, shi_domain_id r, shi_epoch_id r, shi_prev_summary_hash r,
      shi_start_block_height r, shi_end_block_height r, shi_state_root r, shi_block_root r,
      shi_tx_root r, shi_event_root r, shi_export_root r, shi_import_root r, shi_governance_root
      r, shi_validator_set_hash r))
    (fun '(x0, x1, x2, x3, x4, x5, x6, x7, x8, x9, x10, x11, x12, x13) => mkEpochSummaryHashInput
        x0 x1 x2 x3 x4 x5 x6 x7 x8 x9 x10 x11 x12 x13).
#[export] Instance EpochSummaryHashInput_flat_ok : FlatOk EpochSummaryHashInput.
Proof. apply flat_iso_ok. by intros []. Qed.

#[export] Instance EpochSummaryHeader_flat : Flat EpochSummaryHeader :=
  flat_iso (fun r => (sh_version r, sh_domain_id r, sh_epoch_id r, sh_prev_summary_hash r,
      sh_start_block_height r, sh_end_block_height r, sh_state_root r, sh_block_root r, sh_tx_root
      r, sh_event_root r, sh_export_root r, sh_import_root r, sh_governance_root r,
      sh_validator_set_hash r, sh_summary_hash r))
    (fun '(x0, x1, x2, x3, x4, x5, x6, x7, x8, x9, x10, x11, x12, x13, x14) =>
        mkEpochSummaryHeader x0 x1 x2 x3 x4 x5 x6 x7 x8 x9 x10 x11 x12 x13 x14).
#[export] Instance EpochSummaryHeader_flat_ok : FlatOk EpochSummaryHeader.
Proof. apply flat_iso_ok. by intros []. Qed.

#[export] Instance StagedSummaryRecord_flat : Flat StagedSummaryRecord :=
  flat_iso (fun r => (ssr_header r, ssr_staged_at_block_number r))
    (fun '(x0, x1) => mkStagedSummaryRecord x0 x1).
#[export] Instance StagedSummaryRecord_flat_ok : FlatOk StagedSummaryRecord.
Proof. apply flat_iso_ok. by intros []. Qed.

#[export] Instance ExportStatus_flat : Flat ExportStatus :=
  flat_iso (fun r => match r with LocalFinal => 0 | Exported => 1 | RemoteFinalized => 2 end)
    (fun c => match c with 0 => LocalFinal | 1 => Exported | _ => RemoteFinalized end).
#[export] Instance ExportStatus_flat_ok : FlatOk ExportStatus.
Proof. apply flat_iso_ok. by intros []. Qed.

#[export] Instance ImportObservationStatus_flat : Flat ImportObservationStatus :=
  flat_iso (fun r => match r with ImportRemoteObserved => 0 | ImportRemoteFinalized => 1 end)
    (fun c => match c with 0 => ImportRemoteObserved | _ => ImportRemoteFinalized end).
#[export] Instance ImportObservationStatus_flat_ok : FlatOk ImportObservationStatus.
Proof. apply flat_iso_ok. by intros []. Qed.

#[export] Instance ExportLeafHashInput_flat : Flat ExportLeafHashInput :=
  flat_iso (fun r => (eli_version r, eli_export_id r, eli_source_domain r, eli_target_domain r,
      eli_sender r, eli_recipient r, eli_amount r, eli_source_epoch_id r, eli_source_block_height
      r, eli_extrinsic_index r))
    (fun '(x0, x1, x2, x3, x4, x5, x6, x7, x8, x9) => mkExportLeafHashInput x0 x1 x2 x3 x4 x5 x6
        x7 x8 x9).
#[export] Instance ExportLeafHashInput_flat_ok : FlatOk ExportLeafHashInput.
Proof. apply flat_iso_ok. by intros []. Qed.

#[export] Instance ExportLeaf_flat : Flat ExportLeaf :=
  flat_iso (fun r => (el_version r, el_export_id r, el_source_domain r, el_target_domain r,
      el_sender r, el_recipient r, el_amount r, el_source_epoch_id r, el_source_block_height r,
      el_extrinsic_index r, el_export_hash r))
    (fun '(x0, x1, x2, x3, x4, x5, x6, x7, x8, x9, x10) => mkExportLeaf x0 x1 x2 x3 x4 x5 x6 x7 x8
        x9 x10).
#[export] Instance ExportLeaf_flat_ok : FlatOk ExportLeaf.
Proof. apply flat_iso_ok. by intros []. Qed.

#[export] Instance ExportRecord_flat : Flat ExportRecord :=
  flat_iso (fun r => (er_leaf r, er_status r, er_completion_summary_hash r,
      er_completion_package_hash r, er_resolved_at_source_block_height r, er_resolver_account r))
    (fun '(x0, x1, x2, x3, x4, x5) => mkExportRecord x0 x1 x2 x3 x4 x5).
#[export] Instance ExportRecord_flat_ok : FlatOk ExportRecord.
Proof. apply flat_iso_ok. by intros []. Qed.

#[export] Instance ObservedImportClaim_flat : Flat ObservedImportClaim :=
  flat_iso (fun r => (oic_version r, oic_export_id r, oic_source_domain r, oic_target_domain r,
      oic_source_epoch_id r, oic_summary_hash r, oic_package_hash r, oic_recipient r, oic_amount
      r))
    (fun '(x0, x1, x2, x3, x4, x5, x6, x7, x8) => mkObservedImportClaim x0 x1 x2 x3 x4 x5 x6 x7 x8).
#[export] Instance ObservedImportClaim_flat_ok : FlatOk ObservedImportClaim.
Proof. apply flat_iso_ok. by intros []. Qed.

#[export] Instance ObservedImportRecord_flat : Flat ObservedImportRecord :=
  flat_iso (fun r => (oir_version r, oir_export_id r, oir_source_domain r, oir_target_domain r,
      oir_source_epoch_id r, oir_summary_hash r, oir_package_hash r, oir_recipient r, oir_amount
      r, oir_observed_at_local_block_height r, oir_observer_account r, oir_status r,
      oir_finalized_at_local_block_height r, oir_finalizer_account r))
    (fun '(x0, x1, x2, x3, x4, x5, x6, x7, x8, x9, x10, x11, x12, x13) => mkObservedImportRecord
        x0 x1 x2 x3 x4 x5 x6 x7 x8 x9 x10 x11 x12 x13).
#[export] Instance ObservedImportRecord_flat_ok : FlatOk ObservedImportRecord.
Proof. apply flat_iso_ok. by intros []. Qed.

#[export] Instance GovernancePayload_flat : Flat GovernancePayload :=
  flat_iso (fun r => match r with SetProtocolVersion x => x end)
    (fun c => match c with x => SetProtocolVersion x end).
#[export] Instance GovernancePayload_flat_ok : FlatOk GovernancePayload.
Proof. apply flat_iso_ok. by intros []. Qed.

#[export] Instance GovernanceVoteChoice_flat : Flat GovernanceVoteChoice :=
  flat_iso (fun r => match r with Yes => 0 | No => 1 | Abstain => 2 end)
    (fun c => match c with 0 => Yes | 1 => No | _ => Abstain end).
#[export] Instance GovernanceVoteChoice_flat_ok : FlatOk GovernanceVoteChoice.
Proof. apply flat_iso_ok. by intros []. Qed.

#[export] Instance GovernanceProposalStatus_flat : Flat GovernanceProposalStatus :=
  flat_iso (fun r => match r with Created => 0 | Voting => 1 | Rejected => 2 | LocallyFinalized =>
      3 | Scheduled => 4 | Activated => 5 end)
    (fun c => match c with 0 => Created | 1 => Voting | 2 => Rejected | 3 => LocallyFinalized | 4
        => Scheduled | _ => Activated end).
#[export] Instance GovernanceProposalStatus_flat_ok : FlatOk GovernanceProposalStatus.
Proof. apply flat_iso_ok. by intros []. Qed.

#[export] Instance GovernanceVote_flat : Flat GovernanceVote :=
  flat_iso (fun r => (gv_version r, gv_proposal_id r, gv_voter r, gv_choice r, gv_voting_power r,
      gv_cast_epoch r, gv_cast_block_height r))
    (fun '(x0, x1, x2, x3, x4, x5, x6) => mkGovernanceVote x0 x1 x2 x3 x4 x5 x6).
#[export] Instance GovernanceVote_flat_ok : FlatOk GovernanceVote.
Proof. apply flat_iso_ok. by intros []. Qed.

#[export] Instance GovernanceProposal_flat : Flat GovernanceProposal :=
  flat_iso (fun r => (gp_version r, gp_proposal_id r, gp_source_domain r, gp_target_domains r,
      gp_proposer r, gp_payload r, gp_payload_hash r, gp_created_epoch r, gp_voting_start_epoch r,
      gp_voting_end_epoch r, gp_approval_epoch r, gp_activation_epoch r,
      gp_snapshot_total_voting_power r, gp_quorum_numerator r, gp_quorum_denominator r,
      gp_yes_voting_power r, gp_no_voting_power r, gp_abstain_voting_power r, gp_status r))
    (fun '(x0, x1, x2, x3, x4, x5, x6, x7, x8, x9, x10, x11, x12, x13, x14, x15, x16, x17, x18) =>
        mkGovernanceProposal x0 x1 x2 x3 x4 x5 x6 x7 x8 x9 x10 x11 x12 x13 x14 x15 x16 x17 x18).
#[export] Instance GovernanceProposal_flat_ok : FlatOk GovernanceProposal.
Proof. apply flat_iso_ok. by intros []. Qed.

#[export] Instance GovernanceAckRecord_flat : Flat GovernanceAckRecord :=
  flat_iso (fun r => (gar_version r, gar_proposal_id r, gar_source_domain r,
      gar_acknowledging_domain r, gar_target_domains r, gar_activation_epoch r, gar_payload_hash
      r, gar_new_protocol_version r, gar_acknowledged_epoch r,
      gar_acknowledged_at_local_block_height r))
    (fun '(x0, x1, x2, x3, x4, x5, x6, x7, x8, x9) => mkGovernanceAckRecord x0 x1 x2 x3 x4 x5 x6
        x7 x8 x9).
#[export] Instance GovernanceAckRecord_flat_ok : FlatOk GovernanceAckRecord.
Proof. apply flat_iso_ok. by intros []. Qed.

#[export] Instance GovernanceActivationRecord_flat : Flat GovernanceActivationRecord :=
  flat_iso (fun r => (gac_version r, gac_proposal_id r, gac_source_domain r, gac_target_domains r,
      gac_payload_hash r, gac_new_protocol_version r, gac_activation_epoch r,
      gac_known_ack_domains r, gac_scheduled_at_epoch r, gac_activated_at_epoch r,
      gac_activated_at_local_block_height r, gac_status r))
    (fun '(x0, x1, x2, x3, x4, x5, x6, x7, x8, x9, x10, x11) => mkGovernanceActivationRecord x0 x1
        x2 x3 x4 x5 x6 x7 x8 x9 x10 x11).
#[export] Instance GovernanceActivationRecord_flat_ok : FlatOk GovernanceActivationRecord.
Proof. apply flat_iso_ok. by intros []. Qed.

#[export] Instance GovernanceProposalLeaf_flat : Flat GovernanceProposalLeaf :=
  flat_iso (fun r => (gpl_version r, gpl_proposal_id r, gpl_source_domain r, gpl_target_domain r,
      gpl_target_domains r, gpl_proposer r, gpl_payload_hash r, gpl_new_protocol_version r,
      gpl_created_epoch r, gpl_voting_start_epoch r, gpl_voting_end_epoch r, gpl_approval_epoch r,
      gpl_activation_epoch r, gpl_leaf_hash r))
    (fun '(x0, x1, x2, x3, x4, x5, x6, x7, x8, x9, x10, x11, x12, x13) => mkGovernanceProposalLeaf
        x0 x1 x2 x3 x4 x5 x6 x7 x8 x9 x10 x11 x12 x13).
#[export] Instance GovernanceProposalLeaf_flat_ok : FlatOk GovernanceProposalLeaf.
Proof. apply flat_iso_ok. by intros []. Qed.

#[export] Instance ImportedGovernanceProposalClaim_flat : Flat ImportedGovernanceProposalClaim :=
  flat_iso (fun r => (igp_version r, igp_leaf r, igp_summary_hash r, igp_package_hash r))
    (fun '(x0, x1, x2, x3) => mkImportedGovernanceProposalClaim x0 x1 x2 x3).
#[export] Instance ImportedGovernanceProposalClaim_flat_ok : FlatOk ImportedGovernanceProposalClaim.
Proof. apply flat_iso_ok. by intros []. Qed.

#[export] Instance GovernanceAckLeaf_flat : Flat GovernanceAckLeaf :=
  flat_iso (fun r => (gal_version r, gal_proposal_id r, gal_source_domain r, gal_target_domain r,
      gal_acknowledging_domain r, gal_target_domains r, gal_payload_hash r,
      gal_new_protocol_version r, gal_activation_epoch r, gal_acknowledged_epoch r, gal_leaf_hash
      r))
    (fun '(x0, x1, x2, x3, x4, x5, x6, x7, x8, x9, x10) => mkGovernanceAckLeaf x0 x1 x2 x3 x4 x5
        x6 x7 x8 x9 x10).
#[export] Instance GovernanceAckLeaf_flat_ok : FlatOk GovernanceAckLeaf.
Proof. apply flat_iso_ok. by intros []. Qed.

#[export] Instance ImportedGovernanceAckClaim_flat : Flat ImportedGovernanceAckClaim :=
  flat_iso (fun r => (iga_version r, iga_leaf r, iga_summary_hash r, iga_package_hash r))
    (fun '(x0, x1, x2, x3) => mkImportedGovernanceAckClaim x0 x1 x2 x3).
#[export] Instance ImportedGovernanceAckClaim_flat_ok : FlatOk ImportedGovernanceAckClaim.
Proof. apply flat_iso_ok. by intros []. Qed.

#[export] Instance GovernanceProposalLeafHashInput_flat : Flat GovernanceProposalLeafHashInput :=
  flat_iso (fun r => (gpi_version r, gpi_proposal_id r, gpi_source_domain r, gpi_target_domain r,
      gpi_target_domains r, gpi_proposer r, gpi_payload_hash r, gpi_new_protocol_version r,
      gpi_created_epoch r, gpi_voting_start_epoch r, gpi_voting_end_epoch r, gpi_approval_epoch r,
      gpi_activation_epoch r))
    (fun '(x0, x1, x2, x3, x4, x5, x6, x7, x8, x9, x10, x11, x12) =>
        mkGovernanceProposalLeafHashInput x0 x1 x2 x3 x4 x5 x6 x7 x8 x9 x10 x11 x12).
#[export] Instance GovernanceProposalLeafHashInput_flat_ok : FlatOk GovernanceProposalLeafHashInput.
Proof. apply flat_iso_ok. by intros []. Qed.

#[export] Instance GovernanceAckLeafHashInput_flat : Flat GovernanceAckLeafHashInput :=
  flat_iso (fun r => (gai_version r, gai_proposal_id r, gai_source_domain r, gai_target_domain r,
      gai_acknowledging_domain r, gai_target_domains r, gai_payload_hash r,
      gai_new_protocol_version r, gai_activation_epoch r, gai_acknowledged_epoch r))
    (fun '(x0, x1, x2, x3, x4, x5, x6, x7, x8, x9) => mkGovernanceAckLeafHashInput x0 x1 x2 x3 x4
        x5 x6 x7 x8 x9).
#[export] Instance GovernanceAckLeafHashInput_flat_ok : FlatOk GovernanceAckLeafHashInput.
Proof. apply flat_iso_ok. by intros []. Qed.

#[export] Instance GovernanceLeaf_flat : Flat GovernanceLeaf :=
  flat_iso (fun r => match r with ProposalV1 x => inl x | AckV1 x => inr x end)
    (fun c => match c with inl x => ProposalV1 x | inr x => AckV1 x end).
#[export] Instance GovernanceLeaf_flat_ok : FlatOk GovernanceLeaf.
Proof. apply flat_iso_ok. by intros []. Qed.

#[export] Instance GovernanceInclusionProof_flat : Flat GovernanceInclusionProof :=
  flat_iso (fun r => (gip_version r, gip_leaf r, gip_leaf_index r, gip_leaf_count r, gip_siblings
      r))
    (fun '(x0, x1, x2, x3, x4) => mkGovernanceInclusionProof x0 x1 x2 x3 x4).
#[export] Instance GovernanceInclusionProof_flat_ok : FlatOk GovernanceInclusionProof.
Proof. apply flat_iso_ok. by intros []. Qed.

#[export] Instance CertificationPendingReason_flat : Flat CertificationPendingReason :=
  flat_iso (fun r => match r with TargetBlockNotFinalized => 0 | NoJustifiedDescendantYet => 1 |
      MissingTargetBlockHash => 2 | HistoricalStateUnavailable => 3 |
      StorageProofConstructionFailed => 4 end)
    (fun c => match c with 0 => TargetBlockNotFinalized | 1 => NoJustifiedDescendantYet | 2 =>
        MissingTargetBlockHash | 3 => HistoricalStateUnavailable | _ =>
        StorageProofConstructionFailed end).
#[export] Instance CertificationPendingReason_flat_ok : FlatOk CertificationPendingReason.
Proof. apply flat_iso_ok. by intros []. Qed.

#[export] Instance RelayPackageEnvelopeV1_flat : Flat RelayPackageEnvelopeV1 :=
  flat_iso (fun r => (env_version r, env_source_domain r, env_target_domain r, env_epoch_id r,
      env_summary_hash r, env_package_hash r, env_package_bytes r, env_export_count r,
      env_relay_submitted_at_unix_ms r))
    (fun '(x0, x1, x2, x3, x4, x5, x6, x7, x8) => mkRelayPackageEnvelopeV1 x0 x1 x2 x3 x4 x5 x6 x7
        x8).
#[export] Instance RelayPackageEnvelopeV1_flat_ok : FlatOk RelayPackageEnvelopeV1.
Proof. apply flat_iso_ok. by intros []. Qed.

#[export] Instance ImporterPackageState_flat : Flat ImporterPackageState :=
  flat_iso (fun r => match r with Received => 0 | Verifying => 1 | SubmissionRetrying => 2 |
      AckedVerified => 3 | AckedDuplicateLocal => 4 | AckedDuplicateRemote => 5 | AckedInvalid =>
      6 end)
    (fun c => match c with 0 => Received | 1 => Verifying | 2 => SubmissionRetrying | 3 =>
        AckedVerified | 4 => AckedDuplicateLocal | 5 => AckedDuplicateRemote | _ => AckedInvalid
        end).
#[export] Instance ImporterPackageState_flat_ok : FlatOk ImporterPackageState.
Proof. apply flat_iso_ok. by intros []. Qed.

#[export] Instance GrandpaFinalityCertificate_flat : Flat GrandpaFinalityCertificate :=
  flat_iso (fun r => (gfc_version r, gfc_grandpa_set_id r, gfc_target_block_number r,
      gfc_target_block_hash r, gfc_proof_block_number r, gfc_proof_block_hash r, gfc_justification
      r, gfc_ancestry_headers r))
    (fun '(x0, x1, x2, x3, x4, x5, x6, x7) => mkGrandpaFinalityCertificate x0 x1 x2 x3 x4 x5 x6 x7).
#[export] Instance GrandpaFinalityCertificate_flat_ok : FlatOk GrandpaFinalityCertificate.
Proof. apply flat_iso_ok. by intros []. Qed.

#[export] Instance SummaryHeaderStorageProof_flat : Flat SummaryHeaderStorageProof :=
  flat_iso (fun r => (shp_version r, shp_proof_block_number r, shp_proof_block_hash r,
      shp_proof_block_header r, shp_storage_key r, shp_trie_nodes r))
    (fun '(x0, x1, x2, x3, x4, x5) => mkSummaryHeaderStorageProof x0 x1 x2 x3 x4 x5).
#[export] Instance SummaryHeaderStorageProof_flat_ok : FlatOk SummaryHeaderStorageProof.
Proof. apply flat_iso_ok. by intros []. Qed.

#[export] Instance ExportInclusionProof_flat : Flat ExportInclusionProof :=
  flat_iso (fun r => (eip_version r, eip_leaf r, eip_leaf_index r, eip_leaf_count r, eip_siblings
      r))
    (fun '(x0, x1, x2, x3, x4) => mkExportInclusionProof x0 x1 x2 x3 x4).
#[export] Instance ExportInclusionProof_flat_ok : FlatOk ExportInclusionProof.
Proof. apply flat_iso_ok. by intros []. Qed.

#[export] Instance FinalizedImportLeafHashInput_flat : Flat FinalizedImportLeafHashInput :=
  flat_iso (fun r => (fli_version r, fli_export_id r, fli_source_domain r, fli_target_domain r,
      fli_recipient r, fli_amount r, fli_source_epoch_id r, fli_summary_hash r, fli_package_hash
      r))
    (fun '(x0, x1, x2, x3, x4, x5, x6, x7, x8) => mkFinalizedImportLeafHashInput x0 x1 x2 x3 x4 x5
        x6 x7 x8).
#[export] Instance FinalizedImportLeafHashInput_flat_ok : FlatOk FinalizedImportLeafHashInput.
Proof. apply flat_iso_ok. by intros []. Qed.

#[export] Instance FinalizedImportLeaf_flat : Flat FinalizedImportLeaf :=
  flat_iso (fun r => (fl_version r, fl_export_id r, fl_source_domain r, fl_target_domain r,
      fl_recipient r, fl_amount r, fl_source_epoch_id r, fl_summary_hash r, fl_package_hash r,
      fl_import_hash r))
    (fun '(x0, x1, x2, x3, x4, x5, x6, x7, x8, x9) => mkFinalizedImportLeaf x0 x1 x2 x3 x4 x5 x6
        x7 x8 x9).
#[export] Instance FinalizedImportLeaf_flat_ok : FlatOk FinalizedImportLeaf.
Proof. apply flat_iso_ok. by intros []. Qed.

#[export] Instance FinalizedImportInclusionProof_flat : Flat FinalizedImportInclusionProof :=
  flat_iso (fun r => (fip_version r, fip_leaf r, fip_leaf_index r, fip_leaf_count r, fip_siblings
      r))
    (fun '(x0, x1, x2, x3, x4) => mkFinalizedImportInclusionProof x0 x1 x2 x3 x4).
#[export] Instance FinalizedImportInclusionProof_flat_ok : FlatOk FinalizedImportInclusionProof.
Proof. apply flat_iso_ok. by intros []. Qed.

#[export] Instance RemoteFinalizationClaim_flat : Flat RemoteFinalizationClaim :=
  flat_iso (fun r => (rfc_version r, rfc_export_id r, rfc_source_domain r, rfc_target_domain r,
      rfc_source_epoch_id r, rfc_recipient r, rfc_amount r, rfc_completion_summary_hash r,
      rfc_completion_package_hash r))
    (fun '(x0, x1, x2, x3, x4, x5, x6, x7, x8) => mkRemoteFinalizationClaim x0 x1 x2 x3 x4 x5 x6
        x7 x8).
#[export] Instance RemoteFinalizationClaim_flat_ok : FlatOk RemoteFinalizationClaim.
Proof. apply flat_iso_ok. by intros []. Qed.

#[export] Instance InclusionProof_flat : Flat InclusionProof :=
  flat_iso (fun r => match r with SummaryHeaderStorageV1 x => inl x | ExportV1 x => inr (inl x) |
      FinalizedImportV1 x => inr (inr (inl x)) | GovernanceV1 x => inr (inr (inr x)) end)
    (fun c => match c with inl x => SummaryHeaderStorageV1 x | inr (inl x) => ExportV1 x | inr
        (inr (inl x)) => FinalizedImportV1 x | inr (inr (inr x)) => GovernanceV1 x end).
#[export] Instance InclusionProof_flat_ok : FlatOk InclusionProof.
Proof. apply flat_iso_ok. by intros []. Qed.

#[export] Instance SummaryCertificate_flat : Flat SummaryCertificate :=
  flat_iso (fun r => match r with GrandpaV1 x => x end)
    (fun c => match c with x => GrandpaV1 x end).
#[export] Instance SummaryCertificate_flat_ok : FlatOk SummaryCertificate.
Proof. apply flat_iso_ok. by intros []. Qed.

#[export] Instance SummaryCertificationBundle_flat : Flat SummaryCertificationBundle :=
  flat_iso (fun r => (scb_certificate r, scb_summary_header_storage_proof r))
    (fun '(x0, x1) => mkSummaryCertificationBundle x0 x1).
#[export] Instance SummaryCertificationBundle_flat_ok : FlatOk SummaryCertificationBundle.
Proof. apply flat_iso_ok. by intros []. Qed.

#[export] Instance SummaryCertificationState_flat : Flat SummaryCertificationState :=
  flat_iso (fun r => match r with Pending x => inl x | Ready x => inr x end)
    (fun c => match c with inl x => Pending x | inr x => Ready x end).
#[export] Instance SummaryCertificationState_flat_ok : FlatOk SummaryCertificationState.
Proof. apply flat_iso_ok. by intros []. Qed.

#[export] Instance SummaryCertificationReadiness_flat : Flat SummaryCertificationReadiness :=
  flat_iso (fun r => (scr_epoch_id r, scr_staged_at_block_number r, scr_staged_at_block_hash r,
      scr_latest_finalized_block_number r, scr_latest_finalized_block_hash r, scr_state r))
    (fun '(x0, x1, x2, x3, x4, x5) => mkSummaryCertificationReadiness x0 x1 x2 x3 x4 x5).
#[export] Instance SummaryCertificationReadiness_flat_ok : FlatOk SummaryCertificationReadiness.
Proof. apply flat_iso_ok. by intros []. Qed.

#[export] Instance CertifiedSummaryPackageHashInput_flat : Flat CertifiedSummaryPackageHashInput :=
  flat_iso (fun r => (phi_version r, phi_header r, phi_certificate r, phi_inclusion_proofs r,
      phi_artifacts r))
    (fun '(x0, x1, x2, x3, x4) => mkCertifiedSummaryPackageHashInput x0 x1 x2 x3 x4).
#[export] Instance CertifiedSummaryPackageHashInput_flat_ok : FlatOk
    CertifiedSummaryPackageHashInput.
Proof. apply flat_iso_ok. by intros []. Qed.

#[export] Instance CertifiedSummaryPackage_flat : Flat CertifiedSummaryPackage :=
  flat_iso (fun r => (pkg_version r, pkg_package_hash r, pkg_header r, pkg_certificate r,
      pkg_inclusion_proofs r, pkg_artifacts r))
    (fun '(x0, x1, x2, x3, x4, x5) => mkCertifiedSummaryPackage x0 x1 x2 x3 x4 x5).
#[export] Instance CertifiedSummaryPackage_flat_ok : FlatOk CertifiedSummaryPackage.
Proof. apply flat_iso_ok. by intros []. Qed.

(** ** The codec *)
Definition tagged (tag : Z) (A : Type) `{!Flat A} : Scale A := {|
  scale_encode a := tag :: flat a;
  scale_decode b := match b with
                    | t :: l => if t =? tag then fst <$> unflat l else None
                    | [] => None
                    end
|}.

Lemma tagged_ok tag `{!Flat A, !FlatOk A} : @ScaleOk A (tagged tag A).
Proof. intros a rest. simpl. by rewrite Z.eqb_refl, unflat_flat. Qed.

Definition first_16 (b : bytes) : bytes := take 16 (b ++ replicate 16 0).

Definition reference_codec : Codec := {|
  blake2_256 b := b;
  blake2_128 := first_16;
  twox_128 := first_16;
  scale_u64 := tagged 0 _;
  scale_hash := tagged 1 _;
  scale_domain_seq := tagged 2 _;
  scale_ack_key := tagged 3 _;
  scale_seed := tagged 4 _;
  scale_fold := tagged 5 _;
  scale_event_envelope := tagged 6 _;
  scale_tx_envelope := tagged 7 _;
  scale_commitment_empty := tagged 8 _;
  scale_merkle_empty := tagged 9 _;
  scale_merkle_node := tagged 10 _;
  scale_authorities := tagged 11 _;
  scale_payload := tagged 12 _;
  scale_summary_input := tagged 13 _;
  scale_export_input := tagged 14 _;
  scale_import_input := tagged 15 _;
  scale_proposal_input := tagged 16 _;
  scale_ack_input := tagged 17 _;
  scale_header := tagged 18 _;
  scale_inclusion_proof := tagged 19 _;
  scale_package_input := tagged 20 _;
  scale_package := tagged 21 _;
  scale_envelope := tagged 22 _
|}.

Lemma length_first_16 b : length (first_16 b) = 16%nat.
Proof. unfold first_16. rewrite length_take, length_app, length_replicate. lia. Qed.

#[export] Instance reference_codec_ok : @CodecOk reference_codec.
Proof. split; first [apply length_first_16 | apply tagged_ok, _]. Qed.

#[export] Instance reference_codec_sep : @CodecSep reference_codec.
Proof. split; intros; simpl; congruence. Qed.

(** ** Witnesses of the binding theorems of [Codec.v] *)
Section Witnesses.
#[local] Existing Instance reference_codec.

Definition example_input : EpochSummaryHashInput :=
  {| shi_version := 1; shi_domain_id := Mars; shi_epoch_id := 3; shi_prev_summary_hash := [1];
     shi_start_block_height := 31; shi_end_block_height := 40; shi_state_root := [2];
     shi_block_root := [3]; shi_tx_root := [4]; shi_event_root := [5]; shi_export_root := [6];
     shi_import_root := [7]; shi_governance_root := [8]; shi_validator_set_hash := [9] |}.

Lemma summary_hash_binding_witness :
  let h := from_hash_input example_input in h = h \/ collision blake2_256.
Proof.
  apply (summary_hash_binding (from_hash_input example_input) (from_hash_input example_input));
    reflexivity.
Defined.

Definition example_storage_proof : SummaryHeaderStorageProof :=
  {| shp_version := 1; shp_proof_block_number := 41; shp_proof_block_hash := [10];
     shp_proof_block_header := [11; 12]; shp_storage_key := summary_header_storage_key 3;
     shp_trie_nodes := [[13]; [14; 15]] |}.
Definition example_bundle : SummaryCertificationBundle :=
  {| scb_certificate := GrandpaV1
       {| gfc_version := 1; gfc_grandpa_set_id := 0; gfc_target_block_number := 41;
          gfc_target_block_hash := [10]; gfc_proof_block_number := 41; gfc_proof_block_hash := [10];
          gfc_justification := [16]; gfc_ancestry_headers := [] |};
     scb_summary_header_storage_proof := example_storage_proof |}.
Definition example_package : CertifiedSummaryPackage :=
  from_bundle (from_hash_input example_input) example_bundle.

Lemma package_hash_binding_witness :
  example_package = example_package \/ collision blake2_256.
Proof. apply (package_hash_binding example_package example_package); reflexivity. Defined.

Lemma storage_map_key_inj_witness :
  scale_encode 3 = scale_encode 3 /\
  (str_bytes "Epochs" = str_bytes "Epochs" /\
   str_bytes "SummaryHeaders" = str_bytes "SummaryHeaders" \/ collision twox_128).
Proof.
  apply (storage_map_key_inj (str_bytes "Epochs") (str_bytes "SummaryHeaders") (scale_encode 3)
           (str_bytes "Epochs") (str_bytes "SummaryHeaders") (scale_encode 3)). reflexivity.
Defined.

Lemma package_proofs_roundtrip_witness :
  map scale_decode (pkg_inclusion_proofs example_package)
  = [Some (SummaryHeaderStorageV1 example_storage_proof)].
Proof.
  exact (package_proofs_roundtrip (from_hash_input example_input) example_bundle [] [] []).
Defined.
End Witnesses.
