(* ===== verification/Merkle.v ===== *)
(** * Merkle commitments of an epoch ([crates/common-types/src/lib.rs], lines 1592-2137)

    The source has three copies of one construction: exports, finalized imports
    and governance leaves, each with its own order, leaf hash and node label.
    [Section Tree] models the loops they share over the parent hash; the three
    families follow, each with root, proof construction and verification.

    For each family: proofs the builder returns verify (completeness), a proof
    that verifies speaks of a committed leaf or exhibits a hash collision
    (soundness), and roots bind the set of leaves whatever order they come in. *)

From S2P Require Import Prelude Types Codec Reference.

(** ** The tree loops *)
Section Tree.
Context (parent : hash -> hash -> hash).

(** One pass of [while index < level.len()]: adjacent hashes are paired, a last
    odd one is paired with itself. *)
Fixpoint next_level (level : list hash) : list hash :=
  match level with
  | l :: r :: rest => parent l r :: next_level rest
  | [l] => [parent l l]
  | [] => []
  end.

(** [while level.len() > 1 { level = next; }].  A level of [n > 1] hashes has a
    strictly shorter successor, so [n] passes are enough ([reduce_levels_enough]). *)
Fixpoint reduce_levels (fuel : nat) (level : list hash) : list hash :=
  match fuel with
  | O => level
  | S fuel => if (1 <? length level)%nat then reduce_levels fuel (next_level level) else level
  end.

(** [level[0]] after the loop. *)
Definition merkle_root (level : list hash) : hash :=
  default [] (head (reduce_levels (length level) level)).

Definition sibling_index (index len : nat) : nat :=
  if (index mod 2 =? 0)%nat then
    if (index + 1 <? len)%nat then (index + 1)%nat else index
  else (index - 1)%nat.

(** The siblings [build_*_inclusion_proof] collects on the way up. *)
Fixpoint build_siblings (fuel : nat) (index : nat) (level : list hash) : list hash :=
  match fuel with
  | O => []
  | S fuel =>
    if (1 <? length level)%nat then
      default [] (level !! sibling_index index (length level))
      :: build_siblings fuel (index / 2) (next_level level)
    else []
  end.

(** The [for sibling in &proof.siblings] loop of the verifiers. *)
Fixpoint verify_path (index width : nat) (h : hash) (siblings : list hash) : hash :=
  match siblings with
  | [] => h
  | sibling :: rest =>
    let is_right_duplicate := (width mod 2 =? 1)%nat && (index =? width - 1)%nat in
    let '(l, r) :=
      if (index mod 2 =? 0)%nat then (h, if is_right_duplicate then h else sibling)
      else (sibling, h) in
    verify_path (index / 2) ((width + 1) / 2) (parent l r) rest
  end.

(** *** Shape of a level *)

Lemma list_pair_ind (P : list hash -> Prop) :
  P [] -> (forall a, P [a]) -> (forall a b l, P l -> P (a :: b :: l)) -> forall l, P l.
Proof.
  intros H0 H1 H2. fix IH 1. intros [|a [|b l]]; [exact H0|apply H1|apply H2, IH].
Qed.

Lemma length_next_level level : length (next_level level) = ((length level + 1) / 2)%nat.
Proof.
  induction level as [| |a b l IH] using list_pair_ind; [done..|]. cbn [next_level length].
  rewrite IH. replace (S (S (length l)) + 1)%nat with (length l + 1 + 1 * 2)%nat by lia.
  rewrite Nat.div_add by done. lia.
Qed.

Lemma next_level_shorter level :
  (1 < length level)%nat -> (0 < length (next_level level) < length level)%nat.
Proof.
  intros H. rewrite length_next_level.
  pose proof (Nat.div_mod (length level + 1) 2 ltac:(done)) as E.
  pose proof (Nat.mod_upper_bound (length level + 1) 2 ltac:(done)). lia.
Qed.

Lemma reduce_levels_enough fuel level :
  level <> [] -> (length level <= fuel)%nat -> exists r, reduce_levels fuel level = [r].
Proof.
  revert level. induction fuel as [|fuel IH]; intros level Hne Hf.
  { destruct level; simpl in *; [done|lia]. }
  simpl. destruct (1 <? length level)%nat eqn:E.
  - apply Nat.ltb_lt in E. pose proof (next_level_shorter level E).
    apply IH; [intros Hn; rewrite Hn in *; simpl in *; lia|lia].
  - apply Nat.ltb_ge in E. destruct level as [|a [|b l]]; simpl in *; [done|by exists a|lia].
Qed.

Lemma reduce_levels_more fuel1 fuel2 level :
  level <> [] -> (length level <= fuel1)%nat -> (length level <= fuel2)%nat ->
  reduce_levels fuel1 level = reduce_levels fuel2 level.
Proof.
  revert fuel2 level. induction fuel1 as [|f1 IH]; intros [|f2] level Hne H1 H2;
    try (destruct level; simpl in *; [done|lia]).
  simpl. destruct (1 <? length level)%nat eqn:E; [|done].
  apply Nat.ltb_lt in E. pose proof (next_level_shorter level E).
  apply IH; [intros Hn; rewrite Hn in *; simpl in *; lia|lia|lia].
Qed.

(** *** Completeness of paths *)

Lemma next_level_lookup_even level i h :
  level !! (2 * i)%nat = Some h ->
  next_level level !! i = Some (parent h (default h (level !! (2 * i + 1)%nat))).
Proof.
  revert i. induction level as [|a|a b l IH] using list_pair_ind; intros i E.
  - by rewrite lookup_nil in E.
  - destruct i as [|i]; [by simplify_eq/=|].
    by rewrite lookup_cons_ne_0, lookup_nil in E by lia.
  - destruct i as [|i]; [by simplify_eq/=|].
    replace (2 * S i)%nat with (S (S (2 * i))) in E |- * by lia. simpl in E.
    replace (S (S (2 * i)) + 1)%nat with (S (S (2 * i + 1))) by lia. by apply IH.
Qed.

Lemma next_level_lookup_odd level i h s :
  level !! (2 * i)%nat = Some s -> level !! (2 * i + 1)%nat = Some h ->
  next_level level !! i = Some (parent s h).
Proof. intros Hs Hh. rewrite (next_level_lookup_even _ _ _ Hs), Hh. done. Qed.

(** One level up: the verifier recomputes the parent that the level holds. *)
Lemma verify_step level i h :
  (1 < length level)%nat -> level !! i = Some h ->
  let s := default [] (level !! sibling_index i (length level)) in
  let dup := (length level mod 2 =? 1)%nat && (i =? length level - 1)%nat in
  next_level level !! (i / 2)%nat
  = Some (let '(l, r) := if (i mod 2 =? 0)%nat then (h, if dup then h else s) else (s, h) in parent l r).
Proof.
  intros Hlen Hi. cbv zeta. pose proof (lookup_lt_Some _ _ _ Hi) as Hlt.
  pose proof (Nat.div_mod i 2 ltac:(done)) as Hdm.
  pose proof (Nat.mod_upper_bound i 2 ltac:(done)) as Hub.
  unfold sibling_index. destruct (i mod 2 =? 0)%nat eqn:Ei.
  - apply Nat.eqb_eq in Ei. assert (i = 2 * (i / 2))%nat as Hi2 by lia.
    rewrite Hi2 in Hi. rewrite (next_level_lookup_even _ _ _ Hi). rewrite <-Hi2.
    destruct (i + 1 <? length level)%nat eqn:El.
    + apply Nat.ltb_lt in El.
      rewrite (proj2 (Nat.eqb_neq i (length level - 1))) by lia. rewrite andb_false_r.
      destruct (lookup_lt_is_Some_2 level (i + 1) El) as [s ->]. done.
    + apply Nat.ltb_ge in El. assert (length level = i + 1)%nat as Hl by lia.
      rewrite (proj2 (Nat.eqb_eq i (length level - 1))) by lia.
      rewrite (proj2 (Nat.eqb_eq (length level mod 2) 1)).
      * by rewrite (proj2 (lookup_ge_None level (i + 1))) by lia.
      * rewrite Hl, Hi2, Nat.mul_comm, Nat.add_comm, Nat.Div0.mod_add. done.
  - apply Nat.eqb_neq in Ei. assert (i = 2 * (i / 2) + 1)%nat as Hi2 by lia.
    assert (is_Some (level !! (2 * (i / 2))%nat)) as [s Hs] by (apply lookup_lt_is_Some_2; lia).
    rewrite Hi2 in Hi. rewrite (next_level_lookup_odd _ _ _ _ Hs Hi).
    replace (i - 1)%nat with (2 * (i / 2))%nat by lia. by rewrite Hs.
Qed.

Lemma build_siblings_verify fuel level i h :
  (length level <= fuel)%nat -> level !! i = Some h ->
  head (reduce_levels fuel level)
  = Some (verify_path i (length level) h (build_siblings fuel i level)).
Proof.
  revert level i h. induction fuel as [|fuel IH]; intros level i h Hf Hi.
  { destruct level; simpl in *; [done|lia]. }
  simpl. destruct (1 <? length level)%nat eqn:E.
  - apply Nat.ltb_lt in E. pose proof (next_level_shorter level E).
    pose proof (verify_step level i h E Hi) as Hs. cbv zeta in Hs.
    erewrite (IH (next_level level) (i / 2)%nat); [|lia|exact Hs].
    rewrite length_next_level. cbn [verify_path].
    by destruct (if (i mod 2 =? 0)%nat then _ else _).
  - apply Nat.ltb_ge in E. destruct level as [|a [|b l]]; simpl in *; [done| |lia].
    destruct i; simplify_eq/=; done.
Qed.

Lemma merkle_root_verify level i h :
  level !! i = Some h ->
  verify_path i (length level) h (build_siblings (length level) i level) = merkle_root level.
Proof. intros Hi. unfold merkle_root. by rewrite (build_siblings_verify _ _ _ _ (le_n _) Hi). Qed.

Lemma build_siblings_nil level i : (length level <= 1)%nat -> build_siblings (length level) i level = [].
Proof. intros H. destruct level as [|a [|b l]]; simpl in *; [done|done|lia]. Qed.

(** *** Soundness of paths

    [in_tree] is the set of hashes that occur in some level over [leaves].
    [bad] stands for "the hash function collides". *)
Inductive in_tree (leaves : list hash) : hash -> Prop :=
| in_leaf h : h ∈ leaves -> in_tree leaves h
| in_node l r : in_tree leaves l -> in_tree leaves r -> in_tree leaves (parent l r).

Lemma next_level_in_tree leaves level :
  Forall (in_tree leaves) level -> Forall (in_tree leaves) (next_level level).
Proof.
  induction level as [|a|a b l IH] using list_pair_ind; intros Hf; simpl; [done| |].
  - rewrite Forall_singleton in *. by apply in_node.
  - apply Forall_cons in Hf as [Ha [Hb Hl]%Forall_cons].
    apply Forall_cons. split; [by apply in_node|by apply IH].
Qed.

Lemma reduce_levels_in_tree leaves fuel level :
  Forall (in_tree leaves) level -> Forall (in_tree leaves) (reduce_levels fuel level).
Proof.
  revert level. induction fuel as [|fuel IH]; intros level Hf; simpl; [done|].
  destruct (1 <? length level)%nat; [|done]. by apply IH, next_level_in_tree.
Qed.

Lemma merkle_root_in_tree leaves : leaves <> [] -> in_tree leaves (merkle_root leaves).
Proof.
  intros Hne. unfold merkle_root.
  destruct (reduce_levels_enough (length leaves) leaves Hne ltac:(lia)) as [r Hr].
  assert (Forall (in_tree leaves) (reduce_levels (length leaves) leaves)) as Hf.
  { apply reduce_levels_in_tree, Forall_forall. intros h Hh. by constructor. }
  rewrite Hr in Hf |- *. rewrite Forall_singleton in Hf. exact Hf.
Qed.

Context (bad : Prop).
Context (parent_inj : forall l r l' r', parent l r = parent l' r' -> (l = l' /\ r = r') \/ bad).

Lemma in_tree_parent leaves l r :
  (parent l r ∈ leaves -> bad) ->
  in_tree leaves (parent l r) -> (in_tree leaves l /\ in_tree leaves r) \/ bad.
Proof.
  intros Hleaf Hin. inversion Hin as [h Hh|l' r' Hl Hr E].
  - right. auto.
  - apply parent_inj in E as [[-> ->]|?]; [by left|by right].
Qed.

Lemma verify_path_in_tree leaves siblings index width h :
  (forall l r, parent l r ∈ leaves -> bad) ->
  in_tree leaves (verify_path index width h siblings) -> in_tree leaves h \/ bad.
Proof.
  intros Hleaf. revert index width h.
  induction siblings as [|s rest IH]; intros index width h; cbn [verify_path]; [by left|].
  destruct (index mod 2 =? 0)%nat; intros [Hin|?]%IH; try by right.
  all: apply in_tree_parent in Hin as [[??]|?]; [by left|by right|apply Hleaf].
Qed.

(** A path that reaches the root of [leaves] from a hash that is not itself an
    interior node starts at one of [leaves]. *)
Lemma merkle_path_sound leaves siblings index width h :
  leaves <> [] ->
  (forall l r, parent l r ∈ leaves -> bad) ->
  (forall l r, h = parent l r -> bad) ->
  verify_path index width h siblings = merkle_root leaves -> h ∈ leaves \/ bad.
Proof.
  intros Hne Hleaf Hh E.
  assert (in_tree leaves (verify_path index width h siblings)) as Hin.
  { rewrite E. by apply merkle_root_in_tree. }
  apply verify_path_in_tree in Hin as [Hin|?]; [|by right|done].
  inversion Hin as [h' ?|l r Hl Hr Eh]; [by left|right]. by eapply Hh.
Qed.
End Tree.

(** ** What the three families share *)
Section Family.
Context (parent : hash -> hash -> hash).

(** The root functions after sorting: [if ordered.is_empty()] the empty root,
    else the reduction of the leaf hashes. *)
Definition root_or_empty (empty : hash) (level : list hash) : hash :=
  match level with
  | [] => empty
  | _ => merkle_root parent level
  end.

(** The verifiers after the leaf-hash check. *)
Definition path_accepts (root h : hash) (leaf_index leaf_count : Z) (siblings : list hash) : bool :=
  if (leaf_count =? 0) || (leaf_count <=? leaf_index) then false
  else
    let index := Z.to_nat leaf_index in
    let width := Z.to_nat leaf_count in
    if (width =? 1)%nat then bool_decide (h = root) && bool_decide (siblings = [])
    else bool_decide (verify_path parent index width h siblings = root).

Lemma path_accepts_complete empty hashes i h :
  hashes !! i = Some h -> Z.of_nat (length hashes) <= u32_max ->
  path_accepts (root_or_empty empty hashes) h
    (as_u32 (Z.of_nat i)) (as_u32 (Z.of_nat (length hashes)))
    (build_siblings parent (length hashes) i hashes) = true.
Proof.
  intros Hi Hmax. pose proof (lookup_lt_Some _ _ _ Hi) as Hlt.
  assert (root_or_empty empty hashes = merkle_root parent hashes) as ->.
  { destruct hashes; [simpl in Hlt; lia|done]. }
  unfold path_accepts. rewrite !as_u32_small by lia. rewrite !Nat2Z.id.
  rewrite (proj2 (Z.eqb_neq _ _)), (proj2 (Z.leb_gt _ _)) by lia. cbn [orb].
  destruct (length hashes =? 1)%nat eqn:E.
  - apply Nat.eqb_eq in E. rewrite <-(merkle_root_verify parent hashes i h Hi).
    rewrite build_siblings_nil by lia. by rewrite !bool_decide_eq_true_2.
  - by apply bool_decide_eq_true_2, merkle_root_verify.
Qed.

Lemma path_accepts_path root h leaf_index leaf_count siblings :
  path_accepts root h leaf_index leaf_count siblings = true ->
  exists index width, verify_path parent index width h siblings = root.
Proof.
  unfold path_accepts. intros Hp. dispatch_inv Hp; bool_to_prop; subst; [|by eauto].
  by exists 0%nat, 0%nat.
Qed.

Lemma verify_path_shape siblings index width h :
  verify_path parent index width h siblings = h \/
  exists l r, verify_path parent index width h siblings = parent l r.
Proof.
  revert index width h. induction siblings as [|s rest IH]; intros index width h; [by left|].
  right. cbn [verify_path]. destruct (if (index mod 2 =? 0)%nat then _ else _) as [l r].
  destruct (IH (index / 2)%nat ((width + 1) / 2)%nat (parent l r)) as [->|?]; eauto.
Qed.

(** Soundness of a family whose leaf, node and empty hashes only meet when
    [bad] happens. *)
Lemma path_accepts_sound (bad : Prop) {Leaf} (lhash : Leaf -> hash) ordered leaf empty i c siblings :
  (forall l r l' r', parent l r = parent l' r' -> (l = l' /\ r = r') \/ bad) ->
  (forall l r, parent l r = empty -> bad) ->
  (forall x, x ∈ leaf :: ordered -> lhash x = empty -> bad) ->
  (forall x l r, x ∈ leaf :: ordered -> lhash x = parent l r -> bad) ->
  (forall x, x ∈ ordered -> lhash leaf = lhash x -> leaf = x \/ bad) ->
  path_accepts (root_or_empty empty (map lhash ordered)) (lhash leaf) i c siblings = true ->
  leaf ∈ ordered \/ bad.
Proof.
  intros Hinj Hnode Hempty Hleaf Hkey (j & w & Hv)%path_accepts_path.
  destruct ordered as [|x0 ordered].
  { right. destruct (verify_path_shape siblings j w (lhash leaf)) as [E|(l & r & E)]; rewrite E in Hv.
    - apply (Hempty leaf); [set_solver|done].
    - by eapply Hnode. }
  apply (merkle_path_sound parent bad Hinj) in Hv as [Hin|?]; [| |done| |].
  - apply list_elem_of_fmap in Hin as (x & E & Hin).
    destruct (Hkey x Hin E) as [->|?]; [by left|by right].
  - by right.
  - intros l r Hin. apply list_elem_of_fmap in Hin as (x & E & Hin).
    eapply (Hleaf x l r); [set_solver|done].
  - intros l r E. eapply (Hleaf leaf l r); [set_solver|done].
Qed.
End Family.

(** Interior nodes of the families: the node label and the two children. *)
Lemma node_hash_inj `{!Codec, !CodecOk} (s : string) (l r l' r' : hash) :
  blake2_256 (scale_encode (s, l, r)) = blake2_256 (scale_encode (s, l', r')) ->
  (l = l' /\ r = r') \/ collision blake2_256.
Proof. intros [E|?]%hash_encode_inj; [left; by simplify_eq|by right]. Qed.

(** Looking a member up by key finds one, and its position in the level. *)
Lemma list_find_member {A K} `{!EqDecision K} (key : A -> K) (f : A -> hash) (l : list A) k :
  k ∈ map key l ->
  exists i x, list_find (fun x => key x = k) l = Some (i, x) /\ x ∈ l /\ key x = k /\
    map f l !! i = Some (f x).
Proof.
  intros (y & -> & Hy)%list_elem_of_fmap.
  destruct (list_find (fun x => key x = key y) l) as [[i x]|] eqn:E.
  - apply list_find_Some in E as (Hi & Hk & _). exists i, x.
    split_and!; [done|by eapply list_elem_of_lookup_2|done|].
    change (map f) with (fmap (M:=list) f). by rewrite list_lookup_fmap, Hi.
  - exfalso. apply list_find_None in E. rewrite Forall_forall in E. by apply (E y Hy).
Qed.

(** ** Exports *)
Section Exports.
Context `{!Codec}.

Definition export_merkle_empty_root (domain_id : DomainId)
    (epoch_id start_block_height end_block_height : Z) : hash :=
  blake2_256 (scale_encode
    (EXPORT_MERKLE_EMPTY_LABEL, domain_id, epoch_id, start_block_height, end_block_height)).

Definition export_merkle_parent_hash (l r : hash) : hash :=
  blake2_256 (scale_encode (EXPORT_MERKLE_NODE_LABEL, l, r)).

Definition export_merkle_root (domain_id : DomainId)
    (epoch_id start_block_height end_block_height : Z) (leaves : list ExportLeaf) : hash :=
  let ordered := sort_export_leaves leaves in
  root_or_empty export_merkle_parent_hash
    (export_merkle_empty_root domain_id epoch_id start_block_height end_block_height)
    (map el_export_hash ordered).

Definition build_export_inclusion_proof (leaves : list ExportLeaf) (export_id : hash)
    : option ExportInclusionProof :=
  let ordered := sort_export_leaves leaves in
  match list_find (fun leaf => el_export_id leaf = export_id) ordered with
  | None => None
  | Some (leaf_index, leaf) =>
    let level := map el_export_hash ordered in
    Some {| eip_version := EXPORT_INCLUSION_PROOF_VERSION;
            eip_leaf := leaf;
            eip_leaf_index := as_u32 (Z.of_nat leaf_index);
            eip_leaf_count := as_u32 (Z.of_nat (length ordered));
            eip_siblings :=
              build_siblings export_merkle_parent_hash (length level) leaf_index level |}
  end.

Definition verify_export_inclusion_proof (export_root : hash) (proof : ExportInclusionProof) : bool :=
  let leaf := eip_leaf proof in
  if bool_decide (el_export_hash leaf <> compute_export_hash leaf) then false
  else path_accepts export_merkle_parent_hash export_root (el_export_hash leaf)
         (eip_leaf_index proof) (eip_leaf_count proof) (eip_siblings proof).

Lemma export_proof_complete d e s t leaves id :
  Forall export_hashed leaves -> id ∈ map el_export_id leaves ->
  Z.of_nat (length leaves) <= u32_max ->
  exists proof, build_export_inclusion_proof leaves id = Some proof /\
    eip_leaf proof ∈ leaves /\ el_export_id (eip_leaf proof) = id /\
    verify_export_inclusion_proof (export_merkle_root d e s t leaves) proof = true.
Proof.
  intros Hh Hid Hmax. rewrite <-(sort_by_perm export_leaf_ordering leaves) in Hid.
  apply (list_find_member _ el_export_hash) in Hid as (i & leaf & Hf & Hin & Hk & Hi).
  unfold build_export_inclusion_proof, sort_export_leaves. rewrite Hf. eexists. split; [done|].
  simpl. rewrite elem_of_sort_by in Hin. split_and!; [done|done|].
  unfold verify_export_inclusion_proof. simpl. rewrite bool_decide_eq_false_2.
  2:{ intros Hne. apply Hne. rewrite Forall_forall in Hh. by apply Hh. }
  rewrite <-(length_map el_export_hash (sort_by _ _)). apply path_accepts_complete; [done|].
  by rewrite length_map, length_sort_by.
Qed.

Context `{!CodecOk, !CodecSep}.

Lemma export_proof_sound d e s t leaves proof :
  Forall export_hashed leaves ->
  verify_export_inclusion_proof (export_merkle_root d e s t leaves) proof = true ->
  eip_leaf proof ∈ leaves \/ collision blake2_256.
Proof.
  intros Hh Hv. unfold verify_export_inclusion_proof in Hv.
  destruct (bool_decide _) eqn:Eb; [done|]. apply bool_decide_eq_false_1, dec_stable in Eb.
  rewrite <-(elem_of_sort_by export_leaf_ordering).
  assert (Forall export_hashed (eip_leaf proof :: sort_export_leaves leaves)) as Hall.
  { constructor; [done|by apply Forall_sort_by]. }
  rewrite Forall_forall in Hall.
  eapply path_accepts_sound; [..|exact Hv].
  - intros. by eapply node_hash_inj.
  - intros l r. apply hash_encode_ne, node_empty.
  - intros x Hx. rewrite (Hall x Hx). apply hash_encode_ne, export_leaf_empty.
  - intros x l r Hx. rewrite (Hall x Hx). apply hash_encode_ne, export_leaf_node.
  - intros x Hx. rewrite Eb, (Hall x) by set_solver. intros [E|?]%hash_encode_inj; [left|by right].
    apply export_hashed_inj; [done|apply Hall; set_solver|done].
Qed.
End Exports.

(** ** Finalized imports *)
Section Imports.
Context `{!Codec}.

Definition import_merkle_empty_root (domain_id : DomainId)
    (epoch_id start_block_height end_block_height : Z) : hash :=
  blake2_256 (scale_encode
    (IMPORT_MERKLE_EMPTY_LABEL, domain_id, epoch_id, start_block_height, end_block_height)).

Definition import_merkle_parent_hash (l r : hash) : hash :=
  blake2_256 (scale_encode (IMPORT_MERKLE_NODE_LABEL, l, r)).

Definition import_merkle_root (domain_id : DomainId)
    (epoch_id start_block_height end_block_height : Z) (leaves : list FinalizedImportLeaf) : hash :=
  let ordered := sort_finalized_import_leaves leaves in
  root_or_empty import_merkle_parent_hash
    (import_merkle_empty_root domain_id epoch_id start_block_height end_block_height)
    (map fl_import_hash ordered).

Definition build_finalized_import_inclusion_proof (leaves : list FinalizedImportLeaf) (export_id : hash)
    : option FinalizedImportInclusionProof :=
  let ordered := sort_finalized_import_leaves leaves in
  match list_find (fun leaf => fl_export_id leaf = export_id) ordered with
  | None => None
  | Some (leaf_index, leaf) =>
    let level := map fl_import_hash ordered in
    Some {| fip_version := FINALIZED_IMPORT_INCLUSION_PROOF_VERSION;
            fip_leaf := leaf;
            fip_leaf_index := as_u32 (Z.of_nat leaf_index);
            fip_leaf_count := as_u32 (Z.of_nat (length ordered));
            fip_siblings :=
              build_siblings import_merkle_parent_hash (length level) leaf_index level |}
  end.

Definition verify_finalized_import_inclusion_proof (import_root : hash) (proof : FinalizedImportInclusionProof) : bool :=
  let leaf := fip_leaf proof in
  if bool_decide (fl_import_hash leaf <> compute_import_hash leaf) then false
  else path_accepts import_merkle_parent_hash import_root (fl_import_hash leaf)
         (fip_leaf_index proof) (fip_leaf_count proof) (fip_siblings proof).

Lemma import_proof_complete d e s t leaves id :
  Forall import_hashed leaves -> id ∈ map fl_export_id leaves ->
  Z.of_nat (length leaves) <= u32_max ->
  exists proof, build_finalized_import_inclusion_proof leaves id = Some proof /\
    fip_leaf proof ∈ leaves /\ fl_export_id (fip_leaf proof) = id /\
    verify_finalized_import_inclusion_proof (import_merkle_root d e s t leaves) proof = true.
Proof.
  intros Hh Hid Hmax. rewrite <-(sort_by_perm finalized_import_leaf_ordering leaves) in Hid.
  apply (list_find_member _ fl_import_hash) in Hid as (i & leaf & Hf & Hin & Hk & Hi).
  unfold build_finalized_import_inclusion_proof, sort_finalized_import_leaves. rewrite Hf. eexists. split; [done|].
  simpl. rewrite elem_of_sort_by in Hin. split_and!; [done|done|].
  unfold verify_finalized_import_inclusion_proof. simpl. rewrite bool_decide_eq_false_2.
  2:{ intros Hne. apply Hne. rewrite Forall_forall in Hh. by apply Hh. }
  rewrite <-(length_map fl_import_hash (sort_by _ _)). apply path_accepts_complete; [done|].
  by rewrite length_map, length_sort_by.
Qed.

Context `{!CodecOk, !CodecSep}.

Lemma import_proof_sound d e s t leaves proof :
  Forall import_hashed leaves ->
  verify_finalized_import_inclusion_proof (import_merkle_root d e s t leaves) proof = true ->
  fip_leaf proof ∈ leaves \/ collision blake2_256.
Proof.
  intros Hh Hv. unfold verify_finalized_import_inclusion_proof in Hv.
  destruct (bool_decide _) eqn:Eb; [done|]. apply bool_decide_eq_false_1, dec_stable in Eb.
  rewrite <-(elem_of_sort_by finalized_import_leaf_ordering).
  assert (Forall import_hashed (fip_leaf proof :: sort_finalized_import_leaves leaves)) as Hall.
  { constructor; [done|by apply Forall_sort_by]. }
  rewrite Forall_forall in Hall.
  eapply path_accepts_sound; [..|exact Hv].
  - intros. by eapply node_hash_inj.
  - intros l r. apply hash_encode_ne, node_empty.
  - intros x Hx. rewrite (Hall x Hx). apply hash_encode_ne, import_leaf_empty.
  - intros x l r Hx. rewrite (Hall x Hx). apply hash_encode_ne, import_leaf_node.
  - intros x Hx. rewrite Eb, (Hall x) by set_solver. intros [E|?]%hash_encode_inj; [left|by right].
    apply import_hashed_inj; [done|apply Hall; set_solver|done].
Qed.
End Imports.

(** ** Governance leaves *)
Section Governance.
Context `{!Codec}.

Definition governance_merkle_empty_root (domain_id : DomainId)
    (epoch_id start_block_height end_block_height : Z) : hash :=
  blake2_256 (scale_encode
    (GOVERNANCE_MERKLE_EMPTY_LABEL, domain_id, epoch_id, start_block_height, end_block_height)).

Definition governance_merkle_parent_hash (l r : hash) : hash :=
  blake2_256 (scale_encode (GOVERNANCE_MERKLE_NODE_LABEL, l, r)).

Definition governance_merkle_root (domain_id : DomainId)
    (epoch_id start_block_height end_block_height : Z) (leaves : list GovernanceLeaf) : hash :=
  let ordered := sort_governance_leaves leaves in
  root_or_empty governance_merkle_parent_hash
    (governance_merkle_empty_root domain_id epoch_id start_block_height end_block_height)
    (map leaf_hash ordered).

Definition build_governance_inclusion_proof (leaves : list GovernanceLeaf) (target_leaf_hash : hash)
    : option GovernanceInclusionProof :=
  let ordered := sort_governance_leaves leaves in
  match list_find (fun leaf => leaf_hash leaf = target_leaf_hash) ordered with
  | None => None
  | Some (leaf_index, leaf) =>
    let level := map leaf_hash ordered in
    Some {| gip_version := GOVERNANCE_INCLUSION_PROOF_VERSION;
            gip_leaf := leaf;
            gip_leaf_index := as_u32 (Z.of_nat leaf_index);
            gip_leaf_count := as_u32 (Z.of_nat (length ordered));
            gip_siblings :=
              build_siblings governance_merkle_parent_hash (length level) leaf_index level |}
  end.

Definition verify_governance_inclusion_proof (governance_root : hash)
    (proof : GovernanceInclusionProof) : bool :=
  let leaf := gip_leaf proof in
  if bool_decide (leaf_hash leaf <> compute_leaf_hash leaf) then false
  else path_accepts governance_merkle_parent_hash governance_root (leaf_hash leaf)
         (gip_leaf_index proof) (gip_leaf_count proof) (gip_siblings proof).

(** Leaves as the governance pallet creates and accepts them. *)
Definition leaf_plain (l : GovernanceLeaf) : Prop :=
  match l with
  | ProposalV1 p => plain_targets (gpl_target_domains p)
  | AckV1 a => plain_targets (gal_target_domains a)
  end.

Lemma governance_proof_complete d e s t leaves h :
  Forall leaf_hashed leaves -> h ∈ map leaf_hash leaves ->
  Z.of_nat (length leaves) <= u32_max ->
  exists proof, build_governance_inclusion_proof leaves h = Some proof /\
    gip_leaf proof ∈ leaves /\ leaf_hash (gip_leaf proof) = h /\
    verify_governance_inclusion_proof (governance_merkle_root d e s t leaves) proof = true.
Proof.
  intros Hh Hid Hmax. rewrite <-(sort_by_perm governance_leaf_ordering leaves) in Hid.
  apply (list_find_member _ leaf_hash) in Hid as (i & leaf & Hf & Hin & Hk & Hi).
  unfold build_governance_inclusion_proof, sort_governance_leaves. rewrite Hf. eexists. split; [done|].
  simpl. rewrite elem_of_sort_by in Hin. split_and!; [done|done|].
  unfold verify_governance_inclusion_proof. simpl. rewrite bool_decide_eq_false_2.
  2:{ intros Hne. apply Hne. rewrite Forall_forall in Hh. by apply Hh. }
  rewrite <-(length_map leaf_hash (sort_by _ _)). apply path_accepts_complete; [done|].
  by rewrite length_map, length_sort_by.
Qed.

Context `{!CodecOk, !CodecSep}.

Lemma leaf_hash_node leaf (l r : hash) :
  leaf_plain leaf -> compute_leaf_hash leaf = governance_merkle_parent_hash l r -> collision blake2_256.
Proof.
  destruct leaf; simpl.
  - intros _. apply hash_encode_ne, proposal_leaf_node.
  - intros Hp. by apply hash_encode_ne, ack_leaf_node.
Qed.

Lemma leaf_hash_empty leaf d e s t :
  compute_leaf_hash leaf = governance_merkle_empty_root d e s t -> collision blake2_256.
Proof.
  destruct leaf; simpl; apply hash_encode_ne; [apply proposal_leaf_empty|apply ack_leaf_empty].
Qed.

Lemma leaf_hash_inj l l' :
  leaf_plain l -> leaf_plain l' -> leaf_hashed l -> leaf_hashed l' ->
  compute_leaf_hash l = compute_leaf_hash l' -> l = l' \/ collision blake2_256.
Proof.
  destruct l as [p|a], l' as [p'|a']; simpl; intros Hp Hp' Hh Hh' E.
  - apply hash_encode_inj in E as [E|?]; [left; f_equal; by apply proposal_hashed_inj|by right].
  - right. revert E. by apply hash_encode_ne, proposal_ack_leaf.
  - right. symmetry in E. revert E. by apply hash_encode_ne, proposal_ack_leaf.
  - apply hash_encode_inj in E as [E|?]; [left; f_equal; by apply ack_hashed_inj|by right].
Qed.

Lemma governance_proof_sound d e s t leaves proof :
  Forall leaf_hashed leaves -> Forall leaf_plain leaves -> leaf_plain (gip_leaf proof) ->
  verify_governance_inclusion_proof (governance_merkle_root d e s t leaves) proof = true ->
  gip_leaf proof ∈ leaves \/ collision blake2_256.
Proof.
  intros Hh Hp Hpl Hv. unfold verify_governance_inclusion_proof in Hv.
  destruct (bool_decide _) eqn:Eb; [done|]. apply bool_decide_eq_false_1, dec_stable in Eb.
  rewrite <-(elem_of_sort_by governance_leaf_ordering).
  assert (Forall (fun l => leaf_hashed l /\ leaf_plain l)
            (gip_leaf proof :: sort_governance_leaves leaves)) as Hall.
  { constructor; [done|]. apply Forall_sort_by. by apply Forall_and. }
  rewrite Forall_forall in Hall.
  eapply path_accepts_sound; [..|exact Hv].
  - intros. by eapply node_hash_inj.
  - intros l r. apply hash_encode_ne, node_empty.
  - intros x Hx. rewrite (proj1 (Hall x Hx)). apply leaf_hash_empty.
  - intros x l r Hx. rewrite (proj1 (Hall x Hx)). by apply leaf_hash_node, Hall.
  - intros x Hx. rewrite Eb. destruct (Hall x ltac:(set_solver)) as [Hxh Hxp]. rewrite Hxh.
    by apply leaf_hash_inj.
Qed.
End Governance.

(** ** Properties *)
Section Properties.
Context `{!Codec}.

(** Every committed export has a proof: for an epoch's well-hashed leaves
    (fewer than 2^32), [build_export_inclusion_proof] finds the export and the
    proof it returns verifies against [export_merkle_root] of the same leaves. *)
Theorem export_inclusion_complete d e s t leaves id :
  Forall export_hashed leaves -> id ∈ map el_export_id leaves ->
  Z.of_nat (length leaves) <= u32_max ->
  exists proof, build_export_inclusion_proof leaves id = Some proof /\
    eip_leaf proof ∈ leaves /\ el_export_id (eip_leaf proof) = id /\
    verify_export_inclusion_proof (export_merkle_root d e s t leaves) proof = true.
Proof. apply export_proof_complete. Qed.

(** The root does not depend on the order in which an epoch's exports are
    collected, and neither does the proof of any export. *)
Theorem export_root_order_independent d e s t leaves leaves' id :
  NoDup (map el_export_id leaves) -> leaves ≡ₚ leaves' ->
  export_merkle_root d e s t leaves = export_merkle_root d e s t leaves' /\
  build_export_inclusion_proof leaves id = build_export_inclusion_proof leaves' id.
Proof.
  intros Hnd Hp. unfold export_merkle_root, build_export_inclusion_proof, sort_export_leaves.
  rewrite (sort_by_permutation export_leaf_ordering leaves leaves'); [done| |done].
  intros x y Hx Hy Hk%export_leaf_ordering_eq. by eapply (NoDup_map_key el_export_id).
Qed.

Context `{!CodecOk, !CodecSep}.

(** C13: no export is accepted that was not committed: whatever leaf, index,
    count and siblings a proof carries, if it verifies against the root of an
    epoch's exports then its leaf is one of them, or [blake2_256] collides. *)
Theorem export_inclusion_sound d e s t leaves proof :
  Forall export_hashed leaves ->
  verify_export_inclusion_proof (export_merkle_root d e s t leaves) proof = true ->
  eip_leaf proof ∈ leaves \/ collision blake2_256.
Proof. apply export_proof_sound. Qed.

Lemma export_root_subset d e s t d' e' s' t' leaves leaves' :
  Forall export_hashed leaves -> Forall export_hashed leaves' ->
  NoDup (map el_export_id leaves) -> Z.of_nat (length leaves) <= u32_max ->
  export_merkle_root d e s t leaves = export_merkle_root d' e' s' t' leaves' ->
  leaves ⊆ leaves' \/ collision blake2_256.
Proof.
  intros Hh Hh' Hnd Hlen E.
  assert (forall l, l ∈ leaves -> l ∈ leaves' \/ collision blake2_256) as Hm.
  { intros l Hl.
    destruct (export_proof_complete d e s t leaves (el_export_id l)) as (p & _ & Hp & Hid & Hv);
      [done|apply list_elem_of_fmap; eauto|done|].
    rewrite (NoDup_map_key el_export_id leaves l (eip_leaf p)) by done.
    rewrite E in Hv. by eapply export_proof_sound. }
  clear -Hm. induction leaves as [|l leaves IH]; [left; set_solver|].
  destruct (Hm l) as [?|?]; [set_solver| |by right].
  destruct IH as [?|?]; [intros; apply Hm; set_solver|left; set_solver|by right].
Qed.

(** An export root binds its epoch's exports: two lists of well-hashed
    exports with distinct identifiers and the same root are the same up to
    order, even across domains, epochs and height ranges, or [blake2_256]
    collides.  Distinct identifiers matter: see [export_root_duplicate_last]. *)
Theorem export_root_binding d e s t d' e' s' t' leaves leaves' :
  Forall export_hashed leaves -> Forall export_hashed leaves' ->
  NoDup (map el_export_id leaves) -> NoDup (map el_export_id leaves') ->
  Z.of_nat (length leaves) <= u32_max -> Z.of_nat (length leaves') <= u32_max ->
  export_merkle_root d e s t leaves = export_merkle_root d' e' s' t' leaves' ->
  leaves ≡ₚ leaves' \/ collision blake2_256.
Proof.
  intros Hh Hh' Hn Hn' Hl Hl' E.
  destruct (export_root_subset d e s t d' e' s' t' leaves leaves') as [Hs1|?]; [done..| |by right].
  destruct (export_root_subset d' e' s' t' d e s t leaves' leaves) as [Hs2|?]; [done..| |by right].
  left. apply NoDup_Permutation; [by eapply NoDup_fmap_1, Hn|by eapply NoDup_fmap_1, Hn'|].
  intros x. split; [apply Hs1|apply Hs2].
Qed.

(** The construction pairs a last odd hash with itself, so a list that ends in
    the same export twice has the root of the list that has it once. *)
Lemma export_root_duplicate_last a b c :
  merkle_root export_merkle_parent_hash [a; b; c] = merkle_root export_merkle_parent_hash [a; b; c; c].
Proof. done. Qed.

(** Finalized-import proofs are exact: each committed import has a proof
    that verifies, and a proof that verifies is of a committed import, or
    [blake2_256] collides. *)
Theorem import_inclusion_exact d e s t leaves :
  Forall import_hashed leaves -> Z.of_nat (length leaves) <= u32_max ->
  (forall id, id ∈ map fl_export_id leaves ->
     exists proof, build_finalized_import_inclusion_proof leaves id = Some proof /\
       fip_leaf proof ∈ leaves /\ fl_export_id (fip_leaf proof) = id /\
       verify_finalized_import_inclusion_proof (import_merkle_root d e s t leaves) proof = true) /\
  (forall proof,
     verify_finalized_import_inclusion_proof (import_merkle_root d e s t leaves) proof = true ->
     fip_leaf proof ∈ leaves \/ collision blake2_256).
Proof.
  intros Hh Hl. split; intros.
  - by apply import_proof_complete.
  - by eapply import_proof_sound.
Qed.

(** Governance proofs are exact for leaves in the form the pallet produces:
    each committed leaf has a proof that verifies, and a proof of such a leaf
    that verifies is of a committed leaf, or [blake2_256] collides.  A proposal
    is never taken for an acknowledgement or the other way round. *)
Theorem governance_inclusion_exact d e s t leaves :
  Forall leaf_hashed leaves -> Forall leaf_plain leaves -> Z.of_nat (length leaves) <= u32_max ->
  (forall h, h ∈ map leaf_hash leaves ->
     exists proof, build_governance_inclusion_proof leaves h = Some proof /\
       gip_leaf proof ∈ leaves /\ leaf_hash (gip_leaf proof) = h /\
       verify_governance_inclusion_proof (governance_merkle_root d e s t leaves) proof = true) /\
  (forall proof, leaf_plain (gip_leaf proof) ->
     verify_governance_inclusion_proof (governance_merkle_root d e s t leaves) proof = true ->
     gip_leaf proof ∈ leaves \/ collision blake2_256).
Proof.
  intros Hh Hp Hl. split; intros.
  - by apply governance_proof_complete.
  - by eapply governance_proof_sound.
Qed.
End Properties.

(** ** Witnesses, in the reference codec *)
Section Witnesses.
#[local] Existing Instance reference_codec.

(** Three exports of one block, out of canonical order. *)
Definition example_export (n : Z) : ExportLeaf :=
  export_from_hash_input
    {| eli_version := EXPORT_LEAF_VERSION; eli_export_id := [n]; eli_source_domain := Earth;
       eli_target_domain := Mars; eli_sender := [1]; eli_recipient := [2]; eli_amount := 10 * n;
       eli_source_epoch_id := 0; eli_source_block_height := 3; eli_extrinsic_index := 4 - n |}.
Definition example_exports : list ExportLeaf := map example_export [1; 2; 3].

Lemma example_exports_hashed : Forall export_hashed example_exports.
Proof. repeat constructor. Qed.

Lemma export_inclusion_complete_witness :
  exists proof, build_export_inclusion_proof example_exports [2] = Some proof /\
    eip_leaf proof ∈ example_exports /\ el_export_id (eip_leaf proof) = [2] /\
    verify_export_inclusion_proof (export_merkle_root Earth 0 1 3 example_exports) proof = true.
Proof.
  apply (export_inclusion_complete Earth 0 1 3 example_exports [2]).
  - apply example_exports_hashed.
  - simpl. set_solver.
  - vm_compute. congruence.
Defined.

Lemma export_root_order_independent_witness :
  export_merkle_root Earth 0 1 3 example_exports
  = export_merkle_root Earth 0 1 3 (reverse example_exports) /\
  build_export_inclusion_proof example_exports [2]
  = build_export_inclusion_proof (reverse example_exports) [2].
Proof.
  apply (export_root_order_independent Earth 0 1 3 example_exports (reverse example_exports) [2]).
  - vm_compute. repeat constructor; set_solver.
  - symmetry. apply reverse_Permutation.
Defined.

Lemma export_inclusion_sound_witness :
  exists proof, build_export_inclusion_proof example_exports [3] = Some proof /\
    (eip_leaf proof ∈ example_exports \/ collision blake2_256).
Proof.
  eexists. split; [vm_compute; reflexivity|].
  apply (export_inclusion_sound Earth 0 1 3 example_exports).
  - apply example_exports_hashed.
  - vm_compute. reflexivity.
Defined.

Lemma export_root_binding_witness :
  example_exports ≡ₚ reverse example_exports \/ collision blake2_256.
Proof.
  apply (export_root_binding Earth 0 1 3 Earth 0 1 3 example_exports (reverse example_exports)).
  - apply example_exports_hashed.
  - rewrite reverse_Permutation. apply example_exports_hashed.
  - vm_compute. repeat constructor; set_solver.
  - vm_compute. repeat constructor; set_solver.
  - vm_compute. congruence.
  - vm_compute. congruence.
  - apply (bool_decide_unpack _). vm_compute. exact I.
Defined.

Definition example_import (n : Z) : FinalizedImportLeaf :=
  import_from_hash_input
    {| fli_version := FINALIZED_IMPORT_LEAF_VERSION; fli_export_id := [n]; fli_source_domain := Earth;
       fli_target_domain := Mars; fli_recipient := [2]; fli_amount := 10 * n;
       fli_source_epoch_id := 0; fli_summary_hash := [5]; fli_package_hash := [6] |}.

Lemma import_inclusion_exact_witness :
  exists proof, build_finalized_import_inclusion_proof (map example_import [2; 1]) [1] = Some proof /\
    fip_leaf proof ∈ map example_import [2; 1] /\ fl_export_id (fip_leaf proof) = [1] /\
    verify_finalized_import_inclusion_proof
      (import_merkle_root Mars 4 1 3 (map example_import [2; 1])) proof = true.
Proof.
  apply (import_inclusion_exact Mars 4 1 3 (map example_import [2; 1])).
  - repeat constructor.
  - vm_compute. congruence.
  - simpl. set_solver.
Defined.

Definition example_ack (d : DomainId) : GovernanceLeaf :=
  AckV1 (ack_from_hash_input
    {| gai_version := GOVERNANCE_ACK_LEAF_VERSION; gai_proposal_id := [7]; gai_source_domain := Earth;
       gai_target_domain := d; gai_acknowledging_domain := Mars; gai_target_domains := [Moon; Mars];
       gai_payload_hash := [8]; gai_new_protocol_version := 2; gai_activation_epoch := 9;
       gai_acknowledged_epoch := 5 |}).

Lemma governance_inclusion_exact_witness :
  exists proof, build_governance_inclusion_proof (map example_ack [Moon; Earth])
      (leaf_hash (example_ack Moon)) = Some proof /\
    gip_leaf proof ∈ map example_ack [Moon; Earth] /\
    leaf_hash (gip_leaf proof) = leaf_hash (example_ack Moon) /\
    verify_governance_inclusion_proof
      (governance_merkle_root Mars 5 1 3 (map example_ack [Moon; Earth])) proof = true.
Proof.
  apply (governance_inclusion_exact Mars 5 1 3 (map example_ack [Moon; Earth])).
  - repeat constructor.
  - unfold plain_targets. repeat constructor; simpl; lia.
  - vm_compute. congruence.
  - apply list_elem_of_here.
Defined.
End Witnesses.
