(* ===== verification/Frame.v ===== *)
(** * What the pallets use of FRAME

    FRAME, the balances pallet and the account type are third-party code.  The
    pallets see them through the interfaces of this file: the system values of
    the block being executed, the dispatch origin, the account type with its
    encoding, and the [fungible] traits of the currency with the laws their
    documentation states.  A dispatchable returns [result]: FRAME discards every
    storage change of a call that returns an error. *)

From S2P Require Import Prelude Types.

(** ** The executing block ([frame_system::Pallet]) *)
Record System : Type := mkSystem {
  sys_block_number : Z;
  sys_parent_hash : hash;
  sys_extrinsic_index : option Z;
  sys_extrinsic_count : Z;
  sys_all_extrinsics_len : Z;
  sys_event_count : Z;
  sys_storage_root : hash
}.

(** [n.saturated_into::<u32>()]. *)
Definition saturated_into_u32 (n : Z) : Z := Z.min n u32_max.

Lemma saturated_into_u32_small n : n <= u32_max -> saturated_into_u32 n = n.
Proof. unfold saturated_into_u32. lia. Qed.
#[export] Hint Resolve saturated_into_u32_small : ialp.

(** ** Accounts and origins *)

(** [T::AccountId] with its SCALE encoding and its order. *)
Class Account := {
  AccountId : Type;
  account_eq_dec :: EqDecision AccountId;
  account_countable :: Countable AccountId;
  account_cmp : AccountId -> AccountId -> comparison;
  account_encode : AccountId -> bytes;
  account_decode : bytes -> option AccountId
}.

(** An account encodes to at most 32 bytes and decodes from them, whatever
    follows; its [Ord] is a total order. *)
Class AccountOk `{!Account} : Prop := {
  account_encode_length : forall a, (length (account_encode a) <= 32)%nat;
  account_decode_encode : forall a rest, account_decode (account_encode a ++ rest) = Some a;
  account_cmp_total :: TotalCmp account_cmp;
  account_cmp_eq : forall a b, account_cmp a b = Eq -> a = b
}.

Section Accounts.
Context `{!Account}.

Inductive Origin : Type :=
| Signed (who : AccountId)
| Root
| Unsigned.

(** [ensure_signed]. *)
Definition ensure_signed (origin : Origin) : option AccountId :=
  match origin with Signed who => Some who | _ => None end.

(** [fixed_bytes(&account.encode())]: the account as [[u8; 32]]; an encoding
    longer than 32 bytes would panic ([account_to_bytes_spec]). *)
Definition account_to_bytes (account : AccountId) : hash :=
  default [] (fixed_bytes 32 (account_encode account)).

(** [T::AccountId::decode(&mut &bytes[..]).ok()]. *)
Definition account_from_bytes (b : hash) : option AccountId := account_decode b.

Context `{!AccountOk}.

Lemma account_to_bytes_spec a :
  fixed_bytes 32 (account_encode a) = Some (account_to_bytes a) /\
  account_from_bytes (account_to_bytes a) = Some a.
Proof.
  unfold account_to_bytes, account_from_bytes, fixed_bytes.
  rewrite (proj2 (Nat.leb_le _ _) (account_encode_length a)).
  split; [done|apply account_decode_encode].
Qed.

#[export] Instance account_to_bytes_inj : Inj (=) (=) account_to_bytes.
Proof.
  intros a b E. apply (inj Some).
  by rewrite <-(proj2 (account_to_bytes_spec a)), <-(proj2 (account_to_bytes_spec b)), E.
Qed.
End Accounts.

(** ** The currency

    The operations of [fungible::{Inspect, Mutate, MutateHold}] the pallets
    call, on the state [B] of the balances pallet.  [cur_held] is the balance on
    hold for [HoldReason::CrossDomainTransfer], which no other pallet uses;
    [cur_balance] is the balance outside holds. *)
Class Currency `{!Account} (B : Type) := {
  cur_balance : B -> AccountId -> Z;
  cur_held : B -> AccountId -> Z;
  cur_total_issuance : B -> Z;
  cur_hold : B -> AccountId -> Z -> option B;
  cur_mint_into : B -> AccountId -> Z -> option B;
  cur_burn_held : B -> AccountId -> Z -> option B
}.

(** [f'] is [f] with [delta] added at [who]. *)
Definition shifts `{!Account} (f f' : AccountId -> Z) (who : AccountId) (delta : Z) : Prop :=
  forall a, f' a = f a + (if decide (a = who) then delta else 0).

Class CurrencyOk `{!Account} (B : Type) `{!Currency B} : Prop := {
  cur_balance_nonneg : forall b a, 0 <= cur_balance b a;
  cur_held_nonneg : forall b a, 0 <= cur_held b a;
  (** [hold] moves free balance to the hold. *)
  cur_hold_spec : forall b who amount b',
    cur_hold b who amount = Some b' ->
    shifts (cur_held b) (cur_held b') who amount /\
    shifts (cur_balance b) (cur_balance b') who (- amount) /\
    cur_total_issuance b' = cur_total_issuance b;
  (** [mint_into] creates free balance. *)
  cur_mint_spec : forall b who amount b',
    cur_mint_into b who amount = Some b' ->
    (forall a, cur_held b' a = cur_held b a) /\
    shifts (cur_balance b) (cur_balance b') who amount /\
    cur_total_issuance b' = cur_total_issuance b + amount;
  (** [burn_held] with [Precision::Exact] and [Fortitude::Force] destroys
      exactly the amount, and fails only when less is on hold. *)
  cur_burn_spec : forall b who amount b',
    cur_burn_held b who amount = Some b' ->
    shifts (cur_held b) (cur_held b') who (- amount) /\
    (forall a, cur_balance b' a = cur_balance b a) /\
    cur_total_issuance b' = cur_total_issuance b - amount;
  cur_burn_total : forall b who amount,
    0 <= amount <= cur_held b who -> is_Some (cur_burn_held b who amount)
}.

(** ** Reference instances for the witnesses *)

(** Accounts are integers, encoded as one element. *)
Definition reference_account : Account := {|
  AccountId := Z;
  account_cmp := Z.compare;
  account_encode a := [a];
  account_decode b := head b
|}.

Lemma reference_account_ok : @AccountOk reference_account.
Proof.
  split; simpl; [intros; lia|done|apply _|]. intros a b. apply Z.compare_eq.
Qed.

(** A ledger: free and held amounts per account, never negative. *)
Record Ledger : Type := mkLedger { led_free : gmap Z N; led_held : gmap Z N }.
Definition amount_at (m : gmap Z N) (a : Z) : Z := Z.of_N (default 0%N (m !! a)).
Definition add_at (m : gmap Z N) (a delta : Z) : gmap Z N :=
  <[a := Z.to_N (amount_at m a + delta)]> m.
Definition total_of (m : gmap Z N) : Z := map_sum Z.of_N m.

Definition reference_currency : @Currency reference_account Ledger :=
  @Build_Currency reference_account Ledger
    (fun b a => amount_at (led_free b) a)
    (fun b a => amount_at (led_held b) a)
    (fun b => total_of (led_free b) + total_of (led_held b))
    (fun b who amount =>
      if (0 <=? amount) && (amount <=? amount_at (led_free b) who)
      then Some (mkLedger (add_at (led_free b) who (- amount)) (add_at (led_held b) who amount))
      else None)
    (fun b who amount =>
      if 0 <=? amount then Some (mkLedger (add_at (led_free b) who amount) (led_held b)) else None)
    (fun b who amount =>
      if (0 <=? amount) && (amount <=? amount_at (led_held b) who)
      then Some (mkLedger (led_free b) (add_at (led_held b) who (- amount)))
      else None).

Lemma amount_at_add m a delta x :
  0 <= amount_at m a + delta ->
  amount_at (add_at m a delta) x = amount_at m x + (if decide (x = a) then delta else 0).
Proof.
  intros Hn. unfold add_at, amount_at at 1. destruct (decide (x = a)) as [->|Hne].
  - rewrite lookup_insert_eq. simpl. rewrite Z2N.id; done.
  - rewrite lookup_insert_ne by done. unfold amount_at. lia.
Qed.

Lemma total_of_add m a delta :
  0 <= amount_at m a + delta -> total_of (add_at m a delta) = total_of m + delta.
Proof.
  intros Hn. unfold total_of, add_at. rewrite map_sum_insert, Z2N.id by done.
  unfold amount_at. destruct (m !! a); simpl; lia.
Qed.

Lemma amount_at_nonneg m a : 0 <= amount_at m a.
Proof. unfold amount_at. lia. Qed.

Lemma reference_currency_ok : @CurrencyOk reference_account Ledger reference_currency.
Proof.
  split; simpl; intros.
  - apply amount_at_nonneg.
  - apply amount_at_nonneg.
  - dispatch_inv H. bool_to_prop. subst. pose proof (amount_at_nonneg (led_held b) who).
    unfold shifts. simpl. rewrite !total_of_add by lia.
    split_and!; [intros a; by apply amount_at_add; lia..|lia].
  - dispatch_inv H. bool_to_prop. subst. pose proof (amount_at_nonneg (led_free b) who).
    unfold shifts. simpl. rewrite !total_of_add by lia.
    split_and!; [done|intros a; by apply amount_at_add; lia|lia].
  - dispatch_inv H. bool_to_prop. subst.
    unfold shifts. simpl. rewrite !total_of_add by lia.
    split_and!; [intros a; by apply amount_at_add; lia|done|lia].
  - rewrite (proj2 (Z.leb_le 0 amount)), (proj2 (Z.leb_le amount _)) by lia. by eexists.
Qed.

(** ** Values for examples *)

(** An account of the reference instance. *)
Definition acct (z : Z) : @AccountId reference_account := z.

(** A block's system values. *)
Definition example_sys : System := mkSystem 9 [8] (Some 1) 2 80 3 [9].

(** The state after a call, or the old one when it failed. *)
Definition ok_or {E A} (a : A) (r : result E A) : A := match r with Ok x => x | Err _ => a end.
