(* ===== verification/Domain.v ===== *)
(** * The domain pallet ([chain/pallets/domain/src/lib.rs])

    The chain's identity, written at genesis and announced by one event. *)

From S2P Require Import Prelude Types Codec Frame.

Inductive DomainEvent : Type :=
| DomainIdentityActivated (domain_id : DomainId) (chain_id : bytes).

Record DomainState : Type := mkDomainState {
  ds_chain_identity : ChainIdentity;
  ds_domain_id : DomainId;
  ds_identity_announced : bool;
  ds_events : list DomainEvent
}.

#[export] Instance DomainState_settable : Settable DomainState :=
    fun r => mkDomainState (ds_chain_identity r) (ds_domain_id r) (ds_identity_announced r)
    (ds_events r).

(** [GenesisConfig::default]: the four fixed-width fields are literals that fit
    ([default_chain_identity_fits]). *)
Definition default_chain_identity : option ChainIdentity :=
  chain_id ← fixed_bytes CHAIN_ID_BYTES (str_bytes "ialp-earth-local");
  chain_name ← fixed_bytes CHAIN_NAME_BYTES (str_bytes "IALP Earth");
  token_symbol ← fixed_bytes TOKEN_SYMBOL_BYTES (str_bytes "IALP");
  Some {| ci_domain_id := Earth;
          ci_chain_id := chain_id;
          ci_chain_name := chain_name;
          ci_token_symbol := token_symbol;
          ci_token_decimals := 12 |}.

(** [BuildGenesisConfig::build]. *)
Definition domain_genesis (chain_identity : ChainIdentity) : DomainState :=
  {| ds_chain_identity := chain_identity;
     ds_domain_id := ci_domain_id chain_identity;
     ds_identity_announced := false;
     ds_events := [] |}.

(** [Hooks::on_initialize]. *)
Definition domain_on_initialize (block_number : Z) (st : DomainState) : DomainState :=
  if (block_number =? 0) || ds_identity_announced st then st
  else
    let identity := ds_chain_identity st in
    st {{ ds_events ::= fun evs =>
            evs ++ [DomainIdentityActivated (ci_domain_id identity) (ci_chain_id identity)] }}
       {{ ds_identity_announced := true }}.

Lemma default_chain_identity_fits : is_Some default_chain_identity.
Proof. vm_compute. by eexists. Qed.

(** The hook changes neither the identity nor the domain. *)
Lemma domain_on_initialize_id n st : ds_domain_id (domain_on_initialize n st) = ds_domain_id st.
Proof. unfold domain_on_initialize. by destruct (_ || _). Qed.

Lemma domain_on_initialize_announced n st :
  n <> 0 -> ds_identity_announced (domain_on_initialize n st) = true.
Proof.
  intros Hn. unfold domain_on_initialize. rewrite (proj2 (Z.eqb_neq n 0) Hn).
  by destruct (ds_identity_announced st) eqn:E.
Qed.

Lemma domain_on_initialize_done n st :
  ds_identity_announced st = true -> domain_on_initialize n st = st.
Proof. intros E. unfold domain_on_initialize. by rewrite E, orb_true_r. Qed.

(** The hooks of blocks [1 .. n] from genesis. *)
Fixpoint domain_run (identity : ChainIdentity) (n : nat) : DomainState :=
  match n with
  | O => domain_genesis identity
  | S n' => domain_on_initialize (Z.of_nat n) (domain_run identity n')
  end.

(** The chain announces its identity exactly once, in its first block, with
    the domain and chain id of genesis, and the stored domain never changes. *)
Theorem domain_announced_once identity n :
  ds_domain_id (domain_run identity n) = ci_domain_id identity /\
  ds_events (domain_run identity n)
  = match n with
    | O => []
    | S _ => [DomainIdentityActivated (ci_domain_id identity) (ci_chain_id identity)]
    end.
Proof.
  induction n as [|[|n] IH]; [done|done|]. destruct IH as [Hd He].
  cbn [domain_run] in *. rewrite domain_on_initialize_done; [done|].
  apply domain_on_initialize_announced. lia.
Qed.
