(* ===== verification/Epochs.v ===== *)
(** * The epochs pallet ([chain/pallets/epochs/src/lib.rs])

    The pallet cuts the chain into epochs of a fixed number of blocks.  During
    an epoch it folds every block into the accumulators of the epoch's slot; at
    the first block after the epoch it asks the other pallets for their
    commitments, writes the epoch's summary header and chains it to the previous
    one by hash.

    The traits of the pallet's [Config] are the class [EpochProviders] over the
    rest of the runtime's state [W]: the commitments are computed by pallets that
    change their own state while doing so. *)

From S2P Require Import Prelude Types Codec Reference Frame.

(** ** Data *)

Inductive SummarySlotStatus : Type := Reserved | Staged.
#[export] Instance SummarySlotStatus_eq_dec : EqDecision SummarySlotStatus.
Proof. solve_decision. Defined.

Record PendingBlockObservation : Type := mkPendingBlockObservation {
  pbo_block_number : Z;
  pbo_state_root : hash;
  pbo_extrinsic_count : Z;
  pbo_all_extrinsics_len : Z;
  pbo_event_count : Z
}.

#[export] Instance PendingBlockObservation_settable : Settable PendingBlockObservation :=
    fun r => mkPendingBlockObservation (pbo_block_number r) (pbo_state_root r)
    (pbo_extrinsic_count r) (pbo_all_extrinsics_len r) (pbo_event_count r).

Record EpochAccumulators : Type := mkEpochAccumulators {
  acc_state_root : hash;
  acc_block_root : hash;
  acc_tx_root : hash;
  acc_event_root : hash;
  acc_blocks_observed : Z;
  acc_last_observed_block : Z
}.

#[export] Instance EpochAccumulators_settable : Settable EpochAccumulators :=
    fun r => mkEpochAccumulators (acc_state_root r) (acc_block_root r) (acc_tx_root r)
    (acc_event_root r) (acc_blocks_observed r) (acc_last_observed_block r).

Record SummarySlotRecord : Type := mkSummarySlotRecord {
  slot_epoch_id : Z;
  slot_start_height : Z;
  slot_end_height : option Z;
  slot_reserved_at_block : Z;
  slot_staged_at_block_number : option Z;
  slot_last_touched_block : Z;
  slot_header : option EpochSummaryHeader;
  slot_status : SummarySlotStatus;
  slot_accumulators : EpochAccumulators
}.

#[export] Instance SummarySlotRecord_settable : Settable SummarySlotRecord :=
    fun r => mkSummarySlotRecord (slot_epoch_id r) (slot_start_height r) (slot_end_height r)
    (slot_reserved_at_block r) (slot_staged_at_block_number r) (slot_last_touched_block r)
    (slot_header r) (slot_status r) (slot_accumulators r).

Inductive EpochsEvent : Type :=
| EpochClosed (epoch_id start_height end_height : Z)
| SummarySlotReserved (epoch_id : Z)
| EpochSummaryCreated (epoch_id staged_at_block_number : Z) (summary_hash : hash)
| SummaryHashCommitted (epoch_id : Z) (summary_hash prev_summary_hash : hash).

(** The pallet's storage items. *)
Record EpochsState : Type := mkEpochsState {
  es_epoch_length_blocks : Z;
  es_current_epoch : Z;
  es_current_epoch_start : Z;
  es_summary_slots : gmap Z SummarySlotRecord;
  es_summary_headers : gmap Z EpochSummaryHeader;
  es_latest_summary_header : option EpochSummaryHeader;
  es_latest_summary_hash : hash;
  es_summary_count : Z;
  es_pending : option PendingBlockObservation;
  es_initialized : bool;
  es_events : list EpochsEvent
}.

#[export] Instance EpochsState_settable : Settable EpochsState :=
    fun r => mkEpochsState (es_epoch_length_blocks r) (es_current_epoch r) (es_current_epoch_start
    r) (es_summary_slots r) (es_summary_headers r) (es_latest_summary_header r)
    (es_latest_summary_hash r) (es_summary_count r) (es_pending r) (es_initialized r) (es_events
    r).

(** [SummaryContext] and the three commitment providers. *)
Class EpochProviders (W : Type) := {
  ctx_domain_id : W -> DomainId;
  ctx_validator_set_hash : W -> hash;
  commit_epoch_exports_hook : Z -> Z -> Z -> W -> hash * W;
  commit_epoch_imports_hook : Z -> Z -> Z -> W -> hash * W;
  commit_epoch_governance_hook : Z -> Z -> Z -> W -> hash * W
}.

(** Committing changes neither the domain nor the validator set. *)
Class EpochProvidersOk (W : Type) `{!EpochProviders W} : Prop := {
  exports_keep_context : forall e s t w,
    ctx_domain_id (commit_epoch_exports_hook e s t w).2 = ctx_domain_id w;
  imports_keep_context : forall e s t w,
    ctx_domain_id (commit_epoch_imports_hook e s t w).2 = ctx_domain_id w;
  governance_keep_context : forall e s t w,
    ctx_domain_id (commit_epoch_governance_hook e s t w).2 = ctx_domain_id w
}.

(** ** Operations *)
Section Epochs.
Context `{!Codec, !EpochProviders W}.
Implicit Types (w : W) (st : EpochsState) (sys : System).

(** [BuildGenesisConfig::build]. *)
Definition epochs_genesis (epoch_length_blocks : Z) : EpochsState :=
  {| es_epoch_length_blocks := Z.max epoch_length_blocks 1;
     es_current_epoch := 0;
     es_current_epoch_start := 1;
     es_summary_slots := ∅;
     es_summary_headers := ∅;
     es_latest_summary_header := None;
     es_latest_summary_hash := EMPTY_HASH;
     es_summary_count := 0;
     es_pending := None;
     es_initialized := false;
     es_events := [] |}.

Definition deposit_epochs_event (ev : EpochsEvent) st : EpochsState :=
  st {{ es_events ::= fun evs => evs ++ [ev] }}.

Definition seed_accumulators (domain_id : DomainId) (epoch_id : Z) : EpochAccumulators :=
  {| acc_state_root := EMPTY_HASH;
     acc_block_root := seed_epoch_accumulator BLOCK_ROOT_LABEL domain_id epoch_id;
     acc_tx_root := seed_epoch_accumulator TX_ROOT_LABEL domain_id epoch_id;
     acc_event_root := seed_epoch_accumulator EVENT_ROOT_LABEL domain_id epoch_id;
     acc_blocks_observed := 0;
     acc_last_observed_block := 0 |}.

Definition reserve_slot w (epoch_id start_height block_number : Z) st : EpochsState :=
  let domain_id := ctx_domain_id w in
  let record :=
    {| slot_epoch_id := epoch_id;
       slot_start_height := start_height;
       slot_end_height := None;
       slot_reserved_at_block := block_number;
       slot_staged_at_block_number := None;
       slot_last_touched_block := block_number;
       slot_header := None;
       slot_status := Reserved;
       slot_accumulators := seed_accumulators domain_id epoch_id |} in
  deposit_epochs_event (SummarySlotReserved epoch_id)
    (st {{ es_summary_slots ::= <[epoch_id := record]> }}).

(** The accumulator part of [fold_observation_into_slot]. *)
Definition fold_observation (parent_hash : hash) (block_number : Z) (o : PendingBlockObservation)
    (a : EpochAccumulators) : EpochAccumulators :=
  {| acc_state_root := pbo_state_root o;
     acc_block_root := fold_epoch_accumulator (acc_block_root a) block_number parent_hash;
     acc_tx_root := fold_epoch_accumulator (acc_tx_root a) block_number
       (tx_envelope_hash block_number (pbo_extrinsic_count o) (pbo_all_extrinsics_len o));
     acc_event_root := fold_epoch_accumulator (acc_event_root a) block_number
       (event_envelope_hash block_number (pbo_event_count o));
     acc_blocks_observed := sat_add u32_max (acc_blocks_observed a) 1;
     acc_last_observed_block := block_number |}.

Definition fold_observation_into_slot sys (slot : SummarySlotRecord) (block_number : Z)
    (o : PendingBlockObservation) : SummarySlotRecord :=
  slot {{ slot_accumulators ::= fold_observation (sys_parent_hash sys) block_number o }}.

(** The [SummarySlots::mutate] closure of [stage_summary_for_closed_epoch]. *)
Definition stage_slot (header : EpochSummaryHeader) (epoch_id start_height end_height opening : Z)
    (prev_summary_hash : hash) (slot : SummarySlotRecord) st : EpochsState :=
  let slot' :=
    slot {{ slot_end_height := Some end_height }}
         {{ slot_staged_at_block_number := Some opening }}
         {{ slot_last_touched_block := opening }}
         {{ slot_header := Some header }}
         {{ slot_status := Staged }} in
  st {{ es_summary_slots ::= <[epoch_id := slot']> }}
     {{ es_summary_headers ::= <[epoch_id := header]> }}
     {{ es_latest_summary_header := Some header }}
     {{ es_latest_summary_hash := sh_summary_hash header }}
     {{ es_summary_count ::= fun c => c + 1 }}
     {{ es_events ::= fun evs => evs ++
          [EpochClosed epoch_id start_height end_height;
           EpochSummaryCreated epoch_id opening (sh_summary_hash header);
           SummaryHashCommitted epoch_id (sh_summary_hash header) prev_summary_hash] }}.

Definition stage_summary_for_closed_epoch (epoch_id end_height opening_block_number : Z)
    (ws : W * EpochsState) : W * EpochsState :=
  let '(w, st) := ws in
  let start_height := es_current_epoch_start st in
  let prev_summary_hash := if epoch_id =? 0 then EMPTY_HASH else es_latest_summary_hash st in
  let domain_id := ctx_domain_id w in
  let validator_set_hash := ctx_validator_set_hash w in
  let '(export_root, w) := commit_epoch_exports_hook epoch_id start_height end_height w in
  let '(import_root, w) := commit_epoch_imports_hook epoch_id start_height end_height w in
  let '(governance_root, w) := commit_epoch_governance_hook epoch_id start_height end_height w in
  let st :=
    match es_summary_slots st !! epoch_id with
    | None => st
    | Some slot =>
      if decide (slot_status slot = Staged) then st
      else
        let header := from_hash_input
          {| shi_version := EPOCH_SUMMARY_VERSION;
             shi_domain_id := domain_id;
             shi_epoch_id := epoch_id;
             shi_prev_summary_hash := prev_summary_hash;
             shi_start_block_height := start_height;
             shi_end_block_height := end_height;
             shi_state_root := acc_state_root (slot_accumulators slot);
             shi_block_root := acc_block_root (slot_accumulators slot);
             shi_tx_root := acc_tx_root (slot_accumulators slot);
             shi_event_root := acc_event_root (slot_accumulators slot);
             shi_export_root := export_root;
             shi_import_root := import_root;
             shi_governance_root := governance_root;
             shi_validator_set_hash := validator_set_hash |} in
        stage_slot header epoch_id start_height end_height opening_block_number
          prev_summary_hash slot st
    end in
  let next_epoch := epoch_id + 1 in
  let st := st {{ es_current_epoch := next_epoch }}
               {{ es_current_epoch_start := opening_block_number }} in
  (w, reserve_slot w next_epoch opening_block_number opening_block_number st).

Definition apply_parent_block_observation sys (block_number_u32 : Z) (ws : W * EpochsState)
    : W * EpochsState :=
  let '(w, st) := ws in
  let parent_block_number := block_number_u32 - 1 in
  match es_pending st with
  | None => (w, st)
  | Some observation =>
    let st := st {{ es_pending := None }} in
    let current_epoch := es_current_epoch st in
    let st :=
      match es_summary_slots st !! current_epoch with
      | None => st
      | Some slot =>
        let slot :=
          (fold_observation_into_slot sys slot parent_block_number observation)
            {{ slot_last_touched_block := block_number_u32 }} in
        st {{ es_summary_slots ::= <[current_epoch := slot]> }}
      end in
    let epoch_length := Z.max (es_epoch_length_blocks st) 1 in
    if parent_block_number mod epoch_length =? 0
    then stage_summary_for_closed_epoch current_epoch parent_block_number block_number_u32 (w, st)
    else (w, st)
  end.

Definition store_pending_block_observation sys (block_number : Z) st : EpochsState :=
  st {{ es_pending := Some
    {| pbo_block_number := block_number;
       pbo_state_root := sys_storage_root sys;
       pbo_extrinsic_count := sys_extrinsic_count sys;
       pbo_all_extrinsics_len := sys_all_extrinsics_len sys;
       pbo_event_count := sys_event_count sys |} }}.

(** [Hooks::on_initialize] and [Hooks::on_finalize]. *)
Definition epochs_on_initialize sys (ws : W * EpochsState) : W * EpochsState :=
  let block_number := sys_block_number sys in
  if block_number =? 0 then ws
  else
    let block_number_u32 := saturated_into_u32 block_number in
    let '(w, st) := ws in
    let st :=
      if es_initialized st then st
      else (reserve_slot w 0 1 block_number_u32 st) {{ es_initialized := true }} in
    if 1 <? block_number_u32 then apply_parent_block_observation sys block_number_u32 (w, st)
    else (w, st).

Definition epochs_on_finalize sys st : EpochsState :=
  let block_number := sys_block_number sys in
  if block_number =? 0 then st
  else store_pending_block_observation sys (saturated_into_u32 block_number) st.

Definition staged_summary_record (epoch_id : Z) st : option StagedSummaryRecord :=
  slot ← es_summary_slots st !! epoch_id;
  header ← slot_header slot;
  staged_at_block_number ← slot_staged_at_block_number slot;
  Some {| ssr_header := header; ssr_staged_at_block_number := staged_at_block_number |}.
End Epochs.

(** ** Runs of the pallet

    A run executes blocks 1, 2, 3, ...  Between the pallet's hooks the other
    pallets' state changes in any way that keeps the chain's domain.  [hist]
    lists the system values of the executed blocks, block [i + 1] at position
    [i]. *)
Section Runs.
Context `{!Codec, !EpochProviders W, !EpochProvidersOk W}.
Context (d : DomainId) (L : Z) (HL : 1 <= L).

Inductive epochs_run : list System -> W * EpochsState -> Prop :=
| run_genesis w : ctx_domain_id w = d -> epochs_run [] (w, epochs_genesis L)
| run_block hist sys w st w1 w2 st2 w3 :
    epochs_run hist (w, st) ->
    sys_block_number sys = Z.of_nat (length hist) + 1 ->
    sys_block_number sys <= u32_max ->
    ctx_domain_id w1 = d ->
    epochs_on_initialize sys (w1, st) = (w2, st2) ->
    ctx_domain_id w3 = d ->
    epochs_run (hist ++ [sys]) (w3, epochs_on_finalize sys st2).

(** *** What an epoch's accumulators should be *)

(** The observation [on_finalize] makes of block [i]. *)
Definition observation_of (i : Z) (sys : System) : PendingBlockObservation :=
  {| pbo_block_number := i;
     pbo_state_root := sys_storage_root sys;
     pbo_extrinsic_count := sys_extrinsic_count sys;
     pbo_all_extrinsics_len := sys_all_extrinsics_len sys;
     pbo_event_count := sys_event_count sys |}.

(** Folding block [i]: its observation, and its hash as its child reports it. *)
Definition fold_block (hist : list System) (a : EpochAccumulators) (i : Z) : EpochAccumulators :=
  match hist !! Z.to_nat (i - 1), hist !! Z.to_nat i with
  | Some block, Some child => fold_observation (sys_parent_hash child) i (observation_of i block) a
  | _, _ => a
  end.

(** The first [len] blocks of epoch [e], which starts at block [e * L + 1]. *)
Definition epoch_accumulators (hist : list System) (e len : Z) : EpochAccumulators :=
  foldl (fold_block hist) (seed_accumulators d e) (seqZ (e * L + 1) len).

(** The header of a closed epoch [e]. *)
Definition header_of_epoch (hist : list System) (e : Z) (prev : hash) (h : EpochSummaryHeader) : Prop :=
  header_hashed h /\
  sh_version h = EPOCH_SUMMARY_VERSION /\ sh_domain_id h = d /\ sh_epoch_id h = e /\
  sh_start_block_height h = e * L + 1 /\ sh_end_block_height h = (e + 1) * L /\
  sh_prev_summary_hash h = prev /\
  sh_state_root h = acc_state_root (epoch_accumulators hist e L) /\
  sh_block_root h = acc_block_root (epoch_accumulators hist e L) /\
  sh_tx_root h = acc_tx_root (epoch_accumulators hist e L) /\
  sh_event_root h = acc_event_root (epoch_accumulators hist e L).

(** The hash an epoch's header chains to. *)
Definition prev_hash (st : EpochsState) (e : Z) : hash :=
  if e =? 0 then EMPTY_HASH else from_option sh_summary_hash EMPTY_HASH (es_summary_headers st !! (e - 1)).

Record EpochsInv (hist : list System) (st : EpochsState) : Prop := {
  inv_length : es_epoch_length_blocks st = L;
  inv_initialized : es_initialized st = true;
  inv_epoch : es_current_epoch st = (Z.of_nat (length hist) - 1) / L;
  inv_start : es_current_epoch_start st = es_current_epoch st * L + 1;
  inv_pending : exists sys, last hist = Some sys /\
    es_pending st = Some (observation_of (Z.of_nat (length hist)) sys);
  inv_slot : exists slot, es_summary_slots st !! es_current_epoch st = Some slot /\
    slot_status slot = Reserved /\ slot_header slot = None /\
    slot_accumulators slot
    = epoch_accumulators hist (es_current_epoch st)
        (Z.of_nat (length hist) - 1 - es_current_epoch st * L);
  inv_headers : forall e, 0 <= e < es_current_epoch st ->
    exists h, es_summary_headers st !! e = Some h /\ header_of_epoch hist e (prev_hash st e) h;
  inv_no_headers : forall e, ~ 0 <= e < es_current_epoch st -> es_summary_headers st !! e = None;
  inv_staged : forall e, 0 <= e < es_current_epoch st ->
    exists slot, es_summary_slots st !! e = Some slot /\ slot_status slot = Staged /\
      slot_header slot = es_summary_headers st !! e /\
      slot_staged_at_block_number slot = Some ((e + 1) * L + 1);
  inv_no_slots : forall e, ~ 0 <= e <= es_current_epoch st -> es_summary_slots st !! e = None;
  inv_count : es_summary_count st = es_current_epoch st;
  inv_latest : es_latest_summary_hash st = prev_hash st (es_current_epoch st);
  inv_latest_header : es_latest_summary_header st = es_summary_headers st !! (es_current_epoch st - 1)
}.

(** *** Lemmas on the specification side *)

Lemma fold_block_app hist sys a i :
  0 < i < Z.of_nat (length hist) -> fold_block (hist ++ [sys]) a i = fold_block hist a i.
Proof. intros Hi. unfold fold_block. rewrite !lookup_app_l by lia. done. Qed.

Lemma epoch_accumulators_app hist sys e len :
  0 <= e -> e * L + len < Z.of_nat (length hist) ->
  epoch_accumulators (hist ++ [sys]) e len = epoch_accumulators hist e len.
Proof.
  intros He Hlen. unfold epoch_accumulators.
  assert (Forall (fun i => 0 < i < Z.of_nat (length hist)) (seqZ (e * L + 1) len)) as Hf.
  { apply Forall_forall. intros i Hi%elem_of_seqZ. nia. }
  generalize (seed_accumulators d e). induction Hf as [|i l Hi Hf IH]; intros a; [done|].
  simpl. rewrite fold_block_app by done. apply IH.
Qed.

Lemma epoch_accumulators_snoc hist e len :
  0 <= len ->
  epoch_accumulators hist e (len + 1)
  = fold_block hist (epoch_accumulators hist e len) (e * L + 1 + len).
Proof.
  intros Hlen. unfold epoch_accumulators. rewrite seqZ_app by lia.
  by rewrite foldl_app.
Qed.

Lemma header_of_epoch_app hist sys e prev h :
  0 <= e -> (e + 1) * L < Z.of_nat (length hist) ->
  header_of_epoch hist e prev h -> header_of_epoch (hist ++ [sys]) e prev h.
Proof. intros He Hl. unfold header_of_epoch. rewrite epoch_accumulators_app by nia. done. Qed.

(** Folding the parent block with its child's parent hash. *)
Lemma fold_block_last hist block sys a :
  last hist = Some block -> hist <> [] ->
  fold_block (hist ++ [sys]) a (Z.of_nat (length hist))
  = fold_observation (sys_parent_hash sys) (Z.of_nat (length hist))
      (observation_of (Z.of_nat (length hist)) block) a.
Proof.
  intros Hlast Hne. rewrite last_lookup in Hlast. unfold fold_block.
  destruct hist as [|x hist]; [done|]. simpl length in *.
  rewrite lookup_app_l by (simpl; lia).
  replace (Z.to_nat (Z.of_nat (S (length hist)) - 1)) with (pred (S (length hist))) by lia.
  rewrite Hlast. rewrite lookup_app_r by (simpl; lia).
  by replace (Z.to_nat (Z.of_nat (S (length hist))) - length (x :: hist))%nat with 0%nat by (simpl; lia).
Qed.

(** *** Preservation *)

Lemma epochs_first_block sys w w1 st1 :
  sys_block_number sys = 1 -> ctx_domain_id w = d ->
  epochs_on_initialize sys (w, epochs_genesis L) = (w1, st1) ->
  EpochsInv [sys] (epochs_on_finalize sys st1).
Proof.
  intros Hn Hd. unfold epochs_on_initialize, epochs_on_finalize. rewrite Hn. simpl.
  intros E. injection E as <- <-.
  assert ((1 - 1) / L = 0) as H0 by (by rewrite Z.div_0_l by lia).
  split; simpl; try done; try lia.
  - by exists sys.
  - eexists. rewrite lookup_insert_eq. split; [done|]. split_and!; [done|done|].
    unfold epoch_accumulators. simpl. by rewrite Hd.
  - intros e He. by rewrite lookup_insert_ne by lia.
Qed.

(** The state a later [on_initialize] starts from, with the parent folded in. *)
Definition with_parent_folded sys (n : Z) (o : PendingBlockObservation) (slot : SummarySlotRecord)
    (st : EpochsState) : EpochsState :=
  st {{ es_pending := None }}
     {{ es_summary_slots ::= <[es_current_epoch st :=
          (fold_observation_into_slot sys slot n o) {{ slot_last_touched_block := n + 1 }}]> }}.

Lemma epochs_on_initialize_later sys (w : W) st o slot n :
  sys_block_number sys = n + 1 -> 1 <= n -> n + 1 <= u32_max ->
  es_initialized st = true -> es_pending st = Some o ->
  es_summary_slots st !! es_current_epoch st = Some slot ->
  epochs_on_initialize sys (w, st)
  = (let st' := with_parent_folded sys n o slot st in
     if n mod Z.max (es_epoch_length_blocks st) 1 =? 0
     then stage_summary_for_closed_epoch (es_current_epoch st) n (n + 1) (w, st')
     else (w, st')).
Proof.
  intros Hn H1 Hmax Hi Hp Hs. unfold epochs_on_initialize.
  rewrite Hn, saturated_into_u32_small, Hi by lia.
  rewrite (proj2 (Z.eqb_neq _ _)), (proj2 (Z.ltb_lt _ _)) by lia.
  unfold apply_parent_block_observation. rewrite Hp. simpl. rewrite Hs.
  by replace (n + 1 - 1) with n by lia.
Qed.

(** The header a closing epoch gets. *)
Definition closing_header (w : W) (er ir gr : hash) (e s t : Z) (prev : hash) (a : EpochAccumulators)
    : EpochSummaryHeader :=
  from_hash_input
    {| shi_version := EPOCH_SUMMARY_VERSION; shi_domain_id := ctx_domain_id w; shi_epoch_id := e;
       shi_prev_summary_hash := prev; shi_start_block_height := s; shi_end_block_height := t;
       shi_state_root := acc_state_root a; shi_block_root := acc_block_root a;
       shi_tx_root := acc_tx_root a; shi_event_root := acc_event_root a;
       shi_export_root := er; shi_import_root := ir; shi_governance_root := gr;
       shi_validator_set_hash := ctx_validator_set_hash w |}.

(** Closing an epoch whose slot is still reserved. *)
Lemma stage_summary_reserved (w : W) st e t o slot w' st' :
  es_summary_slots st !! e = Some slot -> slot_status slot = Reserved ->
  stage_summary_for_closed_epoch e t o (w, st) = (w', st') ->
  exists er ir gr,
    let prev := if e =? 0 then EMPTY_HASH else es_latest_summary_hash st in
    let h := closing_header w er ir gr e (es_current_epoch_start st) t prev (slot_accumulators slot) in
    ctx_domain_id w' = ctx_domain_id w /\
    st' = reserve_slot w' (e + 1) o o
            ((stage_slot h e (es_current_epoch_start st) t o prev slot st)
               {{ es_current_epoch := e + 1 }} {{ es_current_epoch_start := o }}).
Proof.
  intros Hs Hr. unfold stage_summary_for_closed_epoch.
  destruct (commit_epoch_exports_hook _ _ _ w) as [er w1] eqn:E1.
  destruct (commit_epoch_imports_hook _ _ _ w1) as [ir w2] eqn:E2.
  destruct (commit_epoch_governance_hook _ _ _ w2) as [gr w3] eqn:E3.
  rewrite Hs, Hr. simpl. intros E. injection E as <- <-.
  exists er, ir, gr. split; [|done].
  pose proof (exports_keep_context e (es_current_epoch_start st) t w) as K1. rewrite E1 in K1.
  pose proof (imports_keep_context e (es_current_epoch_start st) t w1) as K2. rewrite E2 in K2.
  pose proof (governance_keep_context e (es_current_epoch_start st) t w2) as K3. rewrite E3 in K3.
  simpl in *. congruence.
Qed.

(** What closing an epoch does with the providers: each is asked once, in the
    order exports, imports, governance, and the header carries the answers. *)
Definition closes (w w' : W) (st st' : EpochsState) (e s t : Z) : Prop :=
  let r1 := commit_epoch_exports_hook e s t w in
  let r2 := commit_epoch_imports_hook e s t r1.2 in
  let r3 := commit_epoch_governance_hook e s t r2.2 in
  w' = r3.2 /\ es_current_epoch st' = e + 1 /\
  exists h, es_summary_headers st' = <[e := h]> (es_summary_headers st) /\
    sh_start_block_height h = s /\ sh_end_block_height h = t /\
    sh_export_root h = r1.1 /\ sh_import_root h = r2.1 /\ sh_governance_root h = r3.1.

Lemma stage_summary_closes (w : W) st e t o slot w' st' :
  es_summary_slots st !! e = Some slot -> slot_status slot = Reserved ->
  stage_summary_for_closed_epoch e t o (w, st) = (w', st') ->
  closes w w' st st' e (es_current_epoch_start st) t.
Proof.
  intros Hs Hr. unfold stage_summary_for_closed_epoch, closes.
  destruct (commit_epoch_exports_hook _ _ _ w) as [er w1]. cbn [fst snd].
  destruct (commit_epoch_imports_hook _ _ _ w1) as [ir w2]. cbn [fst snd].
  destruct (commit_epoch_governance_hook _ _ _ w2) as [gr w3]. cbn [fst snd].
  rewrite Hs, Hr. simpl. intros E. injection E as <- <-. simpl. split_and!; [done|done|].
  eexists. split_and!; [reflexivity|done..].
Qed.

Lemma epoch_of_next_same n : 1 <= n -> n mod L <> 0 -> n / L = (n - 1) / L.
Proof.
  intros Hn Hm. pose proof (Z.div_mod n L ltac:(lia)). pose proof (Z.mod_pos_bound n L ltac:(lia)).
  apply Z.div_unique with (r := n mod L - 1); lia.
Qed.

Lemma epoch_of_next_close n :
  1 <= n -> n mod L = 0 -> n / L = (n - 1) / L + 1 /\ n = ((n - 1) / L + 1) * L.
Proof.
  intros Hn Hm. pose proof (Z.div_mod n L ltac:(lia)).
  assert ((n - 1) / L = n / L - 1) as E.
  { symmetry. apply Z.div_unique with (r := L - 1); lia. }
  rewrite E. split; nia.
Qed.

Lemma epoch_bounds hist st :
  hist <> [] -> EpochsInv hist st ->
  0 <= es_current_epoch st /\ es_current_epoch st * L <= Z.of_nat (length hist) - 1.
Proof.
  intros Hne HI. rewrite (inv_epoch _ _ HI). destruct hist; [done|]. simpl length.
  pose proof (Z.div_mod (Z.of_nat (S (length hist)) - 1) L ltac:(lia)).
  pose proof (Z.mod_pos_bound (Z.of_nat (S (length hist)) - 1) L ltac:(lia)).
  split; [apply Z.div_pos; lia|nia].
Qed.

(** Folding the parent extends the epoch's accumulators by one block. *)
Lemma folded_accumulators hist sys block e len a :
  hist <> [] -> last hist = Some block -> 0 <= e -> 0 <= len ->
  e * L + 1 + len = Z.of_nat (length hist) ->
  a = epoch_accumulators hist e len ->
  fold_observation (sys_parent_hash sys) (Z.of_nat (length hist))
    (observation_of (Z.of_nat (length hist)) block) a
  = epoch_accumulators (hist ++ [sys]) e (len + 1).
Proof.
  intros Hne Hlast He Hlen Hn ->. rewrite epoch_accumulators_snoc, Hn by lia.
  rewrite epoch_accumulators_app by lia. symmetry. by apply fold_block_last.
Qed.

Lemma inv_headers_app hist sys st :
  hist <> [] -> EpochsInv hist st -> forall e, 0 <= e < es_current_epoch st ->
  exists h, es_summary_headers st !! e = Some h /\
    header_of_epoch (hist ++ [sys]) e (prev_hash st e) h.
Proof.
  intros Hne HI e He. destruct (inv_headers _ _ HI e He) as (h & Hh & Hs).
  destruct (epoch_bounds hist st Hne HI). exists h. split; [done|].
  apply header_of_epoch_app; [lia|nia|done].
Qed.

Lemma last_pending hist sys st n :
  sys_block_number sys = Z.of_nat (length hist) + 1 -> n = sys_block_number sys -> n <= u32_max ->
  exists block, last (hist ++ [sys]) = Some block /\
    es_pending (store_pending_block_observation sys (saturated_into_u32 n) st)
    = Some (observation_of (Z.of_nat (length (hist ++ [sys]))) block).
Proof.
  intros Hn -> Hmax. exists sys. split; [apply last_snoc|]. simpl.
  rewrite saturated_into_u32_small, length_app by done. simpl. unfold observation_of.
  do 2 f_equal. lia.
Qed.

(** A block inside an epoch. *)
Lemma epochs_inv_inside hist sys st block slot :
  hist <> [] -> EpochsInv hist st ->
  sys_block_number sys = Z.of_nat (length hist) + 1 -> sys_block_number sys <= u32_max ->
  Z.of_nat (length hist) mod L <> 0 ->
  last hist = Some block ->
  es_summary_slots st !! es_current_epoch st = Some slot ->
  slot_status slot = Reserved -> slot_header slot = None ->
  slot_accumulators slot
    = epoch_accumulators hist (es_current_epoch st)
        (Z.of_nat (length hist) - 1 - es_current_epoch st * L) ->
  EpochsInv (hist ++ [sys]) (epochs_on_finalize sys
    (with_parent_folded sys (Z.of_nat (length hist))
       (observation_of (Z.of_nat (length hist)) block) slot st)).
Proof.
  intros Hne HI Hn Hmax Hmod Hlast Hs Hr Hh Ha.
  destruct (epoch_bounds hist st Hne HI) as [Hc0 HcL].
  pose proof (inv_epoch _ _ HI) as Hc.
  assert (1 <= Z.of_nat (length hist)) as Hlen by (destruct hist; [done|simpl; lia]).
  unfold epochs_on_finalize. rewrite (proj2 (Z.eqb_neq _ _)) by lia.
  assert (Z.of_nat (length (hist ++ [sys])) = Z.of_nat (length hist) + 1) as Hl'
    by (rewrite length_app; simpl; lia).
  split.
  - exact (inv_length _ _ HI).
  - exact (inv_initialized _ _ HI).
  - simpl. rewrite Hc, Hl'. replace (Z.of_nat (length hist) + 1 - 1) with (Z.of_nat (length hist)) by lia.
    symmetry. by apply epoch_of_next_same.
  - exact (inv_start _ _ HI).
  - by apply last_pending.
  - simpl. rewrite lookup_insert_eq. eexists. split_and!; [done|done|done|].
    simpl. rewrite Hl'.
    replace (Z.of_nat (length hist) + 1 - 1 - es_current_epoch st * L)
      with (Z.of_nat (length hist) - 1 - es_current_epoch st * L + 1) by lia.
    apply (folded_accumulators hist sys block); [done..|lia|lia|lia|done].
  - exact (inv_headers_app hist sys st Hne HI).
  - exact (inv_no_headers _ _ HI).
  - simpl. intros e He. rewrite lookup_insert_ne by lia. by apply (inv_staged _ _ HI).
  - simpl. intros e He. rewrite lookup_insert_ne by lia. by apply (inv_no_slots _ _ HI).
  - exact (inv_count _ _ HI).
  - exact (inv_latest _ _ HI).
  - exact (inv_latest_header _ _ HI).
Qed.

Lemma prev_hash_insert (st st' : EpochsState) c h e :
  es_summary_headers st' = <[c := h]> (es_summary_headers st) -> e <= c ->
  prev_hash st' e = prev_hash st e.
Proof. intros E He. unfold prev_hash. rewrite E. by rewrite lookup_insert_ne by lia. Qed.

(** The first block after an epoch. *)
Lemma epochs_inv_close hist sys w w2 st st2 block slot :
  hist <> [] -> EpochsInv hist st -> ctx_domain_id w = d ->
  sys_block_number sys = Z.of_nat (length hist) + 1 -> sys_block_number sys <= u32_max ->
  Z.of_nat (length hist) mod L = 0 ->
  last hist = Some block ->
  es_summary_slots st !! es_current_epoch st = Some slot ->
  slot_status slot = Reserved ->
  slot_accumulators slot
    = epoch_accumulators hist (es_current_epoch st)
        (Z.of_nat (length hist) - 1 - es_current_epoch st * L) ->
  stage_summary_for_closed_epoch (es_current_epoch st) (Z.of_nat (length hist))
    (Z.of_nat (length hist) + 1)
    (w, with_parent_folded sys (Z.of_nat (length hist))
          (observation_of (Z.of_nat (length hist)) block) slot st) = (w2, st2) ->
  EpochsInv (hist ++ [sys]) (epochs_on_finalize sys st2).
Proof.
  intros Hne HI Hw Hn Hmax Hmod Hlast Hs Hr Ha E.
  destruct (epoch_bounds hist st Hne HI) as [Hc0 HcL].
  pose proof (inv_epoch _ _ HI) as Hc.
  assert (1 <= Z.of_nat (length hist)) as Hlen by (destruct hist; [done|simpl; lia]).
  destruct (epoch_of_next_close _ Hlen Hmod) as [Hnext Hend]. rewrite <-Hc in Hnext, Hend.
  eapply stage_summary_reserved in E as (er & ir & gr & Hd & ->);
    [|simpl; by rewrite lookup_insert_eq|done].
  unfold epochs_on_finalize. rewrite (proj2 (Z.eqb_neq _ _)) by lia.
  assert (Z.of_nat (length (hist ++ [sys])) = Z.of_nat (length hist) + 1) as Hl'
    by (rewrite length_app; simpl; lia).
  assert (fold_observation (sys_parent_hash sys) (Z.of_nat (length hist))
            (observation_of (Z.of_nat (length hist)) block) (slot_accumulators slot)
          = epoch_accumulators (hist ++ [sys]) (es_current_epoch st) L) as Hacc.
  { replace (epoch_accumulators (hist ++ [sys]) (es_current_epoch st) L) with
      (epoch_accumulators (hist ++ [sys]) (es_current_epoch st)
         (Z.of_nat (length hist) - 1 - es_current_epoch st * L + 1)) by (f_equal; lia).
    by apply folded_accumulators; [| | |lia|lia|]. }
  assert ((if es_current_epoch st =? 0 then EMPTY_HASH else es_latest_summary_hash st)
          = prev_hash st (es_current_epoch st)) as Hprev.
  { rewrite (inv_latest _ _ HI). unfold prev_hash. by destruct (_ =? 0). }
  split.
  - exact (inv_length _ _ HI).
  - exact (inv_initialized _ _ HI).
  - simpl. rewrite Hl', <-Hnext. f_equal. lia.
  - simpl. lia.
  - by apply last_pending.
  - simpl. rewrite lookup_insert_eq. eexists. split_and!; [done|done|done|].
    simpl. rewrite Hl'. replace (_ + 1 - 1 - _) with 0 by lia. rewrite Hd, Hw. done.
  - intros e He. simpl in He. destruct (decide (e = es_current_epoch st)) as [->|Hne'].
    + eexists. simpl. rewrite lookup_insert_eq. split; [done|].
      erewrite (prev_hash_insert st); [|reflexivity|lia]. unfold header_of_epoch. rewrite <-Hacc.
      split_and!; try done. exact (inv_start _ _ HI).
    + destruct (inv_headers_app hist sys st Hne HI e ltac:(lia)) as (h & Hh & Hspec).
      exists h. simpl. rewrite lookup_insert_ne by lia. split; [done|].
      by erewrite (prev_hash_insert st); [|reflexivity|lia].
  - intros e He. simpl in *. rewrite lookup_insert_ne by lia. apply (inv_no_headers _ _ HI). lia.
  - intros e He. simpl in *. rewrite lookup_insert_ne by lia.
    destruct (decide (e = es_current_epoch st)) as [->|Hne'].
    + rewrite !lookup_insert_eq. eexists. split_and!; [done|done|done|]. simpl. f_equal. lia.
    + rewrite !lookup_insert_ne by lia. apply (inv_staged _ _ HI). lia.
  - intros e He. simpl in *. rewrite !lookup_insert_ne by lia. apply (inv_no_slots _ _ HI). lia.
  - simpl. rewrite (inv_count _ _ HI). done.
  - unfold prev_hash. simpl. rewrite (proj2 (Z.eqb_neq (es_current_epoch st + 1) 0)) by lia.
    replace (es_current_epoch st + 1 - 1) with (es_current_epoch st) by lia.
    by rewrite lookup_insert_eq.
  - simpl. replace (es_current_epoch st + 1 - 1) with (es_current_epoch st) by lia.
    by rewrite lookup_insert_eq.
Qed.

Lemma epochs_run_inv hist ws : epochs_run hist ws -> hist <> [] -> EpochsInv hist ws.2.
Proof.
  induction 1 as [w Hw|hist sys w st w1 w2 st2 w3 Hrun IH Hn Hmax Hw1 Hinit Hw3]; intros Hne; [done|].
  destruct hist as [|s0 hist'] eqn:Eh.
  { inversion Hrun as [w' Hw'|h]; subst.
    - simpl in *. by apply (epochs_first_block sys w1 w2).
    - by destruct h. }
  rewrite <-Eh in *. assert (hist <> []) as Hh by (by rewrite Eh).
  specialize (IH Hh). simpl in *. clear Eh.
  assert (1 <= Z.of_nat (length hist)) as Hlen by (destruct hist; [done|simpl; lia]).
  destruct (inv_pending _ _ IH) as (block & Hlast & Hp).
  destruct (inv_slot _ _ IH) as (slot & Hs & Hr & Hsh & Ha).
  rewrite (epochs_on_initialize_later sys w1 st _ slot (Z.of_nat (length hist)) Hn Hlen
             ltac:(lia) (inv_initialized _ _ IH) Hp Hs) in Hinit.
  cbv zeta in Hinit. rewrite (inv_length _ _ IH), Z.max_l in Hinit by lia.
  destruct (Z.eqb_spec (Z.of_nat (length hist) mod L) 0) as [Hm|Hm].
  - by apply (epochs_inv_close hist sys w1 w2 st st2 block slot).
  - injection Hinit as <- <-. by eapply epochs_inv_inside.
Qed.

(** A block either stays in its epoch or closes the epoch that just ended. *)
Lemma epochs_init_cases hist sys (w : W) st w2 st2 :
  (hist = [] /\ st = epochs_genesis L \/ hist <> [] /\ EpochsInv hist st) ->
  sys_block_number sys = Z.of_nat (length hist) + 1 -> sys_block_number sys <= u32_max ->
  epochs_on_initialize sys (w, st) = (w2, st2) ->
  w2 = w /\ es_current_epoch st2 = es_current_epoch st /\ es_summary_headers st2 = es_summary_headers st \/
  closes w w2 st st2 (es_current_epoch st) (es_current_epoch_start st) (Z.of_nat (length hist)).
Proof.
  intros [[-> ->]|[Hne HI]] Hn Hmax Hinit.
  { left. unfold epochs_on_initialize in Hinit. rewrite Hn in Hinit. simpl in Hinit. by simplify_eq. }
  assert (1 <= Z.of_nat (length hist)) as Hlen by (destruct hist; [done|simpl; lia]).
  destruct (inv_pending _ _ HI) as (block & Hlast & Hp).
  destruct (inv_slot _ _ HI) as (slot & Hs & Hr & Hsh & Ha).
  rewrite (epochs_on_initialize_later sys w st _ slot (Z.of_nat (length hist)) Hn Hlen
             ltac:(lia) (inv_initialized _ _ HI) Hp Hs) in Hinit.
  cbv zeta in Hinit. destruct (_ =? 0).
  - right. set (st1 := with_parent_folded _ _ _ _ st) in *.
    change (es_current_epoch_start st) with (es_current_epoch_start st1).
    exact (stage_summary_closes w st1 (es_current_epoch st) _ _ _ w2 st2
             (lookup_insert_eq _ _ _) Hr Hinit).
  - left. by simplify_eq.
Qed.

(** *** Properties *)

(** The epoch schedule: after block [n] the chain is in epoch
    [(n - 1) / L], which started at block [(n - 1) / L * L + 1], exactly the
    earlier epochs have a summary header, and [SummaryCount] is their number. *)
Theorem epochs_schedule hist ws :
  epochs_run hist ws -> hist <> [] ->
  let n := Z.of_nat (length hist) in
  let st := ws.2 in
  es_current_epoch st = (n - 1) / L /\
  es_current_epoch_start st = (n - 1) / L * L + 1 /\
  es_summary_count st = (n - 1) / L /\
  (forall e, is_Some (es_summary_headers st !! e) <-> 0 <= e < (n - 1) / L).
Proof.
  intros Hrun Hne. cbv zeta. pose proof (epochs_run_inv hist ws Hrun Hne) as HI.
  pose proof (inv_epoch _ _ HI) as Hc.
  split_and!; [done|rewrite <-Hc; exact (inv_start _ _ HI)|rewrite <-Hc; exact (inv_count _ _ HI)|].
  intros e. rewrite <-Hc. split.
  - intros [h Hh]. destruct (decide (0 <= e < es_current_epoch ws.2)) as [|Hno]; [done|].
    by rewrite (inv_no_headers _ _ HI e Hno) in Hh.
  - intros He. destruct (inv_headers _ _ HI e He) as (h & -> & _). by eexists.
Qed.

(** C12: the summary of every closed epoch [e] covers blocks [e * L + 1] to
    [(e + 1) * L] without gap or overlap, hashes to its [summary_hash], chains to
    the summary of epoch [e - 1] (to [EMPTY_HASH] for epoch 0), and commits to
    the hash, transaction envelope and event count of each of these blocks, in
    order, and to the state root of the last. *)
Theorem summary_chain hist ws e :
  epochs_run hist ws -> hist <> [] -> 0 <= e < es_current_epoch ws.2 ->
  exists h, es_summary_headers ws.2 !! e = Some h /\
    header_of_epoch hist e
      (if e =? 0 then EMPTY_HASH
       else from_option sh_summary_hash EMPTY_HASH (es_summary_headers ws.2 !! (e - 1))) h.
Proof. intros Hrun Hne He. exact (inv_headers _ _ (epochs_run_inv hist ws Hrun Hne) e He). Qed.

(** Summary headers are write-once: executing a block keeps every header
    already written, so a storage proof of a header stays valid. *)
Theorem summary_headers_write_once hist sys (w w1 w2 : W) st st2 e h :
  epochs_run hist (w, st) ->
  sys_block_number sys = Z.of_nat (length hist) + 1 -> sys_block_number sys <= u32_max ->
  ctx_domain_id w1 = d ->
  epochs_on_initialize sys (w1, st) = (w2, st2) ->
  es_summary_headers st !! e = Some h ->
  es_summary_headers (epochs_on_finalize sys st2) !! e = Some h.
Proof.
  intros Hrun Hn Hmax Hw1 Hinit Hh.
  assert (hist <> []) as Hne.
  { intros ->. inversion Hrun as [?|hh]; subst; [done|by destruct hh]. }
  pose proof (epochs_run_inv hist _ Hrun Hne) as HI. simpl in HI.
  assert (1 <= Z.of_nat (length hist)) as Hlen by (destruct hist; [done|simpl; lia]).
  destruct (inv_pending _ _ HI) as (block & Hlast & Hp).
  destruct (inv_slot _ _ HI) as (slot & Hs & Hr & _ & _).
  rewrite (epochs_on_initialize_later sys w1 st _ slot (Z.of_nat (length hist)) Hn Hlen
             ltac:(lia) (inv_initialized _ _ HI) Hp Hs) in Hinit. cbv zeta in Hinit.
  assert (e <> es_current_epoch st) as Hec.
  { intros ->. by rewrite (inv_no_headers _ _ HI) in Hh by lia. }
  unfold epochs_on_finalize. rewrite (proj2 (Z.eqb_neq _ _)) by lia. simpl.
  destruct (_ =? 0); [|by injection Hinit as <- <-].
  eapply stage_summary_reserved in Hinit as (er & ir & gr & _ & ->);
    [|simpl; by rewrite lookup_insert_eq|done].
  simpl. by rewrite lookup_insert_ne.
Qed.

(** [staged_summary_record], which the node serves to exporters, is defined
    exactly for the closed epochs, and returns the stored header together with
    the block that staged it, the first one after the epoch. *)
Theorem staged_summary_record_spec hist ws e :
  epochs_run hist ws -> hist <> [] ->
  staged_summary_record e ws.2
  = (if decide (0 <= e < es_current_epoch ws.2) then
       h ← es_summary_headers ws.2 !! e;
       Some {| ssr_header := h; ssr_staged_at_block_number := (e + 1) * L + 1 |}
     else None).
Proof.
  intros Hrun Hne. pose proof (epochs_run_inv hist ws Hrun Hne) as HI.
  unfold staged_summary_record. destruct (decide (0 <= e < es_current_epoch ws.2)) as [Hlt|Hge].
  - destruct (inv_staged _ _ HI e Hlt) as (slot & -> & _ & Hh & Hat).
    destruct (inv_headers _ _ HI e Hlt) as (h & Eh & _). simpl. by rewrite Hh, Hat, Eh.
  - destruct (decide (e = es_current_epoch ws.2)) as [->|].
    + destruct (inv_slot _ _ HI) as (slot & -> & _ & Hn & _). simpl. by rewrite Hn.
    + by rewrite (inv_no_slots _ _ HI) by lia.
Qed.
(** *** What a summary hash binds *)

(** The hash of block [i], as block [i + 1] reports it. *)
Definition block_hash (hist : list System) (i : Z) : hash :=
  from_option sys_parent_hash [] (hist !! Z.to_nat i).

Lemma epoch_block_root hist e len :
  0 <= e -> e * L + len < Z.of_nat (length hist) ->
  acc_block_root (epoch_accumulators hist e len)
  = foldl (fun a i => fold_epoch_accumulator a i (block_hash hist i))
      (seed_epoch_accumulator BLOCK_ROOT_LABEL d e) (seqZ (e * L + 1) len).
Proof.
  intros He Hlen. unfold epoch_accumulators.
  assert (Forall (fun i => 0 < i < Z.of_nat (length hist)) (seqZ (e * L + 1) len)) as Hf.
  { apply Forall_forall. intros i Hi%elem_of_seqZ. nia. }
  change (seed_epoch_accumulator BLOCK_ROOT_LABEL d e) with (acc_block_root (seed_accumulators d e)).
  generalize (seed_accumulators d e). induction Hf as [|i l Hi Hf IH]; intros a; [done|].
  simpl. rewrite IH. f_equal. unfold fold_block, block_hash.
  destruct (lookup_lt_is_Some_2 hist (Z.to_nat (i - 1))) as [x ->]; [lia|].
  by destruct (lookup_lt_is_Some_2 hist (Z.to_nat i)) as [y ->]; [lia|].
Qed.

Lemma fold_accumulator_binding `{!CodecOk} (p p' : Z -> hash) l s s' :
  foldl (fun a i => fold_epoch_accumulator a i (p i)) s l
  = foldl (fun a i => fold_epoch_accumulator a i (p' i)) s' l ->
  (s = s' /\ Forall (fun i => p i = p' i) l) \/ collision blake2_256.
Proof.
  revert s s'. induction l as [|i l IH]; intros s s' E; simpl in *; [by left|].
  destruct (IH _ _ E) as [[E' Hf]|?]; [|by right].
  apply hash_encode_inj in E' as [E'|?]; [left|by right]. simplify_eq. by auto.
Qed.

(** A summary hash binds the blocks of its epoch: two chains of the domain
    whose summaries of epoch [e] have the same hash agree on the hash of every
    block of the epoch, or [blake2_256] collides. *)
Theorem summary_hash_binds_blocks `{!CodecOk} hist ws hist' ws' e h h' i :
  epochs_run hist ws -> epochs_run hist' ws' -> hist <> [] -> hist' <> [] ->
  es_summary_headers ws.2 !! e = Some h -> es_summary_headers ws'.2 !! e = Some h' ->
  sh_summary_hash h = sh_summary_hash h' ->
  e * L < i <= (e + 1) * L ->
  block_hash hist i = block_hash hist' i \/ collision blake2_256.
Proof.
  intros Hr Hr' Hne Hne' Hh Hh' Heq Hi.
  assert (forall hist ws h, epochs_run hist ws -> hist <> [] ->
    es_summary_headers ws.2 !! e = Some h ->
    0 <= e /\ (e + 1) * L < Z.of_nat (length hist) /\ exists prev, header_of_epoch hist e prev h) as Haux.
  { clear -HL EpochProvidersOk0. intros hist ws h Hr Hne Hh.
    pose proof (epochs_run_inv _ _ Hr Hne) as HI. destruct (epoch_bounds _ _ Hne HI).
    destruct (decide (0 <= e < es_current_epoch ws.2)) as [He|He].
    - destruct (inv_headers _ _ HI e He) as (h0 & E0 & Hspec). simplify_eq.
      split_and!; [lia|nia|by eexists].
    - by rewrite (inv_no_headers _ _ HI e He) in Hh. }
  destruct (Haux _ _ _ Hr Hne Hh) as (He & Hl & prev & Hs).
  destruct (Haux _ _ _ Hr' Hne' Hh') as (_ & Hl' & prev' & Hs').
  destruct Hs as (Hhash & _ & _ & _ & _ & _ & _ & _ & Hb & _).
  destruct Hs' as (Hhash' & _ & _ & _ & _ & _ & _ & _ & Hb' & _).
  assert (compute_summary_hash h = compute_summary_hash h') as Ec by congruence.
  apply hash_encode_inj in Ec as [Ec|?]; [|by right].
  apply header_hashed_inj in Ec as ->; [|done..].
  rewrite Hb in Hb'. rewrite !epoch_block_root in Hb' by lia.
  apply fold_accumulator_binding in Hb' as [[_ Hf]|?]; [left|by right].
  rewrite Forall_forall in Hf. apply Hf, elem_of_seqZ. lia.
Qed.
End Runs.

(** ** Witnesses: a chain of three blocks in epochs of one block *)
Section Witnesses.
#[local] Existing Instance reference_codec.
#[local] Existing Instance reference_codec_ok.

#[local] Instance example_providers : EpochProviders unit := {
  ctx_domain_id _ := Moon;
  ctx_validator_set_hash _ := [9];
  commit_epoch_exports_hook e _ _ w := ([e; 1], w);
  commit_epoch_imports_hook e _ _ w := ([e; 2], w);
  commit_epoch_governance_hook e _ _ w := ([e; 3], w)
}.
#[local] Instance example_providers_ok : EpochProvidersOk unit.
Proof. by split. Qed.

Definition example_block (n : Z) : System := mkSystem n [n - 1] (Some 0) 2 80 3 [n; n].
Definition example_exec (sys : System) (st : EpochsState) : EpochsState :=
  epochs_on_finalize sys (epochs_on_initialize sys (tt, st)).2.
Definition example_hist : list System := [example_block 1; example_block 2; example_block 3].
Definition example_chain : EpochsState :=
  example_exec (example_block 3) (example_exec (example_block 2)
    (example_exec (example_block 1) (epochs_genesis 1))).

Lemma example_exec_run hist sys st :
  epochs_run Moon 1 hist (tt, st) -> sys_block_number sys = Z.of_nat (length hist) + 1 ->
  sys_block_number sys <= u32_max -> epochs_run Moon 1 (hist ++ [sys]) (tt, example_exec sys st).
Proof.
  intros Hr Hn Hm. unfold example_exec.
  destruct (epochs_on_initialize sys (tt, st)) as [w2 st2] eqn:E. by eapply run_block.
Qed.

Lemma example_run : epochs_run Moon 1 example_hist (tt, example_chain).
Proof.
  change example_hist with ((([] ++ [example_block 1]) ++ [example_block 2]) ++ [example_block 3]).
  repeat (apply example_exec_run; [|by vm_compute..]). by apply run_genesis.
Qed.

Lemma example_header e : 0 <= e < 2 -> is_Some (es_summary_headers example_chain !! e).
Proof. intros He. assert (e = 0 \/ e = 1) as [-> | ->] by lia; vm_compute; by eexists. Qed.

Lemma example_epoch : es_current_epoch example_chain = 2.
Proof. reflexivity. Qed.

#[local] Opaque example_chain.

Lemma epochs_schedule_witness :
  es_current_epoch example_chain = 2 /\ es_summary_count example_chain = 2 /\
  is_Some (es_summary_headers example_chain !! 1).
Proof.
  destruct (epochs_schedule Moon 1 ltac:(lia) example_hist (tt, example_chain) example_run ltac:(done))
    as (Hc & _ & Hn & Hh).
  split_and!; [exact Hc|exact Hn|]. apply Hh. vm_compute. split; congruence.
Defined.

Lemma summary_chain_witness :
  exists h, es_summary_headers example_chain !! 1 = Some h /\
    header_of_epoch Moon 1 example_hist 1
      (from_option sh_summary_hash EMPTY_HASH (es_summary_headers example_chain !! 0)) h.
Proof.
  apply (summary_chain Moon 1 ltac:(lia) example_hist (tt, example_chain) 1 example_run ltac:(done)).
  simpl. rewrite example_epoch. lia.
Defined.

Lemma summary_headers_write_once_witness :
  exists h, es_summary_headers example_chain !! 0 = Some h /\
    es_summary_headers (example_exec (example_block 4) example_chain) !! 0 = Some h.
Proof.
  destruct (example_header 0 ltac:(lia)) as [h E]. exists h. split; [exact E|].
  unfold example_exec.
  destruct (epochs_on_initialize (example_block 4) (tt, example_chain)) as [w2 st2] eqn:Ei.
  apply (summary_headers_write_once Moon 1 ltac:(lia) example_hist (example_block 4)
           tt tt w2 example_chain st2 0 h);
    [exact example_run|reflexivity|vm_compute; congruence|reflexivity|exact Ei|exact E].
Defined.

Lemma staged_summary_record_spec_witness :
  exists r, staged_summary_record 1 example_chain = Some r /\ ssr_staged_at_block_number r = 3.
Proof.
  pose proof (staged_summary_record_spec Moon 1 ltac:(lia) example_hist (tt, example_chain) 1
                example_run ltac:(done)) as Hs.
  destruct (example_header 1 ltac:(lia)) as [h E]. cbn [snd] in Hs.
  rewrite decide_True, E in Hs by (rewrite example_epoch; lia).
  eexists. split; [exact Hs|reflexivity].
Defined.

Lemma summary_hash_binds_blocks_witness :
  block_hash example_hist 2 = block_hash example_hist 2 \/ collision blake2_256.
Proof.
  destruct (example_header 1 ltac:(lia)) as [h E].
  apply (summary_hash_binds_blocks Moon 1 ltac:(lia) example_hist (tt, example_chain) example_hist
           (tt, example_chain) 1 h h 2);
    first [exact example_run|exact E|done|reflexivity|lia].
Defined.
End Witnesses.
