(* ===== verification/Transfers.v ===== *)
(** * The transfers pallet ([chain/pallets/transfers/src/lib.rs])

    Outbound: [create_cross_domain_transfer] puts the amount on hold and records
    an export; closing the epoch commits the export; after the target domain has
    finalized it, [acknowledge_remote_finalization] burns the hold.  Inbound:
    [observe_verified_import] records a claim proved by the importer service,
    [finalize_verified_import] mints the amount.

    Operations act on the pair of the balances state and the pallet's storage.
    The providers of the pallet's [Config] (domain, current epoch) and the system
    values are arguments. *)

From S2P Require Import Prelude Types Codec Reference Merkle Frame.

Inductive TransfersEvent : Type :=
| CrossDomainTransferCreated (export_id : hash) (epoch_id : Z) (target_domain : DomainId) (amount : Z)
| ExportMarkedCommitted (export_id : hash) (epoch_id : Z)
| ImportObserved (export_id : hash) (source_domain target_domain : DomainId)
| ImportFinalized (export_id : hash) (source_domain target_domain : DomainId) (amount : Z)
| RemoteFinalizationAcknowledged (export_id : hash) (source_domain target_domain : DomainId).
#[export] Instance TransfersEvent_eq_dec : EqDecision TransfersEvent.
Proof. solve_decision. Defined.

(** The pallet's errors, and [DispatchError::BadOrigin]. *)
Inductive TransfersError : Type :=
| SameDomainTarget
| ZeroAmount
| HoldFailed
| MissingImporterAccount
| UnauthorizedImporter
| WrongTargetDomain
| DuplicateObservedImport
| MissingObservedImport
| DuplicateFinalizedImport
| ImportNotObserved
| InvalidRecipientEncoding
| InvalidSenderEncoding
| MintFailed
| MissingExportRecord
| WrongSourceDomain
| WrongClaimTargetDomain
| CompletionMismatch
| HoldResolutionFailed
| BadOrigin.

Section Operations.
Context `{!Codec, !Account, !Currency B}.

(** The pallet's storage items. *)
Record TransfersState : Type := mkTransfersState {
  ts_next_export_sequence : Z;
  ts_epoch_export_ids : gmap Z (list hash);
  ts_exports_by_id : gmap hash ExportRecord;
  ts_importer_account : option AccountId;
  ts_observed_imports_by_id : gmap hash ObservedImportRecord;
  ts_epoch_finalized_import_ids : gmap Z (list hash);
  ts_events : list TransfersEvent
}.
#[export] Instance TransfersState_settable : Settable TransfersState :=
  fun r => mkTransfersState (ts_next_export_sequence r) (ts_epoch_export_ids r)
    (ts_exports_by_id r) (ts_importer_account r) (ts_observed_imports_by_id r)
    (ts_epoch_finalized_import_ids r) (ts_events r).
Implicit Types (st : TransfersState).

(** [BuildGenesisConfig::build]. *)
Definition transfers_genesis (importer_account : option AccountId) : TransfersState :=
  {| ts_next_export_sequence := 0;
     ts_epoch_export_ids := ∅;
     ts_exports_by_id := ∅;
     ts_importer_account := importer_account;
     ts_observed_imports_by_id := ∅;
     ts_epoch_finalized_import_ids := ∅;
     ts_events := [] |}.

(** [EpochExportIds::get] and [EpochFinalizedImportIds::get]: [ValueQuery] maps. *)
Definition epoch_export_ids st (epoch_id : Z) : list hash := ts_epoch_export_ids st !!! epoch_id.
Definition epoch_finalized_import_ids st (epoch_id : Z) : list hash :=
  ts_epoch_finalized_import_ids st !!! epoch_id.

Definition deposit_transfers_event (ev : TransfersEvent) st : TransfersState :=
  st {{ ts_events ::= fun evs => evs ++ [ev] }}.

Definition create_cross_domain_transfer (source_domain : DomainId) (current_epoch : Z) (sys : System)
    (origin : Origin) (target_domain : DomainId) (recipient : hash) (amount : Z)
    (bs : B * TransfersState) : result TransfersError (B * TransfersState) :=
  let '(b, st) := bs in
  let?? who := ensure_signed origin else BadOrigin in
  ensure! 0 <? amount else ZeroAmount in
  ensure! bool_decide (target_domain <> source_domain) else SameDomainTarget in
  let?? b := cur_hold b who amount else HoldFailed in
  let sequence := ts_next_export_sequence st in
  let st := st {{ ts_next_export_sequence := sat_add u64_max sequence 1 }} in
  let current_block_height := saturated_into_u32 (sys_block_number sys) in
  let extrinsic_index := default 0 (sys_extrinsic_index sys) in
  let id := export_id source_domain sequence in
  let leaf := export_from_hash_input
    {| eli_version := EXPORT_LEAF_VERSION;
       eli_export_id := id;
       eli_source_domain := source_domain;
       eli_target_domain := target_domain;
       eli_sender := account_to_bytes who;
       eli_recipient := recipient;
       eli_amount := amount;
       eli_source_epoch_id := current_epoch;
       eli_source_block_height := current_block_height;
       eli_extrinsic_index := extrinsic_index |} in
  let record :=
    {| er_leaf := leaf;
       er_status := LocalFinal;
       er_completion_summary_hash := None;
       er_completion_package_hash := None;
       er_resolved_at_source_block_height := None;
       er_resolver_account := None |} in
  let st := st {{ ts_exports_by_id ::= <[id := record]> }} in
  let st := st {{ ts_epoch_export_ids ::= <[current_epoch := epoch_export_ids st current_epoch ++ [id]]> }} in
  Ok (b, deposit_transfers_event (CrossDomainTransferCreated id current_epoch target_domain amount) st).

Definition observe_verified_import (local_domain : DomainId) (sys : System) (origin : Origin)
    (claim : ObservedImportClaim) (bs : B * TransfersState)
    : result TransfersError (B * TransfersState) :=
  let '(b, st) := bs in
  let?? who := ensure_signed origin else BadOrigin in
  let?? configured_importer := ts_importer_account st else MissingImporterAccount in
  ensure! bool_decide (who = configured_importer) else UnauthorizedImporter in
  ensure! bool_decide (oic_target_domain claim = local_domain) else WrongTargetDomain in
  ensure! bool_decide (ts_observed_imports_by_id st !! oic_export_id claim = None)
    else DuplicateObservedImport in
  let observed_at := saturated_into_u32 (sys_block_number sys) in
  let record := from_claim claim observed_at (account_to_bytes who) in
  let st := st {{ ts_observed_imports_by_id ::= <[oic_export_id claim := record]> }} in
  Ok (b, deposit_transfers_event
           (ImportObserved (oic_export_id claim) (oic_source_domain claim) (oic_target_domain claim)) st).

Definition finalize_verified_import (local_domain : DomainId) (current_epoch : Z) (sys : System)
    (origin : Origin) (id : hash) (bs : B * TransfersState)
    : result TransfersError (B * TransfersState) :=
  let '(b, st) := bs in
  let?? who := ensure_signed origin else BadOrigin in
  let?? configured_importer := ts_importer_account st else MissingImporterAccount in
  ensure! bool_decide (who = configured_importer) else UnauthorizedImporter in
  let?? record := ts_observed_imports_by_id st !! id else MissingObservedImport in
  ensure! bool_decide (oir_target_domain record = local_domain) else WrongTargetDomain in
  ensure! bool_decide (oir_status record = ImportRemoteObserved) else ImportNotObserved in
  let?? recipient := account_from_bytes (oir_recipient record) else InvalidRecipientEncoding in
  let?? b := cur_mint_into b recipient (oir_amount record) else MintFailed in
  let current_block_height := saturated_into_u32 (sys_block_number sys) in
  let record' :=
    record {{ oir_status := ImportRemoteFinalized }}
           {{ oir_finalized_at_local_block_height := Some current_block_height }}
           {{ oir_finalizer_account := Some (account_to_bytes who) }} in
  let st := st {{ ts_observed_imports_by_id ::= <[id := record']> }} in
  let ids := epoch_finalized_import_ids st current_epoch in
  let st := st {{ ts_epoch_finalized_import_ids ::=
                    <[current_epoch := if decide (id ∈ ids) then ids else ids ++ [id]]> }} in
  Ok (b, deposit_transfers_event
           (ImportFinalized id (oir_source_domain record') (oir_target_domain record')
              (oir_amount record')) st).

(** The [try_mutate] closure of [acknowledge_remote_finalization]. *)
Definition resolve_export (who : AccountId) (current_block_height : Z) (claim : RemoteFinalizationClaim)
    (record : ExportRecord) (b : B) : result TransfersError (B * ExportRecord) :=
  let leaf := er_leaf record in
  ensure! bool_decide (el_source_domain leaf = rfc_source_domain claim) else WrongSourceDomain in
  ensure! bool_decide (el_target_domain leaf = rfc_target_domain claim) else WrongClaimTargetDomain in
  ensure! (el_source_epoch_id leaf =? rfc_source_epoch_id claim)
          && bool_decide (el_recipient leaf = rfc_recipient claim)
          && (el_amount leaf =? rfc_amount claim)
    else CompletionMismatch in
  ensure! bool_decide (er_status record <> RemoteFinalized) else DuplicateFinalizedImport in
  ensure! bool_decide (er_status record = Exported) else CompletionMismatch in
  let?? sender := account_from_bytes (el_sender leaf) else InvalidSenderEncoding in
  let?? b := cur_burn_held b sender (el_amount leaf) else HoldResolutionFailed in
  Ok (b,
      record {{ er_status := RemoteFinalized }}
             {{ er_completion_summary_hash := Some (rfc_completion_summary_hash claim) }}
             {{ er_completion_package_hash := Some (rfc_completion_package_hash claim) }}
             {{ er_resolved_at_source_block_height := Some current_block_height }}
             {{ er_resolver_account := Some (account_to_bytes who) }}).

Definition acknowledge_remote_finalization (local_domain : DomainId) (sys : System) (origin : Origin)
    (claim : RemoteFinalizationClaim) (bs : B * TransfersState)
    : result TransfersError (B * TransfersState) :=
  let '(b, st) := bs in
  let?? who := ensure_signed origin else BadOrigin in
  let?? configured_importer := ts_importer_account st else MissingImporterAccount in
  ensure! bool_decide (who = configured_importer) else UnauthorizedImporter in
  ensure! bool_decide (rfc_source_domain claim = local_domain) else WrongSourceDomain in
  let current_block_height := saturated_into_u32 (sys_block_number sys) in
  let?? record := ts_exports_by_id st !! rfc_export_id claim else MissingExportRecord in
  let? (b, record) := resolve_export who current_block_height claim record b in
  let st := st {{ ts_exports_by_id ::= <[rfc_export_id claim := record]> }} in
  Ok (b, deposit_transfers_event
           (RemoteFinalizationAcknowledged (rfc_export_id claim) (rfc_source_domain claim)
              (rfc_target_domain claim)) st).

(** ** Epoch commitments *)

Definition canonical_epoch_exports st (epoch_id : Z) : list ExportLeaf :=
  sort_export_leaves
    (omap (fun id => er_leaf <$> ts_exports_by_id st !! id) (epoch_export_ids st epoch_id)).

(** One iteration of the loop of [commit_epoch_exports]. *)
Definition mark_exported (epoch_id : Z) st (leaf : ExportLeaf) : TransfersState :=
  match ts_exports_by_id st !! el_export_id leaf with
  | None => st
  | Some record =>
    if bool_decide (er_status record <> Exported) then
      deposit_transfers_event (ExportMarkedCommitted (el_export_id leaf) epoch_id)
        (st {{ ts_exports_by_id ::= <[el_export_id leaf := record {{ er_status := Exported }}]> }})
    else st
  end.

Definition commit_epoch_exports (domain_id : DomainId)
    (epoch_id start_block_height end_block_height : Z) st : hash * TransfersState :=
  let leaves := canonical_epoch_exports st epoch_id in
  let export_root := export_merkle_root domain_id epoch_id start_block_height end_block_height leaves in
  (export_root, foldl (mark_exported epoch_id) st leaves).

Definition canonical_epoch_finalized_imports st (epoch_id : Z) : list FinalizedImportLeaf :=
  sort_finalized_import_leaves
    (omap (fun id => ts_observed_imports_by_id st !! id ≫= finalized_leaf)
       (epoch_finalized_import_ids st epoch_id)).

Definition commit_epoch_imports (domain_id : DomainId)
    (epoch_id start_block_height end_block_height : Z) st : hash :=
  let leaves := canonical_epoch_finalized_imports st epoch_id in
  import_merkle_root domain_id epoch_id start_block_height end_block_height leaves.
End Operations.
