(* ===== verification/TransfersProofs.v ===== *)
(** * Correctness of the transfers pallet

    The pallet as a transition system over its storage, the balances and the
    current epoch: the four dispatchables, the close of an epoch, and anything
    else that happens to balances, which never touches the pallet's holds.
    [TransfersInv] is preserved by every step; the properties follow from it. *)

From S2P Require Import Prelude Types Codec Reference Merkle Frame Transfers.

(** ** Counting events *)
Definition is_import_finalized (id : hash) (ev : TransfersEvent) : bool :=
  match ev with ImportFinalized i _ _ _ => bool_decide (i = id) | _ => false end.
Definition is_acknowledged (id : hash) (ev : TransfersEvent) : bool :=
  match ev with RemoteFinalizationAcknowledged i _ _ => bool_decide (i = id) | _ => false end.
Definition count_events (f : TransfersEvent -> bool) (evs : list TransfersEvent) : nat :=
  length (filter (fun ev => f ev = true) evs).

Lemma count_events_snoc f evs ev :
  count_events f (evs ++ [ev]) = (count_events f evs + (if f ev then 1 else 0))%nat.
Proof.
  unfold count_events. rewrite filter_app, length_app. f_equal.
  rewrite filter_cons, filter_nil. by destruct (f ev).
Qed.

Section Machine.
Context `{!Codec, !Account, !AccountOk, !Currency B, !CurrencyOk B}.

(** The domain of the chain, and the fact that its first 2^64 export
    identifiers are distinct. *)
Context (d : DomainId).
Context (export_ids_distinct : forall s s',
  0 <= s < u64_max -> 0 <= s' < u64_max -> export_id d s = export_id d s' -> s = s').

Record TransfersConf : Type := mkConf {
  c_bal : B;
  c_st : TransfersState;
  c_epoch : Z
}.

(** ** Steps

    The export sequence is a [u64] that saturates; runs are considered as long
    as it has not reached its maximum. *)
Inductive transfers_step : TransfersConf -> TransfersConf -> Prop :=
| step_create b st e sys origin target recipient amount b' st' :
    ts_next_export_sequence st < u64_max ->
    create_cross_domain_transfer d e sys origin target recipient amount (b, st) = Ok (b', st') ->
    transfers_step (mkConf b st e) (mkConf b' st' e)
| step_observe b st e sys origin claim b' st' :
    observe_verified_import d sys origin claim (b, st) = Ok (b', st') ->
    transfers_step (mkConf b st e) (mkConf b' st' e)
| step_finalize b st e sys origin id b' st' :
    finalize_verified_import d e sys origin id (b, st) = Ok (b', st') ->
    transfers_step (mkConf b st e) (mkConf b' st' e)
| step_acknowledge b st e sys origin claim b' st' :
    acknowledge_remote_finalization d sys origin claim (b, st) = Ok (b', st') ->
    transfers_step (mkConf b st e) (mkConf b' st' e)
| step_close b st e start_height end_height root st' :
    commit_epoch_exports d e start_height end_height st = (root, st') ->
    transfers_step (mkConf b st e) (mkConf b st' (e + 1))
| step_balances b st e b' :
    (forall a, cur_held b' a = cur_held b a) ->
    transfers_step (mkConf b st e) (mkConf b' st e).

Definition transfers_init (importer : option AccountId) (c : TransfersConf) : Prop :=
  c_st c = transfers_genesis importer /\ c_epoch c = 0 /\ forall a, cur_held (c_bal c) a = 0.

Definition transfers_reachable (c : TransfersConf) : Prop :=
  exists importer c0, transfers_init importer c0 /\ rtc transfers_step c0 c.

(** ** Invariant *)

(** What an export contributes to the hold of [sender]. *)
Definition escrow (sender : hash) (r : ExportRecord) : Z :=
  if decide (el_sender (er_leaf r) = sender /\ er_status r <> RemoteFinalized)
  then el_amount (er_leaf r) else 0.

Definition export_ok (e : Z) (id : hash) (r : ExportRecord) : Prop :=
  let leaf := er_leaf r in
  el_export_id leaf = id /\ export_hashed leaf /\
  el_source_domain leaf = d /\ el_target_domain leaf <> d /\ 0 < el_amount leaf /\
  el_source_epoch_id leaf <= e /\ (exists who, el_sender leaf = account_to_bytes who) /\
  (er_status r = LocalFinal <-> el_source_epoch_id leaf = e).

(** Exports: identifiers, epoch lists, statuses, holds. *)
Record ExportsInv (c : TransfersConf) : Prop := {
  inv_sequence : 0 <= ts_next_export_sequence (c_st c) <= u64_max;
  inv_export_seq : forall id r, ts_exports_by_id (c_st c) !! id = Some r ->
    exists s, 0 <= s < ts_next_export_sequence (c_st c) /\ id = export_id d s;
  inv_export_ok : forall id r, ts_exports_by_id (c_st c) !! id = Some r ->
    export_ok (c_epoch c) id r;
  inv_export_ids : forall ep id, id ∈ epoch_export_ids (c_st c) ep <->
    exists r, ts_exports_by_id (c_st c) !! id = Some r /\ el_source_epoch_id (er_leaf r) = ep;
  inv_export_nodup : forall ep, NoDup (epoch_export_ids (c_st c) ep);
  inv_held : forall who, cur_held (c_bal c) who
    = map_sum (escrow (account_to_bytes who)) (ts_exports_by_id (c_st c));
  inv_acks : forall id, count_events (is_acknowledged id) (ts_events (c_st c))
    = match ts_exports_by_id (c_st c) !! id with
      | Some r => if decide (er_status r = RemoteFinalized) then 1%nat else 0%nat
      | None => 0%nat
      end
}.

(** Imports: observed and finalized claims. *)
Record ImportsInv (c : TransfersConf) : Prop := {
  inv_observed : forall id r, ts_observed_imports_by_id (c_st c) !! id = Some r ->
    oir_export_id r = id /\ oir_target_domain r = d;
  inv_finalized_ids : forall id,
    (exists ep, id ∈ epoch_finalized_import_ids (c_st c) ep) <->
    exists r, ts_observed_imports_by_id (c_st c) !! id = Some r /\ oir_status r = ImportRemoteFinalized;
  inv_finalized_once : forall ep ep' id,
    id ∈ epoch_finalized_import_ids (c_st c) ep -> id ∈ epoch_finalized_import_ids (c_st c) ep' -> ep = ep';
  inv_finalized_nodup : forall ep, NoDup (epoch_finalized_import_ids (c_st c) ep);
  inv_mints : forall id, count_events (is_import_finalized id) (ts_events (c_st c))
    = match ts_observed_imports_by_id (c_st c) !! id with
      | Some r => if decide (oir_status r = ImportRemoteFinalized) then 1%nat else 0%nat
      | None => 0%nat
      end
}.

Definition TransfersInv (c : TransfersConf) : Prop := ExportsInv c /\ ImportsInv c.

(** A step that leaves the exports, the holds and the acknowledgement events
    alone keeps the first part; one that leaves the imports alone the second. *)
Lemma exports_inv_frame b st e b' st' :
  ts_next_export_sequence st' = ts_next_export_sequence st ->
  ts_epoch_export_ids st' = ts_epoch_export_ids st ->
  ts_exports_by_id st' = ts_exports_by_id st ->
  (forall a, cur_held b' a = cur_held b a) ->
  (forall id, count_events (is_acknowledged id) (ts_events st')
              = count_events (is_acknowledged id) (ts_events st)) ->
  ExportsInv (mkConf b st e) -> ExportsInv (mkConf b' st' e).
Proof.
  intros E1 E2 E3 E4 E5 [I1 I2 I3 I4 I5 I6 I7]. unfold epoch_export_ids in *.
  split; unfold epoch_export_ids; simpl in *; rewrite ?E1, ?E2, ?E3; try done.
  - intros who. by rewrite E4.
  - intros id. by rewrite E5.
Qed.

Lemma imports_inv_frame b st e b' st' e' :
  ts_observed_imports_by_id st' = ts_observed_imports_by_id st ->
  ts_epoch_finalized_import_ids st' = ts_epoch_finalized_import_ids st ->
  (forall id, count_events (is_import_finalized id) (ts_events st')
              = count_events (is_import_finalized id) (ts_events st)) ->
  ImportsInv (mkConf b st e) -> ImportsInv (mkConf b' st' e').
Proof.
  intros E1 E2 E3 [I1 I2 I3 I4 I5]. unfold epoch_finalized_import_ids in *.
  split; unfold epoch_finalized_import_ids; simpl in *; rewrite ?E1, ?E2; try done.
  intros id. by rewrite E3.
Qed.

Lemma transfers_init_inv importer c : transfers_init importer c -> TransfersInv c.
Proof.
  intros (Hs & He & Hh). destruct c as [b st e]. simpl in *. subst.
  assert (forall ep : Z, (∅ : gmap Z (list hash)) !!! ep = []) as He by done.
  split; split; simpl; unfold epoch_export_ids, epoch_finalized_import_ids; simpl; try setoid_rewrite He.
  - by vm_compute.
  - intros id r Hr. by rewrite lookup_empty in Hr.
  - intros id r Hr. by rewrite lookup_empty in Hr.
  - intros ep id. split; [set_solver|intros (r & Hr & _); by rewrite lookup_empty in Hr].
  - intros _. constructor.
  - intros who. by rewrite Hh, map_sum_empty.
  - intros id. by rewrite lookup_empty.
  - intros id r Hr. by rewrite lookup_empty in Hr.
  - intros id. split; [intros [? ?]; set_solver|intros (r & Hr & _); by rewrite lookup_empty in Hr].
  - set_solver.
  - intros _. constructor.
  - intros id. by rewrite lookup_empty.
Qed.

(** ** Preservation: creating an export *)

Lemma fresh_export_id c :
  ExportsInv c -> ts_next_export_sequence (c_st c) < u64_max ->
  ts_exports_by_id (c_st c) !! export_id d (ts_next_export_sequence (c_st c)) = None.
Proof.
  intros HI Hlt. destruct (ts_exports_by_id (c_st c) !! _) as [r|] eqn:E; [|done].
  destruct (inv_export_seq _ HI _ _ E) as (s & Hs & Heq). pose proof (inv_sequence _ HI).
  apply export_ids_distinct in Heq; lia.
Qed.

Lemma epoch_ids_insert (m : gmap Z (list hash)) e l ep :
  (<[e := l]> m : gmap Z (list hash)) !!! ep = if decide (ep = e) then l else m !!! ep.
Proof.
  destruct (decide (ep = e)) as [->|].
  - by rewrite lookup_total_insert_eq.
  - by rewrite lookup_total_insert_ne.
Qed.

Lemma escrow_done sender r : er_status r = RemoteFinalized -> escrow sender r = 0.
Proof. intros Hs. unfold escrow. by rewrite decide_False by naive_solver. Qed.

Lemma escrow_open who who' r :
  er_status r <> RemoteFinalized -> el_sender (er_leaf r) = account_to_bytes who ->
  escrow (account_to_bytes who') r = if decide (who' = who) then el_amount (er_leaf r) else 0.
Proof.
  intros Hs Hw. unfold escrow. rewrite Hw. destruct (decide (who' = who)) as [->|Hne].
  - by rewrite decide_True.
  - rewrite decide_False; [done|]. intros [E _]. apply Hne. by apply (inj account_to_bytes).
Qed.

Lemma create_preserves b st e sys origin target recipient amount b' st' :
  TransfersInv (mkConf b st e) -> ts_next_export_sequence st < u64_max ->
  create_cross_domain_transfer d e sys origin target recipient amount (b, st) = Ok (b', st') ->
  TransfersInv (mkConf b' st' e).
Proof.
  intros [HI HI'] Hlt Hop. pose proof (fresh_export_id _ HI Hlt) as Hfresh. simpl in Hfresh.
  unfold create_cross_domain_transfer in Hop. dispatch_inv Hop. bool_to_prop. simplify_eq.
  rename a into who. destruct (cur_hold_spec _ _ _ _ E2) as (Hheld & _ & _).
  pose proof (inv_sequence _ HI) as Hseq. simpl in Hseq.
  set (id := export_id d (ts_next_export_sequence st)) in *.
  split; [split; simpl|].
  - rewrite sat_add_exact by lia. lia.
  - intros id' r. rewrite sat_add_exact by lia. rewrite lookup_insert_Some.
    intros [[<- _]|[_ Hr]]; [eexists; split; [|done]; lia|].
    destruct (inv_export_seq _ HI _ _ Hr) as (s & Hs & ->). exists s. simpl in Hs. split; [lia|done].
  - intros id' r. rewrite lookup_insert_Some. intros [[<- <-]|[_ Hr]]; [|by apply (inv_export_ok _ HI)].
    unfold export_ok. simpl. split_and!; try done; eauto.
  - intros ep id'. unfold epoch_export_ids. simpl. rewrite epoch_ids_insert.
    pose proof (inv_export_ids _ HI ep id') as Hids. unfold epoch_export_ids in Hids. simpl in Hids.
    destruct (decide (id' = id)) as [->|Hne].
    + rewrite lookup_insert_eq. split.
      * intros Hin. eexists. split; [done|]. simpl. destruct (decide (ep = e)) as [|Hne]; [done|].
        apply Hids in Hin as (r & Hr & _). by rewrite Hfresh in Hr.
      * intros (r & ? & Hep). simplify_eq. simpl. rewrite decide_True by done. set_solver.
    + rewrite lookup_insert_ne by done. rewrite <-Hids. destruct (decide (ep = e)) as [->|]; set_solver.
  - intros ep. unfold epoch_export_ids. simpl. rewrite epoch_ids_insert.
    pose proof (inv_export_nodup _ HI ep) as Hnd.
    destruct (decide (ep = e)) as [->|]; [|done]. apply NoDup_app. split_and!; [done| |apply NoDup_singleton].
    intros x Hx Hx'. apply list_elem_of_singleton in Hx' as ->.
    apply (inv_export_ids _ HI) in Hx as (r & Hr & _). simpl in Hr. by rewrite Hfresh in Hr.
  - intros who'. rewrite map_sum_insert_new by done. rewrite (Hheld who').
    rewrite (escrow_open who) by done. pose proof (inv_held _ HI who'). simpl in *.
    destruct (decide (who' = who)); lia.
  - intros id'. rewrite count_events_snoc. simpl. rewrite (inv_acks _ HI). simpl.
    destruct (decide (id' = id)) as [->|]; [rewrite lookup_insert_eq, Hfresh; done|].
    rewrite lookup_insert_ne by done. lia.
  - revert HI'. apply imports_inv_frame; [done|done|]. intros id'. simpl.
    rewrite count_events_snoc. simpl. lia.
Qed.

(** ** Preservation: imports *)

Lemma observe_preserves b st e sys origin claim b' st' :
  TransfersInv (mkConf b st e) ->
  observe_verified_import d sys origin claim (b, st) = Ok (b', st') ->
  TransfersInv (mkConf b' st' e).
Proof.
  intros [HI HI'] Hop. unfold observe_verified_import in Hop. dispatch_inv Hop. bool_to_prop. simplify_eq.
  split.
  { revert HI. apply exports_inv_frame; try done. intros id. simpl.
    rewrite count_events_snoc. simpl. lia. }
  destruct HI' as [I1 I2 I3 I4 I5]. unfold epoch_finalized_import_ids in *. simpl in *.
  set (id := oic_export_id claim) in *.
  split; unfold epoch_finalized_import_ids; simpl.
  - intros id' r. rewrite lookup_insert_Some. intros [[<- <-]|[_ Hr]]; [done|by apply I1].
  - intros id'. rewrite I2. destruct (decide (id' = id)) as [->|].
    + rewrite lookup_insert_eq. split; intros (r & Hr & Hs); simplify_eq.
    + by rewrite lookup_insert_ne.
  - done.
  - done.
  - intros id'. rewrite count_events_snoc. simpl. rewrite I5.
    destruct (decide (id' = id)) as [->|].
    + rewrite lookup_insert_eq. replace (_ !! id) with (@None ObservedImportRecord) by done. done.
    + rewrite lookup_insert_ne by done. lia.
Qed.

Lemma finalize_preserves b st e sys origin id b' st' :
  TransfersInv (mkConf b st e) ->
  finalize_verified_import d e sys origin id (b, st) = Ok (b', st') ->
  TransfersInv (mkConf b' st' e).
Proof.
  intros [HI HI'] Hop. unfold finalize_verified_import in Hop. dispatch_inv Hop. bool_to_prop.
  simplify_eq.
  match goal with H : cur_mint_into _ _ _ = Some _ |- _ => destruct (cur_mint_spec _ _ _ _ H) as (Hheld & _ & _) end.
  split.
  { revert HI. apply exports_inv_frame; try done. intros id'. simpl.
    rewrite count_events_snoc. simpl. lia. }
  destruct HI' as [I1 I2 I3 I4 I5]. unfold epoch_finalized_import_ids in *. simpl in *.
  assert (forall ep, id ∉ ts_epoch_finalized_import_ids st !!! ep) as Hnew.
  { intros ep Hin. destruct (proj1 (I2 id)) as (r' & Hr' & Hs); [by eexists|]. congruence. }
  rewrite decide_False by apply Hnew.
  split; unfold epoch_finalized_import_ids; simpl.
  - intros id' r'. rewrite lookup_insert_Some. intros [[<- <-]|[_ Hr]]; [|by apply I1].
    simpl. by apply I1.
  - intros id'. setoid_rewrite epoch_ids_insert. destruct (decide (id' = id)) as [->|Hne].
    + rewrite lookup_insert_eq. split; [intros _; by eexists|]. intros _. exists e.
      rewrite decide_True by done. set_solver.
    + rewrite lookup_insert_ne by done. rewrite <-I2.
      split; intros [ep Hin]; exists ep; destruct (decide (ep = e)) as [->|]; set_solver.
  - intros ep ep' id'. rewrite !epoch_ids_insert. intros Hin Hin'.
    destruct (decide (id' = id)) as [->|Hne].
    + destruct (decide (ep = e)), (decide (ep' = e)); subst; try done; exfalso; by eapply Hnew.
    + apply (I3 ep ep' id');
        [destruct (decide (ep = e))|destruct (decide (ep' = e))]; subst; set_solver.
  - intros ep. rewrite epoch_ids_insert. destruct (decide (ep = e)) as [->|]; [|done].
    apply NoDup_app. split_and!; [done| |apply NoDup_singleton].
    intros x Hx Hx'. apply list_elem_of_singleton in Hx' as ->. by eapply Hnew.
  - intros id'. rewrite count_events_snoc. simpl. rewrite I5. destruct (decide (id' = id)) as [->|].
    + rewrite lookup_insert_eq, bool_decide_eq_true_2 by done.
      match goal with Hr : ts_observed_imports_by_id st !! id = Some _ |- _ => rewrite Hr end.
      simpl. by rewrite decide_False by congruence.
    + rewrite lookup_insert_ne, bool_decide_eq_false_2 by done. lia.
Qed.

(** ** Preservation: resolving an export *)

Lemma resolve_export_inv who height claim r b b' r' :
  resolve_export who height claim r b = Ok (b', r') ->
  el_source_domain (er_leaf r) = rfc_source_domain claim /\
  el_target_domain (er_leaf r) = rfc_target_domain claim /\
  el_source_epoch_id (er_leaf r) = rfc_source_epoch_id claim /\
  el_recipient (er_leaf r) = rfc_recipient claim /\ el_amount (er_leaf r) = rfc_amount claim /\
  er_status r = Exported /\ er_leaf r' = er_leaf r /\ er_status r' = RemoteFinalized /\
  exists sender, account_from_bytes (el_sender (er_leaf r)) = Some sender /\
    cur_burn_held b sender (el_amount (er_leaf r)) = Some b'.
Proof.
  unfold resolve_export. intros Hop. dispatch_inv Hop. bool_to_prop. simplify_eq.
  split_and!; try done. eauto.
Qed.

Lemma acknowledge_inv sys origin claim b st b' st' :
  acknowledge_remote_finalization d sys origin claim (b, st) = Ok (b', st') ->
  exists who r r', origin = Signed who /\ ts_importer_account st = Some who /\
    rfc_source_domain claim = d /\ ts_exports_by_id st !! rfc_export_id claim = Some r /\
    resolve_export who (saturated_into_u32 (sys_block_number sys)) claim r b = Ok (b', r') /\
    st' = deposit_transfers_event
            (RemoteFinalizationAcknowledged (rfc_export_id claim) (rfc_source_domain claim)
               (rfc_target_domain claim))
            (st {{ ts_exports_by_id ::= <[rfc_export_id claim := r']> }}).
Proof.
  unfold acknowledge_remote_finalization. intros Hop. dispatch_inv Hop. bool_to_prop. simplify_eq.
  destruct origin; simplify_eq/=. do 3 eexists. split_and!; done.
Qed.

Lemma acknowledge_preserves b st e sys origin claim b' st' :
  TransfersInv (mkConf b st e) ->
  acknowledge_remote_finalization d sys origin claim (b, st) = Ok (b', st') ->
  TransfersInv (mkConf b' st' e).
Proof.
  intros [HI HI'] (importer & r & r' & _ & _ & _ & Hr & Hres & ->)%acknowledge_inv.
  split; [|revert HI'; apply imports_inv_frame; try done; intros id';
           simpl; rewrite count_events_snoc; simpl; lia].
  set (id := rfc_export_id claim) in *.
  destruct (resolve_export_inv _ _ _ _ _ _ _ Hres)
    as (_ & _ & _ & _ & _ & Hexp & Hleaf & Hfin & sender & Hsender & Hburn).
  destruct (inv_export_ok _ HI id r Hr) as (Hid & Hhash & Hsrc & Htgt & Hpos & Hep & [who Hwho] & Hst).
  simpl in *. rewrite Hwho, (proj2 (account_to_bytes_spec who)) in Hsender.
  injection Hsender as <-.
  destruct (cur_burn_spec _ _ _ _ Hburn) as (Hheld & _ & _).
  destruct HI as [I1 I2 I3 I4 I5 I6 I7]. unfold epoch_export_ids in *. simpl in *.
  split; unfold epoch_export_ids; simpl.
  - done.
  - intros id' x. rewrite lookup_insert_Some. intros [[<- <-]|[_ Hx]]; eauto.
  - intros id' x. rewrite lookup_insert_Some. intros [[<- <-]|[_ Hx]]; [|by apply I3].
    unfold export_ok. rewrite Hleaf, Hfin. split_and!; try done; [eauto|].
    rewrite <-Hst. split; congruence.
  - intros ep id'. rewrite I4. destruct (decide (id' = id)) as [->|].
    + rewrite lookup_insert_eq. split; intros (x & Hx & Hep'); simplify_eq; eexists; split; eauto; congruence.
    + by rewrite lookup_insert_ne.
  - done.
  - intros who'. rewrite map_sum_insert, Hr, (Hheld who'), I6. simpl.
    rewrite (escrow_done _ r' Hfin), (escrow_open who who' r) by congruence.
    destruct (decide (who' = who)); lia.
  - intros id'. rewrite count_events_snoc. simpl. rewrite I7. destruct (decide (id' = id)) as [->|].
    + rewrite lookup_insert_eq, Hr, bool_decide_eq_true_2 by done.
      rewrite decide_False, decide_True by congruence. done.
    + rewrite lookup_insert_ne, bool_decide_eq_false_2 by done. lia.
Qed.

(** ** Preservation: closing an epoch *)

Definition set_exported (r : ExportRecord) : ExportRecord := r {{ er_status := Exported }}.

Lemma set_exported_id r : er_status r = Exported -> set_exported r = r.
Proof. destruct r. simpl. intros ->. done. Qed.

Lemma mark_exported_exports ep st leaf :
  ts_exports_by_id (mark_exported ep st leaf)
  = match ts_exports_by_id st !! el_export_id leaf with
    | Some r => <[el_export_id leaf := set_exported r]> (ts_exports_by_id st)
    | None => ts_exports_by_id st
    end.
Proof.
  unfold mark_exported. destruct (ts_exports_by_id st !! _) as [r|] eqn:E; [|done].
  destruct (bool_decide _) eqn:Eb; [done|]. bool_to_prop. apply dec_stable in Eb.
  rewrite set_exported_id by done. symmetry. by apply insert_id.
Qed.

(** What marking leaves alone. *)
Definition same_but_exports (st st' : TransfersState) : Prop :=
  ts_next_export_sequence st' = ts_next_export_sequence st /\
  ts_epoch_export_ids st' = ts_epoch_export_ids st /\
  ts_importer_account st' = ts_importer_account st /\
  ts_observed_imports_by_id st' = ts_observed_imports_by_id st /\
  ts_epoch_finalized_import_ids st' = ts_epoch_finalized_import_ids st /\
  (forall id, count_events (is_acknowledged id) (ts_events st')
              = count_events (is_acknowledged id) (ts_events st)) /\
  (forall id, count_events (is_import_finalized id) (ts_events st')
              = count_events (is_import_finalized id) (ts_events st)).

Lemma mark_exported_frame ep st leaf : same_but_exports st (mark_exported ep st leaf).
Proof.
  unfold mark_exported, same_but_exports.
  destruct (ts_exports_by_id st !! _); [|done]. destruct (bool_decide _); [|done]. simpl.
  split_and!; try done; intros id; rewrite count_events_snoc; simpl; lia.
Qed.

Lemma foldl_mark_frame ep leaves st : same_but_exports st (foldl (mark_exported ep) st leaves).
Proof.
  revert st. induction leaves as [|l leaves IH]; intros st; simpl; [done|].
  destruct (mark_exported_frame ep st l) as (A1 & A2 & A3 & A4 & A5 & A6 & A7).
  destruct (IH (mark_exported ep st l)) as (B1 & B2 & B3 & B4 & B5 & B6 & B7).
  unfold same_but_exports. split_and!; try congruence; intros id; by rewrite ?B6, ?B7.
Qed.

Lemma foldl_mark_lookup ep leaves st id :
  ts_exports_by_id (foldl (mark_exported ep) st leaves) !! id
  = (if decide (id ∈ map el_export_id leaves) then set_exported else fun r => r)
    <$> ts_exports_by_id st !! id.
Proof.
  revert st. induction leaves as [|l leaves IH]; intros st; simpl.
  { by destruct (_ !! id). }
  rewrite IH, mark_exported_exports. destruct (decide (id = el_export_id l)) as [->|Hne].
  - rewrite (decide_True (P := _ ∈ _ :: _)) by set_solver.
    destruct (ts_exports_by_id st !! el_export_id l) as [r|] eqn:E;
      [rewrite lookup_insert_eq; simpl; by case_decide|by rewrite E].
  - rewrite (decide_ext (id ∈ el_export_id l :: _) (id ∈ map el_export_id leaves)) by set_solver.
    destruct (ts_exports_by_id st !! el_export_id l) as [r|]; [|done]. by rewrite lookup_insert_ne.
Qed.

Lemma foldl_mark_escrow ep leaves st sender :
  (forall l r, l ∈ leaves -> ts_exports_by_id st !! el_export_id l = Some r ->
     er_status r <> RemoteFinalized) ->
  map_sum (escrow sender) (ts_exports_by_id (foldl (mark_exported ep) st leaves))
  = map_sum (escrow sender) (ts_exports_by_id st).
Proof.
  revert st. induction leaves as [|l leaves IH]; intros st Hs; simpl; [done|]. rewrite IH.
  - rewrite mark_exported_exports. destruct (ts_exports_by_id st !! _) as [r|] eqn:E; [|done].
    rewrite map_sum_insert, E. simpl. assert (escrow sender (set_exported r) = escrow sender r) as ->; [|lia].
    unfold escrow. simpl. pose proof (Hs l r ltac:(set_solver) E).
    apply decide_ext. split; intros [? ?]; split; congruence.
  - intros l' r' Hl' Hr'. rewrite mark_exported_exports in Hr'.
    destruct (ts_exports_by_id st !! el_export_id l) as [r|] eqn:E; [|by apply (Hs l'); [set_solver|]].
    rewrite lookup_insert_Some in Hr'. destruct Hr' as [[_ <-]|[_ Hr']]; [done|].
    by apply (Hs l'); [set_solver|].
Qed.

(** The exports an epoch commits to are the ones created in it. *)
Lemma canonical_exports_elem c ep leaf :
  ExportsInv c ->
  leaf ∈ canonical_epoch_exports (c_st c) ep <->
  exists r, ts_exports_by_id (c_st c) !! el_export_id leaf = Some r /\ er_leaf r = leaf /\
    el_source_epoch_id leaf = ep.
Proof.
  intros HI. unfold canonical_epoch_exports, sort_export_leaves.
  rewrite elem_of_sort_by, list_elem_of_omap. split.
  - intros (id & Hid & Hl). apply (inv_export_ids _ HI) in Hid as (r & Hr & Hep).
    rewrite Hr in Hl. simplify_eq/=. destruct (inv_export_ok _ HI _ _ Hr) as [Hi _].
    exists r. rewrite Hi. done.
  - intros (r & Hr & <- & Hep). exists (el_export_id (er_leaf r)). rewrite Hr. split; [|done].
    apply (inv_export_ids _ HI). eauto.
Qed.

Lemma canonical_exports_ids c ep id :
  ExportsInv c ->
  id ∈ map el_export_id (canonical_epoch_exports (c_st c) ep) <-> id ∈ epoch_export_ids (c_st c) ep.
Proof.
  intros HI. rewrite (inv_export_ids _ HI). split.
  - intros (leaf & -> & (r & Hr & Hl & Hep)%canonical_exports_elem)%list_elem_of_fmap; [|done].
    exists r. by rewrite Hl.
  - intros (r & Hr & Hep). apply list_elem_of_fmap. exists (er_leaf r).
    destruct (inv_export_ok _ HI _ _ Hr) as [Hid _]. split; [done|].
    apply canonical_exports_elem; [done|]. exists r. by rewrite Hid.
Qed.

Lemma close_preserves b st e s t root st' :
  TransfersInv (mkConf b st e) -> commit_epoch_exports d e s t st = (root, st') ->
  TransfersInv (mkConf b st' (e + 1)).
Proof.
  intros [HI HI'] Hop. unfold commit_epoch_exports in Hop. injection Hop as _ <-.
  set (leaves := canonical_epoch_exports st e).
  destruct (foldl_mark_frame e leaves st) as (F1 & F2 & _ & F4 & F5 & F6 & F7).
  split; [|revert HI'; by apply imports_inv_frame].
  assert (forall id r, ts_exports_by_id st !! id = Some r ->
            id ∈ map el_export_id leaves <-> el_source_epoch_id (er_leaf r) = e) as Hin.
  { intros id r Hr. unfold leaves. rewrite (canonical_exports_ids (mkConf b st e)) by done.
    rewrite (inv_export_ids _ HI). simpl. split; [intros (? & ? & ?); congruence|eauto]. }
  assert (forall id r, ts_exports_by_id (foldl (mark_exported e) st leaves) !! id = Some r ->
            exists r0, ts_exports_by_id st !! id = Some r0 /\ er_leaf r = er_leaf r0 /\
              er_status r = (if decide (el_source_epoch_id (er_leaf r0) = e) then Exported
                             else er_status r0)) as Hback.
  { intros id r. rewrite foldl_mark_lookup. destruct (ts_exports_by_id st !! id) as [r0|] eqn:E; [|done].
    simpl. intros Hr. injection Hr as <-. exists r0. split; [done|].
    rewrite (decide_ext _ _ _ _ (Hin _ _ E)). by case_decide. }
  destruct HI as [I1 I2 I3 I4 I5 I6 I7]. unfold epoch_export_ids in *. simpl in *.
  split; unfold epoch_export_ids; simpl; rewrite ?F1, ?F2; try done.
  - intros id r (r0 & Hr0 & _)%Hback. eauto.
  - intros id r (r0 & Hr0 & Hl & Hs)%Hback.
    destruct (I3 _ _ Hr0) as (A1 & A2 & A3 & A4 & A5 & A6 & A7 & A8).
    unfold export_ok. rewrite Hl, Hs. split_and!; try done; [lia|].
    case_decide; split; intros; try done; [lia|tauto|lia].
  - intros ep id. rewrite I4. rewrite foldl_mark_lookup.
    destruct (ts_exports_by_id st !! id) as [r|]; simpl; [|done].
    split; intros (x & Hx & Hep); simplify_eq; eexists; (split; [done|]); by case_decide.
  - intros who. rewrite I6. symmetry. apply foldl_mark_escrow.
    intros l r Hl Hr. destruct (I3 _ _ Hr) as (_ & _ & _ & _ & _ & _ & _ & A8).
    assert (er_status r = LocalFinal) as ->; [|done].
    apply A8, (Hin _ _ Hr). apply list_elem_of_fmap. eauto.
  - intros id. rewrite F6, I7, foldl_mark_lookup.
    destruct (ts_exports_by_id st !! id) as [r|] eqn:E; simpl; [|done].
    rewrite (decide_ext _ _ _ _ (Hin _ _ E)). destruct (I3 _ _ E) as (_ & _ & _ & _ & _ & _ & _ & A8).
    destruct (decide (el_source_epoch_id (er_leaf r) = e)) as [He|]; [|done].
    apply A8 in He. by rewrite He.
Qed.

Lemma transfers_step_inv c c' : TransfersInv c -> transfers_step c c' -> TransfersInv c'.
Proof.
  intros HI Hs. destruct Hs.
  - by eapply create_preserves.
  - by eapply observe_preserves.
  - by eapply finalize_preserves.
  - by eapply acknowledge_preserves.
  - by eapply close_preserves.
  - destruct HI as [HI HI']. split; [revert HI; by apply exports_inv_frame|].
    revert HI'. by apply imports_inv_frame.
Qed.

Lemma transfers_reachable_inv c : transfers_reachable c -> TransfersInv c.
Proof.
  intros (importer & c0 & Hinit & Hrtc). apply transfers_init_inv in Hinit.
  induction Hrtc as [|? ? ? Hstep _ IH]; [done|]. eauto using transfers_step_inv.
Qed.

(** ** Properties *)

(** C10: every hold is backed: in every reachable state the balance an account
    has on hold is the sum of its exports that are not yet finalized remotely. *)
Theorem escrow_backed c who :
  transfers_reachable c ->
  cur_held (c_bal c) who
  = map_sum (escrow (account_to_bytes who)) (ts_exports_by_id (c_st c)).
Proof. intros [HI _]%transfers_reachable_inv. apply (inv_held _ HI). Qed.

Definition status_rank (s : ExportStatus) : Z :=
  match s with LocalFinal => 0 | Exported => 1 | RemoteFinalized => 2 end.

(** Exports only move forward: no step of the chain deletes an export,
    changes its leaf or moves its status backwards; a status advances by at most
    one stage, from local to exported to remotely finalized. *)
Theorem export_lifecycle c c' id r :
  transfers_reachable c -> transfers_step c c' ->
  ts_exports_by_id (c_st c) !! id = Some r ->
  exists r', ts_exports_by_id (c_st c') !! id = Some r' /\ er_leaf r' = er_leaf r /\
    status_rank (er_status r) <= status_rank (er_status r') <= status_rank (er_status r) + 1.
Proof.
  intros [HI _]%transfers_reachable_inv Hstep Hr. destruct Hstep as
    [b st e sys origin target recipient amount b' st' Hlt Hop|b st e sys origin claim b' st' Hop
    |b st e sys origin id' b' st' Hop|b st e sys origin claim b' st' Hop|b st e s t root st' Hop|]; simpl in *.
  - pose proof (fresh_export_id _ HI Hlt) as Hf. unfold create_cross_domain_transfer in Hop.
    dispatch_inv Hop. simplify_eq. simpl in *. exists r. rewrite lookup_insert_ne by congruence.
    split_and!; [done|done|lia|lia].
  - unfold observe_verified_import in Hop. dispatch_inv Hop. simplify_eq. exists r.
    split_and!; [done|done|lia|lia].
  - unfold finalize_verified_import in Hop. dispatch_inv Hop. simplify_eq. exists r.
    split_and!; [done|done|lia|lia].
  - apply acknowledge_inv in Hop as (who & r0 & r1 & _ & _ & _ & Hr0 & Hres & ->). simpl.
    apply resolve_export_inv in Hres as (_ & _ & _ & _ & _ & Hexp & Hleaf & Hfin & _).
    destruct (decide (id = rfc_export_id claim)) as [->|].
    + rewrite lookup_insert_eq. exists r1. simplify_eq. rewrite Hexp, Hfin. by simpl.
    + rewrite lookup_insert_ne by done. exists r. split_and!; [done|done|lia|lia].
  - injection Hop as _ <-. rewrite foldl_mark_lookup, Hr. simpl.
    eexists. split; [done|].
    case_decide as Hin; [|split; [done|lia]]. split; [done|]. simpl.
    apply (canonical_exports_ids (mkConf b st e)) in Hin; [|done].
    apply (inv_export_ids _ HI) in Hin as (r0 & Hr0 & Hep). simpl in Hr0.
    destruct (inv_export_ok _ HI _ _ Hr) as (_ & _ & _ & _ & _ & _ & _ & Hs). simpl in Hs.
    assert (er_status r = LocalFinal) as -> by (apply Hs; congruence). simpl. lia.
  - exists r. split_and!; [done|done|lia|lia].
Qed.

(** What an import keeps, whatever happens to it. *)
Definition same_import (r r' : ObservedImportRecord) : Prop :=
  oir_export_id r' = oir_export_id r /\ oir_source_domain r' = oir_source_domain r /\
  oir_target_domain r' = oir_target_domain r /\ oir_source_epoch_id r' = oir_source_epoch_id r /\
  oir_recipient r' = oir_recipient r /\ oir_amount r' = oir_amount r.

(** Imports are never deleted, keep their terms, and stay finalized. *)
Lemma import_lifecycle c c' id r :
  transfers_step c c' -> ts_observed_imports_by_id (c_st c) !! id = Some r ->
  exists r', ts_observed_imports_by_id (c_st c') !! id = Some r' /\ same_import r r' /\
    (oir_status r = ImportRemoteFinalized -> oir_status r' = ImportRemoteFinalized).
Proof.
  intros Hstep Hr. destruct Hstep as
    [b st e sys origin target recipient amount b' st' Hlt Hop|b st e sys origin claim b' st' Hop
    |b st e sys origin id' b' st' Hop|b st e sys origin claim b' st' Hop|b st e s t root st' Hop|]; simpl in *.
  - unfold create_cross_domain_transfer in Hop. dispatch_inv Hop. simplify_eq. by exists r.
  - unfold observe_verified_import in Hop. dispatch_inv Hop. bool_to_prop. simplify_eq. exists r. simpl.
    rewrite lookup_insert_ne by congruence. done.
  - unfold finalize_verified_import in Hop. dispatch_inv Hop. bool_to_prop. simplify_eq. simpl.
    destruct (decide (id = id')) as [->|]; [rewrite lookup_insert_eq|rewrite lookup_insert_ne by done; by exists r].
    eexists. split; [done|]. simplify_eq. done.
  - apply acknowledge_inv in Hop as (who & r0 & r1 & _ & _ & _ & _ & _ & ->). by exists r.
  - injection Hop as _ <-. destruct (foldl_mark_frame e (canonical_epoch_exports st e) st) as (_ & _ & _ & E2 & _).
    rewrite E2. by exists r.
  - by exists r.
Qed.

(** A settled transfer stays settled: a resolved export and a finalized import. *)
Lemma resolved_persists c c' id r :
  transfers_reachable c -> rtc transfers_step c c' -> ts_exports_by_id (c_st c) !! id = Some r ->
  exists r', ts_exports_by_id (c_st c') !! id = Some r' /\ er_leaf r' = er_leaf r /\
    (er_status r = RemoteFinalized -> er_status r' = RemoteFinalized).
Proof.
  intros Hc Hs. revert Hc r. induction Hs as [c|c c1 c' Hstep _ IH]; intros Hc r Hr; [by exists r|].
  destruct (export_lifecycle c c1 id r Hc Hstep Hr) as (r1 & Hr1 & El & Hrank).
  destruct Hc as (i & c0 & Hi & Hrun).
  destruct (IH ltac:(exists i, c0; split; [done|by eapply rtc_r]) r1 Hr1) as (r' & Hr' & El' & Hst).
  exists r'. split_and!; [done|congruence|]. intros E. apply Hst. rewrite E in Hrank. destruct (er_status r1); simpl in *; [lia|lia|done].
Qed.
Lemma finalized_persists c c' id r :
  rtc transfers_step c c' -> ts_observed_imports_by_id (c_st c) !! id = Some r -> oir_status r = ImportRemoteFinalized ->
  exists r', ts_observed_imports_by_id (c_st c') !! id = Some r' /\ same_import r r' /\
    oir_status r' = ImportRemoteFinalized.
Proof.
  intros Hs. revert r. induction Hs as [c|c c1 c' Hstep _ IH]; intros r Hr Hf; [by exists r|].
  destruct (import_lifecycle c c1 id r Hstep Hr) as (r1 & Hr1 & Hsame & Hst).
  destruct (IH r1 Hr1 (Hst Hf)) as (r' & Hr' & Hsame' & Hf'). exists r'. split_and!; [done| |done].
  unfold same_import in *. intuition congruence.
Qed.

(** C18: a hold is burnt at most once per export: the chain has emitted
    [RemoteFinalizationAcknowledged] for an identifier exactly once if the
    export is finalized remotely and never otherwise. *)
Theorem export_resolved_once c id :
  transfers_reachable c ->
  count_events (is_acknowledged id) (ts_events (c_st c))
  = match ts_exports_by_id (c_st c) !! id with
    | Some r => if decide (er_status r = RemoteFinalized) then 1%nat else 0%nat
    | None => 0%nat
    end.
Proof. intros [HI _]%transfers_reachable_inv. apply (inv_acks _ HI). Qed.

Lemma escrow_nonneg c sender id r :
  ExportsInv c -> ts_exports_by_id (c_st c) !! id = Some r -> 0 <= escrow sender r.
Proof.
  intros HI Hr. destruct (inv_export_ok _ HI _ _ Hr) as (_ & _ & _ & _ & Hpos & _).
  unfold escrow. case_decide; lia.
Qed.

(** A matching claim for an exported transfer is accepted: the hold covers it. *)
Lemma acknowledge_accepts b st e sys who claim r :
  transfers_reachable (mkConf b st e) ->
  ts_importer_account st = Some who ->
  ts_exports_by_id st !! rfc_export_id claim = Some r -> er_status r = Exported ->
  rfc_source_domain claim = d -> rfc_target_domain claim = el_target_domain (er_leaf r) ->
  rfc_source_epoch_id claim = el_source_epoch_id (er_leaf r) ->
  rfc_recipient claim = el_recipient (er_leaf r) -> rfc_amount claim = el_amount (er_leaf r) ->
  exists b' st' sender,
    acknowledge_remote_finalization d sys (Signed who) claim (b, st) = Ok (b', st') /\
    el_sender (er_leaf r) = account_to_bytes sender /\
    cur_burn_held b sender (el_amount (er_leaf r)) = Some b'.
Proof.
  intros [HI _]%transfers_reachable_inv Himp Hr Hexp C1 C2 C3 C4 C5.
  destruct (inv_export_ok _ HI _ _ Hr) as (_ & _ & Hsrc & _ & Hpos & _ & [sender Hs] & _).
  destruct (cur_burn_total b sender (el_amount (er_leaf r))) as [b' Hb].
  { split; [lia|]. pose proof (inv_held _ HI sender) as Hheld. simpl in Hheld. rewrite Hheld.
    transitivity (escrow (account_to_bytes sender) r).
    - rewrite (escrow_open sender) by congruence. by rewrite decide_True.
    - apply (map_sum_member _ _ (rfc_export_id claim)); [|done].
      intros id x. apply (escrow_nonneg (mkConf b st e)); done. }
  unfold acknowledge_remote_finalization. simpl. rewrite Himp.
  rewrite bool_decide_eq_true_2 by done. rewrite bool_decide_eq_true_2 by done. rewrite Hr.
  unfold resolve_export.
  rewrite Hsrc, C1, C2, C3, C4, C5, Hexp, Hs, (proj2 (account_to_bytes_spec sender)), !Z.eqb_refl, Hb.
  rewrite !bool_decide_eq_true_2 by done. by do 3 eexists.
Qed.

(** The root over an epoch's exports, and the proofs that verify against it. *)
Lemma export_root_of_epoch `{!CodecOk, !CodecSep} c e s t :
  ExportsInv c -> Z.of_nat (length (epoch_export_ids (c_st c) e)) <= u32_max ->
  let root := export_merkle_root d e s t (canonical_epoch_exports (c_st c) e) in
  (forall id r, ts_exports_by_id (c_st c) !! id = Some r -> el_source_epoch_id (er_leaf r) = e ->
     exists proof, build_export_inclusion_proof (canonical_epoch_exports (c_st c) e) id = Some proof /\
       eip_leaf proof = er_leaf r /\ verify_export_inclusion_proof root proof = true) /\
  (forall proof, verify_export_inclusion_proof root proof = true ->
     (exists r, ts_exports_by_id (c_st c) !! el_export_id (eip_leaf proof) = Some r /\
        er_leaf r = eip_leaf proof /\ el_source_epoch_id (er_leaf r) = e) \/
     collision blake2_256).
Proof.
  intros HI Hlen. cbv zeta.
  assert (Forall export_hashed (canonical_epoch_exports (c_st c) e)) as Hh.
  { apply Forall_forall. intros leaf (r & Hr & <- & _)%canonical_exports_elem; [|done].
    by apply (inv_export_ok _ HI _ _ Hr). }
  assert (Z.of_nat (length (canonical_epoch_exports (c_st c) e)) <= u32_max) as Hmax.
  { unfold canonical_epoch_exports, sort_export_leaves. rewrite length_sort_by.
    pose proof (omap_length_le (fun id => er_leaf <$> ts_exports_by_id (c_st c) !! id)
                  (epoch_export_ids (c_st c) e)). lia. }
  split.
  - intros id r Hr Hep.
    assert (id ∈ map el_export_id (canonical_epoch_exports (c_st c) e)) as Hid.
    { apply canonical_exports_ids; [done|]. apply (inv_export_ids _ HI). eauto. }
    destruct (export_proof_complete d e s t _ _ Hh Hid Hmax) as (p & Hp & Hl & Hpid & Hv).
    exists p. split_and!; [done| |done].
    apply canonical_exports_elem in Hl as (r' & Hr' & <- & _); [|done]. rewrite Hpid in Hr'. congruence.
  - intros proof Hv. apply export_proof_sound in Hv as [Hin|?]; [left|by right|done].
    apply canonical_exports_elem in Hin as (r & Hr & Hl & Hep); [|done].
    exists r. split_and!; [done|done|congruence].
Qed.

(** C21: an epoch's export root is exact: when epoch [e] is closed, the root
    commits to the exports created in it and to nothing else.  Each of them is
    [Exported] afterwards and has an inclusion proof that verifies against the
    root, and a proof that verifies against the root is of an export of this
    chain created in epoch [e], or [blake2_256] collides. *)
Theorem epoch_export_root_exact `{!CodecOk, !CodecSep} b st e s t root st' :
  transfers_reachable (mkConf b st e) ->
  commit_epoch_exports d e s t st = (root, st') ->
  Z.of_nat (length (epoch_export_ids st e)) <= u32_max ->
  (forall id r, ts_exports_by_id st !! id = Some r -> el_source_epoch_id (er_leaf r) = e ->
     (exists r', ts_exports_by_id st' !! id = Some r' /\ er_status r' = Exported) /\
     exists proof, build_export_inclusion_proof (canonical_epoch_exports st e) id = Some proof /\
       eip_leaf proof = er_leaf r /\ verify_export_inclusion_proof root proof = true) /\
  (forall proof, verify_export_inclusion_proof root proof = true ->
     (exists r, ts_exports_by_id st !! el_export_id (eip_leaf proof) = Some r /\
        er_leaf r = eip_leaf proof /\ el_source_epoch_id (er_leaf r) = e) \/
     collision blake2_256).
Proof.
  intros [HI _]%transfers_reachable_inv Hop Hlen. injection Hop as <- <-.
  destruct (export_root_of_epoch (mkConf b st e) e s t HI Hlen) as [Hall Hsound]. split; [|exact Hsound].
  intros id r Hr Hep. split; [|by apply Hall].
  rewrite foldl_mark_lookup, Hr, decide_True; [by eexists|].
  apply (canonical_exports_ids (mkConf b st e)); [done|]. apply (inv_export_ids _ HI). eauto.
Qed.

(** Finalizing an import mints exactly the claimed amount to the claimed
    recipient, touches no hold, and cannot be repeated: the same call afterwards
    fails with [ImportNotObserved]. *)
Theorem finalize_mints_once b st e sys origin id b' st' :
  finalize_verified_import d e sys origin id (b, st) = Ok (b', st') ->
  exists r recipient,
    ts_observed_imports_by_id st !! id = Some r /\ oir_target_domain r = d /\
    account_from_bytes (oir_recipient r) = Some recipient /\
    shifts (cur_balance b) (cur_balance b') recipient (oir_amount r) /\
    (forall a, cur_held b' a = cur_held b a) /\
    cur_total_issuance b' = cur_total_issuance b + oir_amount r /\
    forall e2 sys2, finalize_verified_import d e2 sys2 origin id (b', st') = Err ImportNotObserved.
Proof.
  clear export_ids_distinct. unfold finalize_verified_import at 1. intros Hop. dispatch_inv Hop. bool_to_prop. simplify_eq.
  match goal with H : cur_mint_into _ _ _ = Some _ |- _ =>
    destruct (cur_mint_spec _ _ _ _ H) as (Hheld & Hbal & Hiss) end.
  do 2 eexists. split_and!; try done. intros e2 sys2. unfold finalize_verified_import.
  match goal with H : ensure_signed origin = _ |- _ => rewrite H end. simpl.
  match goal with H : ts_importer_account st = _ |- _ => rewrite H end.
  rewrite bool_decide_eq_true_2 by done. rewrite lookup_insert_eq. simpl.
  by rewrite bool_decide_eq_true_2.
Qed.

Lemma canonical_imports_elem c ep leaf :
  ImportsInv c ->
  leaf ∈ canonical_epoch_finalized_imports (c_st c) ep <->
  fl_export_id leaf ∈ epoch_finalized_import_ids (c_st c) ep /\
  exists r, ts_observed_imports_by_id (c_st c) !! fl_export_id leaf = Some r /\
    finalized_leaf r = Some leaf.
Proof.
  intros HI. unfold canonical_epoch_finalized_imports, sort_finalized_import_leaves.
  rewrite elem_of_sort_by, list_elem_of_omap.
  assert (forall id r leaf, ts_observed_imports_by_id (c_st c) !! id = Some r ->
            finalized_leaf r = Some leaf -> fl_export_id leaf = id) as Hid.
  { intros id r l Hr Hl. destruct (inv_observed _ HI _ _ Hr) as [<- _].
    unfold finalized_leaf in Hl. destruct (bool_decide _); by simplify_eq/=. }
  split.
  - intros (id & Hin & Hl). destruct (ts_observed_imports_by_id (c_st c) !! id) as [r|] eqn:E; [|done].
    simpl in Hl. rewrite (Hid _ _ _ E Hl). eauto.
  - intros (Hin & r & Hr & Hl). exists (fl_export_id leaf). rewrite Hr. done.
Qed.

Lemma finalized_leaf_hashed r leaf : finalized_leaf r = Some leaf -> import_hashed leaf.
Proof.
  unfold finalized_leaf. destruct (bool_decide _); [done|]. intros E. injection E as <-.
  apply import_from_hash_input_hashed.
Qed.

(** The root over an epoch's finalized imports. *)
Lemma import_root_of_epoch `{!CodecOk, !CodecSep} c ep s t :
  ImportsInv c -> Z.of_nat (length (epoch_finalized_import_ids (c_st c) ep)) <= u32_max ->
  let root := import_merkle_root d ep s t (canonical_epoch_finalized_imports (c_st c) ep) in
  (forall id, id ∈ epoch_finalized_import_ids (c_st c) ep ->
     exists proof, build_finalized_import_inclusion_proof (canonical_epoch_finalized_imports (c_st c) ep) id
       = Some proof /\ fl_export_id (fip_leaf proof) = id /\
       verify_finalized_import_inclusion_proof root proof = true) /\
  (forall proof, verify_finalized_import_inclusion_proof root proof = true ->
     (exists r, ts_observed_imports_by_id (c_st c) !! fl_export_id (fip_leaf proof) = Some r /\
        oir_status r = ImportRemoteFinalized /\ oir_target_domain r = d /\
        fl_recipient (fip_leaf proof) = oir_recipient r /\ fl_amount (fip_leaf proof) = oir_amount r /\
        fl_export_id (fip_leaf proof) ∈ epoch_finalized_import_ids (c_st c) ep) \/
     collision blake2_256).
Proof.
  intros HI Hlen. cbv zeta.
  assert (Forall import_hashed (canonical_epoch_finalized_imports (c_st c) ep)) as Hh.
  { apply Forall_forall. intros leaf (_ & r & _ & Hl)%(canonical_imports_elem c); [|done].
    by eapply finalized_leaf_hashed. }
  assert (Z.of_nat (length (canonical_epoch_finalized_imports (c_st c) ep)) <= u32_max) as Hmax.
  { unfold canonical_epoch_finalized_imports, sort_finalized_import_leaves. rewrite length_sort_by.
    pose proof (omap_length_le (fun id => ts_observed_imports_by_id (c_st c) !! id ≫= finalized_leaf)
                  (epoch_finalized_import_ids (c_st c) ep)). lia. }
  split.
  - intros id Hid. destruct (proj1 (inv_finalized_ids _ HI id)) as (r & Hr & Hs); [by eexists|]. 
    destruct (import_proof_complete d ep s t (canonical_epoch_finalized_imports (c_st c) ep) id)
      as (p & Hp & _ & Hpid & Hv); [done| |done|by exists p].
    apply list_elem_of_fmap. unfold canonical_epoch_finalized_imports, sort_finalized_import_leaves.
    destruct (finalized_leaf r) as [leaf|] eqn:El.
    + exists leaf. assert (fl_export_id leaf = id) as Hl.
      { destruct (inv_observed _ HI _ _ Hr) as [<- _]. unfold finalized_leaf in El.
        destruct (bool_decide _); by simplify_eq/=. }
      split; [done|]. apply elem_of_sort_by, list_elem_of_omap. exists id. by rewrite Hr.
    + unfold finalized_leaf in El. rewrite Hs in El. by rewrite bool_decide_eq_false_2 in El by naive_solver.
  - intros proof Hv. apply import_proof_sound in Hv as [Hin|?]; [left|by right|done].
    apply (canonical_imports_elem c) in Hin as (Hin & r & Hr & Hl); [|done].
    exists r. simpl in *. destruct (inv_observed _ HI _ _ Hr) as [_ Ht].
    unfold finalized_leaf in Hl. destruct (bool_decide _) eqn:Eb; [done|]. bool_to_prop.
    apply dec_stable in Eb. injection Hl as Hl. rewrite <-Hl. simpl. rewrite <-Hl in Hin, Hr. done.
Qed.

(** An epoch's import root is exact: it commits to the imports finalized in
    the epoch and to nothing else.  Each of them has an inclusion proof that
    verifies, carrying the recipient and amount of the record, and a proof that
    verifies is of an import finalized in the epoch, or [blake2_256] collides. *)
Theorem epoch_import_root_exact `{!CodecOk, !CodecSep} b st e ep s t :
  transfers_reachable (mkConf b st e) ->
  Z.of_nat (length (epoch_finalized_import_ids st ep)) <= u32_max ->
  let root := commit_epoch_imports d ep s t st in
  (forall id, id ∈ epoch_finalized_import_ids st ep ->
     exists proof, build_finalized_import_inclusion_proof (canonical_epoch_finalized_imports st ep) id
       = Some proof /\ fl_export_id (fip_leaf proof) = id /\
       verify_finalized_import_inclusion_proof root proof = true) /\
  (forall proof, verify_finalized_import_inclusion_proof root proof = true ->
     (exists r, ts_observed_imports_by_id st !! fl_export_id (fip_leaf proof) = Some r /\
        oir_status r = ImportRemoteFinalized /\ oir_target_domain r = d /\
        fl_recipient (fip_leaf proof) = oir_recipient r /\ fl_amount (fip_leaf proof) = oir_amount r /\
        fl_export_id (fip_leaf proof) ∈ epoch_finalized_import_ids st ep) \/
     collision blake2_256).
Proof.
  intros [_ HI]%transfers_reachable_inv Hlen. by apply (import_root_of_epoch (mkConf b st e)).
Qed.
End Machine.

(** ** Witnesses: a run on the Earth chain

    Account 1 exports 30 to Mars; the importer, account 7, observes and
    finalizes an import of 5 from the Moon for account 2; the epoch is closed;
    the importer acknowledges the export. *)
Section Witnesses.
#[local] Existing Instance reference_codec.
#[local] Existing Instance reference_account.
#[local] Existing Instance reference_account_ok.
#[local] Existing Instance reference_currency.
#[local] Existing Instance reference_currency_ok.

Lemma example_ids_distinct s s' :
  0 <= s < u64_max -> 0 <= s' < u64_max -> export_id Earth s = export_id Earth s' -> s = s'.
Proof. intros _ _ E. apply scale_encode_inj in E. congruence. Qed.

Definition example_claim : ObservedImportClaim :=
  {| oic_version := 1; oic_export_id := [50]; oic_source_domain := Moon; oic_target_domain := Earth;
     oic_source_epoch_id := 4; oic_summary_hash := [51]; oic_package_hash := [52];
     oic_recipient := account_to_bytes (acct 2); oic_amount := 5 |}.

Definition ex0 : Ledger * TransfersState :=
  (mkLedger {[ 1 := 100%N ]} ∅, transfers_genesis (Some (acct 7))).
Definition ex1 := ok_or ex0
  (create_cross_domain_transfer Earth 0 example_sys (Signed (acct 1)) Mars [2] 30 ex0).
Definition ex2 := ok_or ex1 (observe_verified_import Earth example_sys (Signed (acct 7)) example_claim ex1).
Definition ex3 := ok_or ex2 (finalize_verified_import Earth 0 example_sys (Signed (acct 7)) [50] ex2).
Definition ex4 := (ex3.1, (commit_epoch_exports Earth 0 1 10 ex3.2).2).

Lemma example_reach1 : transfers_reachable Earth (mkConf ex1.1 ex1.2 0).
Proof.
  exists (Some (acct 7)), (mkConf ex0.1 ex0.2 0). split; [by split_and!|].
  apply rtc_once. by apply step_create with (sys := example_sys) (origin := Signed (acct 1))
    (target := Mars) (recipient := [2]) (amount := 30).
Qed.

Lemma reachable_step c c' :
  transfers_reachable Earth c -> transfers_step Earth c c' -> transfers_reachable Earth c'.
Proof. intros (i & c0 & Hi & Hr) Hs. exists i, c0. split; [done|]. by eapply rtc_r. Qed.

Lemma example_reach3 : transfers_reachable Earth (mkConf ex3.1 ex3.2 0).
Proof.
  eapply reachable_step; [eapply reachable_step; [apply example_reach1|]|].
  - by apply step_observe with (sys := example_sys) (origin := Signed (acct 7)) (claim := example_claim)
      (b' := ex2.1) (st' := ex2.2).
  - by apply step_finalize with (sys := example_sys) (origin := Signed (acct 7)) (id := [50]).
Qed.

Lemma example_close_step : transfers_step Earth (mkConf ex3.1 ex3.2 0) (mkConf ex4.1 ex4.2 1).
Proof. by apply step_close with (start_height := 1) (end_height := 10)
         (root := (commit_epoch_exports Earth 0 1 10 ex3.2).1). Qed.

Lemma example_reach4 : transfers_reachable Earth (mkConf ex4.1 ex4.2 1).
Proof. eapply reachable_step; [apply example_reach3|apply example_close_step]. Qed.

Lemma escrow_backed_witness :
  cur_held ex1.1 (acct 1) = 30 /\ map_sum (escrow (account_to_bytes (acct 1))) (ts_exports_by_id ex1.2) = 30.
Proof.
  split; [reflexivity|].
  exact (eq_sym (escrow_backed Earth example_ids_distinct (mkConf ex1.1 ex1.2 0) (acct 1) example_reach1)).
Defined.

Lemma export_lifecycle_witness :
  exists r', ts_exports_by_id ex4.2 !! export_id Earth 0 = Some r' /\ 0 <= status_rank (er_status r') <= 1.
Proof.
  destruct (ts_exports_by_id ex3.2 !! export_id Earth 0) as [r|] eqn:E; [|by vm_compute in E].
  destruct (export_lifecycle Earth example_ids_distinct _ _ _ r example_reach3 example_close_step E)
    as (r' & Hr' & _ & Hs).
  assert (er_status r = LocalFinal) as Hl by (vm_compute in E; by simplify_eq).
  rewrite Hl in Hs. eauto.
Defined.

Lemma export_resolved_once_witness :
  count_events (is_acknowledged (export_id Earth 0)) (ts_events ex4.2) = 0%nat.
Proof.
  pose proof (export_resolved_once Earth example_ids_distinct _ (export_id Earth 0) example_reach4) as H.
  cbn [c_st] in H. rewrite H. vm_compute. reflexivity.
Defined.

Lemma epoch_export_root_exact_witness :
  exists proof, build_export_inclusion_proof (canonical_epoch_exports ex3.2 0) (export_id Earth 0) = Some proof /\
    verify_export_inclusion_proof (commit_epoch_exports Earth 0 1 10 ex3.2).1 proof = true.
Proof.
  destruct (ts_exports_by_id ex3.2 !! export_id Earth 0) as [r|] eqn:E; [|by vm_compute in E].
  destruct (epoch_export_root_exact Earth example_ids_distinct ex3.1 ex3.2 0 1 10
              _ _ example_reach3 (surjective_pairing _) ltac:(vm_compute; congruence)) as [Hall _].
  destruct (Hall _ r E) as (_ & proof & Hp & _ & Hv); [vm_compute in E; by simplify_eq|]. eauto.
Defined.

Lemma finalize_mints_once_witness :
  finalize_verified_import Earth 0 example_sys (Signed (acct 7)) [50] (ex3.1, ex3.2) = Err ImportNotObserved.
Proof.
  destruct (finalize_mints_once Earth ex2.1 ex2.2 0 example_sys (Signed (acct 7)) [50] ex3.1 ex3.2)
    as (r & recipient & _ & _ & _ & _ & _ & _ & Hagain); [vm_compute; reflexivity|]. exact (Hagain 0 example_sys).
Defined.

Lemma epoch_import_root_exact_witness :
  exists proof, build_finalized_import_inclusion_proof (canonical_epoch_finalized_imports ex3.2 0) [50]
      = Some proof /\
    verify_finalized_import_inclusion_proof (commit_epoch_imports Earth 0 1 10 ex3.2) proof = true.
Proof.
  destruct (epoch_import_root_exact Earth example_ids_distinct ex3.1 ex3.2 0 0 1 10
              example_reach3 ltac:(vm_compute; congruence)) as [Hall _].
  destruct (Hall [50]) as (proof & Hp & _ & Hv); [vm_compute; constructor|]. eauto.
Defined.
End Witnesses.
