(* ===== verification/Governance.v ===== *)
(** * The governance pallet ([chain/pallets/governance/src/lib.rs])

    A proposal to change the protocol version is created and voted on in its
    source domain.  When it passes, a leaf for every target domain goes into the
    epoch's governance commitment.  A target domain that imports the proposal
    acknowledges it, and its acknowledgement leaves go to all other domains
    involved.  Once a domain knows acknowledgements of all targets it schedules
    the proposal and activates it when the activation epoch has come.

    The domain, the current epoch and the voters' balances come from the
    providers of the pallet's [Config]; they are arguments, as are the system
    values. *)

From S2P Require Import Prelude Types Codec Reference Merkle Frame.

Inductive GovernanceEvent : Type :=
| ProposalCreated (proposal_id : hash) (source_domain : DomainId) (target_domains : list DomainId)
    (voting_end_epoch : Z)
| VoteRecorded (proposal_id voter : hash) (choice : GovernanceVoteChoice) (voting_power : Z)
| ProposalRejected (proposal_id : hash) (epoch_id : Z)
| ProposalLocallyFinalized (proposal_id : hash) (approval_epoch activation_epoch : Z)
| ProposalImported (proposal_id : hash) (source_domain target_domain : DomainId)
| GovernanceAcknowledged (proposal_id : hash) (acknowledging_domain local_domain : DomainId)
| ProposalScheduled (proposal_id : hash) (activation_epoch : Z)
| ProposalActivated (proposal_id : hash) (activation_epoch new_protocol_version : Z).

(** The pallet's errors, and [DispatchError::BadOrigin]. *)
Inductive GovernanceError : Type :=
| GovNoTargetDomains
| GovDuplicateTargetDomains
| GovSameDomainTarget
| GovInvalidProtocolVersion
| GovProposalMissing
| GovProposalAlreadyExists
| GovProposalNotVoting
| GovVotingClosed
| GovVotingStillOpen
| GovDuplicateVote
| GovNotEligibleVoter
| GovZeroVotingPower
| GovMissingImporterAccount
| GovUnauthorizedImporter
| GovWrongTargetDomain
| GovWrongSourceDomain
| GovDuplicateImportedProposal
| GovDuplicateImportedAck
| GovProposalNotKnown
| GovProposalFactsMismatch
| GovAckingDomainNotTargeted
| GovBadOrigin.

Section Operations.
Context `{!Codec, !Account}.

(** The pallet's storage items. *)
Record GovernanceState : Type := mkGovernanceState {
  gs_protocol_version : Z;
  gs_importer_account : option AccountId;
  gs_governance_voters : list AccountId;
  gs_next_proposal_sequence : Z;
  gs_proposals_by_id : gmap hash GovernanceProposal;
  gs_votes_by_key : gmap (hash * hash) GovernanceVote;
  gs_voting_power : gmap (hash * hash) Z;
  gs_activation_records_by_id : gmap hash GovernanceActivationRecord;
  gs_ack_records_by_key : gmap (hash * DomainId) GovernanceAckRecord;
  gs_epoch_leaf_ids : gmap Z (list hash);
  gs_leaves_by_id : gmap hash GovernanceLeaf;
  gs_scheduled_by_epoch : gmap Z (list hash);
  gs_ready_activation_ids : list hash;
  gs_events : list GovernanceEvent
}.
#[export] Instance GovernanceState_settable : Settable GovernanceState :=
  fun r => mkGovernanceState (gs_protocol_version r) (gs_importer_account r)
    (gs_governance_voters r) (gs_next_proposal_sequence r) (gs_proposals_by_id r)
    (gs_votes_by_key r) (gs_voting_power r) (gs_activation_records_by_id r)
    (gs_ack_records_by_key r) (gs_epoch_leaf_ids r) (gs_leaves_by_id r)
    (gs_scheduled_by_epoch r) (gs_ready_activation_ids r) (gs_events r).
Implicit Types (st : GovernanceState).

(** [BuildGenesisConfig::build]. *)
Definition governance_genesis (protocol_version : Z) (importer_account : option AccountId)
    (governance_voters : list AccountId) : GovernanceState :=
  {| gs_protocol_version := Z.max protocol_version 1;
     gs_importer_account := importer_account;
     gs_governance_voters := dedup (sort_by account_cmp governance_voters);
     gs_next_proposal_sequence := 0;
     gs_proposals_by_id := ∅;
     gs_votes_by_key := ∅;
     gs_voting_power := ∅;
     gs_activation_records_by_id := ∅;
     gs_ack_records_by_key := ∅;
     gs_epoch_leaf_ids := ∅;
     gs_leaves_by_id := ∅;
     gs_scheduled_by_epoch := ∅;
     gs_ready_activation_ids := [];
     gs_events := [] |}.

Definition deposit_governance_event (ev : GovernanceEvent) st : GovernanceState :=
  st {{ gs_events ::= fun evs => evs ++ [ev] }}.

(** ** Helpers *)

Definition canonicalize_target_domains (target_domains : list DomainId) (source_domain : DomainId)
    : result GovernanceError (list DomainId) :=
  ensure! bool_decide (target_domains <> []) else GovNoTargetDomains in
  if bool_decide (source_domain ∈ target_domains) then Err GovSameDomainTarget
  else
    let sorted := sort_by domain_cmp target_domains in
    let original_len := length sorted in
    let deduped := dedup sorted in
    ensure! (length deduped =? original_len)%nat else GovDuplicateTargetDomains in
    Ok deduped.

(** The source also takes the current epoch and discards it. *)
Definition store_activation_record (proposal : GovernanceProposal) (known_ack_domains : list DomainId)
    (activated_at_block_height : option Z) st : GovernanceState :=
  let known_ack_domains := dedup (sort_by domain_cmp known_ack_domains) in
  st {{ gs_activation_records_by_id ::= <[gp_proposal_id proposal :=
    {| gac_version := GOVERNANCE_ACTIVATION_RECORD_VERSION;
       gac_proposal_id := gp_proposal_id proposal;
       gac_source_domain := gp_source_domain proposal;
       gac_target_domains := gp_target_domains proposal;
       gac_payload_hash := gp_payload_hash proposal;
       gac_new_protocol_version := protocol_version (gp_payload proposal);
       gac_activation_epoch := gp_activation_epoch proposal;
       gac_known_ack_domains := known_ack_domains;
       gac_scheduled_at_epoch := None;
       gac_activated_at_epoch :=
         if bool_decide (gp_status proposal = Activated) then gp_approval_epoch proposal else None;
       gac_activated_at_local_block_height := activated_at_block_height;
       gac_status := gp_status proposal |}]> }}.

(** [if !ids.contains(&id) { ids.push(id) }]. *)
Definition push_unique (id : hash) (ids : list hash) : list hash :=
  if decide (id ∈ ids) then ids else ids ++ [id].

Definition insert_epoch_leaf (epoch_id : Z) st (leaf : GovernanceLeaf) : GovernanceState :=
  let leaf_id := leaf_hash leaf in
  st {{ gs_leaves_by_id ::= <[leaf_id := leaf]> }}
     {{ gs_epoch_leaf_ids ::= fun m => <[epoch_id := push_unique leaf_id (m !!! epoch_id)]> m }}.

Definition proposal_leaf_for (proposal : GovernanceProposal) (approval_epoch : Z)
    (target_domain : DomainId) : GovernanceLeaf :=
  ProposalV1 (proposal_from_hash_input
    {| gpi_version := GOVERNANCE_PROPOSAL_LEAF_VERSION;
       gpi_proposal_id := gp_proposal_id proposal;
       gpi_source_domain := gp_source_domain proposal;
       gpi_target_domain := target_domain;
       gpi_target_domains := gp_target_domains proposal;
       gpi_proposer := gp_proposer proposal;
       gpi_payload_hash := gp_payload_hash proposal;
       gpi_new_protocol_version := protocol_version (gp_payload proposal);
       gpi_created_epoch := gp_created_epoch proposal;
       gpi_voting_start_epoch := gp_voting_start_epoch proposal;
       gpi_voting_end_epoch := gp_voting_end_epoch proposal;
       gpi_approval_epoch := approval_epoch;
       gpi_activation_epoch := gp_activation_epoch proposal |}).

Definition insert_outbound_proposal_leaves (proposal : GovernanceProposal) (approval_epoch : Z) st
    : GovernanceState :=
  let approval_epoch := default approval_epoch (gp_approval_epoch proposal) in
  foldl (fun st target_domain =>
           insert_epoch_leaf approval_epoch st (proposal_leaf_for proposal approval_epoch target_domain))
    st (gp_target_domains proposal).

Definition ack_leaf_for (proposal : GovernanceProposal) (local_domain : DomainId) (current_epoch : Z)
    (target_domain : DomainId) : GovernanceLeaf :=
  AckV1 (ack_from_hash_input
    {| gai_version := GOVERNANCE_ACK_LEAF_VERSION;
       gai_proposal_id := gp_proposal_id proposal;
       gai_source_domain := gp_source_domain proposal;
       gai_target_domain := target_domain;
       gai_acknowledging_domain := local_domain;
       gai_target_domains := gp_target_domains proposal;
       gai_payload_hash := gp_payload_hash proposal;
       gai_new_protocol_version := protocol_version (gp_payload proposal);
       gai_activation_epoch := gp_activation_epoch proposal;
       gai_acknowledged_epoch := current_epoch |}).

Definition fanout_targets (proposal : GovernanceProposal) (local_domain : DomainId) : list DomainId :=
  filter (fun domain => domain <> local_domain)
    (dedup (sort_by domain_cmp (gp_target_domains proposal ++ [gp_source_domain proposal]))).

Definition record_local_ack_and_fanout (local_domain : DomainId) (sys : System)
    (proposal : GovernanceProposal) (current_epoch : Z) st : GovernanceState :=
  let block_height := saturated_into_u32 (sys_block_number sys) in
  let st := st {{ gs_ack_records_by_key ::= <[(gp_proposal_id proposal, local_domain) :=
    {| gar_version := GOVERNANCE_ACK_RECORD_VERSION;
       gar_proposal_id := gp_proposal_id proposal;
       gar_source_domain := gp_source_domain proposal;
       gar_acknowledging_domain := local_domain;
       gar_target_domains := gp_target_domains proposal;
       gar_activation_epoch := gp_activation_epoch proposal;
       gar_payload_hash := gp_payload_hash proposal;
       gar_new_protocol_version := protocol_version (gp_payload proposal);
       gar_acknowledged_epoch := current_epoch;
       gar_acknowledged_at_local_block_height := block_height |}]> }} in
  let st :=
    foldl (fun st target_domain =>
             insert_epoch_leaf current_epoch st
               (ack_leaf_for proposal local_domain current_epoch target_domain))
      st (fanout_targets proposal local_domain) in
  deposit_governance_event
    (GovernanceAcknowledged (gp_proposal_id proposal) local_domain local_domain) st.

Definition has_full_ack_set (target_domains known_ack_domains : list DomainId) : bool :=
  forallb (fun target_domain => bool_decide (target_domain ∈ known_ack_domains)) target_domains.

Definition maybe_schedule_activation (proposal_id : hash) (current_epoch : Z) st : GovernanceState :=
  match gs_proposals_by_id st !! proposal_id with
  | None => st
  | Some proposal =>
  match gs_activation_records_by_id st !! proposal_id with
  | None => st
  | Some activation =>
    if bool_decide (~ (gp_status proposal = LocallyFinalized \/ gp_status proposal = Scheduled)) then st
    else if negb (has_full_ack_set (gac_target_domains activation) (gac_known_ack_domains activation))
    then st
    else if bool_decide (gp_status proposal <> Scheduled) then
      let proposal := proposal {{ gp_status := Scheduled }} in
      let activation := activation {{ gac_status := Scheduled }}
                                   {{ gac_scheduled_at_epoch := Some current_epoch }} in
      let st := st {{ gs_proposals_by_id ::= <[proposal_id := proposal]> }}
                   {{ gs_activation_records_by_id ::= <[proposal_id := activation]> }} in
      let st :=
        if gac_activation_epoch activation <=? current_epoch then
          st {{ gs_ready_activation_ids ::= push_unique proposal_id }}
        else
          st {{ gs_scheduled_by_epoch ::= fun m =>
                  <[gac_activation_epoch activation :=
                      push_unique proposal_id (m !!! gac_activation_epoch activation)]> m }} in
      deposit_governance_event (ProposalScheduled proposal_id (gac_activation_epoch activation)) st
    else st
  end
  end.

Definition note_known_ack_domain (proposal_id : hash) (acknowledging_domain : DomainId)
    (current_epoch : Z) st : GovernanceState :=
  let st :=
    match gs_activation_records_by_id st !! proposal_id with
    | None => st
    | Some record =>
      if decide (acknowledging_domain ∈ gac_known_ack_domains record) then st
      else
        let known := dedup (sort_by domain_cmp (gac_known_ack_domains record ++ [acknowledging_domain])) in
        st {{ gs_activation_records_by_id ::= <[proposal_id := record {{ gac_known_ack_domains := known }}]> }}
    end in
  maybe_schedule_activation proposal_id current_epoch st.

Definition try_activate_proposal (proposal_id : hash) (current_epoch block_height : Z) st
    : bool * GovernanceState :=
  match gs_proposals_by_id st !! proposal_id with
  | None => (true, st)
  | Some proposal =>
  match gs_activation_records_by_id st !! proposal_id with
  | None => (true, st)
  | Some activation =>
    if bool_decide (gp_status proposal <> Scheduled) then (bool_decide (gp_status proposal = Activated), st)
    else if current_epoch <? gac_activation_epoch activation then (false, st)
    else if negb (has_full_ack_set (gac_target_domains activation) (gac_known_ack_domains activation))
    then (false, st)
    else
      let new_protocol_version := protocol_version (gp_payload proposal) in
      let st :=
        if gs_protocol_version st =? new_protocol_version then st
        else st {{ gs_protocol_version := new_protocol_version }} in
      let proposal := proposal {{ gp_status := Activated }} in
      let activation := activation {{ gac_status := Activated }}
                                   {{ gac_activated_at_epoch := Some current_epoch }}
                                   {{ gac_activated_at_local_block_height := Some block_height }} in
      let st := st {{ gs_proposals_by_id ::= <[proposal_id := proposal]> }}
                   {{ gs_activation_records_by_id ::= <[proposal_id := activation]> }} in
      (true, deposit_governance_event
               (ProposalActivated proposal_id (gac_activation_epoch activation) new_protocol_version) st)
  end
  end.

Definition activate_epoch_bucket (current_epoch block_height : Z) st : GovernanceState :=
  foldl (fun st proposal_id => (try_activate_proposal proposal_id current_epoch block_height st).2)
    st (gs_scheduled_by_epoch st !!! current_epoch).

(** The loop of [activate_ready_queue]: the identifiers that stay queued. *)
Fixpoint activate_all (ids : list hash) (current_epoch block_height : Z) st
    : list hash * GovernanceState :=
  match ids with
  | [] => ([], st)
  | id :: ids =>
    let '(done, st) := try_activate_proposal id current_epoch block_height st in
    let '(remaining, st) := activate_all ids current_epoch block_height st in
    (if done then remaining else id :: remaining, st)
  end.

Definition activate_ready_queue (current_epoch block_height : Z) st : GovernanceState :=
  let '(remaining, st) :=
    activate_all (gs_ready_activation_ids st) current_epoch block_height st in
  st {{ gs_ready_activation_ids := remaining }}.

(** [Hooks::on_initialize]. *)
Definition governance_on_initialize (sys : System) (current_epoch : Z) st : GovernanceState :=
  if sys_block_number sys =? 0 then st
  else
    let block_height := saturated_into_u32 (sys_block_number sys) in
    activate_ready_queue current_epoch block_height
      (activate_epoch_bucket current_epoch block_height st).

(** ** Dispatchables *)

(** The voter loop of [create_proposal]: stores every voter's balance and sums
    them up. *)
Fixpoint snapshot_voters (proposal_id : hash) (balance : AccountId -> Z) (voters : list AccountId)
    (total : Z) (power : gmap (hash * hash) Z) : Z * gmap (hash * hash) Z :=
  match voters with
  | [] => (total, power)
  | voter :: voters =>
    snapshot_voters proposal_id balance voters (sat_add u128_max total (balance voter))
      (<[(proposal_id, account_to_bytes voter) := balance voter]> power)
  end.

(** The proposal [create_proposal] stores. *)
Definition new_proposal (proposal_id : hash) (source_domain : DomainId) (target_domains : list DomainId)
    (proposer : hash) (payload : GovernancePayload) (payload_hash : hash)
    (current_epoch voting_end_epoch snapshot_total_voting_power : Z) : GovernanceProposal :=
  {| gp_version := GOVERNANCE_PROPOSAL_VERSION;
     gp_proposal_id := proposal_id;
     gp_source_domain := source_domain;
     gp_target_domains := target_domains;
     gp_proposer := proposer;
     gp_payload := payload;
     gp_payload_hash := payload_hash;
     gp_created_epoch := current_epoch;
     gp_voting_start_epoch := current_epoch;
     gp_voting_end_epoch := voting_end_epoch;
     gp_approval_epoch := None;
     gp_activation_epoch := 0;
     gp_snapshot_total_voting_power := snapshot_total_voting_power;
     gp_quorum_numerator := 1;
     gp_quorum_denominator := 2;
     gp_yes_voting_power := 0;
     gp_no_voting_power := 0;
     gp_abstain_voting_power := 0;
     gp_status := Voting |}.

Definition create_proposal (source_domain : DomainId) (current_epoch : Z) (balance : AccountId -> Z)
    (origin : Origin) (target_domains : list DomainId) (new_protocol_version : Z) st
    : result GovernanceError GovernanceState :=
  let?? who := ensure_signed origin else GovBadOrigin in
  let? target_domains := canonicalize_target_domains target_domains source_domain in
  let current_version := gs_protocol_version st in
  ensure! (0 <? new_protocol_version) && negb (new_protocol_version =? current_version)
    else GovInvalidProtocolVersion in
  let proposal_sequence := gs_next_proposal_sequence st in
  let st := st {{ gs_next_proposal_sequence := sat_add u64_max proposal_sequence 1 }} in
  let proposal_id := governance_proposal_id source_domain proposal_sequence in
  let voting_end_epoch := sat_add u64_max current_epoch 1 in
  let payload := SetProtocolVersion new_protocol_version in
  let payload_hash := payload_hash payload in
  let proposer := account_to_bytes who in
  let '(snapshot_total_voting_power, power) :=
    snapshot_voters proposal_id balance (gs_governance_voters st) 0 (gs_voting_power st) in
  let st := st {{ gs_voting_power := power }} in
  let proposal := new_proposal proposal_id source_domain target_domains proposer payload payload_hash
    current_epoch voting_end_epoch snapshot_total_voting_power in
  let st := st {{ gs_proposals_by_id ::= <[proposal_id := proposal]> }} in
  Ok (deposit_governance_event
        (ProposalCreated proposal_id source_domain target_domains voting_end_epoch) st).

Definition tally_vote (choice : GovernanceVoteChoice) (voting_power : Z) (proposal : GovernanceProposal)
    : GovernanceProposal :=
  match choice with
  | Yes => proposal {{ gp_yes_voting_power ::= fun p => sat_add u128_max p voting_power }}
  | No => proposal {{ gp_no_voting_power ::= fun p => sat_add u128_max p voting_power }}
  | Abstain => proposal {{ gp_abstain_voting_power ::= fun p => sat_add u128_max p voting_power }}
  end.

Definition cast_vote (current_epoch : Z) (sys : System) (origin : Origin) (proposal_id : hash)
    (choice : GovernanceVoteChoice) st : result GovernanceError GovernanceState :=
  let?? who := ensure_signed origin else GovBadOrigin in
  let voter := account_to_bytes who in
  let?? proposal := gs_proposals_by_id st !! proposal_id else GovProposalMissing in
  ensure! bool_decide (gp_status proposal = Voting) else GovProposalNotVoting in
  ensure! current_epoch <? gp_voting_end_epoch proposal else GovVotingClosed in
  ensure! bool_decide (gs_votes_by_key st !! (proposal_id, voter) = None) else GovDuplicateVote in
  let?? voting_power := gs_voting_power st !! (proposal_id, voter) else GovNotEligibleVoter in
  ensure! 0 <? voting_power else GovZeroVotingPower in
  let block_height := saturated_into_u32 (sys_block_number sys) in
  let st := st {{ gs_votes_by_key ::= <[(proposal_id, voter) :=
    {| gv_version := GOVERNANCE_VOTE_VERSION;
       gv_proposal_id := proposal_id;
       gv_voter := voter;
       gv_choice := choice;
       gv_voting_power := voting_power;
       gv_cast_epoch := current_epoch;
       gv_cast_block_height := block_height |}]> }} in
  let st := st {{ gs_proposals_by_id ::= <[proposal_id := tally_vote choice voting_power proposal]> }} in
  Ok (deposit_governance_event (VoteRecorded proposal_id voter choice voting_power) st).

(** The arithmetic of [close_proposal]. *)
Definition recorded_voting_power (proposal : GovernanceProposal) : Z :=
  sat_add u128_max (sat_add u128_max (gp_yes_voting_power proposal) (gp_no_voting_power proposal))
    (gp_abstain_voting_power proposal).
Definition quorum_met (proposal : GovernanceProposal) : bool :=
  sat_mul u128_max (gp_snapshot_total_voting_power proposal) (gp_quorum_numerator proposal)
  <=? sat_mul u128_max (recorded_voting_power proposal) (gp_quorum_denominator proposal).
Definition approved (proposal : GovernanceProposal) : bool :=
  recorded_voting_power proposal <? sat_mul u128_max (gp_yes_voting_power proposal) 2.

Definition close_proposal (current_epoch : Z) (origin : Origin) (proposal_id : hash) st
    : result GovernanceError GovernanceState :=
  let?? _ := ensure_signed origin else GovBadOrigin in
  let?? proposal := gs_proposals_by_id st !! proposal_id else GovProposalMissing in
  ensure! bool_decide (gp_status proposal = Voting) else GovProposalNotVoting in
  ensure! gp_voting_end_epoch proposal <=? current_epoch else GovVotingStillOpen in
  if negb (quorum_met proposal) || negb (approved proposal) then
    let st := st {{ gs_proposals_by_id ::= <[proposal_id := proposal {{ gp_status := Rejected }}]> }} in
    Ok (deposit_governance_event (ProposalRejected proposal_id current_epoch) st)
  else
    let activation_epoch := sat_add u64_max current_epoch 4 in
    let proposal := proposal {{ gp_approval_epoch := Some current_epoch }}
                             {{ gp_activation_epoch := activation_epoch }}
                             {{ gp_status := LocallyFinalized }} in
    let st := store_activation_record proposal [] None st in
    let st := insert_outbound_proposal_leaves proposal current_epoch st in
    let st := st {{ gs_proposals_by_id ::= <[proposal_id := proposal]> }} in
    Ok (deposit_governance_event (ProposalLocallyFinalized proposal_id current_epoch activation_epoch) st).

Definition imported_proposal (leaf : GovernanceProposalLeaf) : GovernanceProposal :=
  {| gp_version := GOVERNANCE_PROPOSAL_VERSION;
     gp_proposal_id := gpl_proposal_id leaf;
     gp_source_domain := gpl_source_domain leaf;
     gp_target_domains := gpl_target_domains leaf;
     gp_proposer := gpl_proposer leaf;
     gp_payload := SetProtocolVersion (gpl_new_protocol_version leaf);
     gp_payload_hash := gpl_payload_hash leaf;
     gp_created_epoch := gpl_created_epoch leaf;
     gp_voting_start_epoch := gpl_voting_start_epoch leaf;
     gp_voting_end_epoch := gpl_voting_end_epoch leaf;
     gp_approval_epoch := Some (gpl_approval_epoch leaf);
     gp_activation_epoch := gpl_activation_epoch leaf;
     gp_snapshot_total_voting_power := 0;
     gp_quorum_numerator := 1;
     gp_quorum_denominator := 2;
     gp_yes_voting_power := 0;
     gp_no_voting_power := 0;
     gp_abstain_voting_power := 0;
     gp_status := LocallyFinalized |}.

Definition import_verified_governance_proposal (local_domain : DomainId) (current_epoch : Z)
    (sys : System) (origin : Origin) (claim : ImportedGovernanceProposalClaim) st
    : result GovernanceError GovernanceState :=
  let?? who := ensure_signed origin else GovBadOrigin in
  let?? configured_importer := gs_importer_account st else GovMissingImporterAccount in
  ensure! bool_decide (who = configured_importer) else GovUnauthorizedImporter in
  let leaf := igp_leaf claim in
  ensure! bool_decide (gpl_target_domain leaf = local_domain) else GovWrongTargetDomain in
  ensure! bool_decide (gpl_source_domain leaf <> local_domain) else GovWrongSourceDomain in
  ensure! bool_decide (gs_proposals_by_id st !! gpl_proposal_id leaf = None)
    else GovDuplicateImportedProposal in
  ensure! bool_decide (local_domain ∈ gpl_target_domains leaf) else GovWrongTargetDomain in
  ensure! bool_decide (payload_hash (SetProtocolVersion (gpl_new_protocol_version leaf))
                       = gpl_payload_hash leaf) else GovProposalFactsMismatch in
  let proposal := imported_proposal leaf in
  let st := st {{ gs_proposals_by_id ::= <[gpl_proposal_id leaf := proposal]> }} in
  let st := store_activation_record proposal [local_domain] None st in
  let st := record_local_ack_and_fanout local_domain sys proposal current_epoch st in
  let st := maybe_schedule_activation (gpl_proposal_id leaf) current_epoch st in
  Ok (deposit_governance_event
        (ProposalImported (gpl_proposal_id leaf) (gpl_source_domain leaf) local_domain) st).

Definition import_verified_governance_ack (local_domain : DomainId) (current_epoch : Z)
    (sys : System) (origin : Origin) (claim : ImportedGovernanceAckClaim) st
    : result GovernanceError GovernanceState :=
  let?? who := ensure_signed origin else GovBadOrigin in
  let?? configured_importer := gs_importer_account st else GovMissingImporterAccount in
  ensure! bool_decide (who = configured_importer) else GovUnauthorizedImporter in
  let leaf := iga_leaf claim in
  ensure! bool_decide (gal_target_domain leaf = local_domain) else GovWrongTargetDomain in
  ensure! bool_decide (gal_acknowledging_domain leaf <> local_domain) else GovWrongSourceDomain in
  ensure! bool_decide (gal_acknowledging_domain leaf ∈ gal_target_domains leaf)
    else GovAckingDomainNotTargeted in
  ensure! bool_decide (gs_ack_records_by_key st !! (gal_proposal_id leaf, gal_acknowledging_domain leaf)
                       = None) else GovDuplicateImportedAck in
  let?? proposal := gs_proposals_by_id st !! gal_proposal_id leaf else GovProposalNotKnown in
  ensure! bool_decide (gp_source_domain proposal = gal_source_domain leaf)
          && bool_decide (gp_target_domains proposal = gal_target_domains leaf)
          && bool_decide (gp_payload_hash proposal = gal_payload_hash leaf)
          && (protocol_version (gp_payload proposal) =? gal_new_protocol_version leaf)
          && (gp_activation_epoch proposal =? gal_activation_epoch leaf)
    else GovProposalFactsMismatch in
  let block_height := saturated_into_u32 (sys_block_number sys) in
  let st := st {{ gs_ack_records_by_key ::= <[(gal_proposal_id leaf, gal_acknowledging_domain leaf) :=
    {| gar_version := GOVERNANCE_ACK_RECORD_VERSION;
       gar_proposal_id := gal_proposal_id leaf;
       gar_source_domain := gal_source_domain leaf;
       gar_acknowledging_domain := gal_acknowledging_domain leaf;
       gar_target_domains := gal_target_domains leaf;
       gar_activation_epoch := gal_activation_epoch leaf;
       gar_payload_hash := gal_payload_hash leaf;
       gar_new_protocol_version := gal_new_protocol_version leaf;
       gar_acknowledged_epoch := gal_acknowledged_epoch leaf;
       gar_acknowledged_at_local_block_height := block_height |}]> }} in
  let st := note_known_ack_domain (gal_proposal_id leaf) (gal_acknowledging_domain leaf) current_epoch st in
  Ok (deposit_governance_event
        (GovernanceAcknowledged (gal_proposal_id leaf) (gal_acknowledging_domain leaf) local_domain) st).

(** ** Epoch commitment *)

Definition canonical_epoch_governance_leaves st (epoch_id : Z) : list GovernanceLeaf :=
  sort_governance_leaves
    (omap (fun leaf_id => gs_leaves_by_id st !! leaf_id) (gs_epoch_leaf_ids st !!! epoch_id)).

Definition commit_epoch_governance (domain_id : DomainId)
    (epoch_id start_block_height end_block_height : Z) st : hash :=
  let leaves := canonical_epoch_governance_leaves st epoch_id in
  governance_merkle_root domain_id epoch_id start_block_height end_block_height leaves.
End Operations.
