(* ===== verification/GovernanceProofs.v ===== *)
(** * Correctness of the governance pallet

    The pallet as a transition system over its storage and the current epoch.
    [ActInv] relates proposals, activation records, acknowledgements and the two
    activation queues; [VotesInv] relates tallies, votes and voting power.  Both
    are preserved by every step. *)

From S2P Require Import Prelude Types Codec Reference Merkle Frame Governance.

(** ** Target lists *)

Lemma has_full_ack_set_spec targets known :
  has_full_ack_set targets known = true <-> targets ⊆ known.
Proof.
  unfold has_full_ack_set. rewrite forallb_forall. split.
  - intros Hf x Hx. apply list_elem_of_In in Hx. apply Hf in Hx. by bool_to_prop.
  - intros Hs x Hx. apply list_elem_of_In in Hx. apply bool_decide_eq_true_2. by apply Hs.
Qed.

Lemma known_domains_elem x l : x ∈ dedup (sort_by domain_cmp l) <-> x ∈ l.
Proof. apply elem_of_sort_dedup. Qed.

(** [canonicalize_target_domains] accepts exactly the non-empty lists without
    repetition that do not name the source domain, and returns the same domains
    in order. *)
Theorem canonicalize_target_domains_spec targets source :
  (forall l, canonicalize_target_domains targets source = Ok l ->
     l ≡ₚ targets /\ StronglySorted (cmp_le domain_cmp) l) /\
  ((exists l, canonicalize_target_domains targets source = Ok l) <->
   targets <> [] /\ NoDup targets /\ source ∉ targets).
Proof.
  unfold canonicalize_target_domains. rewrite length_sort_by.
  pose proof (dedup_length_nodup domain_cmp domain_cmp_eq targets) as Hnd. split.
  - intros l Hop. dispatch_inv Hop. bool_to_prop. subst.
    match goal with H : (_ =? _)%nat = true |- _ => apply Nat.eqb_eq, Hnd in H end.
    rewrite dedup_nodup_id by (by rewrite sort_by_perm).
    split; [apply sort_by_perm|apply sort_by_sorted, _].
  - split.
    + intros [l Hop]. dispatch_inv Hop. bool_to_prop.
      match goal with H : (_ =? _)%nat = true |- _ => apply Nat.eqb_eq, Hnd in H end. done.
    + intros (Hne & Hn & Hs). rewrite bool_decide_eq_true_2, bool_decide_eq_false_2 by done.
      rewrite (proj2 (Nat.eqb_eq _ _) (proj2 Hnd Hn)). by eexists.
Qed.

(** ** Queues *)

Lemma push_unique_elem id ids x : x ∈ push_unique id ids <-> x = id \/ x ∈ ids.
Proof. unfold push_unique. case_decide; set_solver. Qed.

Lemma schedule_lookup_mono (m : gmap Z (list hash)) k id j x :
  x ∈ m !!! j -> x ∈ (<[k := push_unique id (m !!! k)]> m : gmap Z (list hash)) !!! j.
Proof.
  intros Hx. destruct (decide (j = k)) as [->|].
  - rewrite lookup_total_insert_eq. apply push_unique_elem. by right.
  - by rewrite lookup_total_insert_ne.
Qed.

Section Machine.
Context `{!Codec, !Account, !AccountOk}.

(** The chain's domain. *)
Context (d : DomainId).

Record GovConf : Type := mkGov { g_st : GovernanceState; g_epoch : Z }.

(** ** Steps

    Creating: the sequence number has not saturated and the voters' balances
    add up to less than [u128::MAX], as a total issuance in [u128] guarantees.
    Importing: the claims come from proofs, so their leaves carry identifiers
    that their source domain assigned.  A block runs the hook in the current
    epoch, or in the next one when it opens that epoch. *)
Inductive gov_step : GovConf -> GovConf -> Prop :=
| gov_create st e balance origin targets version st' :
    gs_next_proposal_sequence st < u64_max ->
    (forall a, 0 <= balance a) ->
    foldr Z.add 0 (map balance (gs_governance_voters st)) < u128_max ->
    create_proposal d e balance origin targets version st = Ok st' ->
    gov_step (mkGov st e) (mkGov st' e)
| gov_vote st e sys origin id choice st' :
    cast_vote e sys origin id choice st = Ok st' ->
    gov_step (mkGov st e) (mkGov st' e)
| gov_close st e origin id st' :
    close_proposal e origin id st = Ok st' ->
    gov_step (mkGov st e) (mkGov st' e)
| gov_import st e sys origin claim st' seq :
    0 <= seq < u64_max ->
    gpl_proposal_id (igp_leaf claim)
      = governance_proposal_id (gpl_source_domain (igp_leaf claim)) seq ->
    import_verified_governance_proposal d e sys origin claim st = Ok st' ->
    gov_step (mkGov st e) (mkGov st' e)
| gov_import_ack st e sys origin claim st' :
    import_verified_governance_ack d e sys origin claim st = Ok st' ->
    gov_step (mkGov st e) (mkGov st' e)
| gov_block st e sys e' :
    (e' = e \/ e' = e + 1) -> e' <= u32_max -> sys_block_number sys <> 0 ->
    gov_step (mkGov st e) (mkGov (governance_on_initialize sys e' st) e').

Definition gov_init (c : GovConf) : Prop :=
  (exists version importer voters, g_st c = governance_genesis version importer voters) /\ g_epoch c = 0.

Definition gov_reachable (c : GovConf) : Prop := exists c0, gov_init c0 /\ rtc gov_step c0 c.

(** ** Activation *)

Definition finalized_status (s : GovernanceProposalStatus) : Prop :=
  s = LocallyFinalized \/ s = Scheduled \/ s = Activated.

(** What an activation record says about its proposal. *)
Definition record_ok (e : Z) (p : GovernanceProposal) (r : GovernanceActivationRecord) : Prop :=
  finalized_status (gp_status p) /\ gac_status r = gp_status p /\
  gac_target_domains r = gp_target_domains p /\
  gac_activation_epoch r = gp_activation_epoch p /\
  (gp_status p <> LocallyFinalized -> gac_target_domains r ⊆ gac_known_ack_domains r) /\
  (gp_status p = Activated -> exists ea, gac_activated_at_epoch r = Some ea /\
     gac_activation_epoch r <= ea <= e).

Record ActCore (e : Z) (st : GovernanceState) : Prop := {
  act_id : forall id p, gs_proposals_by_id st !! id = Some p -> gp_proposal_id p = id;
  act_record : forall id p, gs_proposals_by_id st !! id = Some p -> finalized_status (gp_status p) ->
    exists r, gs_activation_records_by_id st !! id = Some r;
  act_proposal : forall id r, gs_activation_records_by_id st !! id = Some r ->
    exists p, gs_proposals_by_id st !! id = Some p /\ record_ok e p r;
  act_known : forall id r x, gs_activation_records_by_id st !! id = Some r ->
    x ∈ gac_known_ack_domains r -> is_Some (gs_ack_records_by_key st !! (id, x))
}.

(** A scheduled proposal waits in the bucket of its activation epoch, or in the
    ready queue when that epoch has come. *)
Definition queued (e : Z) (st : GovernanceState) : Prop :=
  forall id p, gs_proposals_by_id st !! id = Some p -> gp_status p = Scheduled ->
    if decide (gp_activation_epoch p <= e) then id ∈ gs_ready_activation_ids st
    else id ∈ gs_scheduled_by_epoch st !!! gp_activation_epoch p.

Definition ActInv (c : GovConf) : Prop := ActCore (g_epoch c) (g_st c) /\ queued (g_epoch c) (g_st c).

Lemma record_ok_mono e e' p r : e <= e' -> record_ok e p r -> record_ok e' p r.
Proof.
  intros He (R1 & R2 & R3 & R4 & R5 & R6). split_and!; try done.
  intros Ha. destruct (R6 Ha) as (ea & ? & ?). exists ea. split; [done|lia].
Qed.

Lemma act_core_mono e e' st : e <= e' -> ActCore e st -> ActCore e' st.
Proof.
  intros He [I1 I2 I3 I4]. split; try done.
  intros id r Hr. destruct (I3 _ _ Hr) as (p & Hp & Hok). exists p.
  split; [done|]. by eapply record_ok_mono.
Qed.

(** *** Activating proposals *)

Definition activated_proposal (p : GovernanceProposal) : GovernanceProposal := p {{ gp_status := Activated }}.
Definition activated_record (e h : Z) (r : GovernanceActivationRecord) : GovernanceActivationRecord :=
  r {{ gac_status := Activated }} {{ gac_activated_at_epoch := Some e }}
    {{ gac_activated_at_local_block_height := Some h }}.

Definition activatable (e : Z) (st : GovernanceState) (id : hash)
    (p : GovernanceProposal) (r : GovernanceActivationRecord) : Prop :=
  gs_proposals_by_id st !! id = Some p /\ gs_activation_records_by_id st !! id = Some r /\
  gp_status p = Scheduled /\ gac_activation_epoch r <= e /\
  gac_target_domains r ⊆ gac_known_ack_domains r.

(** The storage after activating [id]. *)
Definition activation_of (e h : Z) (id : hash) (p : GovernanceProposal) (r : GovernanceActivationRecord)
    (st st' : GovernanceState) : Prop :=
  gs_proposals_by_id st' = <[id := activated_proposal p]> (gs_proposals_by_id st) /\
  gs_activation_records_by_id st' = <[id := activated_record e h r]> (gs_activation_records_by_id st) /\
  gs_protocol_version st' = protocol_version (gp_payload p) /\
  gs_ack_records_by_key st' = gs_ack_records_by_key st /\
  gs_scheduled_by_epoch st' = gs_scheduled_by_epoch st /\
  gs_ready_activation_ids st' = gs_ready_activation_ids st /\
  gs_votes_by_key st' = gs_votes_by_key st /\ gs_voting_power st' = gs_voting_power st /\
  gs_next_proposal_sequence st' = gs_next_proposal_sequence st /\
  gs_governance_voters st' = gs_governance_voters st /\
  gs_epoch_leaf_ids st' = gs_epoch_leaf_ids st /\ gs_leaves_by_id st' = gs_leaves_by_id st.

Definition act_step (e h : Z) (st st' : GovernanceState) : Prop :=
  exists id p r, activatable e st id p r /\ activation_of e h id p r st st'.

Lemma try_activate_cases id e h st :
  (try_activate_proposal id e h st).2 = st /\ (forall p r, ~ activatable e st id p r) \/
  exists p r, activatable e st id p r /\ activation_of e h id p r st (try_activate_proposal id e h st).2.
Proof.
  unfold try_activate_proposal, activatable.
  destruct (gs_proposals_by_id st !! id) as [p|]; [|left; naive_solver].
  destruct (gs_activation_records_by_id st !! id) as [r|]; [|left; naive_solver].
  destruct (bool_decide (gp_status p <> Scheduled)) eqn:E1; bool_to_prop; [left; naive_solver|].
  apply dec_stable in E1.
  destruct (e <? gac_activation_epoch r) eqn:E2; bool_to_prop.
  { left. split; [done|]. intros p' r' (? & ? & ? & ? & ?). simplify_eq. lia. }
  destruct (negb _) eqn:E3; bool_to_prop.
  { left. split; [done|]. intros p' r' (? & ? & ? & ? & Hs). simplify_eq.
    apply has_full_ack_set_spec in Hs. congruence. }
  apply has_full_ack_set_spec in E3. right. exists p, r. split; [done|]. unfold activation_of. simpl.
  destruct (Z.eqb_spec (gs_protocol_version st) (protocol_version (gp_payload p))); by split_and!.
Qed.

Lemma try_activate_rtc id e h st : rtc (act_step e h) st (try_activate_proposal id e h st).2.
Proof.
  destruct (try_activate_cases id e h st) as [[-> _]|(p & r & Ha & Hb)]; [done|].
  apply rtc_once. by exists id, p, r.
Qed.

Lemma act_step_core e h st st' : ActCore e st -> act_step e h st st' -> ActCore e st'.
Proof.
  intros [I1 I2 I3 I4] (id & p & r & (Hp & Hr & Hs & He & Hfull) & Hp' & Hr' & _ & Hack & _).
  destruct (I3 _ _ Hr) as (p0 & Hp0 & (R1 & R2 & R3 & R4 & _)). simplify_eq.
  split; rewrite ?Hp', ?Hr', ?Hack.
  - intros id' p'. rewrite lookup_insert_Some. intros [[<- <-]|[_ ?]]; [apply (I1 _ _ Hp)|eauto].
  - intros id' p' Hl Hf. destruct (decide (id' = id)) as [->|]; [by rewrite lookup_insert_eq; eexists|].
    rewrite lookup_insert_ne in Hl by done. rewrite lookup_insert_ne by done. eauto.
  - intros id' r'. rewrite lookup_insert_Some. intros [[<- <-]|[Hne Hl]].
    + rewrite lookup_insert_eq. eexists. split; [done|]. unfold record_ok. simpl.
      split_and!; try done; [by do 2 right|]. intros _. exists e. split; [done|lia].
    + rewrite lookup_insert_ne by done. eauto.
  - intros id' r' x. rewrite lookup_insert_Some. intros [[<- <-]|[Hne Hl]]; [|eauto]. simpl. eauto.
Qed.

(** A proposal after some activations: untouched, or moved from scheduled to
    activated. *)
Definition maybe_activated (p p' : GovernanceProposal) : Prop :=
  p' = p \/ gp_status p = Scheduled /\ p' = activated_proposal p.

Lemma act_rtc_core e h st st' : ActCore e st -> rtc (act_step e h) st st' -> ActCore e st'.
Proof. intros HI. induction 1; eauto using act_step_core. Qed.

Lemma act_rtc_frame e h st st' :
  rtc (act_step e h) st st' ->
  gs_ack_records_by_key st' = gs_ack_records_by_key st /\
  gs_scheduled_by_epoch st' = gs_scheduled_by_epoch st /\
  gs_ready_activation_ids st' = gs_ready_activation_ids st /\
  gs_votes_by_key st' = gs_votes_by_key st /\ gs_voting_power st' = gs_voting_power st /\
  gs_next_proposal_sequence st' = gs_next_proposal_sequence st /\
  gs_governance_voters st' = gs_governance_voters st /\
  gs_epoch_leaf_ids st' = gs_epoch_leaf_ids st /\ gs_leaves_by_id st' = gs_leaves_by_id st.
Proof.
  induction 1 as [|st1 st2 st3 (id & p & r & _ & _ & _ & _ & Hb) _ IH]; [done|].
  destruct Hb as (B1 & B2 & B3 & B4 & B5 & B6 & B7 & B8 & B9).
  destruct IH as (C1 & C2 & C3 & C4 & C5 & C6 & C7 & C8 & C9). by split_and!; etrans.
Qed.

Lemma act_rtc_proposals e h st st' id :
  rtc (act_step e h) st st' ->
  match gs_proposals_by_id st !! id, gs_proposals_by_id st' !! id with
  | Some p, Some p' => maybe_activated p p'
  | None, None => True
  | _, _ => False
  end.
Proof.
  induction 1 as [st1|st1 st2 st3 (id' & p & r & (Hp & _ & Hs & _) & (Hp' & _)) _ IH].
  { destruct (_ !! id); [by left|done]. }
  rewrite Hp' in IH. destruct (decide (id = id')) as [->|].
  - rewrite lookup_insert_eq in IH. rewrite Hp. destruct (gs_proposals_by_id st3 !! id') as [p'|]; [|done].
    destruct IH as [->|[Hs' _]]; [by right|done].
  - by rewrite lookup_insert_ne in IH by done.
Qed.

(** An identifier that was tried is no longer due. *)
Definition due (e : Z) (st : GovernanceState) (id : hash) : Prop :=
  exists p, gs_proposals_by_id st !! id = Some p /\ gp_status p = Scheduled /\ gp_activation_epoch p <= e.

Lemma due_activatable e st id : ActCore e st -> due e st id -> exists p r, activatable e st id p r.
Proof.
  intros HI (p & Hp & Hs & He). destruct (act_record _ _ HI _ _ Hp) as [r Hr]; [rewrite Hs; by (right; left)|].
  destruct (act_proposal _ _ HI _ _ Hr) as (p' & Hp' & (R1 & R2 & R3 & R4 & R5 & R6)). simplify_eq.
  exists p, r. split_and!; try done; [lia|]. apply R5. congruence.
Qed.

Lemma act_rtc_due e h st st' id : rtc (act_step e h) st st' -> due e st' id -> due e st id.
Proof.
  intros Hr (p' & Hp' & Hs & He). pose proof (act_rtc_proposals e h st st' id Hr) as Hm.
  rewrite Hp' in Hm. destruct (gs_proposals_by_id st !! id) as [p|] eqn:E; [|done].
  destruct Hm as [->|[_ ->]]; [by exists p|done].
Qed.

Lemma try_activate_not_due id e h st :
  ActCore e st -> ~ due e (try_activate_proposal id e h st).2 id.
Proof.
  intros HI Hd. destruct (try_activate_cases id e h st) as [[Heq Hno]|(p & r & Ha & Hp' & _)].
  - rewrite Heq in Hd. apply due_activatable in Hd as (p & r & Ha); [|done]. by eapply Hno.
  - destruct Hd as (p' & Hl & Hs & _). rewrite Hp', lookup_insert_eq in Hl. by simplify_eq.
Qed.

Lemma bucket_loop ids e h st :
  ActCore e st ->
  let st' := foldl (fun st id => (try_activate_proposal id e h st).2) st ids in
  rtc (act_step e h) st st' /\ forall id, id ∈ ids -> ~ due e st' id.
Proof.
  revert st. induction ids as [|id ids IH]; intros st HI; simpl; [split; [done|set_solver]|].
  pose proof (try_activate_rtc id e h st) as Hs1.
  destruct (IH (try_activate_proposal id e h st).2) as [Hs2 Hnd]; [by eapply act_rtc_core|].
  split; [by etrans|]. intros id' [->|Hin]%elem_of_cons Hd; [|by apply (Hnd id')].
  apply (act_rtc_due _ _ _ _ _ Hs2) in Hd. by apply try_activate_not_due in Hd.
Qed.

Lemma ready_loop ids e h st :
  ActCore e st ->
  let st' := (activate_all ids e h st).2 in
  rtc (act_step e h) st st' /\ forall id, id ∈ ids -> ~ due e st' id.
Proof.
  revert st. induction ids as [|id ids IH]; intros st HI; simpl; [split; [done|set_solver]|].
  pose proof (try_activate_rtc id e h st) as Hs1. pose proof (try_activate_not_due id e h st HI) as Hn.
  destruct (try_activate_proposal id e h st) as [ok st1]. simpl in *.
  destruct (IH st1) as [Hs2 Hnd]; [by eapply act_rtc_core|].
  destruct (activate_all ids e h st1) as [rem st2]. simpl in *.
  split; [by etrans|]. intros id' [->|Hin]%elem_of_cons Hd; [|by apply (Hnd id')].
  apply Hn. by eapply act_rtc_due.
Qed.

(** The hook activates everything in the epoch's bucket and in the ready queue
    that is due, and changes nothing else but the queue. *)
Lemma on_initialize_spec sys e st :
  sys_block_number sys <> 0 -> ActCore e st ->
  exists st1 remaining,
    rtc (act_step e (saturated_into_u32 (sys_block_number sys))) st st1 /\
    governance_on_initialize sys e st = st1 {{ gs_ready_activation_ids := remaining }} /\
    forall id, id ∈ gs_scheduled_by_epoch st !!! e \/ id ∈ gs_ready_activation_ids st -> ~ due e st1 id.
Proof.
  intros Hn HI. unfold governance_on_initialize. rewrite (proj2 (Z.eqb_neq _ _) Hn).
  set (h := saturated_into_u32 _).
  destruct (bucket_loop (gs_scheduled_by_epoch st !!! e) e h st HI) as [Hs1 N1].
  unfold activate_ready_queue, activate_epoch_bucket. set (stb := foldl _ st _) in *.
  assert (ActCore e stb) as HIb by (by eapply act_rtc_core).
  destruct (ready_loop (gs_ready_activation_ids stb) e h stb HIb) as [Hs2 N2].
  destruct (activate_all (gs_ready_activation_ids stb) e h stb) as [remaining st1]. simpl in *.
  exists st1, remaining. split_and!; [by etrans|done|].
  intros id [Hin|Hin] Hd.
  - apply (N1 id Hin). by eapply act_rtc_due.
  - apply (N2 id); [|done]. by destruct (act_rtc_frame _ _ _ _ Hs1) as (_ & _ & -> & _).
Qed.

Lemma act_core_ready e st remaining : ActCore e st -> ActCore e (st {{ gs_ready_activation_ids := remaining }}).
Proof. by intros [I1 I2 I3 I4]. Qed.

Lemma on_initialize_inv sys st e e' :
  sys_block_number sys <> 0 -> (e' = e \/ e' = e + 1) ->
  ActInv (mkGov st e) -> ActInv (mkGov (governance_on_initialize sys e' st) e').
Proof.
  intros Hn He [HI Hq]. simpl in *. apply (act_core_mono _ e') in HI; [|lia].
  destruct (on_initialize_spec sys e' st Hn HI) as (st1 & rem & Hr & -> & Hnd).
  split; simpl; [by eapply act_core_ready, act_rtc_core|].
  intros id p' Hp' Hs. simpl in *. pose proof (act_rtc_proposals _ _ _ _ id Hr) as Hm.
  rewrite Hp' in Hm. destruct (gs_proposals_by_id st !! id) as [p|] eqn:E; [|done].
  destruct Hm as [->|[_ ->]]; [|done]. pose proof (Hq id p E Hs) as Hq'.
  destruct (act_rtc_frame _ _ _ _ Hr) as (_ & Hb & _).
  destruct (decide (gp_activation_epoch p <= e')) as [Hle|Hgt].
  - exfalso. apply (Hnd id); [|by exists p].
    destruct (decide (gp_activation_epoch p <= e)); [by right|left].
    assert (gp_activation_epoch p = e') as <- by lia. done.
  - rewrite decide_False in Hq' by lia. by rewrite Hb.
Qed.

(** *** Preservation by the dispatchables *)

(** What [ActInv] depends on. *)
Definition same_act (st st' : GovernanceState) : Prop :=
  gs_proposals_by_id st' = gs_proposals_by_id st /\
  gs_activation_records_by_id st' = gs_activation_records_by_id st /\
  gs_ack_records_by_key st' = gs_ack_records_by_key st /\
  gs_scheduled_by_epoch st' = gs_scheduled_by_epoch st /\
  gs_ready_activation_ids st' = gs_ready_activation_ids st.

Lemma act_inv_ext e st st' : same_act st st' -> ActInv (mkGov st e) -> ActInv (mkGov st' e).
Proof.
  intros (E1 & E2 & E3 & E4 & E5) [[I1 I2 I3 I4] Hq]. unfold ActInv, queued in *. simpl in *.
  split; [split|]; simpl; rewrite ?E1, ?E2, ?E3, ?E4, ?E5; done.
Qed.

Lemma insert_epoch_leaf_same ep st leaf : same_act st (insert_epoch_leaf ep st leaf).
Proof. by unfold same_act. Qed.

Lemma insert_leaves_same {A} (f : A -> GovernanceLeaf) ep l st :
  same_act st (foldl (fun st x => insert_epoch_leaf ep st (f x)) st l).
Proof.
  revert st. induction l as [|x l IH]; intros st; [done|]. simpl.
  destruct (IH (insert_epoch_leaf ep st (f x))) as (E1 & E2 & E3 & E4 & E5). by split_and!.
Qed.

Lemma no_record e st id :
  ActCore e st ->
  (forall p, gs_proposals_by_id st !! id = Some p -> ~ finalized_status (gp_status p)) ->
  gs_activation_records_by_id st !! id = None.
Proof.
  intros HI Hp. destruct (gs_activation_records_by_id st !! id) as [r|] eqn:E; [|done].
  destruct (act_proposal _ _ HI _ _ E) as (p & Hl & Hf & _). by destruct (Hp p Hl).
Qed.

(** Writing a proposal that is not finalized, over none or another such one. *)
Lemma act_write_open e st st' id p' :
  ActInv (mkGov st e) ->
  (forall p, gs_proposals_by_id st !! id = Some p -> ~ finalized_status (gp_status p)) ->
  gp_proposal_id p' = id -> ~ finalized_status (gp_status p') ->
  same_act (st {{ gs_proposals_by_id ::= <[id := p']> }}) st' -> ActInv (mkGov st' e).
Proof.
  intros [HI Hq] Hp Hid Hs Hsame. pose proof (no_record _ _ _ HI Hp) as Hnone.
  eapply act_inv_ext; [done|]. destruct HI as [I1 I2 I3 I4]. unfold ActInv, queued in *. simpl in *.
  split; [split|]; simpl.
  - intros id' p. rewrite lookup_insert_Some. intros [[<- <-]|[_ ?]]; eauto.
  - intros id' p. rewrite lookup_insert_Some. intros [[<- <-]|[_ ?]]; [done|eauto].
  - intros id' r Hr. rewrite lookup_insert_ne by congruence. eauto.
  - done.
  - intros id' p. rewrite lookup_insert_Some. intros [[<- <-]|[_ ?]] Hsch; [|by eapply Hq].
    destruct Hs. rewrite Hsch. by (right; left).
Qed.

(** Finalizing a proposal with a fresh record. *)
Lemma act_write_finalized e st st' id p r acks :
  ActInv (mkGov st e) ->
  (forall p, gs_proposals_by_id st !! id = Some p -> ~ finalized_status (gp_status p)) ->
  gp_proposal_id p = id -> gp_status p = LocallyFinalized -> record_ok e p r ->
  (forall k, is_Some (gs_ack_records_by_key st !! k) -> is_Some (acks !! k)) ->
  (forall x, x ∈ gac_known_ack_domains r -> is_Some (acks !! (id, x))) ->
  same_act (st {{ gs_proposals_by_id ::= <[id := p]> }}
               {{ gs_activation_records_by_id ::= <[id := r]> }}
               {{ gs_ack_records_by_key := acks }}) st' ->
  ActInv (mkGov st' e).
Proof.
  intros [HI Hq] Hp Hid Hs Hok Hmono Hknown Hsame. pose proof (no_record _ _ _ HI Hp) as Hnone.
  eapply act_inv_ext; [done|]. destruct HI as [I1 I2 I3 I4]. unfold ActInv, queued in *. simpl in *.
  split; [split|]; simpl.
  - intros id' p'. rewrite lookup_insert_Some. intros [[<- <-]|[_ ?]]; eauto.
  - intros id' p' Hl Hf. destruct (decide (id' = id)) as [->|]; [by rewrite lookup_insert_eq; eexists|].
    rewrite lookup_insert_ne in Hl by done. rewrite lookup_insert_ne by done. eauto.
  - intros id' r'. rewrite lookup_insert_Some. intros [[<- <-]|[? Hr]].
    + rewrite lookup_insert_eq. eauto.
    + rewrite lookup_insert_ne by done. eauto.
  - intros id' r' x. rewrite lookup_insert_Some. intros [[<- <-]|[? Hr]] Hx; eauto.
  - intros id' p'. rewrite lookup_insert_Some. intros [[<- <-]|[_ ?]] Hsch; [congruence|by eapply Hq].
Qed.

(** The effect of [maybe_schedule_activation] when it schedules. *)
Lemma schedule_cases id e st :
  ActCore e st ->
  maybe_schedule_activation id e st = st \/
  exists p r, gs_proposals_by_id st !! id = Some p /\ gs_activation_records_by_id st !! id = Some r /\
    gp_status p = LocallyFinalized /\ gac_target_domains r ⊆ gac_known_ack_domains r /\
    let st' := maybe_schedule_activation id e st in
    gs_proposals_by_id st' = <[id := p {{ gp_status := Scheduled }}]> (gs_proposals_by_id st) /\
    gs_activation_records_by_id st'
    = <[id := r {{ gac_status := Scheduled }} {{ gac_scheduled_at_epoch := Some e }}]>
        (gs_activation_records_by_id st) /\
    gs_ack_records_by_key st' = gs_ack_records_by_key st /\
    (forall ep x, x ∈ gs_scheduled_by_epoch st !!! ep -> x ∈ gs_scheduled_by_epoch st' !!! ep) /\
    (forall x, x ∈ gs_ready_activation_ids st -> x ∈ gs_ready_activation_ids st') /\
    if decide (gp_activation_epoch p <= e) then id ∈ gs_ready_activation_ids st'
    else id ∈ gs_scheduled_by_epoch st' !!! gp_activation_epoch p.
Proof.
  intros HI. unfold maybe_schedule_activation.
  destruct (gs_proposals_by_id st !! id) as [p|] eqn:Ep; [|by left].
  destruct (gs_activation_records_by_id st !! id) as [r|] eqn:Er; [|by left].
  destruct (act_proposal _ _ HI _ _ Er) as (p0 & Hp0 & (R1 & R2 & R3 & R4 & _)). simplify_eq.
  destruct (bool_decide _) eqn:E1; [by left|]. bool_to_prop.
  destruct (negb _) eqn:E2; [by left|]. bool_to_prop. apply has_full_ack_set_spec in E2.
  destruct (bool_decide (gp_status p <> Scheduled)) eqn:E3; [|by left]. bool_to_prop. right.
  exists p, r. split; [done|]. split; [done|]. split.
  { destruct (decide (gp_status p = LocallyFinalized)) as [|Hne]; [done|]. exfalso. apply E1. naive_solver. }
  split; [done|].
  cbv zeta. simpl. rewrite <-R4.
  destruct (Z.leb_spec (gac_activation_epoch r) e) as [Hle|Hgt]; simpl.
  - rewrite decide_True by done. split_and!; try done.
    + intros x Hx. apply push_unique_elem. by right.
    + apply push_unique_elem. by left.
  - rewrite decide_False by lia. split_and!; try done.
    + intros ep x. apply schedule_lookup_mono.
    + rewrite lookup_total_insert_eq. apply push_unique_elem. by left.
Qed.

Lemma schedule_preserves id e st :
  ActInv (mkGov st e) -> ActInv (mkGov (maybe_schedule_activation id e st) e).
Proof.
  intros [HI Hq]. destruct (schedule_cases id e st HI) as [->|(p & r & Hp & Hr & Hs & Hfull & Hrest)]; [done|].
  cbv zeta in Hrest. destruct Hrest as (Ep & Er & Ea & Hm1 & Hm2 & Hnew).
  destruct HI as [I1 I2 I3 I4]. destruct (I3 _ _ Hr) as (p0 & Hp0 & (R1 & R2 & R3 & R4 & _)).
  simpl in *. simplify_eq. unfold ActInv, queued in *. simpl in *.
  split; [split|]; simpl; rewrite ?Ep, ?Er, ?Ea.
  - intros id' p'. rewrite lookup_insert_Some. intros [[<- <-]|[_ ?]]; [apply (I1 _ _ Hp)|eauto].
  - intros id' p' Hl Hf. destruct (decide (id' = id)) as [->|]; [by rewrite lookup_insert_eq; eexists|].
    rewrite lookup_insert_ne in Hl by done. rewrite lookup_insert_ne by done. eauto.
  - intros id' r'. rewrite lookup_insert_Some. intros [[<- <-]|[Hne Hl]].
    + rewrite lookup_insert_eq. eexists. split; [done|]. unfold record_ok. simpl.
      split_and!; try done; by (right; left).
    + rewrite lookup_insert_ne by done. eauto.
  - intros id' r' x. rewrite lookup_insert_Some. intros [[<- <-]|[Hne Hl]]; [|eauto]. simpl. eauto.
  - intros id' p'. rewrite lookup_insert_Some. intros [[<- <-]|[_ Hl]] Hsch; [exact Hnew|].
    specialize (Hq id' p' Hl Hsch). destruct (decide (gp_activation_epoch p' <= e)); eauto.
Qed.

(** Proposal identifiers: every stored proposal has one its source domain
    assigned, and the local ones come from earlier sequence numbers. *)
Record IdInv (st : GovernanceState) : Prop := {
  id_sequence : 0 <= gs_next_proposal_sequence st <= u64_max;
  id_assigned : forall id p, gs_proposals_by_id st !! id = Some p ->
    exists s, 0 <= s < u64_max /\ id = governance_proposal_id (gp_source_domain p) s /\
      (gp_source_domain p = d -> s < gs_next_proposal_sequence st)
}.

Lemma id_write st st' id p :
  IdInv st -> gs_next_proposal_sequence st' = gs_next_proposal_sequence st ->
  gs_proposals_by_id st' = <[id := p]> (gs_proposals_by_id st) ->
  (exists s, 0 <= s < u64_max /\ id = governance_proposal_id (gp_source_domain p) s /\
      (gp_source_domain p = d -> s < gs_next_proposal_sequence st)) ->
  IdInv st'.
Proof.
  intros [I1 I2] E1 E2 Hp. split; rewrite ?E1, ?E2; [done|].
  intros id' p'. rewrite lookup_insert_Some. intros [[<- <-]|[_ ?]]; eauto.
Qed.

(** The shape of each successful call, as far as proposals are concerned. *)

Lemma create_proposal_inv e balance origin targets version st st' :
  create_proposal d e balance origin targets version st = Ok st' ->
  exists who targets' total power,
    origin = Signed who /\ canonicalize_target_domains targets d = Ok targets' /\
    0 < version /\ version <> gs_protocol_version st /\
    let id := governance_proposal_id d (gs_next_proposal_sequence st) in
    snapshot_voters id balance (gs_governance_voters st) 0 (gs_voting_power st) = (total, power) /\
    st' = deposit_governance_event (ProposalCreated id d targets' (sat_add u64_max e 1))
            (st {{ gs_next_proposal_sequence := sat_add u64_max (gs_next_proposal_sequence st) 1 }}
                {{ gs_voting_power := power }}
                {{ gs_proposals_by_id ::= <[id :=
                     new_proposal id d targets' (account_to_bytes who) (SetProtocolVersion version)
                       (payload_hash (SetProtocolVersion version)) e (sat_add u64_max e 1) total]> }}).
Proof.
  unfold create_proposal. intros Hop. dispatch_inv Hop. bool_to_prop.
  destruct origin as [who| |]; simplify_eq/=. do 4 eexists. cbv zeta. by split_and!.
Qed.

Lemma cast_vote_inv e sys origin id choice st st' :
  cast_vote e sys origin id choice st = Ok st' ->
  exists who p power vote,
    st' = deposit_governance_event (VoteRecorded id (account_to_bytes who) choice power)
            (st {{ gs_votes_by_key ::= <[(id, account_to_bytes who) := vote]> }}
                {{ gs_proposals_by_id ::= <[id := tally_vote choice power p]> }}) /\
    origin = Signed who /\ gs_proposals_by_id st !! id = Some p /\ gp_status p = Voting /\
    e < gp_voting_end_epoch p /\
    gs_votes_by_key st !! (id, account_to_bytes who) = None /\
    gs_voting_power st !! (id, account_to_bytes who) = Some power /\ 0 < power /\
    gv_proposal_id vote = id /\ gv_choice vote = choice /\ gv_voting_power vote = power.
Proof.
  unfold cast_vote. intros Hop. dispatch_inv Hop. bool_to_prop.
  destruct origin as [who| |]; simplify_eq/=. do 4 eexists. split; [reflexivity|]. by split_and!.
Qed.

Lemma tally_vote_same choice power p :
  gp_status (tally_vote choice power p) = gp_status p /\
  gp_proposal_id (tally_vote choice power p) = gp_proposal_id p /\
  gp_source_domain (tally_vote choice power p) = gp_source_domain p.
Proof. by destruct choice. Qed.

Lemma vote_act st e sys origin id choice st' :
  ActInv (mkGov st e) -> IdInv st -> cast_vote e sys origin id choice st = Ok st' ->
  ActInv (mkGov st' e) /\ IdInv st'.
Proof.
  intros HA HI (who & p & power & vote & -> & _ & Hp & Hs & _)%cast_vote_inv.
  destruct (tally_vote_same choice power p) as (Ts & Tid & Tsrc). split.
  - eapply (act_write_open e st _ id (tally_vote choice power p)); [done| | | |].
    + intros p0 Hp0. simplify_eq. rewrite Hs. by intros [|[]].
    + rewrite Tid. by apply (act_id _ _ (proj1 HA)).
    + rewrite Ts, Hs. by intros [|[]].
    + by unfold same_act.
  - eapply (id_write st _ id (tally_vote choice power p)); [done..|].
    rewrite Tsrc. by apply (id_assigned _ HI).
Qed.

Definition rejected (p : GovernanceProposal) : GovernanceProposal := p {{ gp_status := Rejected }}.
Definition accepted (e : Z) (p : GovernanceProposal) : GovernanceProposal :=
  p {{ gp_approval_epoch := Some e }} {{ gp_activation_epoch := sat_add u64_max e 4 }}
    {{ gp_status := LocallyFinalized }}.

Lemma close_proposal_inv e origin id st st' :
  close_proposal e origin id st = Ok st' ->
  exists p, gs_proposals_by_id st !! id = Some p /\ gp_status p = Voting /\ gp_voting_end_epoch p <= e /\
    if quorum_met p && approved p then
      st' = deposit_governance_event (ProposalLocallyFinalized id e (sat_add u64_max e 4))
              ((insert_outbound_proposal_leaves (accepted e p) e
                  (store_activation_record (accepted e p) [] None st))
                 {{ gs_proposals_by_id ::= <[id := accepted e p]> }})
    else
      st' = deposit_governance_event (ProposalRejected id e)
              (st {{ gs_proposals_by_id ::= <[id := rejected p]> }}).
Proof.
  unfold close_proposal. intros Hop.
  do 4 (dispatch_step Hop). bool_to_prop. rename g into p. exists p. split_and!; [done..|].
  destruct (quorum_met p), (approved p); simpl in *; by simplify_eq.
Qed.

Lemma insert_outbound_same p ep st : same_act st (insert_outbound_proposal_leaves p ep st).
Proof. apply insert_leaves_same. Qed.

Lemma same_act_trans st1 st2 st3 : same_act st1 st2 -> same_act st2 st3 -> same_act st1 st3.
Proof. intros (A1 & A2 & A3 & A4 & A5) (B1 & B2 & B3 & B4 & B5). split_and!; congruence. Qed.

(** The leaf loops touch neither identifiers nor votes. *)
Definition same_votes (st st' : GovernanceState) : Prop :=
  gs_proposals_by_id st' = gs_proposals_by_id st /\
  gs_votes_by_key st' = gs_votes_by_key st /\ gs_voting_power st' = gs_voting_power st /\
  gs_next_proposal_sequence st' = gs_next_proposal_sequence st /\
  gs_governance_voters st' = gs_governance_voters st /\
  gs_protocol_version st' = gs_protocol_version st.

Lemma insert_leaves_same_votes {A} (f : A -> GovernanceLeaf) ep l st :
  same_votes st (foldl (fun st x => insert_epoch_leaf ep st (f x)) st l).
Proof.
  revert st. induction l as [|x l IH]; intros st; [done|]. simpl.
  destruct (IH (insert_epoch_leaf ep st (f x))) as (E1 & E2 & E3 & E4 & E5 & E6). by split_and!.
Qed.

Lemma insert_outbound_same_votes p ep st : same_votes st (insert_outbound_proposal_leaves p ep st).
Proof. apply insert_leaves_same_votes. Qed.

(** The record a freshly finalized proposal gets. *)
Lemma new_record_ok e p known r st :
  gp_status p = LocallyFinalized ->
  gs_activation_records_by_id (store_activation_record p known None st) !! gp_proposal_id p = Some r ->
  record_ok e p r /\ gac_known_ack_domains r = dedup (sort_by domain_cmp known).
Proof.
  intros Hs. simpl. rewrite lookup_insert_eq. intros Hr. injection Hr as <-. simpl.
  split; [|done]. unfold record_ok. simpl. rewrite Hs. split_and!; try done. by left.
Qed.

Lemma close_act st e origin id st' :
  ActInv (mkGov st e) -> IdInv st -> close_proposal e origin id st = Ok st' ->
  ActInv (mkGov st' e) /\ IdInv st'.
Proof.
  intros HA HI (p & Hp & Hs & _ & Hcase)%close_proposal_inv.
  assert (forall p0, gs_proposals_by_id st !! id = Some p0 -> ~ finalized_status (gp_status p0)) as Hopen.
  { intros p0 Hp0. simplify_eq. rewrite Hs. by intros [|[]]. }
  pose proof (act_id _ _ (proj1 HA) _ _ Hp) as Hid. simpl in Hid.
  pose proof (id_assigned _ HI _ _ Hp) as Has.
  destruct (quorum_met p && approved p); subst st'.
  - assert (gp_proposal_id (accepted e p) = id) as Hid' by done.
    destruct (gs_activation_records_by_id (store_activation_record (accepted e p) [] None st)
                !! gp_proposal_id (accepted e p)) as [r|] eqn:Er; [|simpl in Er; by rewrite lookup_insert_eq in Er].
    destruct (new_record_ok e (accepted e p) [] r st eq_refl Er) as [Hok Hk].
    split.
    + eapply (act_write_finalized e st _ id (accepted e p) r (gs_ack_records_by_key st));
        try done; [rewrite Hk; set_solver|].
      destruct (insert_outbound_same (accepted e p) e (store_activation_record (accepted e p) [] None st))
        as (A1 & A2 & A3 & A4 & A5).
      simpl in Er. rewrite lookup_insert_eq in Er. injection Er as Er. subst r.
      unfold same_act. simpl. rewrite A1, A2, A3, A4, A5. simpl. by rewrite Hid.
    + eapply (id_write st _ id (accepted e p)); [done| | |done].
      * simpl. by destruct (insert_outbound_same_votes (accepted e p) e
          (store_activation_record (accepted e p) [] None st)) as (_ & _ & _ & -> & _).
      * simpl. f_equal. by destruct (insert_outbound_same (accepted e p) e
          (store_activation_record (accepted e p) [] None st)) as (-> & _).
  - split.
    + eapply (act_write_open e st _ id (rejected p)); try done. by intros [|[]].
    + by eapply (id_write st _ id (rejected p)).
Qed.

(** What a successful import of a proposal does before it tries to schedule. *)
Definition import_base (local : DomainId) (e : Z) (sys : System) (leaf : GovernanceProposalLeaf)
    (st : GovernanceState) : GovernanceState :=
  record_local_ack_and_fanout local sys (imported_proposal leaf) e
    (store_activation_record (imported_proposal leaf) [local] None
       (st {{ gs_proposals_by_id ::= <[gpl_proposal_id leaf := imported_proposal leaf]> }})).

Lemma import_proposal_inv e sys origin claim st st' :
  import_verified_governance_proposal d e sys origin claim st = Ok st' ->
  let leaf := igp_leaf claim in
  gpl_target_domain leaf = d /\ gpl_source_domain leaf <> d /\
  gs_proposals_by_id st !! gpl_proposal_id leaf = None /\ d ∈ gpl_target_domains leaf /\
  payload_hash (SetProtocolVersion (gpl_new_protocol_version leaf)) = gpl_payload_hash leaf /\
  st' = deposit_governance_event (ProposalImported (gpl_proposal_id leaf) (gpl_source_domain leaf) d)
          (maybe_schedule_activation (gpl_proposal_id leaf) e (import_base d e sys leaf st)).
Proof.
  unfold import_verified_governance_proposal. intros Hop. dispatch_inv Hop. bool_to_prop. cbv zeta.
  subst st'. by split_and!.
Qed.

Lemma import_base_spec e sys leaf st :
  let id := gpl_proposal_id leaf in
  exists r ack, record_ok e (imported_proposal leaf) r /\
    (forall x, x ∈ gac_known_ack_domains r <-> x = d) /\
    same_act (st {{ gs_proposals_by_id ::= <[id := imported_proposal leaf]> }}
                 {{ gs_activation_records_by_id ::= <[id := r]> }}
                 {{ gs_ack_records_by_key ::= <[(id, d) := ack]> }})
             (import_base d e sys leaf st) /\
    same_votes (st {{ gs_proposals_by_id ::= <[id := imported_proposal leaf]> }})
      (import_base d e sys leaf st).
Proof.
  cbv zeta. unfold import_base.
  set (st1 := st {{ gs_proposals_by_id ::= _ }}). set (st2 := store_activation_record _ _ _ st1).
  destruct (gs_activation_records_by_id st2 !! gpl_proposal_id leaf) as [r|] eqn:Er;
    [|simpl in Er; by rewrite lookup_insert_eq in Er].
  destruct (new_record_ok e (imported_proposal leaf) [d] r st1 eq_refl Er) as [Hok Hk].
  simpl in Er. rewrite lookup_insert_eq in Er. injection Er as Er.
  unfold record_local_ack_and_fanout. set (st3 := st2 {{ gs_ack_records_by_key ::= _ }}).
  destruct (insert_leaves_same (ack_leaf_for (imported_proposal leaf) d e) e
              (fanout_targets (imported_proposal leaf) d) st3) as (A1 & A2 & A3 & A4 & A5).
  destruct (insert_leaves_same_votes (ack_leaf_for (imported_proposal leaf) d e) e
              (fanout_targets (imported_proposal leaf) d) st3) as (B1 & B2 & B3 & B4 & B5 & B6).
  eexists r, _. split_and!; [done| | |].
  - intros x. rewrite Hk, known_domains_elem. set_solver.
  - unfold same_act. simpl. rewrite A1, A2, A3, A4, A5. subst r. by split_and!.
  - unfold same_votes. simpl. rewrite B1, B2, B3, B4, B5, B6. by split_and!.
Qed.

Lemma schedule_same_ids id e st :
  gs_next_proposal_sequence (maybe_schedule_activation id e st) = gs_next_proposal_sequence st /\
  gs_votes_by_key (maybe_schedule_activation id e st) = gs_votes_by_key st /\
  gs_voting_power (maybe_schedule_activation id e st) = gs_voting_power st /\
  gs_governance_voters (maybe_schedule_activation id e st) = gs_governance_voters st /\
  gs_protocol_version (maybe_schedule_activation id e st) = gs_protocol_version st.
Proof.
  unfold maybe_schedule_activation.
  repeat first [done | match goal with |- context [match ?x with _ => _ end] => destruct x end].
Qed.

(** Scheduling rewrites a proposal's status only. *)
Definition maybe_scheduled (p p' : GovernanceProposal) : Prop :=
  p' = p \/ gp_status p = LocallyFinalized /\ p' = p {{ gp_status := Scheduled }}.

Lemma schedule_proposals id e st id' :
  ActCore e st ->
  match gs_proposals_by_id st !! id', gs_proposals_by_id (maybe_schedule_activation id e st) !! id' with
  | Some p, Some p' => maybe_scheduled p p'
  | None, None => True
  | _, _ => False
  end.
Proof.
  intros HI. destruct (schedule_cases id e st HI) as [->|(p & r & Hp & _ & Hs & _ & Hrest)].
  { destruct (_ !! id'); [by left|done]. }
  cbv zeta in Hrest. destruct Hrest as (-> & _). destruct (decide (id' = id)) as [->|].
  - rewrite lookup_insert_eq, Hp. by right.
  - rewrite lookup_insert_ne by done. destruct (_ !! id'); [by left|done].
Qed.

Lemma schedule_id_inv id e st : ActCore e st -> IdInv st -> IdInv (maybe_schedule_activation id e st).
Proof.
  intros HA [I1 I2]. destruct (schedule_same_ids id e st) as (E1 & _). split; rewrite E1; [done|].
  intros id' p' Hp'. pose proof (schedule_proposals id e st id' HA) as Hm. rewrite Hp' in Hm.
  destruct (gs_proposals_by_id st !! id') as [p|] eqn:E; [|done].
  destruct Hm as [->|[_ ->]]; apply (I2 _ _ E).
Qed.

Lemma import_base_inv st e sys leaf seq :
  ActInv (mkGov st e) -> IdInv st -> 0 <= seq < u64_max ->
  gpl_proposal_id leaf = governance_proposal_id (gpl_source_domain leaf) seq ->
  gpl_source_domain leaf <> d -> gs_proposals_by_id st !! gpl_proposal_id leaf = None ->
  ActInv (mkGov (import_base d e sys leaf st) e) /\ IdInv (import_base d e sys leaf st).
Proof.
  intros HA HI Hseq Hid Hsrc Hnone.
  destruct (import_base_spec e sys leaf st) as (r & ack & Hok & Hk & Hsame & Hv). cbv zeta in *. split.
  - eapply (act_write_finalized e st _ (gpl_proposal_id leaf) (imported_proposal leaf) r
      (<[(gpl_proposal_id leaf, d) := ack]> (gs_ack_records_by_key st))); try done.
    + intros p Hp. congruence.
    + intros k Hk'. destruct (decide (k = (gpl_proposal_id leaf, d))) as [->|].
      * rewrite lookup_insert_eq. by eexists.
      * by rewrite lookup_insert_ne.
    + intros x ->%Hk. rewrite lookup_insert_eq. by eexists.
  - destruct Hv as (V1 & _ & _ & V4 & _).
    apply (id_write st _ (gpl_proposal_id leaf) (imported_proposal leaf)); [done|exact V4|exact V1|].
    exists seq. simpl. split_and!; [lia|lia|done|done].
Qed.

Lemma import_act st e sys origin claim seq st' :
  ActInv (mkGov st e) -> IdInv st ->
  0 <= seq < u64_max ->
  gpl_proposal_id (igp_leaf claim) = governance_proposal_id (gpl_source_domain (igp_leaf claim)) seq ->
  import_verified_governance_proposal d e sys origin claim st = Ok st' ->
  ActInv (mkGov st' e) /\ IdInv st'.
Proof.
  intros HA HI Hseq Hid Hop. apply import_proposal_inv in Hop. cbv zeta in Hop.
  destruct Hop as (_ & Hsrc & Hnone & _ & _ & ->). set (leaf := igp_leaf claim) in *.
  destruct (import_base_inv st e sys leaf seq HA HI Hseq Hid Hsrc Hnone) as [HA1 HI1]. split.
  - eapply act_inv_ext; [|apply (schedule_preserves (gpl_proposal_id leaf)), HA1]. by unfold same_act.
  - pose proof (schedule_id_inv (gpl_proposal_id leaf) e _ (proj1 HA1) HI1) as [J1 J2]. by split.
Qed.

Lemma note_known_base e st id x r :
  ActInv (mkGov st e) -> is_Some (gs_ack_records_by_key st !! (id, x)) ->
  gs_activation_records_by_id st !! id = Some r ->
  ActInv (mkGov (st {{ gs_activation_records_by_id ::= <[id :=
    r {{ gac_known_ack_domains := dedup (sort_by domain_cmp (gac_known_ack_domains r ++ [x])) }}]> }}) e).
Proof.
  intros [[I1 I2 I3 I4] Hq] Hack Hr. unfold ActInv, queued in *. simpl in *.
  split; [split|done]; simpl.
  - done.
  - intros id' p Hp Hf. destruct (decide (id' = id)) as [->|]; [by rewrite lookup_insert_eq; eexists|].
    rewrite lookup_insert_ne by done. eauto.
  - intros id' r'. rewrite lookup_insert_Some. intros [[<- <-]|[_ ?]]; [|eauto].
    destruct (I3 _ _ Hr) as (p & Hp & (R1 & R2 & R3 & R4 & R5 & R6)). exists p. split; [done|].
    unfold record_ok. simpl. split_and!; try done. intros Hs y Hy.
    apply known_domains_elem, elem_of_app. left. by apply R5.
  - intros id' r' y. rewrite lookup_insert_Some. intros [[<- <-]|[_ ?]]; [|eauto]. simpl.
    rewrite known_domains_elem, elem_of_app, list_elem_of_singleton. intros [?| ->]; eauto.
Qed.

Lemma note_known_preserves e st id x :
  ActInv (mkGov st e) -> is_Some (gs_ack_records_by_key st !! (id, x)) ->
  ActInv (mkGov (note_known_ack_domain id x e st) e).
Proof.
  intros HA Hack. unfold note_known_ack_domain. apply schedule_preserves.
  destruct (gs_activation_records_by_id st !! id) as [r|] eqn:E; [|done].
  case_decide; [done|]. by apply note_known_base.
Qed.

Lemma import_ack_inv e sys origin claim st st' :
  import_verified_governance_ack d e sys origin claim st = Ok st' ->
  let leaf := iga_leaf claim in
  let id := gal_proposal_id leaf in
  let x := gal_acknowledging_domain leaf in
  exists ack p, gal_target_domain leaf = d /\ x <> d /\ x ∈ gal_target_domains leaf /\
    gs_ack_records_by_key st !! (id, x) = None /\ gs_proposals_by_id st !! id = Some p /\
    gp_target_domains p = gal_target_domains leaf /\ gp_activation_epoch p = gal_activation_epoch leaf /\
    st' = deposit_governance_event (GovernanceAcknowledged id x d)
            (note_known_ack_domain id x e (st {{ gs_ack_records_by_key ::= <[(id, x) := ack]> }})).
Proof.
  unfold import_verified_governance_ack. intros Hop. dispatch_inv Hop. bool_to_prop. cbv zeta.
  subst st'. do 2 eexists. by split_and!.
Qed.

Lemma note_known_ids id x e st :
  let st' := note_known_ack_domain id x e st in
  gs_next_proposal_sequence st' = gs_next_proposal_sequence st /\
  gs_votes_by_key st' = gs_votes_by_key st /\ gs_voting_power st' = gs_voting_power st /\
  gs_governance_voters st' = gs_governance_voters st /\
  gs_protocol_version st' = gs_protocol_version st.
Proof.
  cbv zeta. unfold note_known_ack_domain. set (st1 := match _ with Some _ => _ | None => _ end).
  destruct (schedule_same_ids id e st1) as (E1 & E2 & E3 & E4 & E5). rewrite E1, E2, E3, E4, E5.
  unfold st1. destruct (_ !! id); [|done]. by case_decide.
Qed.

Lemma note_known_proposals id x e st id' :
  ActInv (mkGov st e) -> is_Some (gs_ack_records_by_key st !! (id, x)) ->
  match gs_proposals_by_id st !! id', gs_proposals_by_id (note_known_ack_domain id x e st) !! id' with
  | Some p, Some p' => maybe_scheduled p p'
  | None, None => True
  | _, _ => False
  end.
Proof.
  intros HA Hack. unfold note_known_ack_domain.
  destruct (gs_activation_records_by_id st !! id) as [r|] eqn:E.
  - case_decide; [by apply schedule_proposals, HA|].
    pose proof (note_known_base e st id x r HA Hack E) as [HC _].
    apply (schedule_proposals id e _ id' HC).
  - by apply schedule_proposals, HA.
Qed.

(** Writing an acknowledgement record. *)
Lemma ack_written st e id x ack :
  ActInv (mkGov st e) ->
  ActInv (mkGov (st {{ gs_ack_records_by_key ::= <[(id, x) := ack]> }}) e) /\
  is_Some (gs_ack_records_by_key (st {{ gs_ack_records_by_key ::= <[(id, x) := ack]> }}) !! (id, x)).
Proof.
  intros [[I1 I2 I3 I4] Hq]. split; [|simpl; rewrite lookup_insert_eq; by eexists].
  split; [split|]; simpl; try done.
  intros id' r y Hr Hy. destruct (decide ((id', y) = (id, x))) as [->|].
  - rewrite lookup_insert_eq. by eexists.
  - rewrite lookup_insert_ne by done. eauto.
Qed.

Lemma import_ack_act st e sys origin claim st' :
  ActInv (mkGov st e) -> IdInv st ->
  import_verified_governance_ack d e sys origin claim st = Ok st' ->
  ActInv (mkGov st' e) /\ IdInv st'.
Proof.
  intros HA HI Hop. apply import_ack_inv in Hop. cbv zeta in Hop.
  destruct Hop as (ack & p & _ & _ & _ & _ & _ & _ & _ & ->).
  set (id := gal_proposal_id _) in *. set (x := gal_acknowledging_domain _) in *.
  destruct (ack_written st e id x ack HA) as [HA1 Hack]. set (st1 := st {{ gs_ack_records_by_key ::= _ }}) in *.
  split; [eapply act_inv_ext; [|by apply (note_known_preserves e st1 id x)]; by unfold same_act|].
  destruct HI as [I1 I2]. destruct (note_known_ids id x e st1) as (E1 & _). cbv zeta in E1.
  split; simpl; rewrite E1; [done|].
  intros id' p' Hp'. pose proof (note_known_proposals id x e st1 id' HA1 Hack) as Hm. rewrite Hp' in Hm.
  simpl in Hm. destruct (gs_proposals_by_id st !! id') as [p0|] eqn:E; [|done].
  destruct Hm as [->|[_ ->]]; apply (I2 _ _ E).
Qed.

Lemma block_id_inv sys e st :
  sys_block_number sys <> 0 -> ActCore e st -> IdInv st -> IdInv (governance_on_initialize sys e st).
Proof.
  intros Hn HA [I1 I2]. destruct (on_initialize_spec sys e st Hn HA) as (st1 & rem & Hr & -> & _).
  destruct (act_rtc_frame _ _ _ _ Hr) as (_ & _ & _ & _ & _ & E & _). split; simpl; rewrite E; [done|].
  intros id p' Hp'. pose proof (act_rtc_proposals _ _ _ _ id Hr) as Hm. rewrite Hp' in Hm.
  destruct (gs_proposals_by_id st !! id) as [p|] eqn:E'; [|done].
  destruct Hm as [->|[_ ->]]; apply (I2 _ _ E').
Qed.

(** Proposal identifiers of distinct domains or sequence numbers are distinct. *)
Context (proposal_ids_distinct : forall d1 d2 s1 s2,
  0 <= s1 < u64_max -> 0 <= s2 < u64_max ->
  governance_proposal_id d1 s1 = governance_proposal_id d2 s2 -> d1 = d2 /\ s1 = s2).

Lemma fresh_proposal st :
  IdInv st -> gs_next_proposal_sequence st < u64_max ->
  gs_proposals_by_id st !! governance_proposal_id d (gs_next_proposal_sequence st) = None.
Proof.
  intros [I1 I2] Hlt. destruct (gs_proposals_by_id st !! _) as [p|] eqn:E; [|done].
  destruct (I2 _ _ E) as (s & Hs & Heq & Hd).
  apply proposal_ids_distinct in Heq as [E1 E2]; [|lia|lia]. rewrite <-E2 in Hd. specialize (Hd (eq_sym E1)). lia.
Qed.

Lemma create_act st e balance origin targets version st' :
  ActInv (mkGov st e) -> IdInv st -> gs_next_proposal_sequence st < u64_max ->
  create_proposal d e balance origin targets version st = Ok st' ->
  ActInv (mkGov st' e) /\ IdInv st'.
Proof.
  intros HA HI Hlt Hop.
  apply create_proposal_inv in Hop as (who & targets' & total & power & _ & _ & _ & _ & Hop).
  cbv zeta in Hop. destruct Hop as [_ ->]. set (id := governance_proposal_id d _).
  pose proof (fresh_proposal st HI Hlt) as Hf. fold id in Hf. split.
  - eapply (act_write_open e st _ id). 5: by unfold same_act. all: try done.
    + intros p0 Hp0. congruence.
    + by intros [|[]].
  - destruct HI as [I1 I2]. split; simpl.
    + rewrite sat_add_exact by lia. lia.
    + intros id' p'. rewrite (sat_add_exact _ (gs_next_proposal_sequence st)) by lia.
      rewrite lookup_insert_Some. intros [[<- <-]|[_ Hl]].
      * exists (gs_next_proposal_sequence st). simpl. split_and!; [lia|lia|done|lia].
      * destruct (I2 _ _ Hl) as (s & Hb & -> & Hd). exists s. split_and!; [lia|lia|done|]. intros Hsrc.
        specialize (Hd Hsrc). lia.
Qed.

Lemma gov_init_act c : gov_init c -> ActInv c /\ IdInv (g_st c).
Proof.
  intros [(version & importer & voters & Hst) He]. destruct c as [st e]. simpl in *. subst.
  split; [split; [split|]|split]; simpl; try (intros *; by rewrite lookup_empty).
  - intros id p Hp. simpl in Hp. by rewrite lookup_empty in Hp.
  - by vm_compute.
Qed.

Lemma gov_step_act c c' :
  gov_step c c' -> ActInv c -> IdInv (g_st c) -> ActInv c' /\ IdInv (g_st c').
Proof.
  intros Hs HA HI. destruct Hs; simpl in *.
  - by eapply create_act.
  - by eapply vote_act.
  - by eapply close_act.
  - by eapply import_act.
  - by eapply import_ack_act.
  - split; [by eapply on_initialize_inv|]. apply block_id_inv; [done| |done].
    eapply act_core_mono; [|apply (proj1 HA)]. simpl. lia.
Qed.

Lemma gov_reachable_act c : gov_reachable c -> ActInv c /\ IdInv (g_st c).
Proof.
  intros (c0 & Hinit & Hr). apply gov_init_act in Hinit.
  induction Hr as [|? ? ? Hs _ IH]; [done|]. apply IH. destruct Hinit. by eapply gov_step_act.
Qed.

(** *** Properties of activation *)

Lemma activated_acked c id p :
  gov_reachable c -> gs_proposals_by_id (g_st c) !! id = Some p -> gp_status p = Activated ->
  exists r ea, gs_activation_records_by_id (g_st c) !! id = Some r /\
    gac_activated_at_epoch r = Some ea /\ gp_activation_epoch p <= ea <= g_epoch c /\
    forall x, x ∈ gp_target_domains p -> is_Some (gs_ack_records_by_key (g_st c) !! (id, x)).
Proof.
  intros [[HI _] _]%gov_reachable_act Hp Hs.
  destruct (act_record _ _ HI _ _ Hp) as [r Hr]; [rewrite Hs; by do 2 right|].
  destruct (act_proposal _ _ HI _ _ Hr) as (p' & Hp' & (R1 & R2 & R3 & R4 & R5 & R6)). simplify_eq.
  destruct (R6 Hs) as (ea & Hea & Hle). exists r, ea. split_and!; [done|done|lia|lia|].
  intros x Hx. apply (act_known _ _ HI _ _ x Hr). apply R5; [congruence|]. by rewrite R3.
Qed.

(** C11: a proposal is activated only after every target domain's
    acknowledgement has been recorded on this chain, and not before its
    activation epoch. *)
Theorem activation_requires_acks c id p :
  gov_reachable c -> gs_proposals_by_id (g_st c) !! id = Some p -> gp_status p = Activated ->
  exists r ea, gs_activation_records_by_id (g_st c) !! id = Some r /\
    gac_activated_at_epoch r = Some ea /\ gp_activation_epoch p <= ea <= g_epoch c /\
    forall x, x ∈ gp_target_domains p -> is_Some (gs_ack_records_by_key (g_st c) !! (id, x)).
Proof. exact (activated_acked c id p). Qed.

(** C22: activation is never missed: whatever has been scheduled, the first block
    that runs in or after the activation epoch activates it. *)
Theorem scheduled_activates_on_time st e sys e' id p :
  gov_reachable (mkGov st e) -> (e' = e \/ e' = e + 1) -> sys_block_number sys <> 0 ->
  gs_proposals_by_id st !! id = Some p -> gp_status p = Scheduled -> gp_activation_epoch p <= e' ->
  exists p', gs_proposals_by_id (governance_on_initialize sys e' st) !! id = Some p' /\
    gp_status p' = Activated.
Proof.
  intros [[HI Hq] _]%gov_reachable_act He Hn Hp Hs Hle. simpl in *.
  apply (act_core_mono _ e') in HI; [|lia].
  destruct (on_initialize_spec sys e' st Hn HI) as (st1 & rem & Hr & -> & Hnd). simpl.
  pose proof (act_rtc_proposals _ _ _ _ id Hr) as Hm. rewrite Hp in Hm.
  destruct (gs_proposals_by_id st1 !! id) as [p'|] eqn:E; [|done]. exists p'. split; [done|].
  destruct Hm as [->|[_ ->]]; [|done]. exfalso. apply (Hnd id); [|by exists p].
  specialize (Hq id p Hp Hs). destruct (decide (gp_activation_epoch p <= e)); [by right|left].
  by replace e' with (gp_activation_epoch p) by lia.
Qed.

Definition gov_rank (s : GovernanceProposalStatus) : Z :=
  match s with
  | Created => 0 | Voting => 1 | LocallyFinalized => 2 | Scheduled => 3 | Activated => 4 | Rejected => 5
  end.

(** The terms of a proposal, which no step changes. *)
Definition same_terms (p p' : GovernanceProposal) : Prop :=
  gp_proposal_id p' = gp_proposal_id p /\ gp_source_domain p' = gp_source_domain p /\
  gp_target_domains p' = gp_target_domains p /\ gp_payload p' = gp_payload p /\
  gp_payload_hash p' = gp_payload_hash p /\ gp_voting_end_epoch p' = gp_voting_end_epoch p /\
  gp_snapshot_total_voting_power p' = gp_snapshot_total_voting_power p /\
  (gp_status p <> Voting -> gp_activation_epoch p' = gp_activation_epoch p).

(** A proposal and a later version of it. *)
Definition forward (p p' : GovernanceProposal) : Prop :=
  same_terms p p' /\ gov_rank (gp_status p) <= gov_rank (gp_status p') /\
  (gp_status p = Activated -> gp_status p' = Activated) /\
  (finalized_status (gp_status p) -> finalized_status (gp_status p')).

Lemma forward_refl p : forward p p.
Proof. split_and!; [by unfold same_terms|lia|done|done]. Qed.

Lemma scheduled_forward p (o : option GovernanceProposal) :
  match o with Some p' => maybe_scheduled p p' | None => False end ->
  exists p', o = Some p' /\ forward p p'.
Proof.
  destruct o as [p'|]; [|done]. intros [->|[Hs ->]]; eexists; (split; [done|]); [apply forward_refl|].
  unfold forward. simpl. rewrite Hs. unfold finalized_status. split_and!; [by unfold same_terms|simpl; lia|done|tauto].
Qed.

Lemma activated_forward p (o : option GovernanceProposal) :
  match o with Some p' => maybe_activated p p' | None => False end ->
  exists p', o = Some p' /\ forward p p'.
Proof.
  destruct o as [p'|]; [|done]. intros [->|[Hs ->]]; eexists; (split; [done|]); [apply forward_refl|].
  unfold forward. simpl. rewrite Hs. unfold finalized_status. split_and!; [by unfold same_terms|simpl; lia|done|tauto].
Qed.

Lemma vote_forward choice power p : gp_status p = Voting -> forward p (tally_vote choice power p).
Proof.
  intros Hs. unfold forward. destruct choice; simpl; (split_and!; [by unfold same_terms|lia|done|done]).
Qed.

Lemma close_forward e p : gp_status p = Voting -> forward p (rejected p) /\ forward p (accepted e p).
Proof.
  intros Hs. unfold forward. simpl. rewrite Hs.
  split; (split_and!; [unfold same_terms; by rewrite Hs|simpl; lia|done|by intros [|[]]]).
Qed.

Lemma gov_step_forward c c' id p :
  ActInv c -> IdInv (g_st c) -> gov_step c c' -> gs_proposals_by_id (g_st c) !! id = Some p ->
  exists p', gs_proposals_by_id (g_st c') !! id = Some p' /\ forward p p'.
Proof.
  intros HA HI Hstep Hp.
  assert (exists p', gs_proposals_by_id (g_st c) !! id = Some p' /\ forward p p') as Hsame.
  { exists p. split; [done|apply forward_refl]. }
  destruct Hstep as [st e balance origin targets version st' Hlt Hb Hsum Hop
    |st e sys origin id' choice st' Hop|st e origin id' st' Hop|st e sys origin claim st' seq Hseq Hid Hop
    |st e sys origin claim st' Hop|st e sys e' He Hmax Hn]; simpl in *.
  - apply create_proposal_inv in Hop as (who & targets' & total & power & _ & _ & _ & _ & _ & ->). simpl.
    rewrite lookup_insert_ne; [done|]. intros <-. by rewrite fresh_proposal in Hp.
  - apply cast_vote_inv in Hop as (who & p0 & power & vote & -> & _ & Hp0 & Hs & _). simpl.
    destruct (decide (id = id')) as [->|]; [|by rewrite lookup_insert_ne]. rewrite lookup_insert_eq.
    simplify_eq. eexists. split; [done|]. by apply vote_forward.
  - apply close_proposal_inv in Hop as (p0 & Hp0 & Hs & _ & Hcase).
    destruct (close_forward e p0 Hs) as [Hrej Hacc]. destruct (decide (id = id')) as [->|Hne].
    + simplify_eq. destruct (_ && _); subst st'; simpl; rewrite lookup_insert_eq; by eexists.
    + destruct (_ && _); subst st'; simpl; rewrite lookup_insert_ne by done; [|done].
      by destruct (insert_outbound_same (accepted e p0) e
        (store_activation_record (accepted e p0) [] None st)) as (-> & _).
  - pose proof Hop as Hop'. apply import_proposal_inv in Hop'. cbv zeta in Hop'.
    destruct Hop' as (_ & Hsrc & Hnone & _ & _ & ->). set (leaf := igp_leaf claim) in *.
    destruct (import_base_inv st e sys leaf seq HA HI Hseq Hid Hsrc Hnone) as [HB _].
    destruct (import_base_spec e sys leaf st) as (_ & _ & _ & _ & _ & (Hb & _)).
    pose proof (schedule_proposals (gpl_proposal_id leaf) e _ id (proj1 HB)) as Hm.
    cbn [g_st] in Hm. rewrite Hb in Hm. simpl in Hm. rewrite lookup_insert_ne, Hp in Hm by congruence.
    by apply scheduled_forward.
  - pose proof Hop as Hop'. apply import_ack_inv in Hop'. cbv zeta in Hop'.
    destruct Hop' as (ack & p0 & _ & _ & _ & _ & _ & _ & _ & ->).
    destruct (ack_written st e (gal_proposal_id (iga_leaf claim)) (gal_acknowledging_domain (iga_leaf claim)) ack HA)
      as [HB Hack].
    pose proof (note_known_proposals _ _ e _ id HB Hack) as Hm. simpl in Hm. rewrite Hp in Hm.
    by apply scheduled_forward.
  - pose proof (act_core_mono e e' st ltac:(lia) (proj1 HA)) as HC.
    destruct (on_initialize_spec sys e' st Hn HC) as (st1 & rem & Hr & -> & _). simpl.
    pose proof (act_rtc_proposals _ _ _ _ id Hr) as Hm. rewrite Hp in Hm. by apply activated_forward.
Qed.

(** C23: proposals only move forward: no step deletes a proposal or changes its
    terms (the activation epoch is fixed once voting has ended), and its status
    never goes back: a rejected or an activated proposal stays as it is, and an
    approved one is never rejected. *)
Theorem proposal_lifecycle c c' id p :
  gov_reachable c -> gov_step c c' -> gs_proposals_by_id (g_st c) !! id = Some p ->
  exists p', gs_proposals_by_id (g_st c') !! id = Some p' /\ forward p p'.
Proof.
  intros [HA HI]%gov_reachable_act. by apply gov_step_forward.
Qed.

(** The protocol version after a run of activations. *)
Lemma act_rtc_version e h st st' :
  rtc (act_step e h) st st' ->
  gs_protocol_version st' = gs_protocol_version st \/
  exists id p, gs_proposals_by_id st !! id = Some p /\ gp_status p = Scheduled /\
    gs_proposals_by_id st' !! id = Some (activated_proposal p) /\
    gs_protocol_version st' = protocol_version (gp_payload p).
Proof.
  revert st'. apply rtc_ind_r; [by left|].
  intros st1 st2 Hr Hs _. destruct Hs as (id & p & r & (Hp & _ & Hsch & _) & (Hp' & _ & Hv & _)). right.
  pose proof (act_rtc_proposals _ _ _ _ id Hr) as Hm. rewrite Hp in Hm.
  destruct (gs_proposals_by_id st !! id) as [p0|] eqn:E; [|done].
  destruct Hm as [->|[_ ->]]; [|done]. exists id, p0. rewrite Hp', lookup_insert_eq. done.
Qed.

(** The protocol version changes by activation only: when a step changes it,
    that step moved a scheduled proposal to [Activated], and the new version is
    the one the proposal names. *)
Theorem version_changes_by_activation c c' :
  gov_reachable c -> gov_step c c' ->
  gs_protocol_version (g_st c') <> gs_protocol_version (g_st c) ->
  exists id p, gs_proposals_by_id (g_st c) !! id = Some p /\ gp_status p = Scheduled /\
    gs_proposals_by_id (g_st c') !! id = Some (activated_proposal p) /\
    gs_protocol_version (g_st c') = protocol_version (gp_payload p).
Proof.
  intros [HA HI]%gov_reachable_act Hstep Hne.
  destruct Hstep as [st e balance origin targets version st' Hlt Hb Hsum Hop
    |st e sys origin id choice st' Hop|st e origin id st' Hop|st e sys origin claim st' seq Hseq Hid Hop
    |st e sys origin claim st' Hop|st e sys e' He Hmax Hn]; simpl in *.
  - by apply create_proposal_inv in Hop as (? & ? & ? & ? & _ & _ & _ & _ & _ & ->).
  - by apply cast_vote_inv in Hop as (? & ? & ? & ? & -> & _).
  - apply close_proposal_inv in Hop as (p & _ & _ & _ & Hcase). exfalso. apply Hne.
    destruct (_ && _); subst st'; [|done]. simpl.
    by destruct (insert_outbound_same_votes (accepted e p) e
      (store_activation_record (accepted e p) [] None st)) as (_ & _ & _ & _ & _ & ->).
  - apply import_proposal_inv in Hop. cbv zeta in Hop. destruct Hop as (_ & _ & _ & _ & _ & ->).
    exfalso. apply Hne. simpl. set (leaf := igp_leaf claim).
    destruct (schedule_same_ids (gpl_proposal_id leaf) e (import_base d e sys leaf st)) as (_ & _ & _ & _ & ->).
    by destruct (import_base_spec e sys leaf st) as (_ & _ & _ & _ & _ & (_ & _ & _ & _ & _ & ->)).
  - apply import_ack_inv in Hop. cbv zeta in Hop. destruct Hop as (ack & p & _ & _ & _ & _ & _ & _ & _ & ->).
    exfalso. apply Hne. etrans; [exact (proj2 (proj2 (proj2 (proj2 (note_known_ids _ _ _ _)))))|done].
  - pose proof (act_core_mono e e' st ltac:(lia) (proj1 HA)) as HC.
    destruct (on_initialize_spec sys e' st Hn HC) as (st1 & rem & Hr & E & _).
    rewrite E in Hne |- *. simpl in *. by destruct (act_rtc_version _ _ _ _ Hr) as [?|?].
Qed.
End Machine.
