(* ===== verification/VotingProofs.v ===== *)
(** * Voting in the governance pallet

    The tallies of a proposal are the sums of the recorded votes, no vote is
    lost or counted twice, nothing saturates, and [close_proposal] decides by
    the votes alone.  The transition system is that of [GovernanceProofs]. *)

From S2P Require Import Prelude Types Codec Reference Merkle Frame Governance GovernanceProofs.

(** ** Sums of votes and voting power *)

Section Sums.
Context `{!Codec, !Account}.

Definition weight_of (id : hash) (c : GovernanceVoteChoice) (k : hash * hash) (v : GovernanceVote) : Z :=
  if decide (k.1 = id /\ gv_choice v = c) then gv_voting_power v else 0.
Definition vote_of (id : hash) (k : hash * hash) (v : GovernanceVote) : Z :=
  if decide (k.1 = id) then gv_voting_power v else 0.
Definition power_of (id : hash) (k : hash * hash) (w : Z) : Z := if decide (k.1 = id) then w else 0.

(** The votes cast for a choice, all votes cast, and all voting power. *)
Definition votes_for (st : GovernanceState) (id : hash) (c : GovernanceVoteChoice) : Z :=
  entry_sum (weight_of id c) (gs_votes_by_key st).
Definition turnout (st : GovernanceState) (id : hash) : Z := entry_sum (vote_of id) (gs_votes_by_key st).
Definition total_power (st : GovernanceState) (id : hash) : Z :=
  entry_sum (power_of id) (gs_voting_power st).

Definition tally_of (p : GovernanceProposal) (c : GovernanceVoteChoice) : Z :=
  match c with
  | Yes => gp_yes_voting_power p
  | No => gp_no_voting_power p
  | Abstain => gp_abstain_voting_power p
  end.

Lemma turnout_split st id :
  turnout st id = votes_for st id Yes + votes_for st id No + votes_for st id Abstain.
Proof.
  unfold turnout, votes_for. rewrite <-!entry_sum_add. apply entry_sum_ext. intros k v _.
  unfold vote_of, weight_of. destruct (gv_choice v); repeat case_decide; naive_solver lia.
Qed.

(** The part of a proposal that voting reads and writes. *)
Definition ballot (p : GovernanceProposal) : Z * Z * Z * Z * Z * Z :=
  (gp_yes_voting_power p, gp_no_voting_power p, gp_abstain_voting_power p,
   gp_snapshot_total_voting_power p, gp_quorum_numerator p, gp_quorum_denominator p).

Record VotesInv (st : GovernanceState) : Prop := {
  vi_voters : NoDup (gs_governance_voters st);
  vi_tally : forall id p c, gs_proposals_by_id st !! id = Some p -> tally_of p c = votes_for st id c;
  vi_snapshot : forall id p, gs_proposals_by_id st !! id = Some p ->
    gp_snapshot_total_voting_power p = total_power st id /\ total_power st id < u128_max;
  vi_quorum : forall id p, gs_proposals_by_id st !! id = Some p ->
    gp_quorum_numerator p = 1 /\ gp_quorum_denominator p = 2;
  vi_vote : forall k v, gs_votes_by_key st !! k = Some v ->
    gs_voting_power st !! k = Some (gv_voting_power v);
  vi_power : forall k w, gs_voting_power st !! k = Some w ->
    0 <= w /\ is_Some (gs_proposals_by_id st !! k.1)
}.

Lemma votes_nonneg st k v : VotesInv st -> gs_votes_by_key st !! k = Some v -> 0 <= gv_voting_power v.
Proof. intros HI Hv. by apply (vi_power _ HI k), (vi_vote _ HI). Qed.

Lemma votes_for_nonneg st id c : VotesInv st -> 0 <= votes_for st id c.
Proof.
  intros HI. apply entry_sum_nonneg. intros k v Hv. unfold weight_of. case_decide; [|lia].
  by eapply votes_nonneg.
Qed.

(** Nobody votes with more power than the snapshot has. *)
Lemma turnout_le_power st id : VotesInv st -> turnout st id <= total_power st id.
Proof.
  intros HI. apply entry_sum_dominated.
  - intros k w Hw. unfold power_of. case_decide; [|lia]. by apply (vi_power _ HI k).
  - intros k v Hv. exists (gv_voting_power v). split; [by apply (vi_vote _ HI)|].
    unfold vote_of, power_of. by case_decide.
Qed.

(** The arithmetic of [close_proposal] does not saturate. *)
Lemma recorded_exact st id p :
  VotesInv st -> gs_proposals_by_id st !! id = Some p -> recorded_voting_power p = turnout st id.
Proof.
  intros HI Hp. destruct (vi_snapshot _ HI _ _ Hp) as [_ Hmax]. pose proof (turnout_le_power _ id HI) as Hle.
  rewrite turnout_split in *. pose proof (vi_tally _ HI _ _ Yes Hp) as Ty.
  pose proof (vi_tally _ HI _ _ No Hp) as Tn. pose proof (vi_tally _ HI _ _ Abstain Hp) as Ta.
  pose proof (votes_for_nonneg st id Abstain HI). simpl in *. unfold recorded_voting_power.
  rewrite Ty, Tn, Ta. rewrite !sat_add_exact; [done|lia|]. rewrite sat_add_exact; lia.
Qed.

Lemma decision_exact st id p :
  VotesInv st -> gs_proposals_by_id st !! id = Some p ->
  (quorum_met p = true <-> total_power st id <= 2 * turnout st id) /\
  (approved p = true <-> turnout st id < 2 * votes_for st id Yes).
Proof.
  intros HI Hp. destruct (vi_snapshot _ HI _ _ Hp) as [Hs Hmax]. pose proof (turnout_le_power _ id HI) as Hle.
  destruct (vi_quorum _ HI _ _ Hp) as [Hn Hd]. pose proof (vi_tally _ HI _ _ Yes Hp) as Ty. simpl in Ty.
  unfold quorum_met, approved, sat_mul. rewrite Hn, Hd, Hs, Ty, (recorded_exact st id p HI Hp).
  rewrite Z.leb_le, Z.ltb_lt. lia.
Qed.

(** An identifier without a proposal has no voting power and no votes. *)
Lemma unused_power st id :
  VotesInv st -> gs_proposals_by_id st !! id = None ->
  total_power st id = 0 /\ forall c, votes_for st id c = 0.
Proof.
  intros HI Hn.
  assert (forall k w, gs_voting_power st !! k = Some w -> k.1 <> id) as Hk.
  { intros k w Hw <-. destruct (vi_power _ HI _ _ Hw) as [_ [p Hp]]. congruence. }
  split.
  - unfold total_power. apply entry_sum_zero. intros k w Hw. unfold power_of. by rewrite decide_False by eauto.
  - intros c. unfold votes_for. apply entry_sum_zero. intros k v Hv. unfold weight_of.
    rewrite decide_False; [done|]. intros [E _]. by eapply Hk; [apply (vi_vote _ HI), Hv|].
Qed.

(** Steps that change neither votes nor voting power. *)
Lemma votes_frame st st' :
  VotesInv st ->
  gs_votes_by_key st' = gs_votes_by_key st -> gs_voting_power st' = gs_voting_power st ->
  gs_governance_voters st' = gs_governance_voters st ->
  (forall id, is_Some (gs_proposals_by_id st !! id) -> is_Some (gs_proposals_by_id st' !! id)) ->
  (forall id p', gs_proposals_by_id st' !! id = Some p' ->
     (exists p, gs_proposals_by_id st !! id = Some p /\ ballot p' = ballot p) \/
     gs_proposals_by_id st !! id = None /\ ballot p' = (0, 0, 0, 0, 1, 2)) ->
  VotesInv st'.
Proof.
  intros HI Hv Hw Hvo Hdom Hp.
  assert (forall id c, votes_for st' id c = votes_for st id c) as Ev by (intros; unfold votes_for; congruence).
  assert (forall id, total_power st' id = total_power st id) as Ew by (intros; unfold total_power; congruence).
  split; rewrite ?Hv, ?Hw, ?Hvo; try apply HI.
  - intros id p' c Hp'. rewrite Ev. destruct (Hp id p' Hp') as [(p & Hl & E)|[Hn E]]; injection E as ? ? ? ? ? ?.
    + rewrite <-(vi_tally _ HI id p c Hl). destruct c; simpl; congruence.
    + destruct (unused_power st id HI Hn) as [_ Hz]. rewrite (Hz c). by destruct c.
  - intros id p' Hp'. rewrite Ew.
    destruct (Hp id p' Hp') as [(p & Hl & E)|[Hn E]]; injection E as ? ? ? E ? ?; rewrite E.
    + by apply (vi_snapshot _ HI).
    + destruct (unused_power st id HI Hn) as [Hz _]. rewrite Hz. by vm_compute.
  - intros id p' Hp'. destruct (Hp id p' Hp') as [(p & Hl & E)|[Hn E]]; injection E as ? ? ? ? E1 E2; rewrite E1, E2.
    + by apply (vi_quorum _ HI id).
    + done.
  - intros k w Hk. destruct (vi_power _ HI k w Hk). eauto.
Qed.

(** ** The voter loop *)

Lemma snapshot_voters_spec `{!AccountOk} id balance voters :
  NoDup voters -> (forall a, 0 <= balance a) ->
  forall total power,
  (forall a, a ∈ voters -> power !! (id, account_to_bytes a) = None) ->
  0 <= total -> total + foldr Z.add 0 (map balance voters) < u128_max ->
  exists power',
    snapshot_voters id balance voters total power = (total + foldr Z.add 0 (map balance voters), power') /\
    (forall id', entry_sum (power_of id') power'
       = entry_sum (power_of id') power + if decide (id' = id) then foldr Z.add 0 (map balance voters) else 0) /\
    (forall k w, power' !! k = Some w -> power !! k = Some w \/ k.1 = id /\ 0 <= w) /\
    (forall k w, power !! k = Some w -> power' !! k = Some w).
Proof.
  intros Hnd Hb. induction Hnd as [|a voters Ha Hnd IH]; intros total power Hfresh Ht Hsum; simpl in *.
  { exists power. split_and!; [by rewrite Z.add_0_r| |by left|done]. intros id'. case_decide; lia. }
  assert (0 <= foldr Z.add 0 (map balance voters)) as Hpos.
  { clear -Hb. induction voters as [|v vs IHv]; simpl; [lia|]. specialize (Hb v). lia. }
  pose proof (Hb a) as Hba. rewrite sat_add_exact by lia.
  assert (power !! (id, account_to_bytes a) = None) as Hnone by (apply Hfresh; set_solver).
  destruct (IH (total + balance a) (<[(id, account_to_bytes a) := balance a]> power))
    as (power' & Hop & Hs & Hnew & Hold); [|lia|lia|].
  { intros b Hin. rewrite lookup_insert_ne; [apply Hfresh; set_solver|].
    intros [= E]. apply (inj account_to_bytes) in E. by subst. }
  exists power'. rewrite Hop. split_and!.
  - f_equal. lia.
  - intros id'. rewrite Hs, entry_sum_insert_new by done. unfold power_of at 1. simpl.
    repeat case_decide; (congruence || lia).
  - intros k w Hk. destruct (Hnew k w Hk) as [Hi|?]; [|by right]. rewrite lookup_insert_Some in Hi.
    destruct Hi as [[<- <-]|[_ ?]]; [by right|by left].
  - intros k w Hk. apply Hold. rewrite lookup_insert_ne; [done|]. congruence.
Qed.
End Sums.

Section Machine.
Context `{!Codec, !Account, !AccountOk}.
Context (d : DomainId).
Context (proposal_ids_distinct : forall d1 d2 s1 s2,
  0 <= s1 < u64_max -> 0 <= s2 < u64_max ->
  governance_proposal_id d1 s1 = governance_proposal_id d2 s2 -> d1 = d2 /\ s1 = s2).

Lemma init_votes c : gov_init c -> VotesInv (g_st c).
Proof.
  intros [(version & importer & voters & ->) _].
  split; simpl; try (intros *; by rewrite lookup_empty).
  apply (sort_dedup_nodup account_cmp), account_cmp_eq.
Qed.

Lemma create_votes st e balance origin targets version st' :
  IdInv d st -> gs_next_proposal_sequence st < u64_max -> (forall a, 0 <= balance a) ->
  foldr Z.add 0 (map balance (gs_governance_voters st)) < u128_max ->
  VotesInv st -> create_proposal d e balance origin targets version st = Ok st' -> VotesInv st'.
Proof.
  intros Hid Hlt Hb Hsum HI Hop.
  apply create_proposal_inv in Hop as (who & targets' & total & power & _ & _ & _ & _ & Hop).
  cbv zeta in Hop. destruct Hop as [Hsnap ->]. pose proof (fresh_proposal d proposal_ids_distinct st Hid Hlt) as Hf.
  set (id := governance_proposal_id d _) in *. destruct (unused_power st id HI Hf) as [Hz Hvz].
  destruct (snapshot_voters_spec id balance _ (vi_voters _ HI) Hb 0 (gs_voting_power st))
    as (power' & Hop & Hs & Hnew & Hold); [|lia|lia|].
  { intros a _. apply eq_None_not_Some. intros [w Hw]. destruct (vi_power _ HI _ _ Hw) as [_ [p Hp]].
    simpl in Hp. congruence. }
  rewrite Hop in Hsnap. simplify_eq. rewrite Z.add_0_l. split; simpl.
  - apply HI.
  - intros id' p c. rewrite lookup_insert_Some. intros [[<- <-]|[_ Hl]]; [|by apply (vi_tally _ HI)].
    etrans; [|symmetry; apply (Hvz c)]. by destruct c.
  - intros id' p. unfold total_power in *. simpl. rewrite Hs, lookup_insert_Some. intros [[<- <-]|[Hne Hl]].
    + rewrite Hz, decide_True by done. simpl. lia.
    + rewrite decide_False, Z.add_0_r by done. by apply (vi_snapshot _ HI).
  - intros id' p. rewrite lookup_insert_Some. intros [[<- <-]|[_ Hl]]; [done|by eapply (vi_quorum _ HI)].
  - intros k v Hv. by apply Hold, (vi_vote _ HI).
  - intros k w Hk. destruct (decide (k.1 = id)) as [E|Hne].
    + rewrite E, lookup_insert_eq. split; [|by eexists].
      destruct (Hnew _ _ Hk) as [Ho|[_ ?]]; [by apply (vi_power _ HI k)|done].
    + rewrite lookup_insert_ne by done. apply (vi_power _ HI). destruct (Hnew _ _ Hk) as [?|[? _]]; done.
Qed.

Lemma tally_vote_ballot choice power p c :
  tally_of (tally_vote choice power p) c
  = (if decide (c = choice) then sat_add u128_max (tally_of p c) power else tally_of p c) /\
  gp_snapshot_total_voting_power (tally_vote choice power p) = gp_snapshot_total_voting_power p /\
  gp_quorum_numerator (tally_vote choice power p) = gp_quorum_numerator p /\
  gp_quorum_denominator (tally_vote choice power p) = gp_quorum_denominator p.
Proof. by destruct choice, c. Qed.

Lemma vote_votes st e sys origin id choice st' :
  VotesInv st -> cast_vote e sys origin id choice st = Ok st' -> VotesInv st'.
Proof.
  intros HI (who & p & power & vote & -> & _ & Hp & _ & _ & Hnew & Hpow & Hpos & Hvid & Hvc & Hvp)%cast_vote_inv.
  set (key := (id, account_to_bytes who)) in *.
  set (st1 := deposit_governance_event _ _).
  assert (forall id' c, votes_for st1 id' c
    = votes_for st id' c + if decide (id' = id /\ c = choice) then power else 0) as Hv.
  { intros id' c. unfold votes_for. simpl. rewrite entry_sum_insert_new by done. unfold weight_of at 1. simpl.
    rewrite Hvc, Hvp. repeat case_decide; (naive_solver || lia). }
  assert (turnout st1 id = turnout st id + power) as Ht.
  { unfold turnout. simpl. rewrite entry_sum_insert_new by done. unfold vote_of at 1. simpl.
    rewrite decide_True by done. lia. }
  assert (turnout st1 id <= total_power st id) as Hle.
  { apply entry_sum_dominated.
    - intros k w Hw. unfold power_of. case_decide; [|lia]. by apply (vi_power _ HI k).
    - intros k v. simpl. rewrite lookup_insert_Some. intros [[<- <-]|[_ Hk]].
      + exists power. split; [done|]. unfold vote_of, power_of. rewrite Hvp. by case_decide.
      + exists (gv_voting_power v). split; [by apply (vi_vote _ HI)|]. unfold vote_of, power_of. by case_decide. }
  destruct (vi_snapshot _ HI _ _ Hp) as [Hsn Hmax].
  split; simpl.
  - apply HI.
  - intros id' p' c. rewrite lookup_insert_Some. rewrite Hv. intros [[<- <-]|[Hne Hl]].
    + destruct (tally_vote_ballot choice power p c) as [-> _]. rewrite (vi_tally _ HI _ _ c Hp).
      rewrite (decide_ext (id = id /\ c = choice) (c = choice)) by naive_solver.
      case_decide; [|lia]. apply sat_add_exact.
      pose proof (votes_for_nonneg st id c HI).
      enough (votes_for st id c <= turnout st id) by lia. rewrite turnout_split.
      pose proof (votes_for_nonneg st id Yes HI). pose proof (votes_for_nonneg st id No HI).
      pose proof (votes_for_nonneg st id Abstain HI). destruct c; lia.
    + rewrite decide_False by naive_solver. rewrite (vi_tally _ HI _ _ c Hl). lia.
  - intros id' p'. rewrite lookup_insert_Some. change (total_power st1 id') with (total_power st id').
    intros [[<- <-]|[Hne Hl]]; [|by apply (vi_snapshot _ HI)].
    destruct (tally_vote_ballot choice power p Yes) as (_ & -> & _). done.
  - intros id' p'. rewrite lookup_insert_Some. intros [[<- <-]|[Hne Hl]]; [|by eapply (vi_quorum _ HI)].
    destruct (tally_vote_ballot choice power p Yes) as (_ & _ & -> & ->). by eapply (vi_quorum _ HI).
  - intros k v. rewrite lookup_insert_Some. intros [[<- <-]|[_ Hk]]; [by rewrite Hvp|by apply (vi_vote _ HI)].
  - intros k w Hk. destruct (vi_power _ HI k w Hk) as [? Hs]. split; [done|].
    destruct (decide (k.1 = id)) as [->|]; [rewrite lookup_insert_eq; by eexists|by rewrite lookup_insert_ne].
Qed.

(** Steps that only move the status of proposals. *)
Lemma votes_frame_status st st' :
  VotesInv st ->
  gs_votes_by_key st' = gs_votes_by_key st -> gs_voting_power st' = gs_voting_power st ->
  gs_governance_voters st' = gs_governance_voters st ->
  (forall id, match gs_proposals_by_id st !! id, gs_proposals_by_id st' !! id with
              | Some p, Some p' => ballot p' = ballot p
              | None, None => True
              | _, _ => False
              end) ->
  VotesInv st'.
Proof.
  intros HI Hv Hw Hvo Hm. apply (votes_frame st); try done.
  - intros id [p Hp]. specialize (Hm id). rewrite Hp in Hm.
    destruct (gs_proposals_by_id st' !! id); [by eexists|done].
  - intros id p' Hp'. specialize (Hm id). rewrite Hp' in Hm.
    destruct (gs_proposals_by_id st !! id) as [p|]; [left; by exists p|done].
Qed.

Lemma scheduled_ballot st id e :
  ActCore e st -> VotesInv st -> VotesInv (maybe_schedule_activation id e st).
Proof.
  intros HA HI. destruct (schedule_same_ids id e st) as (_ & E2 & E3 & E4 & _).
  apply (votes_frame_status st); [done..|]. intros id'.
  pose proof (schedule_proposals id e st id' HA) as Hm. repeat case_match; try done.
  by destruct Hm as [->|[_ ->]].
Qed.

Lemma close_votes st e origin id st' :
  VotesInv st -> close_proposal e origin id st = Ok st' -> VotesInv st'.
Proof.
  intros HI (p & Hp & _ & _ & Hcase)%close_proposal_inv.
  assert (exists p', ballot p' = ballot p /\ gs_proposals_by_id st' = <[id := p']> (gs_proposals_by_id st) /\
    gs_votes_by_key st' = gs_votes_by_key st /\ gs_voting_power st' = gs_voting_power st /\
    gs_governance_voters st' = gs_governance_voters st) as (p' & Hb & Hp' & E1 & E2 & E3).
  { destruct (_ && _); subst st'.
    - exists (accepted e p).
      destruct (insert_outbound_same_votes (accepted e p) e (store_activation_record (accepted e p) [] None st))
        as (A1 & A2 & A3 & _ & A5 & _). simpl. rewrite A1, A2, A3, A5. done.
    - by exists (rejected p). }
  apply (votes_frame_status st); [done..|]. intros id'. rewrite Hp'. destruct (decide (id' = id)) as [->|].
  - by rewrite Hp, lookup_insert_eq.
  - rewrite lookup_insert_ne by done. by destruct (_ !! id').
Qed.

Lemma import_votes st e sys origin claim seq st' :
  ActInv (mkGov st e) -> IdInv d st -> 0 <= seq < u64_max ->
  gpl_proposal_id (igp_leaf claim) = governance_proposal_id (gpl_source_domain (igp_leaf claim)) seq ->
  VotesInv st -> import_verified_governance_proposal d e sys origin claim st = Ok st' -> VotesInv st'.
Proof.
  intros HA Hid Hseq Hassigned HI Hop. apply import_proposal_inv in Hop. cbv zeta in Hop.
  destruct Hop as (_ & Hsrc & Hnone & _ & _ & ->). set (leaf := igp_leaf claim) in *.
  destruct (import_base_inv d st e sys leaf seq HA Hid Hseq Hassigned Hsrc Hnone) as [HA1 _].
  destruct (import_base_spec d e sys leaf st) as (_ & _ & _ & _ & _ & (B1 & B2 & B3 & _ & B5 & _)).
  assert (VotesInv (import_base d e sys leaf st)) as HV.
  { apply (votes_frame st); [done..| |]; rewrite B1; simpl.
    - intros id Hs. destruct (decide (id = gpl_proposal_id leaf)) as [->|].
      + rewrite lookup_insert_eq. by eexists.
      + by rewrite lookup_insert_ne.
    - intros id p'. rewrite lookup_insert_Some. intros [[<- <-]|[_ Hp]]; [by right|left; by exists p']. }
  apply (scheduled_ballot _ (gpl_proposal_id leaf) e (proj1 HA1)) in HV. by destruct HV.
Qed.

Lemma import_ack_votes st e sys origin claim st' :
  ActInv (mkGov st e) -> VotesInv st ->
  import_verified_governance_ack d e sys origin claim st = Ok st' -> VotesInv st'.
Proof.
  intros HA HI Hop. apply import_ack_inv in Hop. cbv zeta in Hop.
  destruct Hop as (ack & p & _ & _ & _ & _ & _ & _ & _ & ->).
  set (id := gal_proposal_id _) in *. set (x := gal_acknowledging_domain _) in *.
  destruct (ack_written st e id x ack HA) as [HA1 Hack]. set (st1 := st {{ gs_ack_records_by_key ::= _ }}) in *.
  destruct (note_known_ids id x e st1) as (_ & E2 & E3 & E4 & _).
  apply (votes_frame_status st); [done..|]. intros id'.
  pose proof (note_known_proposals id x e st1 id' HA1 Hack) as Hm. simpl in Hm |- *.
  repeat case_match; try done. by destruct Hm as [->|[_ ->]].
Qed.

Lemma block_votes st e sys :
  sys_block_number sys <> 0 -> ActCore e st -> VotesInv st -> VotesInv (governance_on_initialize sys e st).
Proof.
  intros Hn HA HI. destruct (on_initialize_spec sys e st Hn HA) as (st1 & rem & Hr & -> & _).
  destruct (act_rtc_frame _ _ _ _ Hr) as (_ & _ & _ & E1 & E2 & _ & E3 & _).
  apply (votes_frame_status st); [done..|]. intros id. simpl.
  pose proof (act_rtc_proposals _ _ _ _ id Hr) as Hm. repeat case_match; try done.
  by destruct Hm as [->|[_ ->]].
Qed.

Lemma gov_step_votes c c' :
  gov_step d c c' -> ActInv c -> IdInv d (g_st c) -> VotesInv (g_st c) -> VotesInv (g_st c').
Proof.
  intros Hs HA Hid HI. destruct Hs; simpl in *.
  - by eapply create_votes.
  - by eapply vote_votes.
  - by eapply close_votes.
  - by eapply import_votes.
  - by eapply import_ack_votes.
  - apply block_votes; [done| |done]. eapply act_core_mono; [|apply (proj1 HA)]. simpl. lia.
Qed.

Lemma gov_reachable_ind (P : GovConf -> Prop) :
  (forall c, gov_init c -> P c) ->
  (forall c c', gov_reachable d c -> gov_step d c c' -> P c -> P c') ->
  forall c, gov_reachable d c -> P c.
Proof.
  intros Hi Hstep c (c0 & Hinit & Hr). revert c Hr. apply rtc_ind_r; [by apply Hi|].
  intros c1 c2 Hr Hs. apply Hstep; [by exists c0|done].
Qed.

Lemma gov_reachable_votes c : gov_reachable d c -> VotesInv (g_st c).
Proof.
  revert c. apply gov_reachable_ind; [apply init_votes|].
  intros c1 c2 [HA Hid]%gov_reachable_act Hs; [|done]. by eapply gov_step_votes.
Qed.

(** ** Properties of voting *)

(** C19: the tallies are exact.  In every reachable state the yes, no and abstain
    power of a proposal is the sum of the recorded votes with that choice, every
    vote weighs what its voter held when the proposal was created, and the votes
    cast never exceed the snapshot, so no addition ever saturates. *)
Theorem tally_exact c id p :
  gov_reachable d c -> gs_proposals_by_id (g_st c) !! id = Some p ->
  (forall choice, tally_of p choice = votes_for (g_st c) id choice) /\
  recorded_voting_power p = turnout (g_st c) id /\
  turnout (g_st c) id <= gp_snapshot_total_voting_power p < u128_max /\
  (forall k v, gs_votes_by_key (g_st c) !! k = Some v ->
     gs_voting_power (g_st c) !! k = Some (gv_voting_power v)).
Proof.
  intros HI%gov_reachable_votes Hp. destruct (vi_snapshot _ HI _ _ Hp) as [-> Hmax].
  pose proof (turnout_le_power _ id HI) as Hle.
  split_and!; [by intros; apply (vi_tally _ HI)| |done|done|apply HI].
  by apply recorded_exact.
Qed.

(** C20: the decision is the votes' decision.  Closing a proposal succeeds only
    after its voting period, and finalizes it exactly when at least half of the
    snapshot has voted and more than half of the votes cast are yes; otherwise
    it is rejected. *)
Theorem close_decides st e origin id p st' :
  gov_reachable d (mkGov st e) -> gs_proposals_by_id st !! id = Some p ->
  close_proposal e origin id st = Ok st' ->
  gp_status p = Voting /\ gp_voting_end_epoch p <= e /\
  exists p', gs_proposals_by_id st' !! id = Some p' /\
    (gp_status p' = LocallyFinalized /\ gp_activation_epoch p' = sat_add u64_max e 4 \/
     gp_status p' = Rejected) /\
    (gp_status p' = LocallyFinalized <->
     total_power st id <= 2 * turnout st id /\ turnout st id < 2 * votes_for st id Yes).
Proof.
  intros HI%gov_reachable_votes Hp Hop. simpl in HI.
  apply close_proposal_inv in Hop as (p0 & Hp0 & Hs & He & Hcase). simplify_eq. split_and!; [done..|].
  destruct (decision_exact st id p HI Hp) as [Hq Ha].
  destruct (quorum_met p && approved p) eqn:E; subst st'; simpl; rewrite lookup_insert_eq; eexists;
    (split; [done|]); simpl; (split; [by (left + right)|]); [|split; [done|]].
  - apply andb_true_iff in E as [E1 E2]. split; [|done]. intros _. split; [by apply Hq|by apply Ha].
  - intros [T1%Hq T2%Ha]. by rewrite T1, T2 in E.
Qed.

Lemma recorded_votes_kept c c' k v :
  gov_reachable d c -> gov_step d c c' ->
  gs_votes_by_key (g_st c) !! k = Some v -> gs_votes_by_key (g_st c') !! k = Some v.
Proof.
  intros [HA _]%gov_reachable_act Hs Hv; [|done].
  destruct Hs as [st e balance origin targets version st' Hlt Hb Hsum Hop
    |st e sys origin id choice st' Hop|st e origin id st' Hop|st e sys origin claim st' seq Hseq Hid Hop
    |st e sys origin claim st' Hop|st e sys e' He Hmax Hn]; simpl in *.
  - by apply create_proposal_inv in Hop as (? & ? & ? & ? & _ & _ & _ & _ & _ & ->).
  - apply cast_vote_inv in Hop as (who & p & power & vote & -> & _ & _ & _ & _ & Hnone & _). simpl.
    rewrite lookup_insert_ne; [done|]. congruence.
  - apply close_proposal_inv in Hop as (p & _ & _ & _ & Hcase). destruct (_ && _); subst st'; [|done]. simpl.
    by destruct (insert_outbound_same_votes (accepted e p) e
      (store_activation_record (accepted e p) [] None st)) as (_ & -> & _).
  - apply import_proposal_inv in Hop. cbv zeta in Hop. destruct Hop as (_ & _ & _ & _ & _ & ->). simpl.
    set (leaf := igp_leaf claim).
    destruct (schedule_same_ids (gpl_proposal_id leaf) e (import_base d e sys leaf st)) as (_ & -> & _).
    by destruct (import_base_spec d e sys leaf st) as (_ & _ & _ & _ & _ & (_ & -> & _)).
  - apply import_ack_inv in Hop. cbv zeta in Hop. destruct Hop as (ack & p & _ & _ & _ & _ & _ & _ & _ & ->).
    etrans; [|exact Hv]. exact (f_equal (lookup k) (proj1 (proj2 (note_known_ids _ _ _ _)))).
  - pose proof (act_core_mono e e' st ltac:(lia) (proj1 HA)) as HC.
    destruct (on_initialize_spec sys e' st Hn HC) as (st1 & rem & Hr & -> & _). simpl.
    by destruct (act_rtc_frame _ _ _ _ Hr) as (_ & _ & _ & -> & _).
Qed.

(** One vote per voter, for ever.  A recorded vote is never changed or
    removed by any later step, and no later call of [cast_vote] by the same
    account on the same proposal succeeds. *)
Theorem votes_final c c' id who v :
  gov_reachable d c -> rtc (gov_step d) c c' ->
  gs_votes_by_key (g_st c) !! (id, account_to_bytes who) = Some v ->
  gs_votes_by_key (g_st c') !! (id, account_to_bytes who) = Some v /\
  forall sys choice, exists err, cast_vote (g_epoch c') sys (Signed who) id choice (g_st c') = Err err.
Proof.
  intros Hreach Hr Hv.
  assert (gs_votes_by_key (g_st c') !! (id, account_to_bytes who) = Some v) as Hv'.
  { induction Hr as [|c1 c2 c3 Hs _ IH]; [done|]. apply IH; [|by eapply recorded_votes_kept].
    destruct Hreach as (c0 & Hi & Hr0). exists c0. split; [done|]. by eapply rtc_r. }
  split; [done|]. intros sys choice.
  destruct (cast_vote _ _ _ _ _ _) as [st'|err] eqn:E; [|by eexists].
  apply cast_vote_inv in E as (who' & p & power & vote & _ & Ho & _ & _ & _ & Hnone & _).
  injection Ho as <-. congruence.
Qed.
End Machine.
