(* ===== verification/PublicationProofs.v ===== *)
(** * What a governance epoch publishes

    An approved proposal leaves one leaf per target domain in the epoch's
    governance commitment, an imported one leaves an acknowledgement for every
    other domain involved; later steps keep them, and the epoch's governance
    root commits to exactly these leaves.  The transition system is that of
    [GovernanceProofs]. *)

From S2P Require Import Prelude Types Codec Reference Merkle Frame Governance GovernanceProofs.

Section Leaves.
Context `{!Codec, !Account}.

Definition leaf_proposal (l : GovernanceLeaf) : hash :=
  match l with ProposalV1 p => gpl_proposal_id p | AckV1 a => gal_proposal_id a end.
Definition leaf_targets (l : GovernanceLeaf) : list DomainId :=
  match l with ProposalV1 p => gpl_target_domains p | AckV1 a => gal_target_domains a end.

(** A leaf as the pallet builds it, about a stored proposal. *)
Definition leaf_ok (st : GovernanceState) (l : GovernanceLeaf) : Prop :=
  leaf_hashed l /\ (forall a, l = AckV1 a -> gal_version a = GOVERNANCE_ACK_LEAF_VERSION) /\
  exists p, gs_proposals_by_id st !! leaf_proposal l = Some p /\ gp_target_domains p = leaf_targets l.

Record LeafInv (st : GovernanceState) : Prop := {
  lf_leaf : forall h l, gs_leaves_by_id st !! h = Some l -> leaf_hash l = h /\ leaf_ok st l;
  lf_ids : forall ep h, h ∈ gs_epoch_leaf_ids st !!! ep -> is_Some (gs_leaves_by_id st !! h)
}.

(** Proposals name at most four domains. *)
Definition plain_proposals (st : GovernanceState) : Prop :=
  forall id p, gs_proposals_by_id st !! id = Some p -> plain_targets (gp_target_domains p).

Lemma leaf_ok_plain st l : plain_proposals st -> leaf_ok st l -> leaf_plain l.
Proof.
  intros Hpl (_ & Hv & p & Hp & Ht). specialize (Hpl _ _ Hp). rewrite Ht in Hpl.
  by destruct l.
Qed.

Lemma leaf_frame st st' :
  LeafInv st -> gs_leaves_by_id st' = gs_leaves_by_id st -> gs_epoch_leaf_ids st' = gs_epoch_leaf_ids st ->
  (forall id p, gs_proposals_by_id st !! id = Some p ->
     exists p', gs_proposals_by_id st' !! id = Some p' /\ gp_target_domains p' = gp_target_domains p) ->
  LeafInv st'.
Proof.
  intros [I1 I2] El Ei Hp. split; rewrite ?El, ?Ei; [|done].
  intros h l Hl. destruct (I1 h l Hl) as (Hh & H1' & H2' & p & Hp0 & Ht). split; [done|].
  split_and!; [done|done|]. destruct (Hp _ _ Hp0) as (p' & ? & ?). exists p'. split; [done|congruence].
Qed.

Definition epoch_ids_kept (st st' : GovernanceState) : Prop :=
  forall ep h, h ∈ gs_epoch_leaf_ids st !!! ep -> h ∈ gs_epoch_leaf_ids st' !!! ep.

Lemma insert_leaf_spec ep st l :
  LeafInv st -> leaf_ok st l ->
  let st' := insert_epoch_leaf ep st l in
  LeafInv st' /\ epoch_ids_kept st st' /\ leaf_hash l ∈ gs_epoch_leaf_ids st' !!! ep.
Proof.
  intros [I1 I2] Hok. cbv zeta. split; [split|split]; simpl.
  - intros h l'. rewrite lookup_insert_Some. intros [[<- <-]|[_ Hl]]; [done|by apply I1].
  - intros ep' h. destruct (decide (ep' = ep)) as [->|].
    + rewrite lookup_total_insert_eq. intros [->|Hin]%push_unique_elem; [rewrite lookup_insert_eq; by eexists|].
      destruct (decide (h = leaf_hash l)) as [->|]; [rewrite lookup_insert_eq; by eexists|].
      rewrite lookup_insert_ne by done. eauto.
    + rewrite lookup_total_insert_ne by done. intros Hin.
      destruct (decide (h = leaf_hash l)) as [->|]; [rewrite lookup_insert_eq; by eexists|].
      rewrite lookup_insert_ne by done. eauto.
  - intros ep' h Hin. simpl. destruct (decide (ep' = ep)) as [->|].
    + rewrite lookup_total_insert_eq. apply push_unique_elem. by right.
    + by rewrite lookup_total_insert_ne.
  - rewrite lookup_total_insert_eq. apply push_unique_elem. by left.
Qed.

Lemma insert_leaves_spec {A} (f : A -> GovernanceLeaf) ep xs st :
  LeafInv st -> (forall x, x ∈ xs -> leaf_ok st (f x)) ->
  let st' := foldl (fun st x => insert_epoch_leaf ep st (f x)) st xs in
  LeafInv st' /\ epoch_ids_kept st st' /\ forall x, x ∈ xs -> leaf_hash (f x) ∈ gs_epoch_leaf_ids st' !!! ep.
Proof.
  revert st. induction xs as [|x xs IH]; intros st HI Hok; simpl; [split_and!; [done|by intros ?|set_solver]|].
  destruct (insert_leaf_spec ep st (f x) HI) as (J1 & J2 & J3); [apply Hok; set_solver|].
  destruct (IH (insert_epoch_leaf ep st (f x)) J1) as (K1 & K2 & K3); [intros y Hy; apply (Hok y); set_solver|].
  split_and!; [done|by intros ep' h Hh; apply K2, J2|].
  intros y [->|Hy]%elem_of_cons; [by apply K2|by apply K3].
Qed.

Lemma canonical_leaves_elem st ep l :
  l ∈ canonical_epoch_governance_leaves st ep <->
  exists h, h ∈ gs_epoch_leaf_ids st !!! ep /\ gs_leaves_by_id st !! h = Some l.
Proof.
  unfold canonical_epoch_governance_leaves, sort_governance_leaves.
  by rewrite elem_of_sort_by, list_elem_of_omap.
Qed.

(** A leaf whose hash an epoch lists is one of its leaves. *)
Lemma listed_leaf `{!CodecOk, !CodecSep} st ep l :
  LeafInv st -> plain_proposals st -> leaf_ok st l ->
  leaf_hash l ∈ gs_epoch_leaf_ids st !!! ep ->
  l ∈ canonical_epoch_governance_leaves st ep \/ collision blake2_256.
Proof.
  intros HI Hpl Hok Hin. destruct (lf_ids _ HI _ _ Hin) as [l' Hl'].
  destruct (lf_leaf _ HI _ _ Hl') as [Hh Hok'].
  destruct (leaf_hash_inj l l') as [->|?]; [by eapply leaf_ok_plain..|apply Hok|apply Hok'| |left|by right].
  - rewrite <-(proj1 Hok), <-(proj1 Hok'). done.
  - apply canonical_leaves_elem. eauto.
Qed.
(** The root over an epoch's governance leaves. *)
Lemma governance_root_of_epoch `{!CodecOk, !CodecSep} st dom ep s t :
  LeafInv st -> plain_proposals st -> Z.of_nat (length (gs_epoch_leaf_ids st !!! ep)) <= u32_max ->
  let leaves := canonical_epoch_governance_leaves st ep in
  let root := governance_merkle_root dom ep s t leaves in
  (forall l, l ∈ leaves -> exists proof,
     build_governance_inclusion_proof leaves (leaf_hash l) = Some proof /\ gip_leaf proof = l /\
     verify_governance_inclusion_proof root proof = true) /\
  (forall proof, leaf_plain (gip_leaf proof) -> verify_governance_inclusion_proof root proof = true ->
     gip_leaf proof ∈ leaves /\ is_Some (gs_proposals_by_id st !! leaf_proposal (gip_leaf proof)) \/
     collision blake2_256).
Proof.
  intros HL Hpl Hlen. cbv zeta. set (leaves := canonical_epoch_governance_leaves _ _).
  assert (forall l, l ∈ leaves -> gs_leaves_by_id st !! leaf_hash l = Some l /\ leaf_ok st l) as Hok.
  { intros l (h & _ & Hl)%canonical_leaves_elem. by destruct (lf_leaf _ HL _ _ Hl) as [<- ?]. }
  assert (Forall leaf_hashed leaves) as Hh by (apply Forall_forall; intros l Hl; by apply Hok).
  assert (Forall leaf_plain leaves) as Hp.
  { apply Forall_forall. intros l Hl. eapply leaf_ok_plain; [done|by apply Hok]. }
  assert (Z.of_nat (length leaves) <= u32_max) as Hmax.
  { unfold leaves, canonical_epoch_governance_leaves, sort_governance_leaves. rewrite length_sort_by.
    pose proof (omap_length_le (fun h => gs_leaves_by_id st !! h) (gs_epoch_leaf_ids st !!! ep)). lia. }
  split.
  - intros l Hl. destruct (governance_proof_complete dom ep s t leaves (leaf_hash l) Hh) as (pr & P1 & P2 & P3 & P4);
      [by apply list_elem_of_fmap_2|done|]. exists pr. split_and!; [done| |done].
    destruct (Hok _ P2) as [E _], (Hok _ Hl) as [E' _]. rewrite P3 in E. congruence.
  - intros pr Hplain Hv. destruct (governance_proof_sound dom ep s t leaves pr) as [Hin|?]; [done..| |by right].
    left. split; [done|]. destruct (Hok _ Hin) as (_ & _ & _ & p & Hp' & _). by eexists.
Qed.
End Leaves.

Section Machine.
Context `{!Codec, !Account, !AccountOk}.
Context (d : DomainId).
Context (proposal_ids_distinct : forall d1 d2 s1 s2,
  0 <= s1 < u64_max -> 0 <= s2 < u64_max ->
  governance_proposal_id d1 s1 = governance_proposal_id d2 s2 -> d1 = d2 /\ s1 = s2).

(** ** Preservation *)

Lemma proposal_leaf_ok st p e x :
  gs_proposals_by_id st !! gp_proposal_id p = Some p -> leaf_ok st (proposal_leaf_for p e x).
Proof. intros Hp. split_and!; [done|done|]. by exists p. Qed.

Lemma ack_leaf_ok st p e x :
  gs_proposals_by_id st !! gp_proposal_id p = Some p -> leaf_ok st (ack_leaf_for p d e x).
Proof. intros Hp. split_and!; [done| |by exists p]. by intros a [= <-]. Qed.

(** Accepting a proposal. *)
Lemma close_accepted_leaves st e id p :
  LeafInv st -> gs_proposals_by_id st !! id = Some p -> gp_proposal_id p = id ->
  let st' := (insert_outbound_proposal_leaves (accepted e p) e
                (store_activation_record (accepted e p) [] None st))
               {{ gs_proposals_by_id ::= <[id := accepted e p]> }} in
  LeafInv st' /\ epoch_ids_kept st st' /\
  forall x, x ∈ gp_target_domains p ->
    leaf_hash (proposal_leaf_for (accepted e p) e x) ∈ gs_epoch_leaf_ids st' !!! e.
Proof.
  intros HI Hp Hid. cbv zeta. set (st1 := store_activation_record _ _ _ st).
  assert (LeafInv st1) as HI1 by (apply (leaf_frame st); try done; intros id' p' Hp'; by exists p').
  destruct (insert_leaves_spec (proposal_leaf_for (accepted e p) e) e (gp_target_domains p) st1 HI1)
    as (J1 & J2 & J3).
  { intros x _. split_and!; [done|done|]. exists p. simpl. by rewrite Hid. }
  destruct (insert_outbound_same (accepted e p) e st1) as (E1 & _).
  split_and!; [|done|done].
  apply (leaf_frame (insert_outbound_proposal_leaves (accepted e p) e st1)); [done..|].
  simpl. rewrite E1. intros id' p' Hp'. destruct (decide (id' = id)) as [->|].
  - rewrite lookup_insert_eq. eexists. split; [done|]. simpl in *. congruence.
  - rewrite lookup_insert_ne by done. by exists p'.
Qed.

(** Importing a proposal. *)
Lemma import_base_leaves st e sys leaf :
  LeafInv st -> gs_proposals_by_id st !! gpl_proposal_id leaf = None ->
  let st' := import_base d e sys leaf st in
  LeafInv st' /\ epoch_ids_kept st st' /\
  forall x, x ∈ fanout_targets (imported_proposal leaf) d ->
    leaf_hash (ack_leaf_for (imported_proposal leaf) d e x) ∈ gs_epoch_leaf_ids st' !!! e.
Proof.
  intros HI Hnone. cbv zeta. unfold import_base, record_local_ack_and_fanout.
  set (st1 := (store_activation_record _ _ _ _) {{ gs_ack_records_by_key ::= _ }}).
  assert (LeafInv st1) as HI1.
  { apply (leaf_frame st); try done. intros id p Hp. exists p. split; [|done]. simpl.
    rewrite lookup_insert_ne; [done|congruence]. }
  destruct (insert_leaves_spec (ack_leaf_for (imported_proposal leaf) d e) e
              (fanout_targets (imported_proposal leaf) d) st1 HI1) as (J1 & J2 & J3).
  { intros x _. apply ack_leaf_ok. simpl. by rewrite lookup_insert_eq. }
  split_and!; [|done|done]. apply (leaf_frame _ _ J1); [done..|]. intros id p Hp. by exists p.
Qed.

Lemma schedule_same_leaves id e st :
  gs_leaves_by_id (maybe_schedule_activation id e st) = gs_leaves_by_id st /\
  gs_epoch_leaf_ids (maybe_schedule_activation id e st) = gs_epoch_leaf_ids st.
Proof.
  unfold maybe_schedule_activation.
  repeat first [done | match goal with |- context [match ?x with _ => _ end] => destruct x end].
Qed.

Lemma schedule_leaves id e st : ActCore e st -> LeafInv st -> LeafInv (maybe_schedule_activation id e st).
Proof.
  intros HA HI. destruct (schedule_same_leaves id e st) as [E1 E2]. apply (leaf_frame st); [done..|].
  intros id' p Hp. pose proof (schedule_proposals id e st id' HA) as Hm. rewrite Hp in Hm.
  destruct (gs_proposals_by_id (maybe_schedule_activation id e st) !! id') as [p'|]; [|done].
  exists p'. split; [done|]. by destruct Hm as [->|[_ ->]].
Qed.

Lemma note_known_same_leaves id x e st :
  gs_leaves_by_id (note_known_ack_domain id x e st) = gs_leaves_by_id st /\
  gs_epoch_leaf_ids (note_known_ack_domain id x e st) = gs_epoch_leaf_ids st.
Proof.
  unfold note_known_ack_domain. set (st1 := match _ with Some _ => _ | None => _ end).
  destruct (schedule_same_leaves id e st1) as [-> ->]. unfold st1.
  destruct (_ !! id); [|done]. by case_decide.
Qed.

(** Steps whose leaf maps stay as they are. *)
Lemma leaf_step_frame c c' :
  ActInv c -> IdInv d (g_st c) -> gov_step d c c' -> LeafInv (g_st c) ->
  gs_leaves_by_id (g_st c') = gs_leaves_by_id (g_st c) ->
  gs_epoch_leaf_ids (g_st c') = gs_epoch_leaf_ids (g_st c) ->
  LeafInv (g_st c') /\ epoch_ids_kept (g_st c) (g_st c').
Proof.
  intros HA HI Hs HL E1 E2. split.
  - apply (leaf_frame (g_st c)); [done..|]. intros id p Hp.
    destruct (gov_step_forward d proposal_ids_distinct c c' id p HA HI Hs Hp) as (p' & Hp' & Hf & _).
    exists p'. split; [done|]. apply Hf.
  - intros ep h. by rewrite E2.
Qed.

Lemma gov_step_leaves c c' :
  ActInv c -> IdInv d (g_st c) -> gov_step d c c' -> LeafInv (g_st c) ->
  LeafInv (g_st c') /\ epoch_ids_kept (g_st c) (g_st c').
Proof.
  intros HA HI Hstep HL. pose proof (leaf_step_frame _ _ HA HI Hstep HL) as Hframe.
  destruct Hstep as [st e balance origin targets version st' Hlt Hb Hsum Hop
    |st e sys origin id choice st' Hop|st e origin id st' Hop|st e sys origin claim st' seq Hseq Hid Hop
    |st e sys origin claim st' Hop|st e sys e' He Hmax Hn]; simpl in *.
  - apply create_proposal_inv in Hop as (? & ? & ? & ? & _ & _ & _ & _ & _ & ->). by apply Hframe.
  - apply cast_vote_inv in Hop as (? & ? & ? & ? & -> & _). by apply Hframe.
  - apply close_proposal_inv in Hop as (p & Hp & _ & _ & Hcase).
    destruct (_ && _); subst st'; [|by apply Hframe]. clear Hframe.
    destruct (close_accepted_leaves st e id p HL Hp) as (J1 & J2 & _); [by apply (act_id _ _ (proj1 HA))|].
    split; [|done]. by destruct J1.
  - apply import_proposal_inv in Hop. cbv zeta in Hop. destruct Hop as (_ & Hsrc & Hnone & _ & _ & ->).
    clear Hframe. set (leaf := igp_leaf claim) in *.
    destruct (import_base_inv d st e sys leaf seq HA HI Hseq Hid Hsrc Hnone) as [HA1 _].
    destruct (import_base_leaves st e sys leaf HL Hnone) as (J1 & J2 & _).
    destruct (schedule_leaves (gpl_proposal_id leaf) e _ (proj1 HA1) J1) as [K1 K2].
    split; [by split|]. intros ep h Hh. simpl.
    rewrite (proj2 (schedule_same_leaves (gpl_proposal_id leaf) e (import_base d e sys leaf st))). by apply J2.
  - apply import_ack_inv in Hop. cbv zeta in Hop. destruct Hop as (ack & p & _ & _ & _ & _ & _ & _ & _ & ->).
    apply Hframe; [exact (proj1 (note_known_same_leaves _ _ _ _))|exact (proj2 (note_known_same_leaves _ _ _ _))].
  - pose proof (act_core_mono e e' st ltac:(lia) (proj1 HA)) as HC.
    destruct (on_initialize_spec sys e' st Hn HC) as (st1 & rem & Hr & E & _). rewrite E in *. simpl in *.
    destruct (act_rtc_frame _ _ _ _ Hr) as (_ & _ & _ & _ & _ & _ & _ & E1 & E2). by apply Hframe.
Qed.

Lemma gov_reachable_leaves c : gov_reachable d c -> LeafInv (g_st c).
Proof.
  intros (c0 & Hi & Hr). pose proof (gov_init_act d c0 Hi) as [HA HI].
  assert (LeafInv (g_st c0)) as HL.
  { destruct Hi as [(? & ? & ? & ->) _].
    split; simpl; [intros *; by rewrite lookup_empty|]. intros ep h. by rewrite lookup_total_empty, elem_of_nil. }
  clear Hi. induction Hr as [|c1 c2 c3 Hs _ IH]; [done|].
  destruct (gov_step_act d proposal_ids_distinct c1 c2 Hs HA HI). apply IH; [done..|]. by apply (gov_step_leaves c1).
Qed.

Lemma gov_run c c' :
  gov_reachable d c -> rtc (gov_step d) c c' ->
  LeafInv (g_st c') /\ epoch_ids_kept (g_st c) (g_st c') /\
  forall id p, gs_proposals_by_id (g_st c) !! id = Some p ->
    exists p', gs_proposals_by_id (g_st c') !! id = Some p' /\ gp_target_domains p' = gp_target_domains p.
Proof.
  intros Hreach Hr. pose proof (gov_reachable_leaves c Hreach) as HL.
  apply gov_reachable_act in Hreach as [HA HI]; [|done].
  induction Hr as [c|c1 c2 c3 Hs _ IH]; [split_and!; [done|by intros ?|by intros id p; exists p]|].
  destruct (gov_step_act d proposal_ids_distinct c1 c2 Hs HA HI) as [HA2 HI2].
  destruct (gov_step_leaves c1 c2 HA HI Hs HL) as [HL2 K]. destruct (IH HA2 HI2 HL2) as (J1 & J2 & J3).
  split_and!; [done|by intros ep h Hh; apply J2, K|]. intros id p Hp.
  destruct (gov_step_forward d proposal_ids_distinct c1 c2 id p HA HI Hs Hp) as (p2 & Hp2 & Ht & _).
  destruct (J3 id p2 Hp2) as (p3 & Hp3 & Ht3). exists p3. split; [done|]. rewrite Ht3. apply Ht.
Qed.

(** A leaf that a reachable state lists in epoch [ep] is published for good. *)
Lemma published_kept `{!CodecOk, !CodecSep} c c' ep l :
  gov_reachable d c -> rtc (gov_step d) c c' -> plain_proposals (g_st c') ->
  leaf_ok (g_st c) l -> leaf_hash l ∈ gs_epoch_leaf_ids (g_st c) !!! ep ->
  l ∈ canonical_epoch_governance_leaves (g_st c') ep \/ collision blake2_256.
Proof.
  intros Hreach Hr Hpl (Hh & Hv & p & Hp & Ht) Hin. destruct (gov_run c c' Hreach Hr) as (HL & Hk & Hf).
  apply listed_leaf; [done|done| |by apply Hk]. split_and!; [done|done|].
  destruct (Hf _ _ Hp) as (p' & Hp' & Ht'). exists p'. split; [done|congruence].
Qed.

Lemma gov_reachable_step c c' : gov_reachable d c -> gov_step d c c' -> gov_reachable d c'.
Proof. intros (c0 & Hi & Hr) Hs. exists c0. split; [done|]. by eapply rtc_r. Qed.

(** ** Properties of publication *)

(** An approved proposal reaches every target.  When [close_proposal]
    finalizes a proposal in epoch [e], the governance leaves of epoch [e]
    contain, then and in every later state, a proposal leaf for each target
    domain with the proposal's terms, or [blake2_256] collides. *)
Theorem approved_proposal_published `{!CodecOk, !CodecSep} st e origin id st' c' p :
  gov_reachable d (mkGov st e) -> close_proposal e origin id st = Ok st' ->
  gs_proposals_by_id st' !! id = Some p -> gp_status p = LocallyFinalized ->
  rtc (gov_step d) (mkGov st' e) c' -> plain_proposals (g_st c') ->
  forall x, x ∈ gp_target_domains p ->
  proposal_leaf_for p e x ∈ canonical_epoch_governance_leaves (g_st c') e \/ collision blake2_256.
Proof.
  intros Hreach Hop Hp Hs Hr Hpl x Hx.
  assert (gov_reachable d (mkGov st' e)) as Hreach' by (eapply gov_reachable_step; [done|by eapply gov_close]).
  pose proof (gov_reachable_leaves _ Hreach) as HL.
  pose proof (gov_reachable_act d proposal_ids_distinct _ Hreach) as [[HA _] _]. simpl in *.
  apply close_proposal_inv in Hop as (p0 & Hp0 & _ & _ & Hcase).
  pose proof (act_id _ _ HA _ _ Hp0) as Hid.
  destruct (_ && _); subst st'; simpl in Hp; rewrite lookup_insert_eq in Hp; simplify_eq.
  destruct (close_accepted_leaves st e _ p0 HL Hp0 eq_refl) as (_ & _ & Hall).
  eapply published_kept; [exact Hreach'|done|done| |by apply Hall].
  apply proposal_leaf_ok. simpl. by rewrite lookup_insert_eq.
Qed.

Lemma fanout_targets_elem p x :
  x ∈ fanout_targets p d <-> x <> d /\ (x ∈ gp_target_domains p \/ x = gp_source_domain p).
Proof.
  unfold fanout_targets. rewrite list_elem_of_filter, known_domains_elem. set_solver.
Qed.

(** An imported proposal is acknowledged to everyone.  When a domain imports
    a proposal in epoch [e], the governance leaves of epoch [e] contain, then and
    in every later state, its acknowledgement for the source domain and for every
    other target domain, or [blake2_256] collides. *)
Theorem import_acknowledged_to_all `{!CodecOk, !CodecSep} st e sys origin claim seq st' c' :
  let p := imported_proposal (igp_leaf claim) in
  gov_reachable d (mkGov st e) -> 0 <= seq < u64_max ->
  gp_proposal_id p = governance_proposal_id (gp_source_domain p) seq ->
  import_verified_governance_proposal d e sys origin claim st = Ok st' ->
  rtc (gov_step d) (mkGov st' e) c' -> plain_proposals (g_st c') ->
  forall x, x <> d -> (x ∈ gp_target_domains p \/ x = gp_source_domain p) ->
  ack_leaf_for p d e x ∈ canonical_epoch_governance_leaves (g_st c') e \/ collision blake2_256.
Proof.
  intros p Hreach Hseq Hid Hop Hr Hpl x Hne Hx.
  assert (gov_reachable d (mkGov st' e)) as Hreach' by (by eapply gov_reachable_step, (gov_import d st e sys origin claim st' seq)).
  pose proof (gov_reachable_leaves _ Hreach) as HL.
  pose proof (gov_reachable_act d proposal_ids_distinct _ Hreach) as [HA HI]. simpl in *.
  apply import_proposal_inv in Hop. cbv zeta in Hop. destruct Hop as (_ & Hsrc & Hnone & _ & _ & ->).
  set (leaf := igp_leaf claim) in *. fold p in Hreach'.
  destruct (import_base_inv d st e sys leaf seq HA HI Hseq Hid Hsrc Hnone) as [HA1 _].
  destruct (import_base_leaves st e sys leaf HL Hnone) as (_ & _ & Hall).
  eapply published_kept; [exact Hreach'|done|done| |].
  - pose proof (schedule_proposals (gpl_proposal_id leaf) e _ (gpl_proposal_id leaf) (proj1 HA1)) as Hm.
    destruct (import_base_spec d e sys leaf st) as (_ & _ & _ & _ & _ & (B1 & _)). cbn [g_st] in Hm.
    rewrite B1 in Hm. simpl in Hm. rewrite lookup_insert_eq in Hm.
    destruct (gs_proposals_by_id (maybe_schedule_activation _ e _) !! _) as [p'|] eqn:E; [|done].
    split_and!; [done|by intros a [= <-]|]. exists p'. split; [exact E|]. by destruct Hm as [->|[_ ->]].
  - simpl. rewrite (proj2 (schedule_same_leaves (gpl_proposal_id leaf) e (import_base d e sys leaf st))).
    apply Hall, fanout_targets_elem. done.
Qed.

(** An epoch's governance root is exact: every leaf of the epoch has an
    inclusion proof that verifies against the root, and a proof of a leaf with
    at most four targets that verifies against the root is of a leaf the
    pallet recorded for the epoch, about a proposal it stores, or [blake2_256]
    collides. *)
Theorem epoch_governance_root_exact `{!CodecOk, !CodecSep} c ep s t :
  gov_reachable d c -> plain_proposals (g_st c) ->
  Z.of_nat (length (gs_epoch_leaf_ids (g_st c) !!! ep)) <= u32_max ->
  let root := commit_epoch_governance d ep s t (g_st c) in
  let leaves := canonical_epoch_governance_leaves (g_st c) ep in
  (forall l, l ∈ leaves -> exists proof,
     build_governance_inclusion_proof leaves (leaf_hash l) = Some proof /\ gip_leaf proof = l /\
     verify_governance_inclusion_proof root proof = true) /\
  (forall proof, leaf_plain (gip_leaf proof) -> verify_governance_inclusion_proof root proof = true ->
     gip_leaf proof ∈ leaves /\ is_Some (gs_proposals_by_id (g_st c) !! leaf_proposal (gip_leaf proof)) \/
     collision blake2_256).
Proof.
  intros HL%gov_reachable_leaves. by apply governance_root_of_epoch.
Qed.
End Machine.
