(* ===== verification/GovernanceOrigins.v ===== *)
(** * Where governance leaves come from

    What an epoch publishes, a chain stands for: a proposal leaf that an epoch
    lists is of a proposal of this domain that its voters approved in that epoch,
    with the proposal's terms, and an acknowledgement leaf is of a proposal the
    chain has imported.  No leaf is listed twice. *)

From S2P Require Import Prelude Types Codec Merkle Frame Governance GovernanceProofs PublicationProofs.

Section Origins.
Context `{!Codec, !Account, !AccountOk}.
Context (d : DomainId).
Context (proposal_ids_distinct : forall d1 d2 s1 s2,
  0 <= s1 < u64_max -> 0 <= s2 < u64_max ->
  governance_proposal_id d1 s1 = governance_proposal_id d2 s2 -> d1 = d2 /\ s1 = s2).
Implicit Types (st : GovernanceState) (l : GovernanceLeaf).

(** A proposal of domain [d] that was approved, with the terms of a leaf. *)
Definition approved_terms (q : GovernanceProposalLeaf) (p : GovernanceProposal) : Prop :=
  gp_source_domain p = d /\ finalized_status (gp_status p) /\
  gp_target_domains p = gpl_target_domains q /\ gp_payload_hash p = gpl_payload_hash q /\
  protocol_version (gp_payload p) = gpl_new_protocol_version q /\ gp_activation_epoch p = gpl_activation_epoch q.

(** A proposal of this domain, with the hash of its payload. *)
Definition local_proposal (p : GovernanceProposal) : Prop :=
  gp_source_domain p = d /\ gp_payload_hash p = payload_hash (gp_payload p).
(** What the terms of a leaf say of each other. *)
Definition leaf_fits l : Prop :=
  match l with
  | ProposalV1 q => gpl_target_domain q ∈ gpl_target_domains q /\
      gpl_payload_hash q = payload_hash (SetProtocolVersion (gpl_new_protocol_version q))
  | AckV1 a => d ∈ gal_target_domains a
  end.

(** A leaf that epoch [ep] may publish. *)
Definition publishable st (ep : Z) l : Prop :=
  leaf_ok st l /\ leaf_fits l /\
  match l with
  | ProposalV1 q => gpl_source_domain q = d /\ gpl_approval_epoch q = ep /\
      exists p, gs_proposals_by_id st !! gpl_proposal_id q = Some p /\ approved_terms q p
  | AckV1 a => gal_acknowledging_domain a = d /\ gal_acknowledged_epoch a = ep
  end.

Record PubInv st : Prop := {
  pub_nodup : forall ep, NoDup (gs_epoch_leaf_ids st !!! ep);
  pub_leaf : forall ep h, h ∈ gs_epoch_leaf_ids st !!! ep -> exists l, leaf_hash l = h /\ publishable st ep l;
  pub_local : forall id p, gs_proposals_by_id st !! id = Some p -> gp_status p = Voting -> local_proposal p
}.

(** Proposals that move forward. *)
Definition moves st st' : Prop := forall id p, gs_proposals_by_id st !! id = Some p ->
  exists p', gs_proposals_by_id st' !! id = Some p' /\ forward p p'.

Lemma publishable_moves st st' ep l : moves st st' -> publishable st ep l -> publishable st' ep l.
Proof.
  intros Hm [(Hh & Hv & p & Hp & Ht) [Hfit Hl]]. split; [|split; [done|]].
  - split_and!; [done|done|]. destruct (Hm _ _ Hp) as (p' & Hp' & Hf & _). exists p'. split; [done|].
    destruct Hf as (_ & _ & -> & _). done.
  - destruct l as [q|a]; [|done]. destruct Hl as (Es & Ea & p2 & Hp2 & Hd & Hs & T1 & T2 & T3 & T4). split_and!; [done..|].
    destruct (Hm _ _ Hp2) as (p' & Hp' & (F1 & F2 & F3 & F4 & F5 & F6 & F7 & F8) & _ & _ & Hfin). exists p'. split; [done|].
    split_and!; [congruence|by apply Hfin|congruence|congruence|by rewrite F4|]. rewrite F8; [done|].
    intros E. rewrite E in Hs. by destruct Hs as [|[]].
Qed.

(** A step that leaves the epoch lists alone. *)
Lemma pub_frame st st' :
  PubInv st -> moves st st' -> gs_epoch_leaf_ids st' = gs_epoch_leaf_ids st ->
  (forall id p, gs_proposals_by_id st' !! id = Some p -> gp_status p = Voting -> local_proposal p) ->
  PubInv st'.
Proof.
  intros [I1 I2 I3] Hm E Hv. split; rewrite ?E; [done| |done].
  intros ep h Hh. destruct (I2 ep h Hh) as (l & Hl & Hp). exists l. split; [done|]. by eapply publishable_moves.
Qed.

Lemma insert_leaf_pub ep st l : PubInv st -> publishable st ep l -> PubInv (insert_epoch_leaf ep st l).
Proof.
  intros [I1 I2 I3] Hl. split; simpl; [| |done].
  - intros ep'. destruct (decide (ep' = ep)) as [->|]; [|by rewrite lookup_total_insert_ne].
    rewrite lookup_total_insert_eq. unfold push_unique. case_decide; [done|].
    apply NoDup_app. split_and!; [done|set_solver|apply NoDup_singleton].
  - intros ep' h. destruct (decide (ep' = ep)) as [->|]; [|rewrite lookup_total_insert_ne by done; by apply I2].
    rewrite lookup_total_insert_eq. intros [->|Hin]%push_unique_elem; [by exists l|by apply I2].
Qed.
Lemma insert_leaves_pub {A} (f : A -> GovernanceLeaf) ep xs st :
  PubInv st -> (forall x, x ∈ xs -> publishable st ep (f x)) ->
  PubInv (foldl (fun st x => insert_epoch_leaf ep st (f x)) st xs).
Proof.
  revert st. induction xs as [|x xs IH]; intros st HI Hok; simpl; [done|].
  apply IH; [apply insert_leaf_pub; [done|apply Hok; set_solver]|]. intros y Hy.
  apply (publishable_moves st); [|apply Hok; set_solver]. intros id p Hp. exists p. split; [done|apply forward_refl].
Qed.

(** The invariant is about two fields of the state. *)
Lemma pub_same st st' :
  PubInv st -> gs_proposals_by_id st' = gs_proposals_by_id st -> gs_epoch_leaf_ids st' = gs_epoch_leaf_ids st -> PubInv st'.
Proof.
  intros HI Ep Ei. apply (pub_frame st); [done| |done|rewrite Ep; apply HI].
  intros id p Hp. exists p. rewrite Ep. split; [done|apply forward_refl].
Qed.

Lemma insert_leaves_ids {A} (f : A -> GovernanceLeaf) ep xs : forall st st',
  gs_epoch_leaf_ids st' = gs_epoch_leaf_ids st ->
  gs_epoch_leaf_ids (foldl (fun st x => insert_epoch_leaf ep st (f x)) st' xs)
  = gs_epoch_leaf_ids (foldl (fun st x => insert_epoch_leaf ep st (f x)) st xs).
Proof. induction xs as [|x xs IH]; intros st st' E; simpl; [done|]. apply IH. simpl. by rewrite E. Qed.

(** Leaves added to a state in which they are publishable. *)
Lemma insert_leaves_into {A} (f : A -> GovernanceLeaf) ep xs st0 st st' :
  PubInv st0 -> (forall x, x ∈ xs -> publishable st0 ep (f x)) ->
  gs_epoch_leaf_ids st = gs_epoch_leaf_ids st0 -> gs_proposals_by_id st' = gs_proposals_by_id st0 ->
  gs_epoch_leaf_ids st' = gs_epoch_leaf_ids (foldl (fun st x => insert_epoch_leaf ep st (f x)) st xs) -> PubInv st'.
Proof.
  intros HI Hok Ei Ep Ei'. eapply pub_same; [by apply (insert_leaves_pub f ep xs st0)| |].
  - rewrite Ep. by destruct (insert_leaves_same f ep xs st0) as (<- & _).
  - rewrite Ei'. by apply insert_leaves_ids.
Qed.

Lemma accepted_pub st e id p :
  PubInv st -> gs_proposals_by_id st !! id = Some p -> gp_proposal_id p = id -> gp_status p = Voting ->
  PubInv ((insert_outbound_proposal_leaves (accepted e p) e (store_activation_record (accepted e p) [] None st))
            {{ gs_proposals_by_id ::= <[id := accepted e p]> }}).
Proof.
  intros HI Hp Hid Hs. pose proof (pub_local _ HI _ _ Hp Hs) as [Hd Hph].
  set (st0 := st {{ gs_proposals_by_id ::= <[id := accepted e p]> }}).
  assert (PubInv st0) as HI0.
  { apply (pub_frame st); [done| |done|].
    - intros id' p' Hp'. simpl. destruct (decide (id' = id)) as [->|].
      + rewrite lookup_insert_eq. eexists. split; [done|]. rewrite Hp in Hp'. injection Hp' as <-. by apply close_forward.
      + rewrite lookup_insert_ne by done. exists p'. split; [done|apply forward_refl].
    - intros id' p'. simpl. rewrite lookup_insert_Some. intros [[<- <-]|[_ Hp']]; [done|by eapply HI]. }
  eapply (insert_leaves_into (proposal_leaf_for (accepted e p) e) e (gp_target_domains p) st0
    (store_activation_record (accepted e p) [] None st)); [done| |done| |done].
  - intros x Hx. split; [apply proposal_leaf_ok; simpl; by rewrite Hid, lookup_insert_eq|].
    split; [split; [exact Hx|simpl; rewrite Hph; by destruct (gp_payload p)]|].
    simpl. split_and!; [done|done|]. exists (accepted e p). rewrite Hid, lookup_insert_eq. split; [done|].
    split_and!; try done. by left.
  - destruct (insert_outbound_same (accepted e p) e (store_activation_record (accepted e p) [] None st)) as (Ep & _).
    simpl in *. by rewrite Ep.
Qed.

Lemma import_base_pub st e sys leaf :
  PubInv st -> gs_proposals_by_id st !! gpl_proposal_id leaf = None -> d ∈ gpl_target_domains leaf ->
  PubInv (import_base d e sys leaf st).
Proof.
  intros HI Hnone Hd. destruct (import_base_spec d e sys leaf st) as (_ & _ & _ & _ & _ & (Ep & _)).
  set (st0 := st {{ gs_proposals_by_id ::= <[gpl_proposal_id leaf := imported_proposal leaf]> }}) in *.
  assert (PubInv st0) as HI0.
  { apply (pub_frame st); [done| |done|].
    - intros id p Hp. simpl. rewrite lookup_insert_ne by congruence. exists p. split; [done|apply forward_refl].
    - intros id p. simpl. rewrite lookup_insert_Some. intros [[<- <-]|[_ Hp]]; [done|by eapply HI]. }
  eapply (insert_leaves_into (ack_leaf_for (imported_proposal leaf) d e) e (fanout_targets (imported_proposal leaf) d) st0);
    [done| | |exact Ep|unfold import_base, record_local_ack_and_fanout; simpl; reflexivity]; [|done].
  intros x _. split; [apply ack_leaf_ok; simpl; by rewrite lookup_insert_eq|done].
Qed.

Lemma gov_step_pub c c' : ActInv c -> IdInv d (g_st c) -> gov_step d c c' -> PubInv (g_st c) -> PubInv (g_st c').
Proof.
  intros HA HI Hstep HP. pose proof (gov_step_forward d proposal_ids_distinct c c') as Hf.
  assert (gs_epoch_leaf_ids (g_st c') = gs_epoch_leaf_ids (g_st c) ->
    (forall id p, gs_proposals_by_id (g_st c') !! id = Some p -> gp_status p = Voting -> local_proposal p) ->
    PubInv (g_st c')) as Hframe.
  { intros E Hv. apply (pub_frame (g_st c)); [done| |done|done]. intros id p. by apply Hf. }
  destruct HP as [P1 P2 P3]. assert (PubInv (g_st c)) as HP by done.
  destruct Hstep as [st e balance origin targets version st' Hlt Hb Hsum Hop
    |st e sys origin id choice st' Hop|st e origin id st' Hop|st e sys origin claim st' seq Hseq Hid Hop
    |st e sys origin claim st' Hop|st e sys e' He Hmax Hn]; simpl in *; clear Hf.
  - apply create_proposal_inv in Hop as (? & ? & ? & ? & _ & _ & _ & _ & _ & ->). apply Hframe; [done|].
    intros id p. simpl. rewrite lookup_insert_Some. intros [[_ <-]|[_ Hp]]; [done|by eapply P3].
  - apply cast_vote_inv in Hop as (who & p0 & power & vote & -> & _ & Hp0 & Hs & _). apply Hframe; [done|].
    intros id' p. simpl. rewrite lookup_insert_Some. intros [[_ <-]|[_ Hp]]; [|by eapply P3].
    intros _. destruct (P3 _ _ Hp0 Hs). by destruct choice.
  - apply close_proposal_inv in Hop as (p & Hp & Hs & _ & Hcase).
    destruct (_ && _); subst st'.
    + eapply pub_same; [apply (accepted_pub st e id p); [done|done|by apply (act_id _ _ (proj1 HA))|done]|done|done].
    + apply Hframe; [done|]. intros id' p'. simpl. rewrite lookup_insert_Some. intros [[_ <-]|[_ Hp']]; [done|by eapply P3].
  - apply import_proposal_inv in Hop. cbv zeta in Hop. destruct Hop as (_ & Hsrc & Hnone & Hin & _ & ->).
    clear Hframe. set (leaf := igp_leaf claim) in *.
    destruct (import_base_inv d st e sys leaf seq HA HI Hseq Hid Hsrc Hnone) as [HA1 _].
    pose proof (import_base_pub st e sys leaf HP Hnone Hin) as HP1.
    apply (pub_frame (import_base d e sys leaf st)); [exact HP1|..].
    + intros id p Hp. pose proof (schedule_proposals (gpl_proposal_id leaf) e _ id (proj1 HA1)) as Hm.
      cbn [g_st] in Hm. rewrite Hp in Hm. by apply scheduled_forward.
    + apply schedule_same_leaves.
    + intros id p Hp Hv. pose proof (schedule_proposals (gpl_proposal_id leaf) e _ id (proj1 HA1)) as Hm.
      change (gs_proposals_by_id (maybe_schedule_activation (gpl_proposal_id leaf) e (import_base d e sys leaf st)) !! id
              = Some p) in Hp. cbn [g_st] in Hm. rewrite Hp in Hm. destruct (gs_proposals_by_id (import_base _ _ _ _ _) !! id) as [p0|] eqn:E; [|done].
      destruct Hm as [<-|[_ ->]]; [|done]. by eapply HP1.
  - apply import_ack_inv in Hop. cbv zeta in Hop. destruct Hop as (ack & p0 & _ & _ & _ & _ & _ & _ & _ & ->).
    destruct (ack_written st e (gal_proposal_id (iga_leaf claim)) (gal_acknowledging_domain (iga_leaf claim)) ack HA)
      as [HB Hack]. apply Hframe; [exact (proj2 (note_known_same_leaves _ _ _ _))|].
    intros id p Hp Hv. pose proof (note_known_proposals _ _ e _ id HB Hack) as Hm. simpl in Hm, Hp. rewrite Hp in Hm.
    destruct (gs_proposals_by_id st !! id) as [p1|] eqn:E; [|done]. destruct Hm as [<-|[_ ->]]; [|done]. by eapply P3.
  - pose proof (act_core_mono e e' st ltac:(lia) (proj1 HA)) as HC.
    destruct (on_initialize_spec sys e' st Hn HC) as (st1 & rem & Hr & E & _). rewrite E in *. simpl in *.
    destruct (act_rtc_frame _ _ _ _ Hr) as (_ & _ & _ & _ & _ & _ & _ & E1 & E2). apply Hframe; [done|].
    intros id p Hp Hv. pose proof (act_rtc_proposals _ _ _ _ id Hr) as Hm. rewrite Hp in Hm.
    destruct (gs_proposals_by_id st !! id) as [p1|] eqn:Ep; [|done]. destruct Hm as [<-|[_ ->]]; [|done]. by eapply P3.
Qed.

Lemma gov_reachable_pub c : gov_reachable d c -> PubInv (g_st c).
Proof.
  intros (c0 & Hi & Hr). pose proof (gov_init_act d c0 Hi) as [HA HI].
  assert (PubInv (g_st c0)) as HP.
  { destruct Hi as [(? & ? & ? & ->) _]. split; simpl.
    - intros ep. rewrite lookup_total_empty. constructor.
    - intros ep h. by rewrite lookup_total_empty, elem_of_nil.
    - intros id p. by rewrite lookup_empty. }
  clear Hi. induction Hr as [|c1 c2 c3 Hs _ IH]; [done|].
  destruct (gov_step_act d proposal_ids_distinct c1 c2 Hs HA HI). apply IH; [done..|]. by apply (gov_step_pub c1).
Qed.

(** The leaves of an epoch are the ones it may publish. *)
Lemma epoch_leaf_published `{!CodecOk, !CodecSep} c ep l :
  gov_reachable d c -> plain_proposals (g_st c) -> l ∈ canonical_epoch_governance_leaves (g_st c) ep ->
  publishable (g_st c) ep l \/ collision blake2_256.
Proof.
  intros Hr Hpl (h & Hh & Hl)%canonical_leaves_elem.
  pose proof (gov_reachable_leaves d proposal_ids_distinct _ Hr) as HL.
  destruct (lf_leaf _ HL _ _ Hl) as [E Hok]. destruct (pub_leaf _ (gov_reachable_pub _ Hr) _ _ Hh) as (l' & E' & Hp).
  pose proof Hp as [Hok' _].
  destruct (leaf_hash_inj l' l) as [->|?];
    [exact (leaf_ok_plain _ _ Hpl Hok')|exact (leaf_ok_plain _ _ Hpl Hok)|apply Hok'|apply Hok| |by left|by right].
  rewrite <-(proj1 Hok'), <-(proj1 Hok). congruence.
Qed.

Lemma epoch_leaves_nodup c ep :
  gov_reachable d c -> NoDup (map leaf_hash (canonical_epoch_governance_leaves (g_st c) ep)).
Proof.
  intros Hr. pose proof (gov_reachable_leaves d proposal_ids_distinct _ Hr) as HL.
  pose proof (pub_nodup _ (gov_reachable_pub _ Hr) ep) as Hnd. unfold canonical_epoch_governance_leaves, sort_governance_leaves.
  rewrite sort_by_perm. induction (gs_epoch_leaf_ids (g_st c) !!! ep) as [|h ids IH]; simpl; [constructor|].
  apply NoDup_cons in Hnd as [Hh Hnd]. destruct (gs_leaves_by_id (g_st c) !! h) as [l|] eqn:E; [|by apply IH].
  simpl. constructor; [|by apply IH]. rewrite (proj1 (lf_leaf _ HL _ _ E)).
  intros (l' & -> & (h' & Hin & E')%list_elem_of_omap)%list_elem_of_fmap. apply Hh.
  by rewrite (proj1 (lf_leaf _ HL _ _ E')).
Qed.
End Origins.
