(* ===== verification/GovernanceWitnesses.v ===== *)
(** * A governance run on the Earth chain

    Accounts 1 and 2 hold 60 and 40.  In epoch 0 account 1 proposes version 2
    for Mars and votes for it; in epoch 1 the proposal is closed and accepted
    with activation epoch 5, and Mars's acknowledgement is imported; a proposal
    of the Moon for Earth and Mars is imported as well; the block that opens
    epoch 5 activates the first one.  The theorems about governance are applied
    to the states of this run, in the reference codec. *)

From S2P Require Import Prelude Types Codec Reference Merkle Frame Governance GovernanceProofs VotingProofs PublicationProofs.

#[local] Existing Instance reference_codec.
#[local] Existing Instance reference_codec_ok.
#[local] Existing Instance reference_codec_sep.
#[local] Existing Instance reference_account.
#[local] Existing Instance reference_account_ok.

Lemma example_proposal_ids (d1 d2 : DomainId) s1 s2 :
  0 <= s1 < u64_max -> 0 <= s2 < u64_max ->
  governance_proposal_id d1 s1 = governance_proposal_id d2 s2 -> d1 = d2 /\ s1 = s2.
Proof. intros _ _ E. apply scale_encode_inj in E. split; congruence. Qed.

Definition example_id : hash := governance_proposal_id Earth 0.
Definition example_balance (a : @AccountId reference_account) : Z :=
  if decide (a = acct 1) then 60 else if decide (a = acct 2) then 40 else 0.
Definition mars_ack : ImportedGovernanceAckClaim :=
  {| iga_version := 1;
     iga_leaf := ack_from_hash_input
       {| gai_version := GOVERNANCE_ACK_LEAF_VERSION; gai_proposal_id := example_id;
          gai_source_domain := Earth; gai_target_domain := Earth; gai_acknowledging_domain := Mars;
          gai_target_domains := [Mars]; gai_payload_hash := payload_hash (SetProtocolVersion 2);
          gai_new_protocol_version := 2; gai_activation_epoch := 5; gai_acknowledged_epoch := 1 |};
     iga_summary_hash := [51]; iga_package_hash := [52] |}.
Definition moon_proposal : ImportedGovernanceProposalClaim :=
  {| igp_version := 1;
     igp_leaf := proposal_from_hash_input
       {| gpi_version := GOVERNANCE_PROPOSAL_LEAF_VERSION; gpi_proposal_id := governance_proposal_id Moon 0;
          gpi_source_domain := Moon; gpi_target_domain := Earth; gpi_target_domains := [Earth; Mars];
          gpi_proposer := [3]; gpi_payload_hash := payload_hash (SetProtocolVersion 3);
          gpi_new_protocol_version := 3; gpi_created_epoch := 0; gpi_voting_start_epoch := 0;
          gpi_voting_end_epoch := 1; gpi_approval_epoch := 1; gpi_activation_epoch := 5 |};
     igp_summary_hash := [53]; igp_package_hash := [54] |}.

Definition gx0 : GovernanceState := governance_genesis 1 (Some (acct 7)) [acct 1; acct 2].
Definition gx1 := ok_or gx0 (create_proposal Earth 0 example_balance (Signed (acct 1)) [Mars] 2 gx0).
Definition gx2 := ok_or gx1 (cast_vote 0 example_sys (Signed (acct 1)) example_id Yes gx1).
Definition gx3 := governance_on_initialize example_sys 1 gx2.
Definition gx4 := ok_or gx3 (close_proposal 1 (Signed (acct 2)) example_id gx3).
Definition gx5 := ok_or gx4 (import_verified_governance_ack Earth 1 example_sys (Signed (acct 7)) mars_ack gx4).
Definition gx6 := ok_or gx5
  (import_verified_governance_proposal Earth 1 example_sys (Signed (acct 7)) moon_proposal gx5).
Definition gx7 := governance_on_initialize example_sys 4
  (governance_on_initialize example_sys 3 (governance_on_initialize example_sys 2 gx6)).
Definition gx8 := governance_on_initialize example_sys 5 gx7.

(** ** The run *)

Lemma example_create : gov_step Earth (mkGov gx0 0) (mkGov gx1 0).
Proof.
  apply (gov_create Earth gx0 0 example_balance (Signed (acct 1)) [Mars] 2 gx1).
  - by vm_compute.
  - intros a. unfold example_balance. repeat case_decide; lia.
  - by vm_compute.
  - vm_compute. reflexivity.
Qed.
Lemma example_vote : gov_step Earth (mkGov gx1 0) (mkGov gx2 0).
Proof. apply (gov_vote Earth gx1 0 example_sys (Signed (acct 1)) example_id Yes). vm_compute. reflexivity. Qed.
Lemma example_block1 : gov_step Earth (mkGov gx2 0) (mkGov gx3 1).
Proof. apply (gov_block Earth gx2 0 example_sys 1); [by right|by vm_compute|done]. Qed.
Lemma example_closed : close_proposal 1 (Signed (acct 2)) example_id gx3 = Ok gx4.
Proof. vm_compute. reflexivity. Qed.
Lemma example_close : gov_step Earth (mkGov gx3 1) (mkGov gx4 1).
Proof. exact (gov_close Earth gx3 1 _ _ _ example_closed). Qed.
Lemma example_ack : gov_step Earth (mkGov gx4 1) (mkGov gx5 1).
Proof. apply (gov_import_ack Earth gx4 1 example_sys (Signed (acct 7)) mars_ack). vm_compute. reflexivity. Qed.
Lemma example_imported :
  import_verified_governance_proposal Earth 1 example_sys (Signed (acct 7)) moon_proposal gx5 = Ok gx6.
Proof. vm_compute. reflexivity. Qed.
Lemma example_import : gov_step Earth (mkGov gx5 1) (mkGov gx6 1).
Proof.
  refine (gov_import Earth gx5 1 example_sys (Signed (acct 7)) moon_proposal gx6 0 _ _ example_imported).
  - by vm_compute.
  - reflexivity.
Qed.
Lemma example_blocks : rtc (gov_step Earth) (mkGov gx6 1) (mkGov gx7 4).
Proof.
  eapply rtc_l; [|eapply rtc_l; [|eapply rtc_l; [|done]]].
  - apply (gov_block Earth gx6 1 example_sys 2); [by right|by vm_compute|done].
  - apply (gov_block Earth _ 2 example_sys 3); [by right|by vm_compute|done].
  - apply (gov_block Earth _ 3 example_sys 4); [by right|by vm_compute|done].
Qed.
Lemma example_activation : gov_step Earth (mkGov gx7 4) (mkGov gx8 5).
Proof. apply (gov_block Earth gx7 4 example_sys 5); [by right|by vm_compute|done]. Qed.

Lemma reach0 : gov_reachable Earth (mkGov gx0 0).
Proof. exists (mkGov gx0 0). split; [split; [by do 3 eexists|done]|done]. Qed.
Lemma reach3 : gov_reachable Earth (mkGov gx3 1).
Proof.
  eapply gov_reachable_step, example_block1. eapply gov_reachable_step, example_vote.
  eapply gov_reachable_step, example_create. apply reach0.
Qed.
Lemma reach4 : gov_reachable Earth (mkGov gx4 1).
Proof. eapply gov_reachable_step, example_close. apply reach3. Qed.
Lemma reach5 : gov_reachable Earth (mkGov gx5 1).
Proof. eapply gov_reachable_step, example_ack. apply reach4. Qed.
Lemma reach6 : gov_reachable Earth (mkGov gx6 1).
Proof. eapply gov_reachable_step, example_import. apply reach5. Qed.
Lemma reach7 : gov_reachable Earth (mkGov gx7 4).
Proof. destruct reach6 as (c & Hi & Hr). exists c. split; [done|]. etrans; [exact Hr|exact example_blocks]. Qed.
Lemma reach8 : gov_reachable Earth (mkGov gx8 5).
Proof. eapply gov_reachable_step, example_activation. apply reach7. Qed.

(** Proposals of the run name at most two domains. *)
Definition plain_b (st : GovernanceState) : bool :=
  forallb (fun kp => (length (gp_target_domains kp.2) <=? 4)%nat) (map_to_list (gs_proposals_by_id st)).
Lemma plain_b_spec st : plain_b st = true -> plain_proposals st.
Proof.
  intros Hf id p Hp. unfold plain_b in Hf. rewrite forallb_forall in Hf.
  apply elem_of_map_to_list, list_elem_of_In in Hp. by apply Hf, Nat.leb_le in Hp.
Qed.
Lemma plain6 : plain_proposals gx6.
Proof. apply plain_b_spec. vm_compute. reflexivity. Qed.

(** Reading off a proposal of the run. *)
Lemma proposal_in {A} (f : GovernanceProposal -> A) (st : GovernanceState) id a :
  f <$> gs_proposals_by_id st !! id = Some a ->
  exists p, gs_proposals_by_id st !! id = Some p /\ f p = a.
Proof. intros (p & Hp & Hf)%fmap_Some. by exists p. Qed.
Definition facts (p : GovernanceProposal) : GovernanceProposalStatus * list DomainId * Z * Z :=
  (gp_status p, gp_target_domains p, gp_activation_epoch p, gp_yes_voting_power p).

Lemma facts3 : exists p, gs_proposals_by_id gx3 !! example_id = Some p /\ facts p = (Voting, [Mars], 0, 60).
Proof. apply proposal_in. vm_compute. reflexivity. Qed.
Lemma facts4 : exists p, gs_proposals_by_id gx4 !! example_id = Some p /\ facts p = (LocallyFinalized, [Mars], 5, 60).
Proof. apply proposal_in. vm_compute. reflexivity. Qed.
Lemma facts7 : exists p, gs_proposals_by_id gx7 !! example_id = Some p /\ facts p = (Scheduled, [Mars], 5, 60).
Proof. apply proposal_in. vm_compute. reflexivity. Qed.
Lemma facts8 : exists p, gs_proposals_by_id gx8 !! example_id = Some p /\ facts p = (Activated, [Mars], 5, 60).
Proof. apply proposal_in. vm_compute. reflexivity. Qed.

Lemma leaf6 : exists l, l ∈ canonical_epoch_governance_leaves gx6 1.
Proof.
  assert (length (canonical_epoch_governance_leaves gx6 1) = 3%nat) as Hn by (vm_compute; reflexivity).
  revert Hn. generalize (canonical_epoch_governance_leaves gx6 1). intros [|l ls] Hn; [done|].
  exists l. apply list_elem_of_here.
Qed.
Lemma vote3 : exists v, gs_votes_by_key gx3 !! (example_id, account_to_bytes (acct 1)) = Some v.
Proof. eexists. vm_compute. reflexivity. Qed.

#[local] Opaque gx0 gx1 gx2 gx3 gx4 gx5 gx6 gx7 gx8 example_id.

(** ** Witnesses *)

Lemma activation_requires_acks_witness :
  exists p, gs_proposals_by_id gx8 !! example_id = Some p /\ gp_status p = Activated /\
    is_Some (gs_ack_records_by_key gx8 !! (example_id, Mars)).
Proof.
  destruct facts8 as (p & Hp & [= Hs Ht _ _]). exists p. split; [exact Hp|]. split; [exact Hs|].
  destruct (activation_requires_acks Earth example_proposal_ids (mkGov gx8 5) example_id p reach8 Hp Hs)
    as (r & ea & _ & _ & _ & Hall). apply Hall. rewrite Ht. apply list_elem_of_here.
Defined.

Lemma scheduled_activates_on_time_witness :
  exists p', gs_proposals_by_id (governance_on_initialize example_sys 5 gx7) !! example_id = Some p' /\
    gp_status p' = Activated.
Proof.
  destruct facts7 as (p & Hp & [= Hs _ He _]).
  refine (scheduled_activates_on_time Earth example_proposal_ids gx7 4 example_sys 5 example_id p reach7 _ _ Hp Hs _).
  - by right.
  - done.
  - rewrite He. lia.
Defined.

Lemma proposal_lifecycle_witness :
  exists p', gs_proposals_by_id gx8 !! example_id = Some p' /\ 3 <= gov_rank (gp_status p').
Proof.
  destruct facts7 as (p & Hp & [= Hs _ _ _]).
  destruct (proposal_lifecycle Earth example_proposal_ids (mkGov gx7 4) (mkGov gx8 5) example_id p
              reach7 example_activation Hp) as (p' & Hp' & _ & Hr & _).
  exists p'. split; [exact Hp'|]. by rewrite Hs in Hr.
Defined.

Lemma version_changes_by_activation_witness :
  exists id p, gs_proposals_by_id gx7 !! id = Some p /\ gp_status p = Scheduled /\
    gs_protocol_version gx8 = protocol_version (gp_payload p).
Proof.
  destruct (version_changes_by_activation Earth example_proposal_ids (mkGov gx7 4) (mkGov gx8 5)
              reach7 example_activation) as (id & p & Hp & Hs & _ & Hv); [vm_compute; congruence|].
  exists id, p. split; [exact Hp|]. split; [exact Hs|exact Hv].
Defined.

Lemma tally_exact_witness : votes_for gx3 example_id Yes = 60.
Proof.
  destruct facts3 as (p & Hp & [= _ _ _ Hy]).
  destruct (tally_exact Earth example_proposal_ids (mkGov gx3 1) example_id p reach3 Hp) as [Ht _].
  exact (eq_trans (eq_sym (Ht Yes)) Hy).
Defined.

Lemma close_decides_witness :
  total_power gx3 example_id <= 2 * turnout gx3 example_id /\
  turnout gx3 example_id < 2 * votes_for gx3 example_id Yes.
Proof.
  destruct facts3 as (p & Hp & _), facts4 as (p4 & Hp4 & [= Hs _ _ _]).
  destruct (close_decides Earth example_proposal_ids gx3 1 (Signed (acct 2)) example_id p gx4 reach3 Hp
              example_closed) as (_ & _ & p' & Hp' & _ & Hiff).
  apply Hiff. rewrite Hp4 in Hp'. injection Hp' as <-. exact Hs.
Defined.

Lemma example_rest : rtc (gov_step Earth) (mkGov gx3 1) (mkGov gx6 1).
Proof.
  eapply rtc_l; [exact example_close|]. eapply rtc_l; [exact example_ack|]. apply rtc_once, example_import.
Qed.

Lemma votes_final_witness :
  exists err, cast_vote 1 example_sys (Signed (acct 1)) example_id No gx6 = Err err.
Proof.
  destruct vote3 as [v Hv].
  destruct (votes_final Earth example_proposal_ids (mkGov gx3 1) (mkGov gx6 1) example_id (acct 1) v
              reach3 example_rest Hv) as [_ Herr]. exact (Herr example_sys No).
Defined.

Lemma approved_proposal_published_witness :
  exists p, gs_proposals_by_id gx4 !! example_id = Some p /\
    (proposal_leaf_for p 1 Mars ∈ canonical_epoch_governance_leaves gx6 1 \/ collision blake2_256).
Proof.
  destruct facts4 as (p & Hp & [= Hs Ht _ _]). exists p. split; [exact Hp|].
  refine (approved_proposal_published Earth example_proposal_ids gx3 1 (Signed (acct 2)) example_id gx4
    (mkGov gx6 1) p reach3 example_closed Hp Hs _ plain6 Mars _).
  - eapply rtc_l; [exact example_ack|]. apply rtc_once, example_import.
  - rewrite Ht. apply list_elem_of_here.
Defined.

Lemma import_acknowledged_to_all_witness :
  ack_leaf_for (imported_proposal (igp_leaf moon_proposal)) Earth 1 Moon
    ∈ canonical_epoch_governance_leaves gx6 1 \/ collision blake2_256.
Proof.
  refine (import_acknowledged_to_all Earth example_proposal_ids gx5 1 example_sys (Signed (acct 7))
    moon_proposal 0 gx6 (mkGov gx6 1) reach5 _ _ example_imported _ plain6 Moon _ _).
  - by vm_compute.
  - reflexivity.
  - constructor.
  - done.
  - right. reflexivity.
Defined.

Lemma epoch_governance_root_exact_witness :
  exists l proof, l ∈ canonical_epoch_governance_leaves gx6 1 /\
    build_governance_inclusion_proof (canonical_epoch_governance_leaves gx6 1) (leaf_hash l) = Some proof /\
    verify_governance_inclusion_proof (commit_epoch_governance Earth 1 1 10 gx6) proof = true.
Proof.
  destruct (epoch_governance_root_exact Earth example_proposal_ids (mkGov gx6 1) 1 1 10 reach6 plain6)
    as [Hall _]; [vm_compute; congruence|].
  destruct leaf6 as [l Hl]. destruct (Hall l Hl) as (proof & Hb & _ & Hv).
  exists l, proof. split; [exact Hl|]. split; [exact Hb|exact Hv].
Defined.
