(* ===== verification/Runtime.v ===== *)
(** * The runtime ([chain/runtime/src/lib.rs])

    The pallets put together: their shared state, the providers through which
    the epochs pallet reaches the others, the dispatch of calls and the
    execution of a block.  FRAME runs the hooks of the pallets in the order of
    their indices (domain 7, epochs 8, transfers 9, governance 10) and discards
    the storage changes of a call that fails. *)

From S2P Require Import Prelude Types Codec Reference Merkle Frame Domain Epochs Transfers Governance.

(** ** State *)
Section Runtime.
Context `{!Codec, !Account, !Currency B}.

(** Everything outside the epochs pallet: the GRANDPA authority set, the
    balances and the storage of the other pallets. *)
Record World : Type := mkWorld {
  w_grandpa_set_id : Z;
  w_grandpa_authorities : list (bytes * Z);
  w_balances : B;
  w_domain : DomainState;
  w_transfers : TransfersState;
  w_governance : GovernanceState
}.
#[export] Instance World_settable : Settable World :=
  fun r => mkWorld (w_grandpa_set_id r) (w_grandpa_authorities r) (w_balances r) (w_domain r)
    (w_transfers r) (w_governance r).

(** [Domain::domain_id()]. *)
Definition local_domain_id (w : World) : DomainId := ds_domain_id (w_domain w).

(** [EpochSummaryRuntimeContext] and the three commitment providers. *)
#[export] Instance runtime_providers : EpochProviders World := {
  ctx_domain_id := local_domain_id;
  ctx_validator_set_hash := fun w => validator_set_hash (w_grandpa_set_id w) (w_grandpa_authorities w);
  commit_epoch_exports_hook := fun epoch_id start_block_height end_block_height w =>
    let '(root, transfers) := commit_epoch_exports (local_domain_id w) epoch_id start_block_height
                                end_block_height (w_transfers w) in
    (root, w {{ w_transfers := transfers }});
  commit_epoch_imports_hook := fun epoch_id start_block_height end_block_height w =>
    (commit_epoch_imports (local_domain_id w) epoch_id start_block_height end_block_height
       (w_transfers w), w);
  commit_epoch_governance_hook := fun epoch_id start_block_height end_block_height w =>
    (commit_epoch_governance (local_domain_id w) epoch_id start_block_height end_block_height
       (w_governance w), w)
}.

Record Chain : Type := mkChain {
  ch_world : World;
  ch_epochs : EpochsState
}.
#[export] Instance Chain_settable : Settable Chain := fun r => mkChain (ch_world r) (ch_epochs r).

(** [Epochs::current_epoch()]. *)
Definition current_epoch (ch : Chain) : Z := es_current_epoch (ch_epochs ch).

(** ** Genesis ([genesis_patch] of [chain/node/src/chain_spec.rs])

    The accounts and keys derived from the configured seeds are arguments, and so
    is [balances_genesis], the genesis build of the balances pallet. *)

Definition endowment : Z := Z.shiftl 1 60.

(** [if !endowed.iter().any(..) { endowed.push(..) }]. *)
Definition endow (endowed_accounts : list (AccountId * Z)) (account : AccountId) : list (AccountId * Z) :=
  if existsb (fun '(a, _) => bool_decide (a = account)) endowed_accounts then endowed_accounts
  else endowed_accounts ++ [(account, endowment)].

Definition genesis_endowed_accounts (endowed authority_accounts : list AccountId)
    (importer_account : AccountId) : list (AccountId * Z) :=
  let endowed_accounts := map (fun a => (a, endowment)) endowed in
  endow (foldl endow endowed_accounts authority_accounts) importer_account.

Definition chain_genesis (balances_genesis : list (AccountId * Z) -> B) (chain_identity : ChainIdentity)
    (epoch_length_blocks : Z) (endowed authority_accounts : list AccountId) (grandpa_keys : list bytes)
    (importer_account : AccountId) : Chain :=
  let endowed_accounts := genesis_endowed_accounts endowed authority_accounts importer_account in
  let governance_voters := map fst endowed_accounts in
  mkChain
    (mkWorld 0 (map (fun key => (key, 1)) grandpa_keys) (balances_genesis endowed_accounts)
       (domain_genesis chain_identity)
       (transfers_genesis (Some importer_account))
       (governance_genesis 1 (Some importer_account) governance_voters))
    (epochs_genesis epoch_length_blocks).

(** ** Calls *)

(** [RuntimeCall], for the pallets of the protocol. *)
Inductive RuntimeCall : Type :=
| CreateCrossDomainTransfer (target_domain : DomainId) (recipient : hash) (amount : Z)
| ObserveVerifiedImport (claim : ObservedImportClaim)
| FinalizeVerifiedImport (export_id : hash)
| AcknowledgeRemoteFinalization (claim : RemoteFinalizationClaim)
| CreateProposal (target_domains : list DomainId) (new_protocol_version : Z)
| CastVote (proposal_id : hash) (choice : GovernanceVoteChoice)
| CloseProposal (proposal_id : hash)
| ImportVerifiedGovernanceProposal (claim : ImportedGovernanceProposalClaim)
| ImportVerifiedGovernanceAck (claim : ImportedGovernanceAckClaim).

Inductive RuntimeError : Type :=
| TransfersErr (e : TransfersError)
| GovernanceErr (e : GovernanceError).

Definition with_transfers (ch : Chain) (r : result TransfersError (B * TransfersState))
    : result RuntimeError Chain :=
  match r with
  | Ok (b, st) => Ok (ch {{ ch_world ::= fun w => w {{ w_balances := b }} {{ w_transfers := st }} }})
  | Err e => Err (TransfersErr e)
  end.

Definition with_governance (ch : Chain) (r : result GovernanceError GovernanceState)
    : result RuntimeError Chain :=
  match r with
  | Ok st => Ok (ch {{ ch_world ::= fun w => w {{ w_governance := st }} }})
  | Err e => Err (GovernanceErr e)
  end.

Definition dispatch (sys : System) (origin : Origin) (call : RuntimeCall) (ch : Chain)
    : result RuntimeError Chain :=
  let w := ch_world ch in
  let d := local_domain_id w in
  let epoch := current_epoch ch in
  let bs := (w_balances w, w_transfers w) in
  let gs := w_governance w in
  match call with
  | CreateCrossDomainTransfer target recipient amount =>
    with_transfers ch (create_cross_domain_transfer d epoch sys origin target recipient amount bs)
  | ObserveVerifiedImport claim => with_transfers ch (observe_verified_import d sys origin claim bs)
  | FinalizeVerifiedImport id => with_transfers ch (finalize_verified_import d epoch sys origin id bs)
  | AcknowledgeRemoteFinalization claim =>
    with_transfers ch (acknowledge_remote_finalization d sys origin claim bs)
  | CreateProposal targets version =>
    with_governance ch (create_proposal d epoch (cur_balance (w_balances w)) origin targets version gs)
  | CastVote id choice => with_governance ch (cast_vote epoch sys origin id choice gs)
  | CloseProposal id => with_governance ch (close_proposal epoch origin id gs)
  | ImportVerifiedGovernanceProposal claim =>
    with_governance ch (import_verified_governance_proposal d epoch sys origin claim gs)
  | ImportVerifiedGovernanceAck claim =>
    with_governance ch (import_verified_governance_ack d epoch sys origin claim gs)
  end.

(** An extrinsic: the protocol call it makes, if any, and what the transaction
    extensions (fees) and the calls of other pallets do to the balances before
    it. *)
Record Extrinsic : Type := mkExtrinsic {
  xt_origin : Origin;
  xt_call : option RuntimeCall;
  xt_balances : B -> B
}.

Definition charge (xt : Extrinsic) (ch : Chain) : Chain :=
  ch {{ ch_world ::= fun w => w {{ w_balances ::= xt_balances xt }} }}.

(** The system values a call sees: those of the block, with its index. *)
Definition at_index (sys : System) (index : Z) : System :=
  mkSystem (sys_block_number sys) (sys_parent_hash sys) (Some index) (sys_extrinsic_count sys)
    (sys_all_extrinsics_len sys) (sys_event_count sys) (sys_storage_root sys).

Definition apply_extrinsic (sys : System) (xt : Extrinsic) (ch : Chain) : Chain :=
  let ch := charge xt ch in
  match xt_call xt with
  | None => ch
  | Some call =>
    match dispatch sys (xt_origin xt) call ch with
    | Ok ch' => ch'
    | Err _ => ch
    end
  end.

(** ** Blocks *)

(** The hooks: [on_initialize] of the domain, epochs and governance pallets. *)
Definition initialize_block (sys : System) (ch : Chain) : Chain :=
  let w := (ch_world ch) {{ w_domain ::= domain_on_initialize (sys_block_number sys) }} in
  let '(w, es) := epochs_on_initialize sys (w, ch_epochs ch) in
  mkChain (w {{ w_governance ::= governance_on_initialize sys (es_current_epoch es) }}) es.

Fixpoint apply_extrinsics (sys : System) (index : Z) (xts : list Extrinsic) (ch : Chain) : Chain :=
  match xts with
  | [] => ch
  | xt :: xts => apply_extrinsics sys (index + 1) xts (apply_extrinsic (at_index sys index) xt ch)
  end.

Definition finalize_block (sys : System) (ch : Chain) : Chain :=
  ch {{ ch_epochs ::= epochs_on_finalize sys }}.

(** A block: its system values, the authority set in force, its extrinsics. *)
Record BlockInput : Type := mkBlockInput {
  bl_sys : System;
  bl_set_id : Z;
  bl_authorities : list (bytes * Z);
  bl_extrinsics : list Extrinsic
}.

Definition enter_block (bl : BlockInput) (ch : Chain) : Chain :=
  initialize_block (bl_sys bl)
    (ch {{ ch_world ::= fun w => w {{ w_grandpa_set_id := bl_set_id bl }}
                                   {{ w_grandpa_authorities := bl_authorities bl }} }}).

Definition execute_block (bl : BlockInput) (ch : Chain) : Chain :=
  finalize_block (bl_sys bl) (apply_extrinsics (bl_sys bl) 0 (bl_extrinsics bl) (enter_block bl ch)).
End Runtime.
Arguments World {_} _.
Arguments Chain {_} _.
Arguments Extrinsic {_} _.
Arguments BlockInput {_} _.
