(* ===== verification/RuntimeProofs.v ===== *)
(** * Correctness of the runtime

    Every execution of the chain is an execution of each pallet's transition
    system, so what holds of those holds of the chain; and the summary header of
    a closed epoch carries the commitments to what the pallets recorded in that
    epoch, for good. *)

From S2P Require Import Prelude Types Codec Reference Merkle Frame Domain Epochs Transfers TransfersProofs Governance GovernanceProofs PublicationProofs Runtime.

(** What finalizing an import changes. *)
Lemma finalize_changes `{!Codec, !Account, !Currency B} dom e sys origin id (b : B) st b' st' :
  finalize_verified_import dom e sys origin id (b, st) = Ok (b', st') ->
  exists r r', ts_observed_imports_by_id st !! id = Some r /\ oir_status r = ImportRemoteObserved /\
    ts_exports_by_id st' = ts_exports_by_id st /\ ts_epoch_export_ids st' = ts_epoch_export_ids st /\
    ts_observed_imports_by_id st' = <[id := r']> (ts_observed_imports_by_id st) /\
    forall ep, ep <> e -> epoch_finalized_import_ids st' ep = epoch_finalized_import_ids st ep.
Proof.
  unfold finalize_verified_import. intros Hop. dispatch_inv Hop. bool_to_prop. simplify_eq. do 2 eexists.
  split_and!; [done..|reflexivity|]. intros ep Hne. unfold epoch_finalized_import_ids. simpl.
  by rewrite lookup_total_insert_ne.
Qed.

(** ** Closed epochs do not change *)
Section Stable.
Context `{!Codec, !Account, !AccountOk, !Currency B, !CurrencyOk B}.
Context (d : DomainId).
Context (export_ids_distinct : forall s s',
  0 <= s < u64_max -> 0 <= s' < u64_max -> export_id d s = export_id d s' -> s = s').

(** What the transfers pallet has committed to for an epoch. *)
Definition same_commitments (st st' : TransfersState) (ep : Z) : Prop :=
  canonical_epoch_exports st' ep = canonical_epoch_exports st ep /\
  canonical_epoch_finalized_imports st' ep = canonical_epoch_finalized_imports st ep.

Lemma same_commitments_frame st st' ep :
  ts_epoch_export_ids st' = ts_epoch_export_ids st -> ts_exports_by_id st' = ts_exports_by_id st ->
  ts_epoch_finalized_import_ids st' = ts_epoch_finalized_import_ids st ->
  ts_observed_imports_by_id st' = ts_observed_imports_by_id st ->
  same_commitments st st' ep.
Proof.
  intros E1 E2 E3 E4. unfold same_commitments, canonical_epoch_exports, canonical_epoch_finalized_imports,
    epoch_export_ids, epoch_finalized_import_ids. rewrite E1, E2, E3, E4. done.
Qed.

(** Changing records of one kind whose identifiers the epoch does not list. *)
Lemma exports_stable st st' ep :
  epoch_export_ids st' ep = epoch_export_ids st ep ->
  (forall id, id ∈ epoch_export_ids st ep ->
     er_leaf <$> ts_exports_by_id st' !! id = er_leaf <$> ts_exports_by_id st !! id) ->
  canonical_epoch_exports st' ep = canonical_epoch_exports st ep.
Proof.
  intros E Hl. unfold canonical_epoch_exports. rewrite E. f_equal. by apply omap_ext_in.
Qed.

Lemma imports_stable st st' ep :
  epoch_finalized_import_ids st' ep = epoch_finalized_import_ids st ep ->
  (forall id, id ∈ epoch_finalized_import_ids st ep ->
     ts_observed_imports_by_id st' !! id = ts_observed_imports_by_id st !! id) ->
  canonical_epoch_finalized_imports st' ep = canonical_epoch_finalized_imports st ep.
Proof.
  intros E Hl. unfold canonical_epoch_finalized_imports. rewrite E. f_equal. apply omap_ext_in.
  intros id Hid. by rewrite (Hl id Hid).
Qed.

(** Marking exports changes statuses only. *)
Lemma commit_stable e s t st root st' ep :
  commit_epoch_exports d e s t st = (root, st') -> same_commitments st st' ep.
Proof.
  intros E. injection E as <- <-.
  destruct (foldl_mark_frame e (canonical_epoch_exports st e) st) as (_ & E1 & _ & E2 & E3 & _). split.
  - apply exports_stable; [unfold epoch_export_ids; by rewrite E1|]. intros id _.
    rewrite (foldl_mark_lookup d export_ids_distinct). destruct (ts_exports_by_id st !! id); [|done]. simpl. by case_decide.
  - unfold canonical_epoch_finalized_imports, epoch_finalized_import_ids. by rewrite E2, E3.
Qed.

Lemma finalized_in_epoch (c : TransfersConf (B := B)) ep id r :
  ImportsInv d c -> ts_observed_imports_by_id (c_st c) !! id = Some r ->
  id ∈ epoch_finalized_import_ids (c_st c) ep -> oir_status r = ImportRemoteFinalized.
Proof.
  intros HI Hr Hin. destruct (proj1 (inv_finalized_ids _ _ HI id)) as (r' & Hr' & Hs); [by eexists|].
  congruence.
Qed.

Lemma create_stable (b : B) st e sys origin target recipient amount (b' : B) st' ep :
  ExportsInv d (mkConf b st e) -> ts_next_export_sequence st < u64_max -> ep <> e ->
  create_cross_domain_transfer d e sys origin target recipient amount (b, st) = Ok (b', st') ->
  same_commitments st st' ep.
Proof.
  intros HI Hlt Hne Hop. unfold create_cross_domain_transfer in Hop. dispatch_inv Hop. bool_to_prop. simplify_eq.
  split; [|done]. apply exports_stable; unfold epoch_export_ids; simpl;
    [by rewrite lookup_total_insert_ne|].
  intros id Hid. rewrite lookup_insert_ne; [done|]. intros <-.
  apply (inv_export_ids _ _ HI) in Hid as (r & Hr & _). simpl in Hr.
  pose proof (fresh_export_id d export_ids_distinct _ HI Hlt) as Hf. simpl in Hf. congruence.
Qed.

Lemma transfers_step_stable (c c' : TransfersConf (B := B)) ep :
  TransfersInv d c -> transfers_step d c c' -> ep <> c_epoch c -> same_commitments (c_st c) (c_st c') ep.
Proof.
  intros [HI HI'] Hs Hne. destruct Hs as [b st e sys origin target recipient amount b' st' Hlt Hop
    |b st e sys origin claim b' st' Hop|b st e sys origin id b' st' Hop|b st e sys origin claim b' st' Hop
    |b st e s t root st' Hop|b st e b' Hb]; simpl in *.
  - eapply create_stable; [exact HI|exact Hlt|exact Hne|exact Hop].
  - unfold observe_verified_import in Hop. dispatch_inv Hop. bool_to_prop. simplify_eq. split; [done|].
    apply imports_stable; [done|]. intros id Hid. simpl. rewrite lookup_insert_ne; [done|]. intros <-.
    destruct (proj1 (inv_finalized_ids _ _ HI' (oic_export_id claim))) as (r & Hr & _); [by eexists|].
    simpl in Hr. congruence.
  - apply finalize_changes in Hop as (r & r' & Hr & Hobs & E1 & E2 & E3 & E4). split.
    + apply exports_stable; [unfold epoch_export_ids; by rewrite E2|by rewrite E1].
    + apply imports_stable; [by apply E4|]. intros id' Hid. rewrite E3, lookup_insert_ne; [done|]. intros <-.
      pose proof (finalized_in_epoch _ ep id r HI' Hr Hid). congruence.
  - apply (acknowledge_inv d export_ids_distinct) in Hop as (importer & r & r' & _ & _ & _ & Hr & Hres & ->). split; [|done].
    apply exports_stable; [done|]. intros id' _. simpl.
    destruct (decide (id' = rfc_export_id claim)) as [->|]; [|by rewrite lookup_insert_ne].
    rewrite lookup_insert_eq, Hr. simpl. f_equal.
    by destruct (resolve_export_inv _ _ _ _ _ _ _ Hres) as (_ & _ & _ & _ & _ & _ & ? & _).
  - by eapply commit_stable.
  - done.
Qed.
End Stable.

Section GovStable.
Context `{!Codec, !CodecOk, !CodecSep, !Account, !AccountOk}.
Context (d : DomainId).
Context (proposal_ids_distinct : forall d1 d2 s1 s2,
  0 <= s1 < u64_max -> 0 <= s2 < u64_max ->
  governance_proposal_id d1 s1 = governance_proposal_id d2 s2 -> d1 = d2 /\ s1 = s2).

(** Leaves are added to the current epoch only, and none is removed. *)
Definition leaves_grow (e : Z) (st st' : GovernanceState) : Prop :=
  (forall ep, ep <> e -> gs_epoch_leaf_ids st' !!! ep = gs_epoch_leaf_ids st !!! ep) /\
  (forall h, is_Some (gs_leaves_by_id st !! h) -> is_Some (gs_leaves_by_id st' !! h)).

Lemma leaves_grow_same e st st' :
  gs_epoch_leaf_ids st' = gs_epoch_leaf_ids st -> gs_leaves_by_id st' = gs_leaves_by_id st ->
  leaves_grow e st st'.
Proof. intros E1 E2. unfold leaves_grow. by rewrite E1, E2. Qed.

Lemma leaves_grow_trans e st1 st2 st3 :
  leaves_grow e st1 st2 -> leaves_grow e st2 st3 -> leaves_grow e st1 st3.
Proof.
  intros [A1 A2] [B1 B2]. split; [|eauto]. intros ep Hne. by rewrite (B1 ep Hne), (A1 ep Hne).
Qed.

Lemma insert_leaves_grow {A} (f : A -> GovernanceLeaf) e xs st :
  leaves_grow e st (foldl (fun st x => insert_epoch_leaf e st (f x)) st xs).
Proof.
  revert st. induction xs as [|x xs IH]; intros st; simpl; [by apply leaves_grow_same|].
  eapply leaves_grow_trans; [|apply IH]. split; simpl.
  - intros ep Hne. by rewrite lookup_total_insert_ne.
  - intros h Hh. destruct (decide (h = leaf_hash (f x))) as [->|].
    + rewrite lookup_insert_eq. by eexists.
    + by rewrite lookup_insert_ne.
Qed.

Lemma gov_step_grow c c' : ActInv c -> gov_step d c c' -> leaves_grow (g_epoch c) (g_st c) (g_st c').
Proof.
  intros HA Hstep.
  destruct Hstep as [st e balance origin targets version st' Hlt Hb Hsum Hop
    |st e sys origin id choice st' Hop|st e origin id st' Hop|st e sys origin claim st' seq Hseq Hid Hop
    |st e sys origin claim st' Hop|st e sys e' He Hmax Hn]; simpl in *.
  - apply create_proposal_inv in Hop as (? & ? & ? & ? & _ & _ & _ & _ & _ & ->). by apply leaves_grow_same.
  - apply cast_vote_inv in Hop as (? & ? & ? & ? & -> & _). by apply leaves_grow_same.
  - apply close_proposal_inv in Hop as (p & Hp & _ & _ & Hcase).
    destruct (_ && _); subst st'; [|by apply leaves_grow_same].
    set (st1 := store_activation_record (accepted e p) [] None st).
    apply (leaves_grow_trans e st st1); [by apply leaves_grow_same|].
    exact (insert_leaves_grow (proposal_leaf_for (accepted e p) e) e (gp_target_domains p) st1).
  - apply import_proposal_inv in Hop. cbv zeta in Hop. destruct Hop as (_ & _ & _ & _ & _ & ->).
    set (leaf := igp_leaf claim). eapply leaves_grow_trans; [|apply leaves_grow_same;
      [exact (proj2 (schedule_same_leaves _ _ _))|exact (proj1 (schedule_same_leaves _ _ _))]].
    unfold import_base, record_local_ack_and_fanout.
    match goal with |- context [foldl _ ?st1 _] => apply (leaves_grow_trans e st st1); [by apply leaves_grow_same|] end.
    exact (insert_leaves_grow (ack_leaf_for (imported_proposal leaf) d e) e
             (fanout_targets (imported_proposal leaf) d) _).
  - apply import_ack_inv in Hop. cbv zeta in Hop. destruct Hop as (ack & p & _ & _ & _ & _ & _ & _ & _ & ->).
    apply leaves_grow_same; [exact (proj2 (note_known_same_leaves _ _ _ _))|exact (proj1 (note_known_same_leaves _ _ _ _))].
  - pose proof (act_core_mono e e' st ltac:(lia) (proj1 HA)) as HC.
    destruct (on_initialize_spec sys e' st Hn HC) as (st1 & rem & Hr & E & _). rewrite E.
    destruct (act_rtc_frame _ _ _ _ Hr) as (_ & _ & _ & _ & _ & _ & _ & E1 & E2). by apply leaves_grow_same.
Qed.

Lemma plain_before c c' :
  gov_reachable d c -> gov_step d c c' -> plain_proposals (g_st c') -> plain_proposals (g_st c).
Proof.
  intros [HA HI]%gov_reachable_act Hs Hpl id p Hp; [|done].
  destruct (gov_step_forward d proposal_ids_distinct c c' id p HA HI Hs Hp) as (p' & Hp' & Ht & _).
  destruct Ht as (_ & _ & Ht & _). rewrite <-Ht. by eapply Hpl.
Qed.

(** The leaves of an epoch that is over stay as they are. *)
Lemma gov_step_stable c c' ep :
  gov_reachable d c -> gov_step d c c' -> plain_proposals (g_st c') -> ep <> g_epoch c ->
  canonical_epoch_governance_leaves (g_st c') ep = canonical_epoch_governance_leaves (g_st c) ep \/
  collision blake2_256.
Proof.
  intros Hreach Hs Hpl Hne. pose proof (plain_before c c' Hreach Hs Hpl) as Hpl0.
  pose proof (gov_reachable_leaves d proposal_ids_distinct c Hreach) as HL.
  pose proof (gov_reachable_leaves d proposal_ids_distinct c' (gov_reachable_step d c c' Hreach Hs)) as HL'.
  destruct (gov_reachable_act d proposal_ids_distinct c Hreach) as [HA _].
  destruct (gov_step_grow c c' HA Hs) as [Hids Hgrow]. unfold canonical_epoch_governance_leaves.
  rewrite (Hids ep Hne).
  destruct (omap_ext_or (fun h => gs_leaves_by_id (g_st c') !! h) (fun h => gs_leaves_by_id (g_st c) !! h)
              (collision blake2_256) (gs_epoch_leaf_ids (g_st c) !!! ep)) as [E|?]; [|left; by f_equal|by right].
  intros h Hh. destruct (lf_ids _ HL _ _ Hh) as [l Hl]. destruct (Hgrow h) as [l' Hl']; [by eexists|].
  destruct (lf_leaf _ HL _ _ Hl) as [Hh1 Hok], (lf_leaf _ HL' _ _ Hl') as [Hh2 Hok'].
  destruct (leaf_hash_inj l l') as [->|?]; [exact (leaf_ok_plain _ _ Hpl0 Hok)|exact (leaf_ok_plain _ _ Hpl Hok')|apply Hok|apply Hok'| |left; congruence|by right].
  rewrite <-(proj1 Hok), <-(proj1 Hok'). congruence.
Qed.
End GovStable.

(** ** Runs of the chain *)
Section Chain.
Context `{!Codec, !CodecOk, !CodecSep, !Account, !AccountOk, !Currency B, !CurrencyOk B}.
Context (d : DomainId) (L : Z) (HL : 1 <= L).
Context (export_ids_distinct : forall s s',
  0 <= s < u64_max -> 0 <= s' < u64_max -> export_id d s = export_id d s' -> s = s').
Context (proposal_ids_distinct : forall d1 d2 s1 s2,
  0 <= s1 < u64_max -> 0 <= s2 < u64_max ->
  governance_proposal_id d1 s1 = governance_proposal_id d2 s2 -> d1 = d2 /\ s1 = s2).

#[export] Instance runtime_providers_ok : EpochProvidersOk (World B).
Proof.
  by split; intros.
Qed.

(** What a run assumes of an extrinsic: fees and other pallets do not touch the
    pallet's holds, the sequence numbers have not saturated, the voters' balances
    add up to less than [u128::MAX], and imported proposals carry identifiers
    their source domain assigned. *)
Definition call_admissible (ch : Chain B) (call : RuntimeCall) : Prop :=
  let w := ch_world ch in
  match call with
  | CreateCrossDomainTransfer _ _ _ => ts_next_export_sequence (w_transfers w) < u64_max
  | CreateProposal _ _ =>
    gs_next_proposal_sequence (w_governance w) < u64_max /\
    foldr Z.add 0 (map (cur_balance (w_balances w)) (gs_governance_voters (w_governance w))) < u128_max
  | ImportVerifiedGovernanceProposal claim =>
    exists seq, 0 <= seq < u64_max /\ gpl_proposal_id (igp_leaf claim)
      = governance_proposal_id (gpl_source_domain (igp_leaf claim)) seq
  | _ => True
  end.

Definition admissible (ch : Chain B) (xt : Extrinsic B) : Prop :=
  (forall b a, cur_held (xt_balances xt b) a = cur_held b a) /\
  forall call, xt_call xt = Some call -> call_admissible (charge xt ch) call.

Fixpoint admissible_all (sys : System) (index : Z) (xts : list (Extrinsic B)) (ch : Chain B) : Prop :=
  match xts with
  | [] => True
  | xt :: xts =>
    admissible ch xt /\
    admissible_all sys (index + 1) xts (apply_extrinsic (at_index sys index) xt ch)
  end.

Inductive chain_run : list System -> Chain B -> Prop :=
| chain_start bg identity endowed authorities keys importer :
    ci_domain_id identity = d -> (forall l a, cur_held (bg l) a = 0) ->
    chain_run [] (chain_genesis bg identity L endowed authorities keys importer)
| chain_block hist ch bl :
    chain_run hist ch ->
    sys_block_number (bl_sys bl) = Z.of_nat (length hist) + 1 ->
    sys_block_number (bl_sys bl) <= u32_max ->
    admissible_all (bl_sys bl) 0 (bl_extrinsics bl) (enter_block bl ch) ->
    chain_run (hist ++ [bl_sys bl]) (execute_block bl ch).

(** The pallets' configurations in a chain state. *)
Definition transfers_conf (ch : Chain B) : TransfersConf :=
  mkConf (w_balances (ch_world ch)) (w_transfers (ch_world ch)) (current_epoch ch).
Definition gov_conf (ch : Chain B) : GovConf := mkGov (w_governance (ch_world ch)) (current_epoch ch).

(** A header carries the commitments to what the pallets hold for its epoch. *)
Definition roots_ok (w : World B) (e : Z) (h : EpochSummaryHeader) : Prop :=
  let s := sh_start_block_height h in
  let t := sh_end_block_height h in
  sh_export_root h = export_merkle_root d e s t (canonical_epoch_exports (w_transfers w) e) /\
  sh_import_root h = import_merkle_root d e s t (canonical_epoch_finalized_imports (w_transfers w) e) /\
  (plain_proposals (w_governance w) ->
   sh_governance_root h
   = governance_merkle_root d e s t (canonical_epoch_governance_leaves (w_governance w) e) \/
   collision blake2_256).

Record ChainOk (ch : Chain B) : Prop := {
  co_domain : local_domain_id (ch_world ch) = d;
  co_transfers : transfers_reachable d (transfers_conf ch);
  co_governance : gov_reachable d (gov_conf ch);
  co_roots : forall e h, es_summary_headers (ch_epochs ch) !! e = Some h ->
    e < current_epoch ch /\ roots_ok (ch_world ch) e h
}.

Lemma transfers_reachable_step (c c' : TransfersConf (B := B)) :
  transfers_reachable d c -> transfers_step d c c' -> transfers_reachable d c'.
Proof. intros (i & c0 & Hi & Hr) Hs. exists i, c0. split; [done|]. by eapply rtc_r. Qed.

(** A call of the transfers pallet. *)
Lemma chain_transfers_step ch b st :
  ChainOk ch -> transfers_step d (transfers_conf ch) (mkConf b st (current_epoch ch)) ->
  ChainOk (ch {{ ch_world ::= fun w => w {{ w_balances := b }} {{ w_transfers := st }} }}).
Proof.
  intros [Hd Ht Hg Hr] Hs. split; simpl; [done|by eapply transfers_reachable_step|done|].
  intros e h Hh. destruct (Hr e h Hh) as [Hlt (R1 & R2 & R3)]. split; [done|].
  destruct (transfers_step_stable d export_ids_distinct _ _ e
              (transfers_reachable_inv d export_ids_distinct _ Ht) Hs) as [E1 E2]; [simpl; lia|].
  unfold roots_ok. simpl in *. by rewrite E1, E2.
Qed.

(** A call of the governance pallet. *)
Lemma chain_governance_step ch st :
  ChainOk ch -> gov_step d (gov_conf ch) (mkGov st (current_epoch ch)) ->
  ChainOk (ch {{ ch_world ::= fun w => w {{ w_governance := st }} }}).
Proof.
  intros [Hd Ht Hg Hr] Hs. split; simpl; [done|done|by eapply gov_reachable_step|].
  intros e h Hh. destruct (Hr e h Hh) as [Hlt (R1 & R2 & R3)]. split; [done|].
  split_and!; [done|done|]. simpl. intros Hpl.
  destruct (gov_step_stable d proposal_ids_distinct _ _ e Hg Hs Hpl) as [E|?]; [simpl; lia| |by right].
  simpl in E. rewrite E. apply R3. exact (plain_before d proposal_ids_distinct _ _ Hg Hs Hpl).
Qed.

Lemma dispatch_ok sys origin call ch ch' :
  ChainOk ch -> call_admissible ch call ->
  dispatch sys origin call ch = Ok ch' -> ChainOk ch' /\ ch_epochs ch' = ch_epochs ch.
Proof.
  intros Hok Hc Hop. unfold dispatch in Hop. rewrite (co_domain _ Hok) in Hop.
  destruct call; simpl in Hc; cbv zeta in Hop;
    match type of Hop with
    | with_transfers _ ?r = _ => destruct r as [[b st]|err] eqn:E; [|done]
    | with_governance _ ?r = _ => destruct r as [st|err] eqn:E; [|done]
    end; injection Hop as <-; (split; [|done]).
  - apply chain_transfers_step; [done|]. by eapply step_create.
  - apply chain_transfers_step; [done|]. by eapply step_observe.
  - apply chain_transfers_step; [done|]. by eapply step_finalize.
  - apply chain_transfers_step; [done|]. by eapply step_acknowledge.
  - apply chain_governance_step; [done|]. destruct Hc. eapply gov_create; [done|apply cur_balance_nonneg|done|exact E].
  - apply chain_governance_step; [done|]. by eapply gov_vote.
  - apply chain_governance_step; [done|]. by eapply gov_close.
  - apply chain_governance_step; [done|]. destruct Hc as (seq & Hseq & Hid). by eapply gov_import.
  - apply chain_governance_step; [done|]. by eapply gov_import_ack.
Qed.

Lemma charge_ok xt ch : ChainOk ch -> admissible ch xt -> ChainOk (charge xt ch).
Proof.
  intros Hok [Hheld _].
  apply (chain_transfers_step ch (xt_balances xt (w_balances (ch_world ch))) (w_transfers (ch_world ch)) Hok).
  apply step_balances. intros a. apply Hheld.
Qed.

Lemma apply_extrinsic_ok sys xt ch :
  ChainOk ch -> admissible ch xt ->
  ChainOk (apply_extrinsic sys xt ch) /\ ch_epochs (apply_extrinsic sys xt ch) = ch_epochs ch.
Proof.
  intros Hok Ha. pose proof (charge_ok xt ch Hok Ha) as Hok1. destruct Ha as [_ Hadm].
  unfold apply_extrinsic. cbv zeta. destruct (xt_call xt) as [call|]; [|done].
  destruct (dispatch sys (xt_origin xt) call (charge xt ch)) as [ch'|] eqn:E; [|done].
  destruct (dispatch_ok _ _ _ _ _ Hok1 (Hadm call eq_refl) E) as [? ->]. done.
Qed.

Lemma apply_extrinsics_ok sys i xts ch :
  ChainOk ch -> admissible_all sys i xts ch ->
  ChainOk (apply_extrinsics sys i xts ch) /\ ch_epochs (apply_extrinsics sys i xts ch) = ch_epochs ch.
Proof.
  revert i ch. induction xts as [|xt xts IH]; intros i ch Hok Hadm; simpl in *; [done|].
  destruct Hadm as [Ha Hadm]. destruct (apply_extrinsic_ok (at_index sys i) xt ch Hok Ha) as [Hok1 E].
  destruct (IH (i + 1) _ Hok1 Hadm) as [? ->]. done.
Qed.

(** A chain that goes on takes steps of its pallets only. *)
Definition advances (ch ch' : Chain B) : Prop :=
  rtc (transfers_step d) (transfers_conf ch) (transfers_conf ch') /\ rtc (gov_step d) (gov_conf ch) (gov_conf ch').

#[export] Instance advances_preorder : PreOrder advances.
Proof. split; [by split|]. intros ch1 ch2 ch3 [T1 G1] [T2 G2]. split; by etransitivity. Qed.

Lemma dispatch_advances sys origin call ch ch' :
  ChainOk ch -> call_admissible ch call -> dispatch sys origin call ch = Ok ch' -> advances ch ch'.
Proof.
  intros Hok Hc Hop. unfold dispatch in Hop. rewrite (co_domain _ Hok) in Hop.
  destruct call; simpl in Hc; cbv zeta in Hop;
    match type of Hop with
    | with_transfers _ ?r = _ => destruct r as [[b st]|err] eqn:E; [|done]
    | with_governance _ ?r = _ => destruct r as [st|err] eqn:E; [|done]
    end; injection Hop as <-; (split; try apply rtc_refl; apply rtc_once).
  - by eapply step_create.
  - by eapply step_observe.
  - by eapply step_finalize.
  - by eapply step_acknowledge.
  - destruct Hc. eapply gov_create; [done|apply cur_balance_nonneg|done|exact E].
  - by eapply gov_vote.
  - by eapply gov_close.
  - destruct Hc as (seq & Hseq & Hid). by eapply gov_import.
  - by eapply gov_import_ack.
Qed.

Lemma charge_advances xt ch : admissible ch xt -> advances ch (charge xt ch).
Proof. intros [Hheld _]. split; [|apply rtc_refl]. apply rtc_once, step_balances. intros a. apply Hheld. Qed.

Lemma apply_extrinsics_advance sys xts : forall i ch,
  ChainOk ch -> admissible_all sys i xts ch -> advances ch (apply_extrinsics sys i xts ch).
Proof.
  induction xts as [|xt xts IH]; intros i ch Hok Hadm; simpl in *; [done|]. destruct Hadm as [Ha Hadm].
  etransitivity; [|apply IH; [by apply apply_extrinsic_ok|done]].
  etransitivity; [by apply charge_advances|]. pose proof (charge_ok xt ch Hok Ha) as Hok1. destruct Ha as [_ Hadm1].
  unfold apply_extrinsic. cbv zeta. destruct (xt_call xt) as [call|]; [|done].
  destruct (dispatch _ _ call (charge xt ch)) as [ch'|] eqn:E; [|done]. by eapply dispatch_advances; [exact Hok1|auto|].
Qed.

(** The governance hook leaves the leaves alone. *)
Lemma governance_hook_leaves sys e st ep :
  sys_block_number sys <> 0 -> ActCore e st ->
  canonical_epoch_governance_leaves (governance_on_initialize sys e st) ep
  = canonical_epoch_governance_leaves st ep.
Proof.
  intros Hn HA. destruct (on_initialize_spec sys e st Hn HA) as (st1 & rem & Hr & -> & _).
  destruct (act_rtc_frame _ _ _ _ Hr) as (_ & _ & _ & _ & _ & _ & _ & E1 & E2).
  unfold canonical_epoch_governance_leaves. simpl. by rewrite E1, E2.
Qed.

Lemma governance_hook_plain sys e st :
  sys_block_number sys <> 0 -> ActCore e st ->
  plain_proposals (governance_on_initialize sys e st) -> plain_proposals st.
Proof.
  intros Hn HA. destruct (on_initialize_spec sys e st Hn HA) as (st1 & rem & Hr & -> & _).
  intros Hpl id p Hp. pose proof (act_rtc_proposals _ _ _ _ id Hr) as Hm. rewrite Hp in Hm.
  destruct (gs_proposals_by_id st1 !! id) as [p'|] eqn:E; [|done]. specialize (Hpl id p' E).
  by destruct Hm as [->|[_ ->]].
Qed.

(** The state a block starts from, as the epochs pallet sees it. *)
Definition before_epochs (bl : BlockInput B) (ch : Chain B) : World B :=
  (ch_world ch) {{ w_grandpa_set_id := bl_set_id bl }} {{ w_grandpa_authorities := bl_authorities bl }}
                {{ w_domain ::= domain_on_initialize (sys_block_number (bl_sys bl)) }}.

Lemma enter_block_unfold bl ch :
  enter_block bl ch
  = (let r := epochs_on_initialize (bl_sys bl) (before_epochs bl ch, ch_epochs ch) in
     mkChain (r.1 {{ w_governance ::= governance_on_initialize (bl_sys bl) (es_current_epoch r.2) }}) r.2).
Proof.
  unfold enter_block, initialize_block, before_epochs. simpl. by destruct (epochs_on_initialize _ _).
Qed.

Lemma epochs_run_state hist (ws : World B * EpochsState) :
  epochs_run d L hist ws -> hist = [] /\ ws.2 = epochs_genesis L \/ hist <> [] /\ EpochsInv d L hist ws.2.
Proof.
  intros Hrun. destruct (decide (hist = [])) as [->|Hne]; [left|right].
  - split; [done|]. by inversion Hrun as [|hist ? ? ? ? ? ? ? ? ? ? ? ? ? E]; subst; [|destruct hist].
  - split; [done|]. by apply epochs_run_inv.
Qed.

Lemma epoch_nonneg hist (ch : Chain B) :
  epochs_run d L hist (ch_world ch, ch_epochs ch) -> 0 <= current_epoch ch <= Z.of_nat (length hist).
Proof.
  intros Hrun. destruct (epochs_run_state _ _ Hrun) as [[-> E]|[Hne HI]]; [unfold current_epoch; simpl in E; rewrite E; simpl; lia|].
  destruct (epoch_bounds d L HL hist _ Hne HI). unfold current_epoch. simpl in *. nia.
Qed.

Lemma enter_block_ok hist bl ch :
  ChainOk ch -> epochs_run d L hist (ch_world ch, ch_epochs ch) ->
  sys_block_number (bl_sys bl) = Z.of_nat (length hist) + 1 -> sys_block_number (bl_sys bl) <= u32_max ->
  ChainOk (enter_block bl ch).
Proof.
  intros [Hd Ht Hg Hr] Hrun Hn Hmax. pose proof (epochs_run_state _ _ Hrun) as Hst. simpl in Hst.
  pose proof (epoch_nonneg hist ch Hrun) as Hep.
  rewrite enter_block_unfold. cbv zeta.
  destruct (epochs_on_initialize (bl_sys bl) (before_epochs bl ch, ch_epochs ch)) as [w2 es2] eqn:Einit.
  cbn [fst snd].
  assert (local_domain_id (before_epochs bl ch) = d) as Hd1.
  { unfold local_domain_id. simpl. by rewrite domain_on_initialize_id. }
  assert (sys_block_number (bl_sys bl) <> 0) as Hn0 by lia.
  destruct (gov_reachable_act d proposal_ids_distinct _ Hg) as [[HA _] _]. simpl in HA.
  apply (epochs_init_cases d L hist) in Einit as [(-> & Ec & Eh)|Hclose]; [| |done|done|done].
  - unfold transfers_conf, gov_conf, current_epoch in *.
    split; unfold transfers_conf, gov_conf, current_epoch; simpl; rewrite ?Ec, ?Eh; [done|done| |].
    + eapply gov_reachable_step; [exact Hg|]. apply gov_block; [by left|lia|done].
    + intros e h Hh. destruct (Hr e h Hh) as [Hlt (R1 & R2 & R3)]. split; [done|].
      split_and!; [done|done|]. simpl. intros Hpl%governance_hook_plain; [|done|done].
      rewrite governance_hook_leaves by done. by apply R3.
  - unfold closes in Hclose. cbn [commit_epoch_exports_hook commit_epoch_imports_hook
      commit_epoch_governance_hook runtime_providers] in Hclose.
    set (e0 := es_current_epoch (ch_epochs ch)) in *.
    destruct (commit_epoch_exports _ _ _ _ _) as [root ts'] eqn:Ecommit in Hclose. cbn [fst snd] in Hclose.
    destruct Hclose as (-> & Ec & h0 & Eh & Hs0 & Ht0 & Rx & Ri & Rg). simpl in Rx, Ri, Rg.
    rewrite Hd1 in Ecommit. unfold local_domain_id in Ri, Rg. simpl in Ri, Rg.
    rewrite domain_on_initialize_id in Ri, Rg. fold (local_domain_id (ch_world ch)) in Ri, Rg. rewrite Hd in Ri, Rg.
    pose proof (act_core_mono e0 (e0 + 1) _ ltac:(lia) HA) as HA1.
    split; simpl; rewrite ?Ec, ?Eh.
    + done.
    + eapply transfers_reachable_step; [exact Ht|]. unfold transfers_conf, current_epoch. simpl. rewrite Ec.
      by eapply step_close.
    + eapply gov_reachable_step; [exact Hg|]. unfold gov_conf, current_epoch. simpl. rewrite Ec.
      apply gov_block; [by right|unfold current_epoch in Hep; lia|done].
    + unfold current_epoch. simpl. rewrite Ec. intros e h Hh.
      assert (forall ep, same_commitments (w_transfers (ch_world ch)) ts' ep) as Hsame
        by (intros ep; by eapply commit_stable).
      destruct (Hsame e) as [S1 S2]. rewrite lookup_insert_Some in Hh.
      destruct Hh as [[<- <-]|[Hne Hh]].
      * split; [lia|]. unfold roots_ok. cbn [w_transfers w_governance]. simpl. rewrite Hs0, Ht0, Rx, Ri, Rg, S1.
        split_and!; [by injection Ecommit as <- _|done|]. intros _. left.
        by rewrite governance_hook_leaves.
      * destruct (Hr e h Hh) as [Hlt (R1 & R2 & R3)]. split; [unfold current_epoch in Hlt; fold e0 in Hlt; lia|].
        unfold roots_ok. simpl. rewrite S1, S2. split_and!; [done|done|].
        intros Hpl%governance_hook_plain; [|done|done]. rewrite governance_hook_leaves by done. by apply R3.
Qed.

Lemma enter_block_advances hist bl ch :
  ChainOk ch -> epochs_run d L hist (ch_world ch, ch_epochs ch) ->
  sys_block_number (bl_sys bl) = Z.of_nat (length hist) + 1 -> sys_block_number (bl_sys bl) <= u32_max ->
  advances ch (enter_block bl ch).
Proof.
  intros Hok Hrun Hn Hmax. pose proof (epochs_run_state _ _ Hrun) as Hst.
  destruct (epoch_nonneg hist ch Hrun) as [_ He0]. rewrite enter_block_unfold. cbv zeta.
  destruct (epochs_on_initialize _ _) as [w2 es2] eqn:E. cbn [fst snd].
  assert (local_domain_id (before_epochs bl ch) = d) as Hd.
  { unfold local_domain_id. simpl. rewrite domain_on_initialize_id. exact (co_domain _ Hok). }
  assert (sys_block_number (bl_sys bl) <> 0) as Hn0 by lia.
  unfold advances, transfers_conf, gov_conf, current_epoch in *. simpl.
  apply (epochs_init_cases d L hist) in E as [(-> & Ec & _)|Hc]; [| |done|done|done].
  - rewrite Ec. split; [apply rtc_refl|]. apply rtc_once, gov_block; [by left|lia|done].
  - unfold closes in Hc. cbn [commit_epoch_exports_hook commit_epoch_imports_hook commit_epoch_governance_hook
      runtime_providers] in Hc. rewrite Hd in Hc. destruct (commit_epoch_exports _ _ _ _ _) as [root st] eqn:Ecm.
    cbn [fst snd] in Hc. destruct Hc as (-> & Ec & _). rewrite Ec.
    split; apply rtc_once; [by eapply step_close|apply gov_block; [by right|lia|done]].
Qed.

Lemma execute_block_advances hist bl ch :
  ChainOk ch -> epochs_run d L hist (ch_world ch, ch_epochs ch) ->
  sys_block_number (bl_sys bl) = Z.of_nat (length hist) + 1 -> sys_block_number (bl_sys bl) <= u32_max ->
  admissible_all (bl_sys bl) 0 (bl_extrinsics bl) (enter_block bl ch) ->
  advances ch (execute_block bl ch).
Proof.
  intros Hok Hrun Hn Hmax Hadm. etransitivity; [by eapply enter_block_advances|].
  etransitivity; [apply apply_extrinsics_advance; [by eapply enter_block_ok|exact Hadm]|].
  unfold execute_block, finalize_block, advances, transfers_conf, gov_conf, current_epoch, epochs_on_finalize.
  simpl. by destruct (_ =? 0).
Qed.

Lemma genesis_ok bg identity endowed authorities keys importer :
  ci_domain_id identity = d -> (forall l a, cur_held (bg l) a = 0) ->
  ChainOk (chain_genesis bg identity L endowed authorities keys importer).
Proof.
  intros Hd Hh. set (ch := chain_genesis _ _ _ _ _ _ _). split; simpl.
  - done.
  - exists (Some importer), (transfers_conf ch). split; [|constructor]. split_and!; [done|done|intros a; apply Hh].
  - exists (gov_conf ch). split; [|constructor]. split; [by do 3 eexists|done].
  - intros e h. by rewrite lookup_empty.
Qed.

Lemma block_domain sys i xts ch :
  ChainOk ch -> admissible_all sys i xts ch -> local_domain_id (ch_world (apply_extrinsics sys i xts ch)) = d.
Proof. intros Hok Hadm. by apply co_domain, apply_extrinsics_ok. Qed.

Lemma chain_run_ok hist ch :
  chain_run hist ch -> epochs_run d L hist (ch_world ch, ch_epochs ch) /\ ChainOk ch.
Proof.
  induction 1 as [bg identity endowed authorities keys importer Hd Hh|hist ch bl Hrun [IHe IHo] Hn Hmax Hadm].
  { split; [|by apply genesis_ok]. by apply run_genesis. }
  pose proof (enter_block_ok hist bl ch IHo IHe Hn Hmax) as Hok.
  destruct (apply_extrinsics_ok _ _ _ _ Hok Hadm) as [[D1 D2 D3 D4] Ee].
  unfold execute_block, finalize_block.
  set (ch1 := apply_extrinsics (bl_sys bl) 0 (bl_extrinsics bl) (enter_block bl ch)) in *.
  destruct (epochs_on_initialize (bl_sys bl) (before_epochs bl ch, ch_epochs ch)) as [w2 es2] eqn:Ei.
  assert (ch_epochs ch1 = es2) as E1 by (rewrite Ee, enter_block_unfold, Ei; done).
  split.
  - simpl. rewrite E1. refine (run_block d L hist (bl_sys bl) _ _ (before_epochs bl ch) w2 es2 _ IHe Hn Hmax _ Ei D1).
    exact (eq_trans (domain_on_initialize_id _ _) (co_domain _ IHo)).
  - assert (current_epoch (ch1 {{ ch_epochs ::= epochs_on_finalize (bl_sys bl) }}) = current_epoch ch1) as Ec
      by (unfold current_epoch, epochs_on_finalize; simpl; by destruct (_ =? 0)).
    split; unfold transfers_conf, gov_conf; rewrite ?Ec; [exact D1|exact D2|exact D3|].
    intros e h Hh. apply D4. revert Hh. unfold epochs_on_finalize. simpl. by destruct (_ =? 0).
Qed.

(** ** Properties of the chain *)

(** C15: the chain refines its pallets.  Every execution of the runtime, with
    any extrinsics, is an execution of the epochs pallet and leads to a state
    that the transfers and the governance transition systems reach, in the epoch
    the epochs pallet is in; and the next block, whatever it contains, is a
    sequence of steps of each of the two systems. *)
Theorem chain_refines_pallets hist ch bl :
  chain_run hist ch ->
  sys_block_number (bl_sys bl) = Z.of_nat (length hist) + 1 -> sys_block_number (bl_sys bl) <= u32_max ->
  admissible_all (bl_sys bl) 0 (bl_extrinsics bl) (enter_block bl ch) ->
  epochs_run d L hist (ch_world ch, ch_epochs ch) /\
  transfers_reachable d (transfers_conf ch) /\ gov_reachable d (gov_conf ch) /\
  rtc (transfers_step d) (transfers_conf ch) (transfers_conf (execute_block bl ch)) /\
  rtc (gov_step d) (gov_conf ch) (gov_conf (execute_block bl ch)).
Proof.
  intros [He Hok]%chain_run_ok Hn Hmax Hadm. destruct (execute_block_advances hist bl ch Hok He Hn Hmax Hadm).
  destruct Hok. by split_and!.
Qed.

(** C14: an epoch's header anchors its exports.  For the header of a closed
    epoch [e] and in every later state: each export the chain recorded in epoch
    [e] has an inclusion proof that verifies against the header's export root,
    and a proof that verifies against that root is of an export recorded in epoch
    [e], or [blake2_256] collides. *)
Theorem header_anchors_exports hist ch e h :
  chain_run hist ch -> es_summary_headers (ch_epochs ch) !! e = Some h ->
  Z.of_nat (length (epoch_export_ids (w_transfers (ch_world ch)) e)) <= u32_max ->
  let exports := ts_exports_by_id (w_transfers (ch_world ch)) in
  (forall id r, exports !! id = Some r -> el_source_epoch_id (er_leaf r) = e ->
     exists proof, build_export_inclusion_proof (canonical_epoch_exports (w_transfers (ch_world ch)) e) id
       = Some proof /\ eip_leaf proof = er_leaf r /\
       verify_export_inclusion_proof (sh_export_root h) proof = true) /\
  (forall proof, verify_export_inclusion_proof (sh_export_root h) proof = true ->
     (exists r, exports !! el_export_id (eip_leaf proof) = Some r /\ er_leaf r = eip_leaf proof /\
        el_source_epoch_id (er_leaf r) = e) \/
     collision blake2_256).
Proof.
  intros [_ [_ Ht _ Hr]]%chain_run_ok Hh Hlen. cbv zeta.
  destruct (Hr e h Hh) as [_ (-> & _)].
  pose proof (transfers_reachable_inv d export_ids_distinct _ Ht) as [HI _].
  by apply (export_root_of_epoch d (transfers_conf ch)).
Qed.

(** C16: an epoch's header anchors its completions and its governance leaves:
    the import root and the governance root of a closed epoch's header are, in
    every later state, the roots over the imports finalized in that epoch and
    over the governance leaves recorded in it, so that their proofs verify and
    nothing else does, or [blake2_256] collides. *)
Theorem header_anchors_imports_and_governance hist ch e h :
  chain_run hist ch -> es_summary_headers (ch_epochs ch) !! e = Some h ->
  plain_proposals (w_governance (ch_world ch)) ->
  Z.of_nat (length (epoch_finalized_import_ids (w_transfers (ch_world ch)) e)) <= u32_max ->
  Z.of_nat (length (gs_epoch_leaf_ids (w_governance (ch_world ch)) !!! e)) <= u32_max ->
  let imports := canonical_epoch_finalized_imports (w_transfers (ch_world ch)) e in
  let leaves := canonical_epoch_governance_leaves (w_governance (ch_world ch)) e in
  ((forall id, id ∈ epoch_finalized_import_ids (w_transfers (ch_world ch)) e ->
      exists proof, build_finalized_import_inclusion_proof imports id = Some proof /\
        verify_finalized_import_inclusion_proof (sh_import_root h) proof = true) /\
   (forall proof, verify_finalized_import_inclusion_proof (sh_import_root h) proof = true ->
      fl_export_id (fip_leaf proof) ∈ epoch_finalized_import_ids (w_transfers (ch_world ch)) e \/
      collision blake2_256) /\
   (forall l, l ∈ leaves -> exists proof,
      build_governance_inclusion_proof leaves (leaf_hash l) = Some proof /\ gip_leaf proof = l /\
      verify_governance_inclusion_proof (sh_governance_root h) proof = true) /\
   (forall proof, leaf_plain (gip_leaf proof) ->
      verify_governance_inclusion_proof (sh_governance_root h) proof = true ->
      gip_leaf proof ∈ leaves \/ collision blake2_256)) \/
  collision blake2_256.
Proof.
  intros [_ [_ Ht Hg Hr]]%chain_run_ok Hh Hpl Hlen1 Hlen2. cbv zeta.
  destruct (Hr e h Hh) as [_ (_ & -> & Hgr)]. destruct (Hgr Hpl) as [->|?]; [left|by right].
  pose proof (transfers_reachable_inv d export_ids_distinct _ Ht) as [_ HI].
  pose proof (gov_reachable_leaves d proposal_ids_distinct _ Hg) as HL'.
  destruct (import_root_of_epoch d (transfers_conf ch) e (sh_start_block_height h) (sh_end_block_height h) HI Hlen1)
    as [I1 I2].
  destruct (governance_root_of_epoch (w_governance (ch_world ch)) d e (sh_start_block_height h)
              (sh_end_block_height h) HL' Hpl Hlen2) as [G1 G2].
  split_and!.
  - intros id Hid. destruct (I1 id Hid) as (proof & Hb & _ & Hv). by exists proof.
  - intros proof Hv. destruct (I2 proof Hv) as [(r & _ & _ & _ & _ & _ & Hin)|?]; [by left|by right].
  - exact G1.
  - intros proof Hp Hv. destruct (G2 proof Hp Hv) as [[? _]|?]; [by left|by right].
Qed.
End Chain.

(** ** Witnesses: three blocks of the Earth chain with epochs of two blocks

    Account 1 exports 30 to Mars and the importer finalizes an import in block 1;
    block 3 closes epoch 0. *)
Section Witnesses.
#[local] Existing Instance reference_codec.
#[local] Existing Instance reference_account.
#[local] Existing Instance reference_account_ok.
#[local] Existing Instance reference_currency.
#[local] Existing Instance reference_currency_ok.

Lemma reference_export_ids s s' :
  0 <= s < u64_max -> 0 <= s' < u64_max -> export_id Earth s = export_id Earth s' -> s = s'.
Proof. intros _ _ E. apply scale_encode_inj in E. congruence. Qed.

Lemma reference_proposal_ids d1 d2 s1 s2 :
  0 <= s1 < u64_max -> 0 <= s2 < u64_max ->
  governance_proposal_id d1 s1 = governance_proposal_id d2 s2 -> d1 = d2 /\ s1 = s2.
Proof. intros _ _ E. apply scale_encode_inj in E. split; congruence. Qed.

Definition example_identity : ChainIdentity :=
  {| ci_domain_id := Earth; ci_chain_id := [1]; ci_chain_name := [2]; ci_token_symbol := [3];
     ci_token_decimals := 12 |}.
Definition example_balances (l : list (@AccountId reference_account * Z)) : Ledger :=
  mkLedger (list_to_map (map (fun '(a, v) => (a, Z.to_N v)) l)) ∅.
Definition plain_xt (who : Z) (call : RuntimeCall) : Extrinsic Ledger :=
  mkExtrinsic (Signed (acct who)) (Some call) (fun b => b).
Definition example_observed : ObservedImportClaim :=
  {| oic_version := 1; oic_export_id := [50]; oic_source_domain := Moon; oic_target_domain := Earth;
     oic_source_epoch_id := 4; oic_summary_hash := [51]; oic_package_hash := [52];
     oic_recipient := account_to_bytes (acct 2); oic_amount := 5 |}.
Definition example_block (n : Z) (xts : list (Extrinsic Ledger)) : BlockInput Ledger :=
  mkBlockInput (mkSystem n [n] None 1 80 3 [n + 100]) 0 [([7], 1)] xts.

Definition bl1 := example_block 1
  [plain_xt 1 (CreateCrossDomainTransfer Mars [2] 30);
   plain_xt 7 (ObserveVerifiedImport example_observed);
   plain_xt 7 (FinalizeVerifiedImport [50]);
   plain_xt 1 (CreateProposal [Mars] 2)].
Definition bl2 := example_block 2 [].
Definition bl3 := example_block 3 [].
Definition chain0 : Chain Ledger :=
  chain_genesis example_balances example_identity 2 [acct 1; acct 2] [acct 1] [[7]] (acct 7).
Definition chain1 := execute_block bl1 chain0.
Definition chain2 := execute_block bl2 chain1.
Definition chain3 := execute_block bl3 chain2.

Lemma plain_admissible ch who call :
  call_admissible ch call -> admissible ch (plain_xt who call).
Proof. intros Hc. split; [done|]. intros c [= <-]. exact Hc. Qed.

Lemma example_chain1 : chain_run Earth 2 [bl_sys bl1] chain1.
Proof.
  refine (chain_block Earth 2 [] chain0 bl1 _ eq_refl _ _).
  - by apply chain_start.
  - by vm_compute.
  - split; [apply plain_admissible; vm_compute; reflexivity|].
    split; [by apply plain_admissible|]. split; [by apply plain_admissible|].
    split; [|exact I]. apply plain_admissible. split; vm_compute; reflexivity.
Qed.
Lemma example_chain2 : chain_run Earth 2 [bl_sys bl1; bl_sys bl2] chain2.
Proof. refine (chain_block Earth 2 [bl_sys bl1] chain1 bl2 _ eq_refl _ I); [exact example_chain1|by vm_compute]. Qed.
Lemma example_chain3 : chain_run Earth 2 [bl_sys bl1; bl_sys bl2; bl_sys bl3] chain3.
Proof.
  refine (chain_block Earth 2 [bl_sys bl1; bl_sys bl2] chain2 bl3 _ eq_refl _ I); [exact example_chain2|by vm_compute].
Qed.

(** What the run leaves behind. *)
Lemma example_chain_header : exists h, es_summary_headers (ch_epochs chain3) !! 0 = Some h.
Proof. eexists. vm_compute. reflexivity. Qed.
Lemma example_export :
  exists r, ts_exports_by_id (w_transfers (ch_world chain3)) !! export_id Earth 0 = Some r /\
    el_source_epoch_id (er_leaf r) = 0.
Proof. eexists. split; vm_compute; reflexivity. Qed.
Lemma example_export_id r :
  ts_exports_by_id (w_transfers (ch_world chain3)) !! export_id Earth 0 = Some r ->
  el_export_id (er_leaf r) = export_id Earth 0.
Proof.
  intros Hr.
  destruct (chain_run_ok Earth 2 ltac:(lia) reference_export_ids reference_proposal_ids _ _ example_chain3) as [_ Hok].
  destruct (transfers_reachable_inv Earth reference_export_ids _ (co_transfers _ _ Hok)) as [HI _].
  exact (proj1 (inv_export_ok _ _ HI _ _ Hr)).
Qed.
Lemma example_finalized : [50] ∈ epoch_finalized_import_ids (w_transfers (ch_world chain3)) 0.
Proof. vm_compute. constructor. Qed.
Lemma example_plain : plain_proposals (w_governance (ch_world chain3)).
Proof.
  intros id p Hp. assert (p ∈ map snd (map_to_list (gs_proposals_by_id (w_governance (ch_world chain3))))) as Hin.
  { apply list_elem_of_fmap. exists (id, p). split; [done|]. by apply elem_of_map_to_list. }
  clear Hp. revert p Hin. apply Forall_forall. vm_compute. repeat constructor.
Qed.
#[local] Opaque chain0 chain1 chain2 chain3.

Lemma chain_refines_pallets_witness :
  transfers_reachable Earth (transfers_conf chain2) /\
  rtc (transfers_step Earth) (transfers_conf chain2) (transfers_conf chain3).
Proof.
  destruct (chain_refines_pallets Earth 2 ltac:(lia) reference_export_ids reference_proposal_ids
              [bl_sys bl1; bl_sys bl2] chain2 bl3 example_chain2 eq_refl ltac:(by vm_compute) I)
    as (_ & Ht & _ & Hs & _).
  split; [exact Ht|exact Hs].
Defined.

Lemma header_anchors_exports_witness :
  exists h proof, es_summary_headers (ch_epochs chain3) !! 0 = Some h /\
    verify_export_inclusion_proof (sh_export_root h) proof = true /\
    el_export_id (eip_leaf proof) = export_id Earth 0.
Proof.
  destruct example_chain_header as [h Hh], example_export as (r & Hr & He).
  destruct (header_anchors_exports Earth 2 ltac:(lia) reference_export_ids reference_proposal_ids _ _ 0 h
              example_chain3 Hh) as [Hall _]; [vm_compute; congruence|].
  destruct (Hall _ r Hr He) as (proof & _ & Hl & Hv). exists h, proof. split; [exact Hh|]. split; [exact Hv|].
  rewrite Hl. exact (example_export_id r Hr).
Defined.

Lemma header_anchors_imports_and_governance_witness :
  exists h, es_summary_headers (ch_epochs chain3) !! 0 = Some h /\
    ((exists proof, verify_finalized_import_inclusion_proof (sh_import_root h) proof = true) \/
     collision blake2_256).
Proof.
  destruct example_chain_header as [h Hh]. exists h. split; [exact Hh|].
  destruct (header_anchors_imports_and_governance Earth 2 ltac:(lia) reference_export_ids reference_proposal_ids
              _ _ 0 h example_chain3 Hh example_plain) as [(Hi & _)|Hc];
    [vm_compute; congruence|vm_compute; congruence| |right; exact Hc].
  destruct (Hi _ example_finalized) as (proof & _ & Hv). left. exists proof. exact Hv.
Defined.
End Witnesses.
