(* ===== verification/Config.v ===== *)
(** * Configuration ([crates/common-config/src/lib.rs])

    Domain and transport configuration, its validation, and what the node and
    the relay derive from it.  Rust strings are their UTF-8 bytes; a
    [DateTime<Utc>] is its nanoseconds since the Unix epoch.  Reading the files
    and parsing TOML are left out; [Multiaddr] is third-party code, passed in as
    its parser and the test for a [/p2p] component. *)

From S2P Require Import Prelude Types Codec.

(** ** Data *)

Inductive DomainChainType : Type := Development | Local | Live.

Record TokenConfig : Type := mkTokenConfig { tok_symbol : bytes; tok_decimals : Z }.

Record NetworkConfig : Type := mkNetworkConfig {
  net_p2p_port : Z;
  net_rpc_port : Z;
  net_prometheus_port : Z;
  net_bootnodes : list bytes
}.

Record EpochConfig : Type := mkEpochConfig { ep_length_seconds : Z }.

Record AuthorityConfig : Type := mkAuthorityConfig {
  au_name : bytes;
  au_account_seed : bytes;
  au_aura_seed : bytes;
  au_grandpa_seed : bytes
}.

Record BootstrapConfig : Type := mkBootstrapConfig {
  bs_sudo_account_seed : bytes;
  bs_importer_account_seed : bytes;
  bs_endowed_accounts : list bytes
}.

Record DomainConfig : Type := mkDomainConfig {
  dc_domain_id : DomainId;
  dc_chain_name : bytes;
  dc_chain_id : bytes;
  dc_chain_type : DomainChainType;
  dc_token : TokenConfig;
  dc_network : NetworkConfig;
  dc_epoch : EpochConfig;
  dc_authorities : list AuthorityConfig;
  dc_bootstrap : BootstrapConfig
}.

Record RelayTransportConfig : Type := mkRelayTransportConfig {
  rt_listen_addr : bytes;
  rt_store_dir : bytes;
  rt_scheduler_tick_millis : Z;
  rt_ack_poll_millis : Z
}.

Record ImporterTransportConfig : Type := mkImporterTransportConfig { it_listen_addr : bytes }.

Record BlackoutWindowConfig : Type := mkBlackoutWindowConfig { bw_start : Z; bw_end : Z }.

Record LinkProfileConfig : Type := mkLinkProfileConfig {
  lk_source_domain : DomainId;
  lk_target_domain : DomainId;
  lk_base_one_way_delay_seconds : Z;
  lk_initial_retry_delay_seconds : Z;
  lk_max_retry_delay_seconds : Z;
  lk_max_attempts : Z;
  lk_blackout_windows : list BlackoutWindowConfig
}.

(** [importers] is a [BTreeMap]: at most one importer per domain. *)
Record TransportConfig : Type := mkTransportConfig {
  tc_relay : RelayTransportConfig;
  tc_importers : gmap DomainId ImporterTransportConfig;
  tc_links : list LinkProfileConfig
}.

(** The validation errors of [ConfigError]. *)
Inductive ConfigError : Type :=
| DomainMismatch (found expected : DomainId)
| ChainNameEmpty
| ChainNameTooLong
| ChainIdEmpty
| ChainIdTooLong
| TokenSymbolEmpty
| TokenSymbolTooLong
| EpochLengthZero
| NoAuthorities
| NoEndowedAccounts
| ZeroPort
| OverlappingPorts
| AuthorityNameEmpty
| AuthoritySeedEmpty
| EndowedSeedEmpty
| SudoSeedEmpty
| ImporterSeedEmpty
| BootnodeInvalid (bootnode : bytes)
| BootnodeWithoutPeer (bootnode : bytes)
| EpochLengthOverflow
| EpochShorterThanBlock
| EpochLengthNotU32
| RelayAddrEmpty
| StoreDirEmpty
| TickZero
| AckPollZero
| ImporterMissing (domain : DomainId)
| ImporterAddrEmpty (domain : DomainId)
| ImporterAddrsNotUnique
| WrongLinkCount
| LinkToSelf (domain : DomainId)
| BaseDelayZero (source target : DomainId)
| InitialRetryZero (source target : DomainId)
| MaxRetryTooSmall (source target : DomainId)
| WindowEmpty (source target : DomainId)
| DuplicateLink (source target : DomainId)
| MissingLink (source target : DomainId).

(** ** [str::trim] *)

(** [s.trim().is_empty()]: every character of [s] is Unicode white space. *)
Fixpoint blank (s : bytes) : bool :=
  match s with
  | [] => true
  | b0 :: r0 =>
    if ((9 <=? b0) && (b0 <=? 13)) || (b0 =? 32) then blank r0
    else
      match r0 with
      | [] => false
      | b1 :: r1 =>
        if (b0 =? 194) && ((b1 =? 133) || (b1 =? 160)) then blank r1
        else
          match r1 with
          | [] => false
          | b2 :: r2 =>
            if ((b0 =? 225) && (b1 =? 154) && (b2 =? 128))
               || ((b0 =? 226) && (b1 =? 128)
                   && (((128 <=? b2) && (b2 <=? 138)) || (b2 =? 168) || (b2 =? 169) || (b2 =? 175)))
               || ((b0 =? 226) && (b1 =? 129) && (b2 =? 159))
               || ((b0 =? 227) && (b1 =? 128) && (b2 =? 128))
            then blank r2
            else false
          end
      end
  end.

(** [for x in xs { check(x)? }]. *)
Fixpoint check_all {A E} (check : A -> result E unit) (xs : list A) : result E unit :=
  match xs with
  | [] => Ok tt
  | x :: xs => let? _ := check x in check_all check xs
  end.

(** ** [DomainConfig] *)
Section DomainConfig.
Context {Multiaddr : Type} (multiaddr_from_str : bytes -> option Multiaddr) (has_p2p : Multiaddr -> bool).

Definition validate_authority (authority : AuthorityConfig) : result ConfigError unit :=
  ensure! negb (blank (au_name authority)) else AuthorityNameEmpty in
  check_all (fun value => ensure! negb (blank value) else AuthoritySeedEmpty in Ok tt)
    [au_account_seed authority; au_aura_seed authority; au_grandpa_seed authority].

Definition validate_bootnode (bootnode : bytes) : result ConfigError unit :=
  let?? parsed := multiaddr_from_str bootnode else BootnodeInvalid bootnode in
  ensure! has_p2p parsed else BootnodeWithoutPeer bootnode in
  Ok tt.

Definition validate_domain_config (config : DomainConfig) (expected_domain : DomainId)
    : result ConfigError unit :=
  let network := dc_network config in
  let bootstrap := dc_bootstrap config in
  let ports := [net_p2p_port network; net_rpc_port network; net_prometheus_port network] in
  ensure! bool_decide (dc_domain_id config = expected_domain)
    else DomainMismatch (dc_domain_id config) expected_domain in
  ensure! negb (blank (dc_chain_name config)) else ChainNameEmpty in
  ensure! (length (dc_chain_name config) <=? CHAIN_NAME_BYTES)%nat else ChainNameTooLong in
  ensure! negb (blank (dc_chain_id config)) else ChainIdEmpty in
  ensure! (length (dc_chain_id config) <=? CHAIN_ID_BYTES)%nat else ChainIdTooLong in
  ensure! negb (blank (tok_symbol (dc_token config))) else TokenSymbolEmpty in
  ensure! (length (tok_symbol (dc_token config)) <=? TOKEN_SYMBOL_BYTES)%nat else TokenSymbolTooLong in
  ensure! negb (ep_length_seconds (dc_epoch config) =? 0) else EpochLengthZero in
  ensure! negb (bool_decide (dc_authorities config = [])) else NoAuthorities in
  ensure! negb (bool_decide (bs_endowed_accounts bootstrap = [])) else NoEndowedAccounts in
  ensure! negb (existsb (Z.eqb 0) ports) else ZeroPort in
  ensure! negb ((net_p2p_port network =? net_rpc_port network)
                || (net_p2p_port network =? net_prometheus_port network)
                || (net_rpc_port network =? net_prometheus_port network)) else OverlappingPorts in
  let? _ := check_all validate_authority (dc_authorities config) in
  let? _ := check_all (fun seed => ensure! negb (blank seed) else EndowedSeedEmpty in Ok tt)
              (bs_endowed_accounts bootstrap) in
  ensure! negb (blank (bs_sudo_account_seed bootstrap)) else SudoSeedEmpty in
  ensure! negb (blank (bs_importer_account_seed bootstrap)) else ImporterSeedEmpty in
  check_all validate_bootnode (net_bootnodes network).

Definition epoch_length_blocks (config : DomainConfig) (millis_per_block : Z) : result ConfigError Z :=
  ensure! ep_length_seconds (dc_epoch config) * 1000 <=? u64_max else EpochLengthOverflow in
  let blocks := ep_length_seconds (dc_epoch config) * 1000 / millis_per_block in
  ensure! negb (blocks =? 0) else EpochShorterThanBlock in
  ensure! blocks <=? u32_max else EpochLengthNotU32 in
  Ok blocks.

(** [build_chain_identity]; [None] is the panic of [fixed_bytes]. *)
Definition build_chain_identity (config : DomainConfig) : option ChainIdentity :=
  chain_id ← fixed_bytes CHAIN_ID_BYTES (dc_chain_id config);
  chain_name ← fixed_bytes CHAIN_NAME_BYTES (dc_chain_name config);
  token_symbol ← fixed_bytes TOKEN_SYMBOL_BYTES (tok_symbol (dc_token config));
  Some {| ci_domain_id := dc_domain_id config;
          ci_chain_id := chain_id;
          ci_chain_name := chain_name;
          ci_token_symbol := token_symbol;
          ci_token_decimals := tok_decimals (dc_token config) |}.
End DomainConfig.

(** ** [TransportConfig] *)

Definition expected_domains : list DomainId := [Earth; Moon; Mars].

Definition validate_importer (importers : gmap DomainId ImporterTransportConfig) (domain : DomainId)
    : result ConfigError unit :=
  let?? importer := importers !! domain else ImporterMissing domain in
  ensure! negb (blank (it_listen_addr importer)) else ImporterAddrEmpty domain in
  Ok tt.

(** The checks of one link against the links seen so far, which it joins. *)
Definition validate_link (link : LinkProfileConfig) (seen : gset (DomainId * DomainId))
    : result ConfigError (gset (DomainId * DomainId)) :=
  let s := lk_source_domain link in
  let t := lk_target_domain link in
  ensure! negb (bool_decide (s = t)) else LinkToSelf s in
  ensure! negb (lk_base_one_way_delay_seconds link =? 0) else BaseDelayZero s t in
  ensure! negb (lk_initial_retry_delay_seconds link =? 0) else InitialRetryZero s t in
  ensure! lk_initial_retry_delay_seconds link <=? lk_max_retry_delay_seconds link
    else MaxRetryTooSmall s t in
  let? _ := check_all (fun w => ensure! bw_start w <? bw_end w else WindowEmpty s t in Ok tt)
              (lk_blackout_windows link) in
  ensure! negb (bool_decide ((s, t) ∈ seen)) else DuplicateLink s t in
  Ok ({[ (s, t) ]} ∪ seen).

Fixpoint validate_links (links : list LinkProfileConfig) (seen : gset (DomainId * DomainId))
    : result ConfigError (gset (DomainId * DomainId)) :=
  match links with
  | [] => Ok seen
  | link :: links => let? seen := validate_link link seen in validate_links links seen
  end.

Definition validate_transport_config (config : TransportConfig) : result ConfigError unit :=
  let relay := tc_relay config in
  ensure! negb (blank (rt_listen_addr relay)) else RelayAddrEmpty in
  ensure! negb (bool_decide (rt_store_dir relay = [])) else StoreDirEmpty in
  ensure! negb (rt_scheduler_tick_millis relay =? 0) else TickZero in
  ensure! negb (rt_ack_poll_millis relay =? 0) else AckPollZero in
  let? _ := check_all (validate_importer (tc_importers config)) expected_domains in
  let importer_addresses := dedup (sort_by bytes_cmp (map (fun i => it_listen_addr i.2) (map_to_list (tc_importers config)))) in
  ensure! (length importer_addresses =? size (tc_importers config))%nat else ImporterAddrsNotUnique in
  ensure! (length (tc_links config) =? 6)%nat else WrongLinkCount in
  let? seen_links := validate_links (tc_links config) ∅ in
  check_all (fun source =>
    check_all (fun target =>
      if bool_decide (source = target) then Ok tt
      else ensure! bool_decide ((source, target) ∈ seen_links) else MissingLink source target in Ok tt)
      expected_domains) expected_domains.

Definition link (config : TransportConfig) (source_domain target_domain : DomainId)
    : option LinkProfileConfig :=
  find (fun l => bool_decide (lk_source_domain l = source_domain)
                 && bool_decide (lk_target_domain l = target_domain)) (tc_links config).

(** ** Properties *)

Lemma check_all_ok {A E} (check : A -> result E unit) xs :
  check_all check xs = Ok tt <-> forall x, x ∈ xs -> check x = Ok tt.
Proof.
  induction xs as [|x xs IH]; simpl; [split; [set_solver|done]|]. split.
  - destruct (check x) as [[]|] eqn:E'; [|done]. intros Hr y [->|Hy]%elem_of_cons; [done|].
    by apply IH.
  - intros Hall. rewrite (Hall x) by set_solver. apply IH. intros y Hy. apply Hall. set_solver.
Qed.

Definition link_pair (l : LinkProfileConfig) : DomainId * DomainId := (lk_source_domain l, lk_target_domain l).

(** What the relay needs of a link. *)
Definition link_ok (l : LinkProfileConfig) : Prop :=
  lk_source_domain l <> lk_target_domain l /\
  lk_base_one_way_delay_seconds l <> 0 /\ lk_initial_retry_delay_seconds l <> 0 /\
  lk_initial_retry_delay_seconds l <= lk_max_retry_delay_seconds l /\
  forall w, w ∈ lk_blackout_windows l -> bw_start w < bw_end w.

Lemma validate_link_ok l seen seen' :
  validate_link l seen = Ok seen' -> link_ok l /\ (link_pair l ∉ seen) /\ seen' = {[ link_pair l ]} ∪ seen.
Proof.
  unfold validate_link. intros Hop. dispatch_inv Hop. bool_to_prop. subst.
  match goal with H : check_all _ _ = Ok ?u |- _ => destruct u;
    pose proof (proj1 (check_all_ok _ _) H) as Hw end.
  split; [|done]. unfold link_ok. split_and!; try done; [lia..|].
  intros w Hin. specialize (Hw w Hin). simpl in Hw. destruct (Z.ltb_spec (bw_start w) (bw_end w)); done.
Qed.

Lemma validate_links_ok links seen seen' :
  validate_links links seen = Ok seen' ->
  Forall link_ok links /\ NoDup (map link_pair links) /\
  (forall l, l ∈ links -> link_pair l ∉ seen) /\
  forall x, x ∈ seen' <-> x ∈ seen \/ x ∈ map link_pair links.
Proof.
  revert seen. induction links as [|l links IH]; intros seen; simpl.
  { intros E. simplify_eq. split_and!; [constructor|constructor|set_solver|set_solver]. }
  intros Hop. destruct (validate_link l seen) as [seen1|] eqn:E; [|done].
  apply validate_link_ok in E as (Hl & Hn & ->). apply IH in Hop as (I1 & I2 & I3 & I4).
  split_and!.
  - by constructor.
  - constructor; [|done]. intros (l' & E & Hin)%list_elem_of_fmap. apply (I3 l' Hin). rewrite <-E. set_solver.
  - intros l' [->|Hin]%elem_of_cons; [done|]. specialize (I3 l' Hin). set_solver.
  - intros x. rewrite I4, elem_of_cons. set_solver.
Qed.

Lemma find_link links s t l :
  NoDup (map link_pair links) -> l ∈ links -> link_pair l = (s, t) ->
  find (fun l => bool_decide (lk_source_domain l = s) && bool_decide (lk_target_domain l = t)) links = Some l.
Proof.
  induction links as [|l0 links IH]; intros Hnd Hin Hp; [set_solver|]. simpl in *.
  apply NoDup_cons in Hnd as [Hl0 Hnd]. apply elem_of_cons in Hin as [<-|Hin].
  - injection Hp as <- <-. by rewrite !bool_decide_eq_true_2.
  - destruct (bool_decide _ && bool_decide _) eqn:E; [|by apply IH].
    apply andb_true_iff in E as [E1%bool_decide_eq_true E2%bool_decide_eq_true].
    exfalso. apply Hl0. apply list_elem_of_fmap. exists l. split; [|done]. unfold link_pair at 1. congruence.
Qed.

(** No two importers of a validated configuration share an address. *)
Lemma validated_addresses_distinct config d d' i j :
  validate_transport_config config = Ok tt -> tc_importers config !! d = Some i -> tc_importers config !! d' = Some j ->
  it_listen_addr i = it_listen_addr j -> d = d'.
Proof.
  unfold validate_transport_config. intros Hop Hi Hj E. dispatch_inv Hop. bool_to_prop.
  match goal with H : (length (dedup _) =? _)%nat = true |- _ => apply Nat.eqb_eq in H as Hlen end.
  assert (NoDup (map (fun i => it_listen_addr i.2) (map_to_list (tc_importers config)))) as Hnd.
  { apply (dedup_length_nodup bytes_cmp); [intros; apply bytes_cmp_eq; done|]. by rewrite Hlen, length_fmap, length_map_to_list. }
  apply elem_of_map_to_list, list_elem_of_lookup in Hi as [m Hm], Hj as [n Hn].
  assert (m = n) as ->; [|by simplify_eq].
  eapply NoDup_lookup; [exact Hnd|..]; rewrite list_lookup_fmap; [rewrite Hm|rewrite Hn]; simpl; by rewrite ?E.
Qed.

(** C31: a transport configuration that validates is complete and unambiguous:
    every ordered pair of distinct domains has a link, found by [link], whose
    delays are positive and whose blackout windows are not empty; every declared
    link is the one that is found for its pair; every domain has an importer. *)
Theorem validated_transport_complete config :
  validate_transport_config config = Ok tt ->
  (forall s t, s <> t -> exists l, link config s t = Some l /\ link_pair l = (s, t) /\ link_ok l) /\
  (forall l, l ∈ tc_links config -> link config (lk_source_domain l) (lk_target_domain l) = Some l) /\
  (forall d, exists i, tc_importers config !! d = Some i /\ blank (it_listen_addr i) = false) /\
  rt_scheduler_tick_millis (tc_relay config) <> 0 /\ rt_ack_poll_millis (tc_relay config) <> 0.
Proof.
  unfold validate_transport_config. intros Hop. dispatch_inv Hop. bool_to_prop.
  match goal with H : validate_links _ _ = Ok _ |- _ => apply validate_links_ok in H as (I1 & I2 & _ & I4) end.
  match goal with H : check_all (validate_importer _) _ = Ok ?u |- _ => destruct u;
    pose proof (proj1 (check_all_ok _ _) H) as Hi end.
  assert (forall x : DomainId, x ∈ expected_domains) as Hdom by (intros []; unfold expected_domains; set_solver).
  split_and!; try done.
  - intros s t Hst. pose proof (proj1 (check_all_ok _ _) Hop s (Hdom s)) as Hs.
    pose proof (proj1 (check_all_ok _ _) Hs t (Hdom t)) as Ht. simpl in Ht.
    rewrite bool_decide_eq_false_2 in Ht by done. destruct (bool_decide _) eqn:Eb in Ht; [|done].
    apply bool_decide_eq_true, I4 in Eb as [Eb|(l & Eb & Hin)%list_elem_of_fmap]; [set_solver|].
    exists l. split_and!; [by apply find_link|done|]. rewrite Forall_forall in I1. by apply I1.
  - intros l Hin. by apply find_link.
  - intros x. specialize (Hi x (Hdom x)). unfold validate_importer in Hi.
    destruct (tc_importers config !! x) as [i|]; [|done]. exists i. split; [done|].
    by destruct (blank (it_listen_addr i)).
Qed.

(** A domain configuration that validates gives a chain identity: none of
    its texts is cut off, and the identity's fields read back as the configured
    ones; the epoch length in blocks, when there is one, is between 1 and
    [u32::MAX] and is the configured time divided by the block time. *)
Theorem validated_domain_identity {Multiaddr} (parse : bytes -> option Multiaddr) has_p2p config d millis L :
  validate_domain_config parse has_p2p config d = Ok tt ->
  Forall (fun text => (0 ∉ text) /\ utf8_valid text = true)
    [dc_chain_id config; dc_chain_name config; tok_symbol (dc_token config)] ->
  0 < millis -> 0 <= ep_length_seconds (dc_epoch config) ->
  (exists id, build_chain_identity config = Some id /\ ci_domain_id id = d /\
     encode_fixed_utf8 (ci_chain_id id) = Ok (dc_chain_id config) /\
     encode_fixed_utf8 (ci_chain_name id) = Ok (dc_chain_name config) /\
     encode_fixed_utf8 (ci_token_symbol id) = Ok (tok_symbol (dc_token config))) /\
  (epoch_length_blocks config millis = Ok L ->
   1 <= L <= u32_max /\ L * millis <= ep_length_seconds (dc_epoch config) * 1000 < (L + 1) * millis).
Proof.
  unfold validate_domain_config. intros Hop Ht Hm Hsec. dispatch_inv Hop. bool_to_prop. split.
  - apply Forall_cons in Ht as [[A1 A2] Ht]. apply Forall_cons in Ht as [[B1 B2] Ht].
    apply Forall_cons in Ht as [[C1 C2] _]. unfold build_chain_identity.
    repeat match goal with H : (_ <=? _)%nat = true |- _ => apply Nat.leb_le in H end.
    destruct (fixed_text_reads_back CHAIN_ID_BYTES (dc_chain_id config)) as (f1 & -> & R1); [done..|].
    destruct (fixed_text_reads_back CHAIN_NAME_BYTES (dc_chain_name config)) as (f2 & -> & R2); [done..|].
    destruct (fixed_text_reads_back TOKEN_SYMBOL_BYTES (tok_symbol (dc_token config))) as (f3 & -> & R3); [done..|].
    simpl. eexists. by split_and!.
  - clear Hop. unfold epoch_length_blocks. intros Hop. dispatch_inv Hop. bool_to_prop. subst L.
    pose proof (Z.div_pos (ep_length_seconds (dc_epoch config) * 1000) millis ltac:(lia) Hm).
    pose proof (Z.div_mod (ep_length_seconds (dc_epoch config) * 1000) millis ltac:(lia)).
    pose proof (Z.mod_pos_bound (ep_length_seconds (dc_epoch config) * 1000) millis Hm).
    split; [lia|nia].
Qed.

(** ** Witnesses *)

Definition example_link (s t : DomainId) : LinkProfileConfig :=
  {| lk_source_domain := s; lk_target_domain := t; lk_base_one_way_delay_seconds := 3;
     lk_initial_retry_delay_seconds := 2; lk_max_retry_delay_seconds := 60; lk_max_attempts := 3;
     lk_blackout_windows := [mkBlackoutWindowConfig 10000000000 20000000000;
                             mkBlackoutWindowConfig 5000000000 12000000000] |}.
Definition example_transport : TransportConfig :=
  {| tc_relay := mkRelayTransportConfig (str_bytes "127.0.0.1:9000") (str_bytes "var") 500 1000;
     tc_importers := <[Earth := mkImporterTransportConfig [49]]> (<[Moon := mkImporterTransportConfig [50]]>
       {[ Mars := mkImporterTransportConfig [51] ]});
     tc_links := [example_link Earth Moon; example_link Earth Mars; example_link Moon Earth;
                  example_link Moon Mars; example_link Mars Earth; example_link Mars Moon] |}.

Lemma validated_transport_complete_witness :
  exists l, link example_transport Mars Earth = Some l /\ link_pair l = (Mars, Earth) /\ link_ok l.
Proof.
  destruct (validated_transport_complete example_transport) as [Hall _]; [vm_compute; reflexivity|].
  apply Hall. discriminate.
Defined.

Definition example_domain_config : DomainConfig :=
  {| dc_domain_id := Earth; dc_chain_name := str_bytes "IALP Earth"; dc_chain_id := str_bytes "ialp-earth";
     dc_chain_type := Local; dc_token := mkTokenConfig (str_bytes "IALP") 12;
     dc_network := mkNetworkConfig 30333 9944 9615 [];
     dc_epoch := mkEpochConfig 61;
     dc_authorities := [mkAuthorityConfig [97] [97] [97] [97]];
     dc_bootstrap := mkBootstrapConfig [97] [98] [[97]] |}.

Lemma validated_domain_identity_witness :
  exists id, build_chain_identity example_domain_config = Some id /\ ci_domain_id id = Earth /\
    encode_fixed_utf8 (ci_chain_id id) = Ok (str_bytes "ialp-earth").
Proof.
  destruct (validated_domain_identity (fun _ => None : option unit) (fun _ => true) example_domain_config Earth
              6000 10) as [(id & H1 & H2 & H3 & _) _].
  - vm_compute. reflexivity.
  - repeat constructor; vm_compute; first [reflexivity|set_solver].
  - lia.
  - vm_compute. congruence.
  - exists id. split; [exact H1|]. split; [exact H2|exact H3].
Defined.
