(* ===== verification/Relay.v ===== *)
(** * The relay service ([services/relay/src/lib.rs], [services/relay/src/store.rs])

    The relay accepts certified packages from exporters, holds each one for the
    one-way delay of its link, delivers it to the importer of the target domain
    outside the link's blackout windows, retries failed deliveries, and polls
    the importer until the package is settled.

    Handlers run in a state and error monad: an error keeps the changes made
    before it.  The clock and the answers of the importer are arguments.  A
    [DateTime<Utc>] is its nanoseconds; which millisecond values [chrono] can
    represent is a parameter, and so are the functions of the [hex] crate.  File
    paths are the identities they are formatted from; file writes succeed. *)

From S2P Require Import Prelude Effects Types Codec Config.

(** ** Data *)

Inductive RelayQueueState : Type :=
| Queued
| Scheduled'
| BlockedByBlackout
| InDelivery
| Delivered
| ImporterAcked
| Retrying
| Failed.
#[export] Instance RelayQueueState_eq_dec : EqDecision RelayQueueState.
Proof. solve_decision. Defined.

(** The texts [last_delivery_error] is formatted from. *)
Inductive DeliveryError : Type :=
| ImporterReturned (status : Z) (message : string)
| ImporterTransient (status : Z)
| DeliveryRequestFailed (error : string)
| StatusReturned (status : Z) (message : string)
| StatusPollingReturned (status : Z)
| StatusPollingFailed (error : string).

Record RelayPackageRecord : Type := mkRelayPackageRecord {
  rp_source_domain : DomainId;
  rp_target_domain : DomainId;
  rp_epoch_id : Z;
  rp_summary_hash : bytes;
  rp_package_hash : bytes;
  rp_export_count : Z;
  rp_state : RelayQueueState;
  rp_relay_submitted_at_unix_ms : Z;
  rp_relay_accepted_at_unix_ms : Z;
  rp_ever_blocked_by_blackout : bool;
  rp_next_delivery_at_unix_ms : option Z;
  rp_next_ack_poll_at_unix_ms : option Z;
  rp_delivery_attempts : Z;
  rp_last_delivery_error : option DeliveryError;
  rp_delivered_at_unix_ms : option Z;
  rp_completed_at_unix_ms : option Z;
  rp_importer_state : option ImporterPackageState;
  rp_importer_reason : option string;
  rp_last_importer_status_at_unix_ms : option Z;
  rp_payload_path : PackagePath;
  rp_entry_path : PackagePath
}.
#[export] Instance RelayPackageRecord_settable : Settable RelayPackageRecord :=
  fun r => mkRelayPackageRecord (rp_source_domain r) (rp_target_domain r) (rp_epoch_id r)
    (rp_summary_hash r) (rp_package_hash r) (rp_export_count r) (rp_state r)
    (rp_relay_submitted_at_unix_ms r) (rp_relay_accepted_at_unix_ms r) (rp_ever_blocked_by_blackout r)
    (rp_next_delivery_at_unix_ms r) (rp_next_ack_poll_at_unix_ms r) (rp_delivery_attempts r)
    (rp_last_delivery_error r) (rp_delivered_at_unix_ms r) (rp_completed_at_unix_ms r)
    (rp_importer_state r) (rp_importer_reason r) (rp_last_importer_status_at_unix_ms r)
    (rp_payload_path r) (rp_entry_path r).

Definition INDEX_SCHEMA_VERSION : Z := 1.

Record RelayIndex : Type := mkRelayIndex { ri_schema_version : Z; ri_packages : list RelayPackageRecord }.
#[export] Instance RelayIndex_settable : Settable RelayIndex :=
  fun r => mkRelayIndex (ri_schema_version r) (ri_packages r).

Inductive RelayError : Type :=
| EnvelopeUndecodable
| PackageUndecodable
| PackageHashMismatch
| EnvelopeHashMismatch
| EnvelopeSourceMismatch
| EnvelopeEpochMismatch
| EnvelopeSummaryMismatch
| EnvelopeTargetMismatch
| EnvelopeCountMismatch
| NoTransportProof
| ProofUndecodable
| SummaryProofNotFirst
| SummaryProofRepeated
| MixedExportTargets
| ExportProofMismatch
| MixedCompletionSources
| CompletionProofMismatch
| MixedGovernanceTargets
| GovernanceProposalMismatch
| GovernanceAckMismatch
| NoSupportedProof
| DifferentPayloadBytes
| PayloadUnreadable
| HashTextInvalid
| LinkMissing
| ImporterEndpointMissing
| TimestampOutOfRange
| ReceiptUndecodable
| StatusUndecodable
| UnsupportedSchemaVersion.

(** ** Time *)

(** [DateTime::from_timestamp_millis]; [in_range] says which values it accepts. *)
Definition nanos_per_milli : Z := 1000000.
Definition i64_max : Z := 2 ^ 63 - 1.
Definition unix_ms_to_utc (in_range : Z -> bool) (unix_ms : Z) : result RelayError Z :=
  ensure! (unix_ms <=? i64_max) && in_range unix_ms else TimestampOutOfRange in
  Ok (unix_ms * nanos_per_milli).
Definition utc_to_unix_millis (timestamp : Z) : result RelayError Z :=
  let millis := timestamp / nanos_per_milli in
  ensure! 0 <=? millis else TimestampOutOfRange in
  Ok millis.

(** One pass over the windows: the candidate, and whether it moved. *)
Definition blackout_step (acc : Z * bool) (window : BlackoutWindowConfig) : Z * bool :=
  let '(candidate, advanced) := acc in
  if (bw_start window <=? candidate) && (candidate <? bw_end window) then (bw_end window, true)
  else (candidate, advanced).
Definition blackout_pass (windows : list BlackoutWindowConfig) (candidate : Z) : Z * bool :=
  foldl blackout_step (candidate, false) windows.

(** The loop of [next_delivery_after]; [None] when the fuel runs out. *)
Fixpoint settle (fuel : nat) (windows : list BlackoutWindowConfig) (candidate : Z) : option Z :=
  match fuel with
  | O => None
  | S fuel =>
    let '(candidate, advanced) := blackout_pass windows candidate in
    if advanced then settle fuel windows candidate else Some candidate
  end.

Definition next_delivery_after (in_range : Z -> bool) (link : LinkProfileConfig) (unix_ms : Z)
    : result RelayError Z :=
  let? candidate := unix_ms_to_utc in_range unix_ms in
  let windows := lk_blackout_windows link in
  match settle (S (length windows)) windows candidate with
  | Some candidate => utc_to_unix_millis candidate
  | None => Err TimestampOutOfRange
  end.

(** ** Envelopes *)
Section Envelopes.
Context `{!Codec}.

(** The target domain and the number of proofs seen so far. *)
Definition TargetScan : Type := option DomainId * Z.

Definition merge_target (e : RelayError) (target : option DomainId) (domain : DomainId)
    : result RelayError DomainId :=
  match target with
  | Some existing => if bool_decide (existing <> domain) then Err e else Ok existing
  | None => Ok domain
  end.

(** One iteration of the loop of [derive_target_domain]. *)
Definition scan_proof (header : EpochSummaryHeader) (first : bool) (encoded : bytes) (scan : TargetScan)
    : result RelayError TargetScan :=
  let '(target, count) := scan in
  let?? proof := (scale_decode encoded : option InclusionProof) else ProofUndecodable in
  match first, proof with
  | true, SummaryHeaderStorageV1 _ => Ok (target, count)
  | true, _ => Err SummaryProofNotFirst
  | false, SummaryHeaderStorageV1 _ => Err SummaryProofRepeated
  | false, ExportV1 p =>
    let leaf := eip_leaf p in
    let? target := merge_target MixedExportTargets target (el_target_domain leaf) in
    ensure! bool_decide (el_source_domain leaf = sh_domain_id header)
            && (el_source_epoch_id leaf =? sh_epoch_id header) else ExportProofMismatch in
    Ok (Some target, sat_add u32_max count 1)
  | false, FinalizedImportV1 p =>
    let leaf := fip_leaf p in
    let? target := merge_target MixedCompletionSources target (fl_source_domain leaf) in
    ensure! bool_decide (fl_target_domain leaf = sh_domain_id header) else CompletionProofMismatch in
    Ok (Some target, sat_add u32_max count 1)
  | false, GovernanceV1 p =>
    let leaf := gip_leaf p in
    let? target := merge_target MixedGovernanceTargets target (leaf_target_domain leaf) in
    match leaf with
    | ProposalV1 l =>
      ensure! bool_decide (gpl_source_domain l = sh_domain_id header)
              && (gpl_approval_epoch l =? sh_epoch_id header) else GovernanceProposalMismatch in
      Ok (Some target, sat_add u32_max count 1)
    | AckV1 l =>
      ensure! gal_acknowledged_epoch l =? sh_epoch_id header else GovernanceAckMismatch in
      Ok (Some target, sat_add u32_max count 1)
    end
  end.

Fixpoint scan_proofs (header : EpochSummaryHeader) (first : bool) (proofs : list bytes) (scan : TargetScan)
    : result RelayError TargetScan :=
  match proofs with
  | [] => Ok scan
  | encoded :: proofs =>
    let? scan := scan_proof header first encoded scan in scan_proofs header false proofs scan
  end.

Definition derive_target_domain (package : CertifiedSummaryPackage) : result RelayError (DomainId * Z) :=
  ensure! (2 <=? length (pkg_inclusion_proofs package))%nat else NoTransportProof in
  let? scan := scan_proofs (pkg_header package) true (pkg_inclusion_proofs package) (None, 0) in
  let '(target, proof_count) := scan in
  let?? target_domain := target else NoSupportedProof in
  Ok (target_domain, proof_count).

Definition decode_and_validate_envelope (bs : bytes)
    : result RelayError (RelayPackageEnvelopeV1 * CertifiedSummaryPackage) :=
  let?? envelope := (scale_decode bs : option RelayPackageEnvelopeV1) else EnvelopeUndecodable in
  let?? package := (scale_decode (env_package_bytes envelope) : option CertifiedSummaryPackage)
    else PackageUndecodable in
  ensure! bool_decide (compute_package_hash package = pkg_package_hash package) else PackageHashMismatch in
  ensure! bool_decide (pkg_package_hash package = env_package_hash envelope) else EnvelopeHashMismatch in
  ensure! bool_decide (sh_domain_id (pkg_header package) = env_source_domain envelope)
    else EnvelopeSourceMismatch in
  ensure! sh_epoch_id (pkg_header package) =? env_epoch_id envelope else EnvelopeEpochMismatch in
  ensure! bool_decide (sh_summary_hash (pkg_header package) = env_summary_hash envelope)
    else EnvelopeSummaryMismatch in
  let? derived := derive_target_domain package in
  let '(target_domain, export_count) := derived in
  ensure! bool_decide (target_domain = env_target_domain envelope) else EnvelopeTargetMismatch in
  ensure! export_count =? env_export_count envelope else EnvelopeCountMismatch in
  Ok (envelope, package).
End Envelopes.

(** ** The store *)

(** The relay's memory and its files: the index in memory and as saved, the
    payloads and the entry files; and the package posts it has sent to importers,
    by package, oldest first. *)
Record Relay : Type := mkRelay {
  rl_index : RelayIndex;
  rl_saved : option RelayIndex;
  rl_payloads : gmap PackagePath bytes;
  rl_entries : gmap PackagePath RelayPackageRecord;
  rl_posts : list (PackagePath * bytes)
}.
#[export] Instance Relay_settable : Settable Relay :=
  fun r => mkRelay (rl_index r) (rl_saved r) (rl_payloads r) (rl_entries r) (rl_posts r).

(** The handlers' monad. *)
Definition RM : Type -> Type := M Relay RelayError.

Section Store.
Context `{!Codec, !HexCodec}.

Definition decode_hex_hash (value : bytes) : result RelayError hash :=
  let trimmed := strip_0x value in
  let?? bs := hex_decode trimmed else HashTextInvalid in
  ensure! (length bs =? 32)%nat else HashTextInvalid in
  Ok bs.

Definition record_matches (source_domain target_domain : DomainId) (epoch_id : Z) (package_hash : hash)
    (record : RelayPackageRecord) : bool :=
  bool_decide (rp_source_domain record = source_domain)
  && bool_decide (rp_target_domain record = target_domain)
  && (rp_epoch_id record =? epoch_id)
  && bool_decide (rp_package_hash record = hex_hash package_hash).

(** [RelayIndex::record]. *)
Definition index_record (index : RelayIndex) (source_domain target_domain : DomainId) (epoch_id : Z)
    (package_hash : hash) : option RelayPackageRecord :=
  find (record_matches source_domain target_domain epoch_id package_hash) (ri_packages index).

(** [match index.record_mut(..) { Some(current) => *current = record, None => push }]. *)
Fixpoint put_record (matches : RelayPackageRecord -> bool) (record : RelayPackageRecord)
    (packages : list RelayPackageRecord) : list RelayPackageRecord :=
  match packages with
  | [] => [record]
  | current :: packages =>
    if matches current then record :: packages else current :: put_record matches record packages
  end.

Definition save_index : RM unit := modify (fun r => r {{ rl_saved := Some (rl_index r) }}).

(** [load_index] of a fresh process. *)
Definition load_index (r : Relay) : result RelayError RelayIndex :=
  match rl_saved r with
  | None => Ok (mkRelayIndex INDEX_SCHEMA_VERSION [])
  | Some index =>
    ensure! ri_schema_version index =? INDEX_SCHEMA_VERSION else UnsupportedSchemaVersion in Ok index
  end.

Definition persist_record (record : RelayPackageRecord) : RM unit :=
  do! _ := modify (fun r => r {{ rl_entries ::= <[rp_entry_path record := record]> }}) in
  do! package_hash := lift (decode_hex_hash (rp_package_hash record)) in
  modify (fun r => r {{ rl_index ::= fun index => index {{ ri_packages ::=
    put_record (record_matches (rp_source_domain record) (rp_target_domain record) (rp_epoch_id record)
                  package_hash) record }} }}).

(** The record [accept_envelope] creates. *)
Definition accepted_record (envelope : RelayPackageEnvelopeV1) (relay_accepted_at_unix_ms : Z)
    : RelayPackageRecord :=
  let path := (env_source_domain envelope, env_target_domain envelope, env_epoch_id envelope,
               env_package_hash envelope) in
  {| rp_source_domain := env_source_domain envelope;
     rp_target_domain := env_target_domain envelope;
     rp_epoch_id := env_epoch_id envelope;
     rp_summary_hash := hex_hash (env_summary_hash envelope);
     rp_package_hash := hex_hash (env_package_hash envelope);
     rp_export_count := env_export_count envelope;
     rp_state := Queued;
     rp_relay_submitted_at_unix_ms := env_relay_submitted_at_unix_ms envelope;
     rp_relay_accepted_at_unix_ms := relay_accepted_at_unix_ms;
     rp_ever_blocked_by_blackout := false;
     rp_next_delivery_at_unix_ms := None;
     rp_next_ack_poll_at_unix_ms := None;
     rp_delivery_attempts := 0;
     rp_last_delivery_error := None;
     rp_delivered_at_unix_ms := None;
     rp_completed_at_unix_ms := None;
     rp_importer_state := None;
     rp_importer_reason := None;
     rp_last_importer_status_at_unix_ms := None;
     rp_payload_path := path;
     rp_entry_path := path |}.

Definition accept_envelope (envelope : RelayPackageEnvelopeV1) (relay_accepted_at_unix_ms : Z)
    : RM (RelayPackageRecord * bool) :=
  let encoded_envelope := scale_encode envelope in
  do! existing := gets (fun r => index_record (rl_index r) (env_source_domain envelope)
                    (env_target_domain envelope) (env_epoch_id envelope) (env_package_hash envelope)) in
  match existing with
  | Some existing =>
    do! current := gets (fun r => rl_payloads r !! rp_payload_path existing) in
    match current with
    | None => fail PayloadUnreadable
    | Some current =>
      if bool_decide (current <> encoded_envelope) then fail DifferentPayloadBytes
      else ret (existing, true)
    end
  | None =>
    let record := accepted_record envelope relay_accepted_at_unix_ms in
    do! _ := modify (fun r => r {{ rl_payloads ::= <[rp_payload_path record := encoded_envelope]> }}) in
    do! _ := persist_record record in
    ret (record, false)
  end.

Definition load_payload (source_domain target_domain : DomainId) (epoch_id : Z) (package_hash : hash)
    : RM bytes :=
  do! payload := gets (fun r => rl_payloads r !! (source_domain, target_domain, epoch_id, package_hash)) in
  match payload with Some payload => ret payload | None => fail PayloadUnreadable end.

(** ** Handlers *)

(** [submit_package]: the accepted record and whether it was known. *)
Definition submit_package (body : bytes) (now : Z) : RM (RelayPackageRecord * bool) :=
  do! decoded := lift (decode_and_validate_envelope body) in
  let '(envelope, _) := decoded in
  do! accepted := accept_envelope envelope now in
  do! _ := save_index in
  ret accepted.

Definition update_record (record : RelayPackageRecord) (mutator : RelayPackageRecord -> RelayPackageRecord)
    : RM unit :=
  do! package_hash := lift (decode_hex_hash (rp_package_hash record)) in
  do! current := gets (fun r => index_record (rl_index r) (rp_source_domain record)
                   (rp_target_domain record) (rp_epoch_id record) package_hash) in
  match current with
  | None => ret tt
  | Some current =>
    do! _ := persist_record (mutator current) in
    save_index
  end.

Context (in_range : Z -> bool) (settings : TransportConfig).
Implicit Types (record : RelayPackageRecord).

Definition ack_poll_millis : Z := rt_ack_poll_millis (tc_relay settings).

Definition record_link record : result RelayError LinkProfileConfig :=
  let?? l := link settings (rp_source_domain record) (rp_target_domain record) else LinkMissing in Ok l.

Definition schedule_record record : RM unit :=
  do! l := lift (record_link record) in
  let due := sat_add u64_max (rp_relay_accepted_at_unix_ms record)
               (sat_mul u64_max (lk_base_one_way_delay_seconds l) 1000) in
  do! scheduled_at := lift (next_delivery_after in_range l due) in
  let next_state := if scheduled_at =? due then Scheduled' else BlockedByBlackout in
  let blocked := bool_decide (next_state = BlockedByBlackout) in
  update_record record (fun current =>
    let current := current {{ rp_state := next_state }} in
    let current := if blocked then current {{ rp_ever_blocked_by_blackout := true }} else current in
    current {{ rp_next_delivery_at_unix_ms := Some scheduled_at }} {{ rp_last_delivery_error := None }}).

Definition schedule_retry record (now : Z) (l : LinkProfileConfig) (error : DeliveryError) : RM unit :=
  if negb (lk_max_attempts l =? 0) && (lk_max_attempts l <=? rp_delivery_attempts record) then
    update_record record (fun current =>
      current {{ rp_state := Failed }} {{ rp_last_delivery_error := Some error }}
              {{ rp_completed_at_unix_ms := Some now }} {{ rp_next_delivery_at_unix_ms := None }}
              {{ rp_next_ack_poll_at_unix_ms := None }})
  else
    let failures := Z.max (rp_delivery_attempts record) 1 - 1 in
    let multiplier := Z.shiftl 1 (Z.min failures 16) in
    let delay_seconds := Z.min (sat_mul u64_max (lk_initial_retry_delay_seconds l) multiplier)
                           (lk_max_retry_delay_seconds l) in
    let due := sat_add u64_max now (sat_mul u64_max delay_seconds 1000) in
    do! next_delivery_at := lift (next_delivery_after in_range l due) in
    let next_state := if next_delivery_at =? due then Retrying else BlockedByBlackout in
    update_record record (fun current =>
      current {{ rp_state := next_state }} {{ rp_last_delivery_error := Some error }}
              {{ rp_next_delivery_at_unix_ms := Some next_delivery_at }}
              {{ rp_next_ack_poll_at_unix_ms := None }}).

(** What the importer answers to a delivery. *)
Inductive DeliveryResponse : Type :=
| Receipt (status : ImporterPackageStatusView)
| BadReceipt
| DeliveryClientError (status : Z) (message : string)
| DeliveryOtherStatus (status : Z)
| DeliveryFailed (error : string).

Definition get_or_insert (o : option Z) (v : Z) : option Z :=
  match o with Some x => Some x | None => Some v end.

(** [client.post(..).body(payload).send()]. *)
Definition send_package (path : PackagePath) (payload : bytes) : RM unit :=
  modify (fun r => r {{ rl_posts ::= fun posts => posts ++ [(path, payload)] }}).

(** The first half of [attempt_delivery]: [Some payload] is posted, [None] means
    that a blackout defers the delivery. *)
Definition begin_delivery record (now : Z) : RM (option bytes) :=
  do! l := lift (record_link record) in
  do! blocked_until := lift
    match rp_next_delivery_at_unix_ms record with
    | Some next_delivery_at =>
      let? blocked_until := next_delivery_after in_range l next_delivery_at in
      Ok (if now <? blocked_until then Some blocked_until else None)
    | None => Ok None
    end in
  match blocked_until with
  | Some blocked_until =>
    do! _ := update_record record (fun current =>
      current {{ rp_state := BlockedByBlackout }} {{ rp_ever_blocked_by_blackout := true }}
              {{ rp_next_delivery_at_unix_ms := Some blocked_until }}) in
    ret None
  | None =>
    do! _ := update_record record (fun current =>
      current {{ rp_state := InDelivery }}
              {{ rp_delivery_attempts ::= fun n => sat_add u32_max n 1 }}
              {{ rp_last_delivery_error := None }}) in
    do! package_hash := lift (decode_hex_hash (rp_package_hash record)) in
    do! payload := load_payload (rp_source_domain record) (rp_target_domain record) (rp_epoch_id record)
                     package_hash in
    match tc_importers settings !! rp_target_domain record with
    | None => fail ImporterEndpointMissing
    | Some _ =>
      do! _ := send_package (rp_source_domain record, rp_target_domain record, rp_epoch_id record, package_hash)
                 payload in
      ret (Some payload)
    end
  end.

(** The second half: the importer's answer. *)
Definition finish_delivery record (now : Z) (response : DeliveryResponse) : RM unit :=
  do! l := lift (record_link record) in
  match response with
  | BadReceipt => fail ReceiptUndecodable
  | Receipt status =>
    if importer_state_is_terminal (isv_state status) then
      update_record record (fun current =>
        current {{ rp_state := ImporterAcked }}
                {{ rp_delivered_at_unix_ms ::= fun o => get_or_insert o now }}
                {{ rp_completed_at_unix_ms := Some now }}
                {{ rp_importer_state := Some (isv_state status) }}
                {{ rp_importer_reason := isv_reason status }}
                {{ rp_last_importer_status_at_unix_ms := Some now }}
                {{ rp_next_ack_poll_at_unix_ms := None }})
    else
      update_record record (fun current =>
        current {{ rp_state := Delivered }}
                {{ rp_delivered_at_unix_ms ::= fun o => get_or_insert o now }}
                {{ rp_importer_state := Some (isv_state status) }}
                {{ rp_importer_reason := isv_reason status }}
                {{ rp_last_importer_status_at_unix_ms := Some now }}
                {{ rp_next_ack_poll_at_unix_ms := Some (sat_add u64_max now ack_poll_millis) }}
                {{ rp_next_delivery_at_unix_ms := None }})
  | DeliveryClientError status message =>
    update_record record (fun current =>
      current {{ rp_state := Failed }}
              {{ rp_last_delivery_error := Some (ImporterReturned status message) }}
              {{ rp_completed_at_unix_ms := Some now }}
              {{ rp_next_delivery_at_unix_ms := None }}
              {{ rp_next_ack_poll_at_unix_ms := None }})
  | DeliveryOtherStatus status => schedule_retry record now l (ImporterTransient status)
  | DeliveryFailed error => schedule_retry record now l (DeliveryRequestFailed error)
  end.

Definition attempt_delivery record (now : Z) (response : DeliveryResponse) : RM unit :=
  do! posted := begin_delivery record now in
  match posted with
  | None => ret tt
  | Some _ => finish_delivery record now response
  end.

(** What the importer answers to a status request. *)
Inductive StatusResponse : Type :=
| StatusView (status : ImporterPackageStatusView)
| BadStatus
| StatusClientError (status : Z) (message : string)
| StatusOther (status : Z)
| StatusFailed (error : string).

Definition poll_importer_status record (now : Z) (response : StatusResponse) : RM unit :=
  let poll_later := Some (sat_add u64_max now ack_poll_millis) in
  match tc_importers settings !! rp_target_domain record with
  | None => fail ImporterEndpointMissing
  | Some _ =>
  match response with
  | BadStatus => fail StatusUndecodable
  | StatusView status =>
    if importer_state_is_terminal (isv_state status) then
      update_record record (fun current =>
        current {{ rp_state := ImporterAcked }}
                {{ rp_importer_state := Some (isv_state status) }}
                {{ rp_importer_reason := isv_reason status }}
                {{ rp_last_importer_status_at_unix_ms := Some now }}
                {{ rp_completed_at_unix_ms := Some now }}
                {{ rp_next_ack_poll_at_unix_ms := None }})
    else
      update_record record (fun current =>
        current {{ rp_importer_state := Some (isv_state status) }}
                {{ rp_importer_reason := isv_reason status }}
                {{ rp_last_importer_status_at_unix_ms := Some now }}
                {{ rp_next_ack_poll_at_unix_ms := poll_later }})
  | StatusClientError status message =>
    update_record record (fun current =>
      current {{ rp_state := Failed }}
              {{ rp_last_delivery_error := Some (StatusReturned status message) }}
              {{ rp_completed_at_unix_ms := Some now }}
              {{ rp_next_ack_poll_at_unix_ms := None }})
  | StatusOther status =>
    update_record record (fun current =>
      current {{ rp_last_delivery_error := Some (StatusPollingReturned status) }}
              {{ rp_next_ack_poll_at_unix_ms := poll_later }})
  | StatusFailed error =>
    update_record record (fun current =>
      current {{ rp_last_delivery_error := Some (StatusPollingFailed error) }}
              {{ rp_next_ack_poll_at_unix_ms := poll_later }})
  end
  end.

Definition due_now (next_due_at_unix_ms : option Z) (now : Z) : bool :=
  match next_due_at_unix_ms with Some due => due <=? now | None => false end.

(** The clock readings and answers one record of a tick meets. *)
Record TickInput : Type := mkTickInput {
  ti_due_now : Z;
  ti_now : Z;
  ti_delivery : DeliveryResponse;
  ti_status : StatusResponse
}.

(** The body of the loop of [scheduler_tick]. *)
Definition tick_record (input : TickInput) (source_domain target_domain : DomainId) (epoch_id : Z)
    (package_hash_hex : bytes) : RM unit :=
  do! package_hash := lift (decode_hex_hash package_hash_hex) in
  do! found := gets (fun r => index_record (rl_index r) source_domain target_domain epoch_id package_hash) in
  match found with
  | None => ret tt
  | Some record =>
    match rp_state record with
    | Queued => schedule_record record
    | Scheduled' | BlockedByBlackout | Retrying =>
      if due_now (rp_next_delivery_at_unix_ms record) (ti_due_now input)
      then attempt_delivery record (ti_now input) (ti_delivery input) else ret tt
    | Delivered =>
      if due_now (rp_next_ack_poll_at_unix_ms record) (ti_due_now input)
      then poll_importer_status record (ti_now input) (ti_status input) else ret tt
    | InDelivery | ImporterAcked | Failed => ret tt
    end
  end.

Fixpoint tick_all (inputs : nat -> TickInput) (i : nat) (work : list RelayPackageRecord) : RM unit :=
  match work with
  | [] => ret tt
  | w :: work =>
    do! _ := tick_record (inputs i) (rp_source_domain w) (rp_target_domain w) (rp_epoch_id w)
               (rp_package_hash w) in
    tick_all inputs (S i) work
  end.

Definition scheduler_tick (inputs : nat -> TickInput) : RM unit :=
  do! work := gets (fun r => ri_packages (rl_index r)) in
  tick_all inputs 0 work.

(** ** Restart *)

Definition normalize_record (now : Z) record : RelayPackageRecord :=
  match rp_state record with
  | InDelivery => record {{ rp_state := Retrying }} {{ rp_next_delivery_at_unix_ms := Some now }}
  | Delivered =>
    match rp_next_ack_poll_at_unix_ms record with
    | None => record {{ rp_next_ack_poll_at_unix_ms := Some (sat_add u64_max now ack_poll_millis) }}
    | Some _ => record
    end
  | _ => record
  end.

Definition normalize_restart_state (now : Z) (index : RelayIndex) : RelayIndex :=
  index {{ ri_packages ::= map (normalize_record now) }}.

(** The start of [run_relay]: what a fresh process finds on disk. *)
Definition restart (now : Z) (r : Relay) : result RelayError Relay :=
  let? index := load_index r in
  let index := normalize_restart_state now index in
  Ok (r {{ rl_index := index }} {{ rl_saved := Some index }}).
End Store.
