(* ===== verification/RelayProofs.v ===== *)
(** * Correctness of the relay

    [next_delivery_after] finds the earliest moment outside the blackout
    windows.  The relay as a transition system: submissions, ticks on single
    records with any answer of the importer, crashes in the middle of a delivery
    and restarts, under a clock that does not run backwards. *)

From S2P Require Import Prelude Effects Types Codec Config Relay.

(** ** Blackout windows *)

Definition in_window (w : BlackoutWindowConfig) (t : Z) : Prop := bw_start w <= t < bw_end w.
Definition blacked_out (windows : list BlackoutWindowConfig) (t : Z) : Prop :=
  exists w, w ∈ windows /\ in_window w t.

Lemma blackout_fold windows c adv :
  let '(c', adv') := foldl blackout_step (c, adv) windows in
  c <= c' /\ (adv' = false <-> adv = false /\ c' = c /\ ~ blacked_out windows c) /\
  (c < c' -> exists w, w ∈ windows /\ bw_end w = c' /\ c < bw_end w) /\
  (forall t, c <= t < c' -> blacked_out windows t) /\ (adv = false -> adv' = true -> c < c').
Proof.
  revert c adv. induction windows as [|w windows IH]; intros c adv.
  { simpl. split_and!; [lia| |lia|lia|congruence]. split; [|tauto]. intros ->. split_and!; [done|done|].
    intros (w & Hw & _). set_solver. }
  simpl. destruct ((bw_start w <=? c) && (c <? bw_end w)) eqn:E.
  - apply andb_true_iff in E as [E1%Z.leb_le E2%Z.ltb_lt]. specialize (IH (bw_end w) true).
    destruct (foldl blackout_step (bw_end w, true) windows) as [c' adv'].
    destruct IH as (I1 & I2 & I3 & I4 & _). split_and!.
    + lia.
    + split; [intros (? & _)%I2; done|]. intros (_ & -> & _). lia.
    + intros _. destruct (decide (bw_end w < c')) as [Hlt|].
      * destruct (I3 Hlt) as (w' & Hw' & He & Hc). exists w'. split_and!; [set_solver|done|lia].
      * exists w. split_and!; [set_solver|lia|lia].
    + intros t Ht. destruct (decide (t < bw_end w)).
      * exists w. split; [set_solver|]. unfold in_window. lia.
      * destruct (I4 t) as (w' & Hw' & Hin); [lia|]. exists w'. split; [set_solver|done].
    + lia.
  - specialize (IH c adv). destruct (foldl blackout_step (c, adv) windows) as [c' adv'].
    destruct IH as (I1 & I2 & I3 & I4 & I5). assert (~ in_window w c) as Hw.
    { unfold in_window. intros [? ?]. by rewrite (proj2 (Z.leb_le _ _)), (proj2 (Z.ltb_lt _ _)) in E by lia. }
    split_and!; [done| | |  |done].
    + rewrite I2. split; intros (H1 & H2 & H3); (split_and!; [done|done|]); intros (w' & Hw' & Hin);
        [|apply H3; exists w'; split; [set_solver|done]].
      apply elem_of_cons in Hw' as [->|Hw']; [done|]. apply H3. by exists w'.
    + intros Hlt. destruct (I3 Hlt) as (w' & Hw' & ?). exists w'. split; [set_solver|done].
    + intros t Ht. destruct (I4 t Ht) as (w' & Hw' & ?). exists w'. split; [set_solver|done].
Qed.

(** The windows that end after [c]; a pass that advances leaves one behind. *)
Definition ends_after (windows : list BlackoutWindowConfig) (c : Z) : nat :=
  length (filter (fun w => c < bw_end w) windows).

Lemma ends_after_lt windows c c' w :
  c < c' -> w ∈ windows -> c < bw_end w <= c' -> (ends_after windows c' < ends_after windows c)%nat.
Proof.
  intros Hc. unfold ends_after. induction windows as [|x windows IH]; [set_solver|].
  intros Hin Hw. rewrite !filter_cons.
  assert (ends_after windows c' <= ends_after windows c)%nat as Hle.
  { clear IH Hin Hw. unfold ends_after. induction windows as [|y windows IH]; [done|]. rewrite !filter_cons.
    repeat case_decide; simpl; lia. }
  unfold ends_after in Hle. apply elem_of_cons in Hin as [->|Hin].
  - rewrite (decide_True (P := c < _)), decide_False by lia. simpl. lia.
  - specialize (IH Hin Hw). repeat case_decide; simpl; lia.
Qed.

Lemma settle_enough fuel windows c :
  (ends_after windows c < fuel)%nat ->
  exists c', settle fuel windows c = Some c' /\ c <= c' /\ ~ blacked_out windows c' /\
    (c' = c \/ exists w, w ∈ windows /\ bw_end w = c') /\
    forall t, c <= t < c' -> blacked_out windows t.
Proof.
  revert c. induction fuel as [|fuel IH]; intros c Hf; [lia|]. simpl.
  pose proof (blackout_fold windows c false) as Hp. unfold blackout_pass.
  destruct (foldl blackout_step (c, false) windows) as [c1 adv].
  destruct Hp as (P1 & P2 & P3 & P4 & P5). destruct adv.
  - specialize (P5 eq_refl eq_refl). destruct (P3 P5) as (w & Hw & He & Hlt).
    pose proof (ends_after_lt windows c c1 w P5 Hw ltac:(lia)).
    destruct (IH c1) as (c' & Hs & Hle & Hn & Hend & Hall); [lia|]. exists c'. split_and!; [done|lia|done| |].
    { right. destruct Hend as [->|?]; [by exists w|done]. }
    intros t Ht. destruct (decide (t < c1)); [apply P4; lia|apply Hall; lia].
  - destruct (proj1 P2 eq_refl) as (_ & -> & Hn). exists c. split_and!; [done|lia|done|by left|lia].
Qed.

Lemma next_delivery_spec in_range l ms :
  in_range ms = true -> 0 <= ms <= i64_max ->
  exists c, next_delivery_after in_range l ms = Ok (c / nanos_per_milli) /\ ms * nanos_per_milli <= c /\
    ~ blacked_out (lk_blackout_windows l) c /\
    (c = ms * nanos_per_milli \/ exists w, w ∈ lk_blackout_windows l /\ bw_end w = c) /\
    forall t, ms * nanos_per_milli <= t < c -> blacked_out (lk_blackout_windows l) t.
Proof.
  intros Hr Hms. unfold next_delivery_after, unix_ms_to_utc. rewrite (proj2 (Z.leb_le _ _)), Hr by lia. simpl.
  destruct (settle_enough (S (length (lk_blackout_windows l))) (lk_blackout_windows l) (ms * nanos_per_milli))
    as (c & Hs & Hle & Hn & Hend & Hall).
  { unfold ends_after. pose proof (length_filter (fun w => ms * nanos_per_milli < bw_end w) (lk_blackout_windows l)). lia. }
  change (match _ with Some _ => _ | None => _ end) with
    (match settle (S (length (lk_blackout_windows l))) (lk_blackout_windows l) (ms * nanos_per_milli) with
     | Some candidate => utc_to_unix_millis candidate | None => Err TimestampOutOfRange end).
  rewrite Hs. exists c. split_and!; [|done..]. unfold utc_to_unix_millis.
  rewrite (proj2 (Z.leb_le _ _)); [done|]. apply Z.div_pos; unfold nanos_per_milli in *; lia.
Qed.

(** C30: the relay waits exactly as long as it has to, to the millisecond.
    [next_delivery_after] terminates: from the moment asked for it finds the
    first moment [c] in no blackout window, every instant in between being
    blacked out, and returns the millisecond [c] lies in.  When all windows end on
    whole milliseconds that millisecond is [c]; when it is not [c], its
    beginning, at which the relay then plans the delivery, still lies in a
    blackout window, less than a millisecond before [c]. *)
Theorem next_delivery_earliest in_range l ms :
  in_range ms = true -> 0 <= ms <= i64_max ->
  let blacked := blacked_out (lk_blackout_windows l) in
  exists ms' c, next_delivery_after in_range l ms = Ok ms' /\ ms <= ms' /\
    ms' * nanos_per_milli <= c < (ms' + 1) * nanos_per_milli /\
    ~ blacked c /\ (forall t, ms * nanos_per_milli <= t < c -> blacked t) /\
    (blacked (ms' * nanos_per_milli) <-> ms' * nanos_per_milli <> c) /\
    ((forall w, w ∈ lk_blackout_windows l -> bw_end w mod nanos_per_milli = 0) -> ms' * nanos_per_milli = c).
Proof.
  intros Hr Hms blacked. destruct (next_delivery_spec in_range l ms Hr Hms) as (c & Hop & Hle & Hn & Hend & Hall).
  exists (c / nanos_per_milli), c. pose proof (Z.div_mod c nanos_per_milli ltac:(done)) as Hc.
  pose proof (Z.mod_pos_bound c nanos_per_milli ltac:(done)) as Hm.
  assert (ms <= c / nanos_per_milli) as Hlo by (apply Z.div_le_lower_bound; [done|lia]).
  split_and!; [done|done|lia|lia|done|done| |].
  - split; [by intros Hb E; rewrite E in Hb|]. intros Hne. apply Hall. unfold nanos_per_milli in *. lia.
  - intros Hw. assert (c mod nanos_per_milli = 0); [|lia].
    destruct Hend as [->|(w & Hin & <-)]; [by apply Z.mod_mul|by apply Hw].
Qed.

(** A window that ends half a millisecond after the fifth. *)
Definition ragged_link : LinkProfileConfig :=
  let l := example_link Earth Mars in
  {| lk_source_domain := lk_source_domain l; lk_target_domain := lk_target_domain l;
     lk_base_one_way_delay_seconds := lk_base_one_way_delay_seconds l;
     lk_initial_retry_delay_seconds := lk_initial_retry_delay_seconds l;
     lk_max_retry_delay_seconds := lk_max_retry_delay_seconds l; lk_max_attempts := lk_max_attempts l;
     lk_blackout_windows := [mkBlackoutWindowConfig 3000000 5500000] |}.

Lemma next_delivery_earliest_witness :
  next_delivery_after (fun _ => true) (example_link Earth Mars) 6000 = Ok 20000 /\
  ~ blacked_out (lk_blackout_windows (example_link Earth Mars)) (20000 * nanos_per_milli) /\
  next_delivery_after (fun _ => true) ragged_link 4 = Ok 5 /\
  blacked_out (lk_blackout_windows ragged_link) (5 * nanos_per_milli).
Proof.
  destruct (next_delivery_earliest (fun _ => true) (example_link Earth Mars) 6000) as (ms' & c & Hop & _ & _ & Hn & _ & _ & Hwhole);
    [reflexivity|vm_compute; split; congruence|].
  destruct (next_delivery_earliest (fun _ => true) ragged_link 4) as (ms2 & c2 & Hop2 & _ & _ & _ & Hb & Hiff & _);
    [reflexivity|vm_compute; split; congruence|].
  assert (ms' = 20000) as -> by (vm_compute in Hop; congruence). assert (ms2 = 5) as -> by (vm_compute in Hop2; congruence).
  split; [exact Hop|]. split; [|split; [exact Hop2|]].
  - rewrite Hwhole; [exact Hn|]. intros w Hw. repeat (apply elem_of_cons in Hw as [->|Hw]; [reflexivity|]). by apply elem_of_nil in Hw.
  - exists (mkBlackoutWindowConfig 3000000 5500000). split; [apply elem_of_cons; by left|]. unfold in_window. simpl. unfold nanos_per_milli. lia.
Defined.
