(* ===== verification/RelaySafety.v ===== *)
(** * Safety of the relay service

    The relay as a transition system ([relay_step]): submissions of any bytes,
    ticks on single records with any answer of the importer, submissions in the
    middle of a delivery, crashes and restarts, under a clock that does not run
    backwards.  The invariant [sys_ok] holds in every reachable state; from it
    follow that a delivery carries a validated envelope and never starts before
    the one-way delay is over, that settled records never change, and how often
    a package can be delivered. *)

From S2P Require Import Prelude Effects Types Codec Config Relay RelayProofs.

(** ** Updating records by key *)

Definition RecordKey : Type := DomainId * DomainId * Z * bytes.
Definition rkey (x : RelayPackageRecord) : RecordKey :=
  (rp_source_domain x, rp_target_domain x, rp_epoch_id x, rp_package_hash x).

(** Everything of a record that no update changes. *)
Definition identity (x : RelayPackageRecord) :=
  (rkey x, rp_summary_hash x, rp_export_count x, rp_relay_submitted_at_unix_ms x,
   rp_relay_accepted_at_unix_ms x, rp_payload_path x, rp_entry_path x).
Definition keeps (f : RelayPackageRecord -> RelayPackageRecord) : Prop :=
  forall x, identity (f x) = identity x.

Definition touch (k : RecordKey) (f : RelayPackageRecord -> RelayPackageRecord)
    (l : list RelayPackageRecord) : list RelayPackageRecord :=
  map (fun x => if bool_decide (rkey x = k) then f x else x) l.

Lemma identity_key x y : identity x = identity y -> rkey x = rkey y.
Proof. unfold identity. congruence. Qed.

Lemma map_key_touch k f l : keeps f -> map rkey (touch k f l) = map rkey l.
Proof.
  intros Hf. unfold touch. rewrite map_map. apply map_ext. intros x.
  case_bool_decide; [|done]. apply identity_key, Hf.
Qed.

Lemma elem_of_touch k f l y :
  y ∈ touch k f l -> (y ∈ l /\ rkey y <> k) \/ exists x, x ∈ l /\ rkey x = k /\ y = f x.
Proof.
  intros (x & -> & Hx)%list_elem_of_fmap. case_bool_decide; [right; by exists x|by left].
Qed.

Lemma touch_elem k f l x : x ∈ l -> (if bool_decide (rkey x = k) then f x else x) ∈ touch k f l.
Proof. intros Hx. apply list_elem_of_fmap. by exists x. Qed.

Lemma touch_absent k f l : k ∉ map rkey l -> touch k f l = l.
Proof.
  induction l as [|x l IH]; simpl; intros Hk; [done|]. apply not_elem_of_cons in Hk as [Hx Hk].
  rewrite bool_decide_eq_false_2 by congruence. f_equal. by apply IH.
Qed.

Lemma unique_key l x y : NoDup (map rkey l) -> x ∈ l -> y ∈ l -> rkey x = rkey y -> x = y.
Proof. apply NoDup_map_key. Qed.

Lemma put_touch l x f :
  NoDup (map rkey l) -> x ∈ l -> keeps f ->
  put_record (fun z => bool_decide (rkey z = rkey x)) (f x) l = touch (rkey x) f l.
Proof.
  intros Hnd Hx Hf. induction l as [|y l IH]; [set_solver|]. simpl in *. apply NoDup_cons in Hnd as [Hy Hnd].
  case_bool_decide as Hk.
  - assert (x = y) as ->.
    { apply elem_of_cons in Hx as [?|Hx]; [done|]. destruct Hy. rewrite Hk. by apply list_elem_of_fmap_2. }
    f_equal. symmetry. by apply touch_absent.
  - f_equal. apply IH; [done|]. apply elem_of_cons in Hx as [->|?]; done.
Qed.

Lemma find_key k l x : find (fun z => bool_decide (rkey z = k)) l = Some x -> x ∈ l /\ rkey x = k.
Proof. intros [Hx Hk%bool_decide_eq_true]%List.find_some. by rewrite list_elem_of_In. Qed.

Lemma find_unique l x : NoDup (map rkey l) -> x ∈ l -> find (fun z => bool_decide (rkey z = rkey x)) l = Some x.
Proof.
  intros Hnd Hx. destruct (find _ l) as [y|] eqn:E.
  - apply find_key in E as [Hy Hk]. f_equal. by apply (unique_key l).
  - apply list_elem_of_In, (List.find_none _ _ E) in Hx. by rewrite bool_decide_eq_true_2 in Hx.
Qed.

Lemma find_ext (p q : RelayPackageRecord -> bool) l : (forall x, p x = q x) -> find p l = find q l.
Proof. intros E. induction l as [|x l IH]; simpl; [done|]. by rewrite E, IH. Qed.
Lemma put_ext (p q : RelayPackageRecord -> bool) y l :
  (forall x, p x = q x) -> put_record p y l = put_record q y l.
Proof. intros E. induction l as [|x l IH]; simpl; [done|]. by rewrite E, IH. Qed.

(** ** The store *)
Section Store.
Context `{!Codec, !CodecOk, !HexCodec, !HexCodecOk}.
Context (length_blake2_256 : forall b, length (blake2_256 b) = 32%nat).

Lemma record_matches_key s t e h x :
  record_matches s t e h x = bool_decide (rkey x = (s, t, e, hex_hash h)).
Proof.
  unfold record_matches, rkey. apply Bool.eq_iff_eq_true. rewrite !andb_true_iff, !bool_decide_eq_true, Z.eqb_eq.
  split; [intros (((-> & ->) & ->) & ->); done|intros [= -> -> -> ->]; done].
Qed.

Lemma decode_hex_hash_encode h : length h = 32%nat -> decode_hex_hash (hex_hash h) = Ok h.
Proof. intros Hl. unfold decode_hex_hash, hex_hash. simpl. by rewrite hex_decode_encode, Hl. Qed.

(** What passes the envelope checks still passes them when it is encoded again. *)
Lemma validated_reencodes bs env pkg :
  decode_and_validate_envelope bs = Ok (env, pkg) ->
  decode_and_validate_envelope (scale_encode env) = Ok (env, pkg) /\ length (env_package_hash env) = 32%nat.
Proof.
  intros Hd. pose proof Hd as Hop. unfold decode_and_validate_envelope in Hop. dispatch_inv Hop.
  bool_to_prop. simplify_eq. split.
  - rewrite <-Hd. unfold decode_and_validate_envelope. rewrite E.
    by rewrite <-(app_nil_r (scale_encode env)), scale_decode_encode.
  - match goal with H : compute_package_hash pkg = _, H' : _ = env_package_hash env |- _ =>
      rewrite <-H', <-H end. apply length_blake2_256.
Qed.

(** The record of an accepted envelope, with its payload file. *)
Definition stored (payloads : gmap PackagePath bytes) (x : RelayPackageRecord) : Prop :=
  exists env pkg,
    decode_and_validate_envelope (scale_encode env) = Ok (env, pkg) /\
    length (env_package_hash env) = 32%nat /\
    identity x = identity (accepted_record env (rp_relay_accepted_at_unix_ms x)) /\
    payloads !! rp_payload_path x = Some (scale_encode env).

Record store_ok (r : Relay) : Prop := {
  so_version : ri_schema_version (rl_index r) = INDEX_SCHEMA_VERSION;
  so_saved : rl_saved r = Some (rl_index r) \/ (rl_saved r = None /\ ri_packages (rl_index r) = []);
  so_nodup : NoDup (map rkey (ri_packages (rl_index r)));
  so_stored : forall x, x ∈ ri_packages (rl_index r) -> stored (rl_payloads r) x
}.

Lemma stored_identity payloads x y : identity x = identity y -> stored payloads x -> stored payloads y.
Proof.
  intros E (env & pkg & Hv & Hl & Hid & Hp). exists env, pkg.
  assert (rp_relay_accepted_at_unix_ms y = rp_relay_accepted_at_unix_ms x) as -> by (unfold identity in E; congruence).
  assert (rp_payload_path y = rp_payload_path x) as -> by (unfold identity in E; congruence).
  split_and!; [done|done|congruence|done].
Qed.

(** A stored record's hash text is readable, and all its paths are one path. *)
Lemma stored_paths payloads x :
  stored payloads x -> exists h, rp_package_hash x = hex_hash h /\ decode_hex_hash (rp_package_hash x) = Ok h /\
    rkey x = (rp_source_domain x, rp_target_domain x, rp_epoch_id x, hex_hash h) /\
    rp_payload_path x = (rp_source_domain x, rp_target_domain x, rp_epoch_id x, h).
Proof.
  intros (env & pkg & Hv & Hl & Hid & Hp). exists (env_package_hash env).
  unfold identity, rkey in Hid. simpl in Hid. injection Hid as E1 E2 E3 E4 E5 E6 E7 E8 E9.
  unfold rkey. rewrite E4, E8. split_and!; [done|by apply decode_hex_hash_encode|done|congruence].
Qed.

(** The effect of an update on the relay. *)
Definition updated (r : Relay) (k : RecordKey) (f : RelayPackageRecord -> RelayPackageRecord) (r' : Relay) : Prop :=
  keeps f /\ rl_index r' = (rl_index r) {{ ri_packages := touch k f (ri_packages (rl_index r)) }} /\
  rl_saved r' = Some (rl_index r') /\ rl_payloads r' = rl_payloads r.

Lemma updated_ok r k f r' : store_ok r -> updated r k f r' -> store_ok r'.
Proof.
  intros [Sv _ Sn Ss] (Hf & Hi & Hs & Hp). split.
  - by rewrite Hi.
  - by left.
  - rewrite Hi. simpl. by rewrite map_key_touch.
  - rewrite Hi, Hp. intros y [[Hy _]|(x & Hx & _ & ->)]%elem_of_touch; [by apply Ss|].
    apply (stored_identity _ x); [symmetry; apply Hf|by apply Ss].
Qed.

Lemma update_record_spec r record x f :
  store_ok r -> x ∈ ri_packages (rl_index r) -> rkey record = rkey x -> keeps f ->
  exists r', update_record record f r = (r', Ok tt) /\ updated r (rkey x) f r'.
Proof.
  intros Hok Hx Hk Hf. destruct Hok as [Sv Ss0 Sn Ss].
  destruct (stored_paths _ _ (Ss x Hx)) as (h & Eh & Ed & Ek & _).
  destruct (stored_paths _ (f x) (stored_identity _ x _ (eq_sym (Hf x)) (Ss x Hx))) as (h' & Eh' & Ed' & Ek' & _).
  assert (h' = h) as ->.
  { pose proof (identity_key _ _ (Hf x)) as E. assert (hex_hash h' = hex_hash h) as E' by (unfold rkey in E; congruence).
    rewrite <-Eh', <-Eh in E'. rewrite E' in Ed'. congruence. }
  assert (rp_package_hash record = rp_package_hash x) as Er by (unfold rkey in Hk; congruence).
  assert (rp_source_domain record = rp_source_domain x /\ rp_target_domain record = rp_target_domain x /\
          rp_epoch_id record = rp_epoch_id x) as (E1 & E2 & E3) by (unfold rkey in Hk; split_and!; congruence).
  unfold update_record, bind, lift, gets. rewrite Er, Ed. unfold index_record. rewrite E1, E2, E3.
  rewrite (find_ext _ (fun z => bool_decide (rkey z = rkey x)))
    by (intros z; rewrite record_matches_key, Ek; done).
  rewrite find_unique by done. unfold persist_record, bind, lift, modify, save_index. rewrite Ed'.
  eexists. split; [done|]. unfold updated. split_and!; [done| |done|done].
  simpl. f_equal. rewrite <-(put_touch _ _ _ Sn Hx Hf). apply put_ext. intros z.
  pose proof (identity_key _ _ (Hf x)) as E. rewrite record_matches_key, <-E. by rewrite Ek'.
Qed.

Lemma update_record_posts r record f r' res : update_record record f r = (r', res) -> rl_posts r' = rl_posts r.
Proof.
  intros E. change (rl_posts (fst (r', res)) = rl_posts r). rewrite <-E. clear E r' res.
  unfold update_record, persist_record, bind, lift, gets, modify, save_index. destruct (decode_hex_hash _); [|done].
  simpl. destruct (index_record _ _ _ _ _); [|done]. simpl. by destruct (decode_hex_hash _).
Qed.

(** The posts of a package. *)
Definition posts_of (path : PackagePath) (r : Relay) : Z :=
  Z.of_nat (length (filter (fun p => p.1 = path) (rl_posts r))).

(** Every post is of a package in the index, and counted there. *)
Record posts_ok (r : Relay) : Prop := {
  po_known : forall p, p ∈ rl_posts r -> p.1 ∈ map rp_payload_path (ri_packages (rl_index r));
  po_counted : forall x, x ∈ ri_packages (rl_index r) -> rp_delivery_attempts x < u32_max ->
    posts_of (rp_payload_path x) r <= rp_delivery_attempts x
}.

(** Submission: rejected, known (same bytes or a conflict), or new. *)
Definition env_key (env : RelayPackageEnvelopeV1) : RecordKey :=
  (env_source_domain env, env_target_domain env, env_epoch_id env, hex_hash (env_package_hash env)).

Inductive submission (r : Relay) (body : bytes) (now : Z) : Relay * result RelayError (RelayPackageRecord * bool) -> Prop :=
| sub_rejected e :
    decode_and_validate_envelope body = Err e -> submission r body now (r, Err e)
| sub_known env pkg x :
    decode_and_validate_envelope body = Ok (env, pkg) -> x ∈ ri_packages (rl_index r) -> rkey x = env_key env ->
    rl_payloads r !! rp_payload_path x = Some (scale_encode env) -> submission r body now (r, Ok (x, true))
| sub_conflict env pkg x other :
    decode_and_validate_envelope body = Ok (env, pkg) -> x ∈ ri_packages (rl_index r) -> rkey x = env_key env ->
    rl_payloads r !! rp_payload_path x = Some other -> other <> scale_encode env ->
    submission r body now (r, Err DifferentPayloadBytes)
| sub_new env pkg r' :
    decode_and_validate_envelope body = Ok (env, pkg) -> env_key env ∉ map rkey (ri_packages (rl_index r)) ->
    rl_index r' = (rl_index r) {{ ri_packages := ri_packages (rl_index r) ++ [accepted_record env now] }} ->
    rl_saved r' = Some (rl_index r') ->
    rl_payloads r' = <[rp_payload_path (accepted_record env now) := scale_encode env]> (rl_payloads r) ->
    rl_posts r' = rl_posts r ->
    submission r body now (r', Ok (accepted_record env now, false)).

Lemma saved_again r x : store_ok r -> x ∈ ri_packages (rl_index r) -> r {{ rl_saved := Some (rl_index r) }} = r.
Proof.
  intros [_ [Hs|[_ Hs]] _ _] Hx; [|rewrite Hs in Hx; set_solver]. destruct r. simpl in *. by rewrite Hs.
Qed.

Lemma put_absent (matches : RelayPackageRecord -> bool) y l :
  (forall x, x ∈ l -> matches x = false) -> put_record matches y l = l ++ [y].
Proof.
  induction l as [|x l IH]; simpl; intros Hn; [done|]. rewrite Hn by set_solver. f_equal. apply IH. set_solver.
Qed.

Lemma submit_spec r body now : store_ok r -> submission r body now (submit_package body now r).
Proof.
  intros Hok. unfold submit_package, bind at 1, lift. destruct (decode_and_validate_envelope body) as [[env pkg]|e] eqn:Ev;
    [|by apply sub_rejected].
  destruct (validated_reencodes _ _ _ Ev) as [_ Hl].
  unfold bind at 1, accept_envelope, bind at 1, gets at 1. unfold index_record.
  rewrite (find_ext _ (fun z => bool_decide (rkey z = env_key env))) by (intros z; apply record_matches_key).
  destruct (find _ _) as [x|] eqn:Ef.
  - apply find_key in Ef as [Hx Hk]. destruct (so_stored _ Hok x Hx) as (env0 & _ & _ & _ & _ & Hp).
    unfold bind at 1, gets. rewrite Hp. case_bool_decide as Hne.
    + by eapply sub_conflict.
    + unfold bind, save_index, modify, ret. rewrite (saved_again r x) by done.
      eapply sub_known; [done..|]. congruence.
  - assert (env_key env ∉ map rkey (ri_packages (rl_index r))) as Ha.
    { intros (x & Hk & Hx)%list_elem_of_fmap. apply list_elem_of_In, (List.find_none _ _ Ef) in Hx.
      by rewrite Hk, bool_decide_eq_true_2 in Hx. }
    unfold bind, modify, persist_record, bind, modify, lift, save_index, modify, ret.
    change (rp_package_hash (accepted_record env now)) with (hex_hash (env_package_hash env)).
    rewrite decode_hex_hash_encode by done. eapply sub_new; [done|done| |done|done|done]. simpl. f_equal.
    apply put_absent. intros x Hx. rewrite record_matches_key. apply bool_decide_eq_false_2. intros Hk.
    apply Ha. rewrite <-(Hk : rkey x = env_key env). by apply list_elem_of_fmap_2.
Qed.

Lemma accepted_stored bs env pkg now payloads :
  decode_and_validate_envelope bs = Ok (env, pkg) ->
  stored (<[rp_payload_path (accepted_record env now) := scale_encode env]> payloads) (accepted_record env now).
Proof.
  intros Hv. destruct (validated_reencodes _ _ _ Hv) as [Hv' Hl]. exists env, pkg.
  split_and!; [done|done|done|apply lookup_insert_eq].
Qed.

Lemma submit_store_ok r body now r' res :
  store_ok r -> submission r body now (r', res) -> store_ok r'.
Proof.
  intros Hok Hs. inversion Hs as [|env pkg x|env pkg x other|env pkg r1 Hv Ha Hi Hsv Hp Hpo]; subst; [done..|].
  destruct Hok as [Sv _ Sn Ss]. split.
  - by rewrite Hi.
  - by left.
  - rewrite Hi. simpl. rewrite map_app. simpl. rewrite Permutation_app_comm. simpl. by constructor.
  - rewrite Hi, Hp. simpl. intros x [Hx|Hx%list_elem_of_singleton]%elem_of_app; [|subst x; by eapply accepted_stored].
    destruct (Ss x Hx) as (env0 & pkg0 & Hv0 & Hl0 & Hid & Hp0). exists env0, pkg0. split_and!; [done..|].
    rewrite lookup_insert_ne; [done|]. intros E. apply Ha. apply list_elem_of_fmap. exists x. split; [|done].
    destruct (stored_paths _ _ (Ss x Hx)) as (h & _ & _ & Hk & Hpath). rewrite Hk. rewrite Hpath in E.
    unfold env_key. simpl in E. congruence.
Qed.
End Store.

(** ** The transition system *)
Section Machine.
Context `{!Codec, !CodecOk, !HexCodec, !HexCodecOk}.
Context (in_range : Z -> bool) (settings : TransportConfig).
Implicit Types (r : Relay) (x y record : RelayPackageRecord).

(** The relay, the clock, the number of restarts, and the delivery whose answer
    is outstanding: the record as it was read, the time and the payload. *)
Record RelaySys : Type := mkRelaySys {
  rs_relay : Relay;
  rs_clock : Z;
  rs_restarts : Z;
  rs_posted : option (RelayPackageRecord * Z * bytes)
}.

Definition relay_start (now : Z) : RelaySys :=
  mkRelaySys (mkRelay (mkRelayIndex INDEX_SCHEMA_VERSION []) None ∅ ∅ []) now 0 None.

Definition waiting (s : RelayQueueState) : bool :=
  match s with Scheduled' | BlockedByBlackout | Retrying => true | _ => false end.
Definition settled (s : RelayQueueState) : bool :=
  match s with ImporterAcked | Failed => true | _ => false end.

Inductive relay_step : RelaySys -> RelaySys -> Prop :=
| step_submit r t k p body now :
    t <= now ->
    relay_step (mkRelaySys r t k p) (mkRelaySys (fst (submit_package body now r)) now k p)
| step_tick r t k input s d e hex :
    t <= ti_due_now input <= ti_now input ->
    relay_step (mkRelaySys r t k None)
      (mkRelaySys (fst (tick_record in_range settings input s d e hex r)) (ti_now input) k None)
| step_post r t k due now record payload r' :
    t <= due <= now -> record ∈ ri_packages (rl_index r) -> waiting (rp_state record) = true ->
    due_now (rp_next_delivery_at_unix_ms record) due = true ->
    begin_delivery in_range settings record now r = (r', Ok (Some payload)) ->
    relay_step (mkRelaySys r t k None) (mkRelaySys r' now k (Some (record, now, payload)))
| step_answer r t k record now payload response :
    relay_step (mkRelaySys r t k (Some (record, now, payload)))
      (mkRelaySys (fst (finish_delivery in_range settings record now response r)) t k None)
| step_restart r t k p now r' :
    t <= now -> restart settings now r = Ok r' ->
    relay_step (mkRelaySys r t k p) (mkRelaySys r' now (k + 1) None).

Definition relay_reachable (s : RelaySys) : Prop := exists now, rtc relay_step (relay_start now) s.

(** ** The invariant *)

(** The first moment a package may be delivered: acceptance plus the delay of
    its link. *)
Definition ready_at (l : LinkProfileConfig) x : Z :=
  sat_add u64_max (rp_relay_accepted_at_unix_ms x) (sat_mul u64_max (lk_base_one_way_delay_seconds l) 1000).

Record progress (t k : Z) (l : LinkProfileConfig) x : Prop := {
  pg_attempts : 0 <= rp_delivery_attempts x;
  pg_bound : lk_max_attempts l <> 0 ->
    rp_delivery_attempts x <= lk_max_attempts l + k + (if waiting (rp_state x) then 0 else 1);
  pg_next : waiting (rp_state x) = true ->
    exists n, rp_next_delivery_at_unix_ms x = Some n /\ ready_at l x <= n;
  pg_ready : waiting (rp_state x) = false \/ 0 < rp_delivery_attempts x -> ready_at l x <= t;
  pg_poll : rp_state x = Delivered -> is_Some (rp_next_ack_poll_at_unix_ms x);
  pg_done : settled (rp_state x) = true -> is_Some (rp_completed_at_unix_ms x);
  pg_delivered : forall d, rp_delivered_at_unix_ms x = Some d -> ready_at l x <= d <= t
}.

Definition rec_ok (t k : Z) x : Prop :=
  match rp_state x with
  | Queued => rp_delivery_attempts x = 0 /\ rp_delivered_at_unix_ms x = None
  | _ => exists l, link settings (rp_source_domain x) (rp_target_domain x) = Some l /\ progress t k l x
  end.

Definition posted_ok (t k : Z) r (p : option (RelayPackageRecord * Z * bytes)) : Prop :=
  match p with
  | None => True
  | Some (record, now, payload) =>
    exists y, y ∈ ri_packages (rl_index r) /\ identity y = identity record /\ rp_state y = InDelivery /\
      rp_delivery_attempts y = sat_add u32_max (rp_delivery_attempts record) 1 /\
      waiting (rp_state record) = true /\ rec_ok t k record /\ now <= t /\
      (forall l, link settings (rp_source_domain record) (rp_target_domain record) = Some l ->
         ready_at l record <= now) /\
      rl_payloads r !! rp_payload_path record = Some payload /\
      is_Some (tc_importers settings !! rp_target_domain record)
  end.

Record sys_ok (s : RelaySys) : Prop := {
  sk_store : store_ok (rs_relay s);
  sk_records : forall x, x ∈ ri_packages (rl_index (rs_relay s)) -> rec_ok (rs_clock s) (rs_restarts s) x;
  sk_posted : posted_ok (rs_clock s) (rs_restarts s) (rs_relay s) (rs_posted s);
  sk_restarts : 0 <= rs_restarts s;
  sk_posts : posts_ok (rs_relay s)
}.

Lemma rec_ok_link t k x :
  rp_state x <> Queued -> rec_ok t k x ->
  exists l, link settings (rp_source_domain x) (rp_target_domain x) = Some l /\ progress t k l x.
Proof. unfold rec_ok. destruct (rp_state x); done. Qed.

Lemma link_rec_ok t k x l :
  rp_state x <> Queued -> link settings (rp_source_domain x) (rp_target_domain x) = Some l ->
  progress t k l x -> rec_ok t k x.
Proof. unfold rec_ok. destruct (rp_state x); try done; intros; by exists l. Qed.

Lemma rec_ok_mono t t' k k' x : t <= t' -> k <= k' -> rec_ok t k x -> rec_ok t' k' x.
Proof.
  intros Ht Hk. destruct (decide (rp_state x = Queued)) as [E|Hq].
  { unfold rec_ok. by rewrite E. }
  intros (l & Hl & [P1 P2 P3 P4 P5 P6 P7])%rec_ok_link; [|done]. apply (link_rec_ok _ _ _ l); [done..|].
  split; [done| |done| |done|done|].
  - intros Hm. specialize (P2 Hm). lia.
  - intros Hw. specialize (P4 Hw). lia.
  - intros d Hd. specialize (P7 d Hd). lia.
Qed.

Lemma ready_at_identity l x y : identity x = identity y -> ready_at l x = ready_at l y.
Proof.
  intros E. unfold ready_at. assert (rp_relay_accepted_at_unix_ms x = rp_relay_accepted_at_unix_ms y) as ->; [|done].
  unfold identity in E. congruence.
Qed.

(** Planned deliveries do not lie before the time asked for. *)
Lemma settle_le fuel windows c c' : settle fuel windows c = Some c' -> c <= c'.
Proof.
  revert c. induction fuel as [|fuel IH]; intros c Hs; [done|]. simpl in Hs.
  pose proof (blackout_fold windows c false) as Hp. unfold blackout_pass in Hs.
  destruct (foldl blackout_step (c, false) windows) as [c1 adv]. destruct Hp as [Hle _].
  destruct adv; [specialize (IH _ Hs); lia|by simplify_eq].
Qed.

Lemma next_delivery_ge l ms n : next_delivery_after in_range l ms = Ok n -> ms <= n.
Proof.
  unfold next_delivery_after, unix_ms_to_utc, utc_to_unix_millis. intros Hop. dispatch_inv Hop. simplify_eq.
  match goal with H : settle _ _ _ = Some _ |- _ => apply settle_le in H end.
  apply Z.div_le_lower_bound; [done|]. dispatch_inv E. lia.
Qed.

(** ** The handlers *)

(** Field widths: the delays and counters of the links are unsigned. *)
Definition links_unsigned : Prop :=
  forall l, l ∈ tc_links settings ->
    0 <= lk_initial_retry_delay_seconds l /\ 0 <= lk_max_retry_delay_seconds l /\ 0 <= lk_max_attempts l.
Context (Hlinks : links_unsigned).

Lemma link_unsigned s t l :
  link settings s t = Some l ->
  0 <= lk_initial_retry_delay_seconds l /\ 0 <= lk_max_retry_delay_seconds l /\ 0 <= lk_max_attempts l.
Proof. intros [Hl _]%List.find_some. by apply Hlinks, list_elem_of_In. Qed.

(** A handler that updates [x] by [f] posts nothing and leaves the attempts of [x]
    alone, or posts [x] at most once and counts an attempt. *)
Definition charged r x (f : RelayPackageRecord -> RelayPackageRecord) r' : Prop :=
  exists sent, rl_posts r' = rl_posts r ++ sent /\
    ((sent = [] /\ rp_delivery_attempts (f x) = rp_delivery_attempts x) \/
     (rp_delivery_attempts (f x) = sat_add u32_max (rp_delivery_attempts x) 1 /\
      (sent = [] \/ exists payload, sent = [(rp_payload_path x, payload)]))).

(** What a handler may do to the record [x] it was called on. *)
Definition effect (t k : Z) r x r' : Prop :=
  r' = r \/ exists f, updated r (rkey x) f r' /\ rec_ok t k (f x) /\ charged r x f r'.

Lemma update_effect t k r record x f :
  store_ok r -> x ∈ ri_packages (rl_index r) -> rkey record = rkey x -> keeps f ->
  rp_delivery_attempts (f x) = rp_delivery_attempts x -> rec_ok t k (f x) ->
  effect t k r x (fst (update_record record f r)).
Proof.
  intros Hok Hx Hk Hf Ha Hr. destruct (update_record_spec r record x f) as (r' & E & Hu); [done..|].
  pose proof (update_record_posts _ _ _ _ _ E) as Hp. rewrite E.
  right. exists f. split_and!; [done|done|]. exists []. rewrite app_nil_r. split; [exact Hp|by left].
Qed.

Lemma schedule_effect t k r x :
  store_ok r -> x ∈ ri_packages (rl_index r) -> rp_state x = Queued -> rec_ok t k x -> 0 <= k ->
  effect t k r x (fst (schedule_record in_range settings x r)).
Proof.
  intros Hok Hx Hs Hr Hk. unfold schedule_record, record_link, bind, lift. unfold rec_ok in Hr. rewrite Hs in Hr.
  destruct Hr as [Ha Hd]. destruct (link settings _ _) as [l|] eqn:El; [|by left].
  destruct (next_delivery_after _ _ _) as [n|e] eqn:En; [|by left]. apply next_delivery_ge in En.
  pose proof (link_unsigned _ _ _ El) as (_ & _ & Hm). apply update_effect; [done|done|done| | |].
  { intros z. by destruct (bool_decide _). }
  { by destruct (bool_decide _). }
  apply (link_rec_ok _ _ _ l); [by destruct (n =? _), (bool_decide _)|by destruct (bool_decide _)|].
  destruct (n =? _); rewrite ?bool_decide_eq_true_2, ?bool_decide_eq_false_2 by done;
    split; simpl; intros; rewrite ?Ha, ?Hd in *; try done; try lia; try (by exists n); by destruct_or?; lia.
Qed.

(** The fields of [progress] of an updated record, from facts about the old one. *)
Ltac solve_progress :=
  split; unfold ready_at in *; simpl in *; intros;
  try first
    [ done | lia | by eauto
    | match goal with
      | H : lk_max_attempts ?l <> 0, P : lk_max_attempts ?l <> 0 -> _ |- _ =>
        specialize (P H); unfold sat_add, u32_max, umax in *; lia
      end
    | eexists; split; [done|lia]
    | unfold sat_add, u32_max, umax in *; lia ].

(** The two ways a delivery begins. *)
Lemma begin_cases t k r x n now r' res :
  store_ok r -> x ∈ ri_packages (rl_index r) -> waiting (rp_state x) = true -> rec_ok t k x ->
  rp_next_delivery_at_unix_ms x = Some n -> n <= now -> t <= now ->
  begin_delivery in_range settings x now r = (r', res) ->
  (effect now k r x r' /\ forall payload, res <> Ok (Some payload)) \/
  exists payload, res = Ok (Some payload) /\ posted_ok now k r' (Some (x, now, payload)) /\ effect now k r x r'.
Proof.
  intros Hok Hx Hw Hr Hn Hnow Ht Hop. pose proof (rec_ok_link _ _ _ ltac:(by intros E; rewrite E in Hw) Hr) as (l & El & Hp).
  destruct (stored_paths _ _ (so_stored _ Hok x Hx)) as (h & _ & Hd & _ & Hpath).
  unfold begin_delivery, record_link, bind, lift in Hop. rewrite El, Hn in Hop.
  destruct (next_delivery_after in_range l n) as [b|e] eqn:Eb; [|left; simplify_eq; split; [by left|done]].
  pose proof (next_delivery_ge _ _ _ Eb) as Hge. pose proof Hp as [P1 P2 P3 P4 P5 P6 P7].
  destruct (P3 Hw) as (n' & En' & Hready). rewrite Hn in En'. injection En' as <-.
  assert (forall d, rp_delivered_at_unix_ms x = Some d -> ready_at l x <= d <= now) as Hdel.
  { intros d Hd'. specialize (P7 d Hd'). lia. }
  destruct (now <? b) eqn:Elt.
  - match type of Hop with context [update_record x ?f r] =>
      destruct (update_record_spec r x x f) as (r1 & Eu & Hu); [done|done|done|by intros z|] end.
    pose proof (update_record_posts _ _ _ _ _ Eu) as Epo.
    rewrite Eu in Hop. unfold ret in Hop. simplify_eq. left. split; [|by intros ? ?]. right. eexists. split; [exact Hu|].
    rewrite Hw in P2. split; [apply (link_rec_ok _ _ _ l); [done|done|]; solve_progress|].
    exists []. rewrite app_nil_r. split; [done|by left].
  - match type of Hop with context [update_record x ?f r] =>
      destruct (update_record_spec r x x f) as (r1 & Eu & Hu); [done|done|done|by intros z|] end.
    pose proof (update_record_posts _ _ _ _ _ Eu) as Epo.
    rewrite Eu in Hop. clear Eu. rewrite Hd in Hop. unfold load_payload, bind, gets in Hop. rewrite <-Hpath in Hop.
    pose proof Hu as (_ & Hi & _ & Hpl). rewrite Hpl in Hop.
    match type of Hu with updated _ _ ?f _ => set (g := f) in * end.
    assert (rec_ok now k (g x)) as Hg.
    { rewrite Hw in P2. apply (link_rec_ok _ _ _ l); [done|done|]. solve_progress. }
    assert (effect now k r x r1) as Heff.
    { right. exists g. split_and!; [done|done|]. exists []. rewrite app_nil_r. split; [done|]. right. split; [done|by left]. }
    match type of Hop with context [match ?o with Some payload => ret payload | None => _ end] =>
      destruct o as [payload|] eqn:Ep end; unfold fail in Hop; simpl in Hop;
      [|left; simplify_eq; split; [done|by intros ? ?]].
    destruct (tc_importers settings !! _) eqn:Ei; simpl in Hop; [|left; simplify_eq; split; [done|by intros ? ?]].
    unfold send_package, modify, ret in Hop. simplify_eq. right. exists payload. split_and!; [done| |].
    2:{ right. exists g. split_and!; [exact Hu|done|]. exists [(rp_payload_path x, payload)]. simpl. rewrite <-Epo, Hpath.
        split; [done|]. right. split; [done|]. right. by exists payload. }
    exists (g x). split_and!.
    + rewrite Hi. simpl. pose proof (touch_elem (rkey x) g _ _ Hx) as Hin. by rewrite bool_decide_eq_true_2 in Hin.
    + done.
    + done.
    + done.
    + done.
    + by apply (rec_ok_mono t now k k); [lia|lia|].
    + lia.
    + intros l' Hl'. assert (l' = l) as -> by congruence. lia.
    + by rewrite Hpl.
    + by rewrite Ei.
Qed.

(** A retry is planned no earlier than the failed attempt; a record that has used
    its attempts fails. *)
Lemma retry_effect t k r y record now l error :
  store_ok r -> y ∈ ri_packages (rl_index r) -> identity y = identity record -> rp_state y = InDelivery ->
  rp_delivery_attempts y = sat_add u32_max (rp_delivery_attempts record) 1 ->
  link settings (rp_source_domain y) (rp_target_domain y) = Some l -> progress t k l y ->
  ready_at l y <= now <= t -> 0 <= k ->
  effect t k r y (fst (schedule_retry in_range record now l error r)).
Proof.
  intros Hok Hy Hid Hs Ha Hl Hp Hnow Hk0. pose proof (identity_key _ _ Hid) as Hk.
  destruct Hp as [P1 P2 P3 P4 P5 P6 P7]. pose proof (link_unsigned _ _ _ Hl) as (U1 & U2 & U3).
  unfold schedule_retry. destruct (_ && _) eqn:Eg.
  - apply update_effect; [done|done|done|by intros z|done|]. rewrite Hs in *.
    apply (link_rec_ok _ _ _ l); [done|done|]. solve_progress.
  - unfold bind, lift. destruct (next_delivery_after _ _ _) as [n|e] eqn:En; [|by left].
    apply next_delivery_ge in En. assert (ready_at l y <= n) as Hn.
    { etrans; [|exact En]. unfold sat_add at 1, sat_mul. assert (ready_at l y <= u64_max) by (unfold ready_at, sat_add; lia).
      assert (0 <= Z.shiftl 1 (Z.min (Z.max (rp_delivery_attempts record) 1 - 1) 16))
        by (apply Z.shiftl_nonneg; done).
      unfold u64_max, umax in *. nia. }
    assert (lk_max_attempts l <> 0 -> rp_delivery_attempts y <= lk_max_attempts l + k) as Hb.
    { intros Hm. apply andb_false_iff in Eg as [Eg|Eg]; bool_to_prop; [lia|]. rewrite Ha. unfold sat_add. lia. }
    apply update_effect; [done|done|done|by intros z|done|]. rewrite Hs in *.
    apply (link_rec_ok _ _ _ l); [by destruct (n =? _)|done|]. destruct (n =? _); solve_progress.
Qed.

(** Whatever the importer answers, the record in delivery stays within the
    invariant. *)
Lemma finish_effect t k r y record now response :
  store_ok r -> y ∈ ri_packages (rl_index r) -> identity y = identity record -> rp_state y = InDelivery ->
  rp_delivery_attempts y = sat_add u32_max (rp_delivery_attempts record) 1 -> rec_ok t k y ->
  (forall l, link settings (rp_source_domain y) (rp_target_domain y) = Some l -> ready_at l y <= now) ->
  now <= t -> 0 <= k ->
  effect t k r y (fst (finish_delivery in_range settings record now response r)).
Proof.
  intros Hok Hy Hid Hs Ha Hr Hnow Hnt Hk0. pose proof (identity_key _ _ Hid) as Hk.
  pose proof (rec_ok_link _ _ _ ltac:(by rewrite Hs) Hr) as (l & El & Hp). specialize (Hnow l El).
  unfold finish_delivery, bind, record_link, lift. assert (link settings (rp_source_domain record) (rp_target_domain record) = Some l) as ->.
  { rewrite <-El. unfold rkey in Hk. congruence. }
  assert (forall d, get_or_insert (rp_delivered_at_unix_ms y) now = Some d -> ready_at l y <= d <= t) as Hdel.
  { intros d. unfold get_or_insert. destruct (rp_delivered_at_unix_ms y) eqn:Ed; intros [= <-]; [|lia].
    by apply (pg_delivered _ _ _ _ Hp). }
  destruct response as [status| |code msg|code|err].
  - destruct Hp as [P1 P2 P3 P4 P5 P6 P7]. rewrite Hs in *.
    destruct (importer_state_is_terminal _); (apply update_effect; [done|done|done|by intros z|done|]);
      (apply (link_rec_ok _ _ _ l); [done|done|solve_progress]).
  - by left.
  - destruct Hp as [P1 P2 P3 P4 P5 P6 P7]. rewrite Hs in *. apply update_effect; [done|done|done|by intros z|done|].
    apply (link_rec_ok _ _ _ l); [done|done|solve_progress].
  - by apply retry_effect.
  - by apply retry_effect.
Qed.

Lemma poll_effect t k r x now response :
  store_ok r -> x ∈ ri_packages (rl_index r) -> rp_state x = Delivered -> rec_ok t k x -> t <= now ->
  effect now k r x (fst (poll_importer_status settings x now response r)).
Proof.
  intros Hok Hx Hs Hr Hnow. apply (rec_ok_mono _ now k k) in Hr; [|lia..].
  pose proof (rec_ok_link _ _ _ ltac:(by rewrite Hs) Hr) as (l & El & [P1 P2 P3 P4 P5 P6 P7]).
  unfold poll_importer_status. destruct (tc_importers settings !! _); [|by left]. rewrite Hs in *.
  destruct response as [status| |code msg|code|err]; [|by left| | |]; try destruct (importer_state_is_terminal _);
    (apply update_effect; [done|done|done|by intros z|done|]);
    (apply (link_rec_ok _ _ _ l); [simpl; congruence|done|]);
    simpl; solve_progress; rewrite ?Hs in *; try done; by eauto.
Qed.

(** ** Preservation *)

(** Records are never lost, their payload files never change, and settled records
    stay as they are; posts stay counted. *)
Definition preserves r r' : Prop :=
  (posts_ok r -> posts_ok r') /\
  forall x, x ∈ ri_packages (rl_index r) ->
    exists y, y ∈ ri_packages (rl_index r') /\ identity y = identity x /\
      (settled (rp_state x) = true -> y = x) /\
      rl_payloads r' !! rp_payload_path x = rl_payloads r !! rp_payload_path x.

Lemma preserves_refl r : preserves r r.
Proof. split; [done|]. intros x Hx. by exists x. Qed.
Lemma preserves_trans r1 r2 r3 : preserves r1 r2 -> preserves r2 r3 -> preserves r1 r3.
Proof.
  intros [C12 H12] [C23 H23]. split; [tauto|]. intros x Hx. destruct (H12 x Hx) as (y & Hy & Ey & Sy & Py). destruct (H23 y Hy) as (z & Hz & Ez & Sz & Pz).
  exists z. split_and!; [done|congruence| |].
  - intros Hs. specialize (Sy Hs). subst y. by apply Sz.
  - rewrite <-Py. assert (rp_payload_path y = rp_payload_path x) as <- by (unfold identity in Ey; congruence). done.
Qed.

Definition records_ok (t k : Z) r : Prop := forall x, x ∈ ri_packages (rl_index r) -> rec_ok t k x.

Lemma records_ok_mono t t' k k' r : t <= t' -> k <= k' -> records_ok t k r -> records_ok t' k' r.
Proof. intros Ht Hk Hr x Hx. by eapply rec_ok_mono; [..|apply Hr]. Qed.

(** All records but the one with the key stay as they are. *)
Definition others (key : RecordKey) r r' : Prop :=
  forall y, y ∈ ri_packages (rl_index r) -> rkey y <> key -> y ∈ ri_packages (rl_index r').

Definition fine (t k : Z) (key : RecordKey) r r' : Prop :=
  store_ok r' /\ records_ok t k r' /\ preserves r r' /\ others key r r'.

Lemma unchanged_ok t k key r : store_ok r -> records_ok t k r -> fine t k key r r.
Proof. intros Hok Hr. split_and!; [done|done|apply preserves_refl|by intros ? ?]. Qed.

Lemma charged_posts r x f r' :
  store_ok r -> x ∈ ri_packages (rl_index r) -> updated r (rkey x) f r' -> charged r x f r' -> posts_ok r -> posts_ok r'.
Proof.
  intros Hok Hx (Hk & Hi & _) (sent & Hs & Hc) [Pk Pc].
  assert (forall p, p ∈ sent -> p.1 = rp_payload_path x) as Hsent.
  { intros p Hp. destruct Hc as [[-> _]|[_ [->|[payload ->]]]]; [by apply elem_of_nil in Hp..|]. by apply list_elem_of_singleton in Hp as ->. }
  assert (forall y, rp_payload_path (f y) = rp_payload_path y) as Hpath by (intros y; specialize (Hk y); unfold identity in Hk; congruence).
  split; rewrite Hi; simpl.
  - intros p. rewrite Hs. unfold touch. rewrite map_map. intros [Hp|Hp]%elem_of_app.
    + apply Pk in Hp as (y & -> & Hy)%list_elem_of_fmap. apply list_elem_of_fmap. exists y. split; [|done]. by destruct (bool_decide _).
    + rewrite (Hsent p Hp). apply list_elem_of_fmap. exists x. split; [|done]. by destruct (bool_decide _).
  - intros y Hy Hmax. unfold posts_of. rewrite Hs, filter_app, length_app.
    apply elem_of_touch in Hy as [[Hy Hne]|(z & Hz & Ez & ->)].
    + assert (filter (fun p => p.1 = rp_payload_path y) sent = []) as ->; [|by rewrite Nat.add_0_r; apply Pc].
      destruct (filter _ sent) as [|p ps] eqn:Ef; [done|]. exfalso.
      assert (p ∈ filter (fun p => p.1 = rp_payload_path y) sent) as [Ep Hp]%list_elem_of_filter by (rewrite Ef; set_solver).
      rewrite (Hsent p Hp) in Ep. apply Hne.
      destruct (stored_paths _ _ (so_stored _ Hok x Hx)) as (h & _ & _ & -> & Epx).
      destruct (stored_paths _ _ (so_stored _ Hok y Hy)) as (h' & _ & _ & -> & Epy). congruence.
    + pose proof (unique_key _ z x (so_nodup _ Hok) Hz Hx Ez) as ->. rewrite Hpath. specialize (Pc x Hx). unfold posts_of in Pc.
      destruct Hc as [[-> Ea]|[Ea Hlen]]; rewrite Ea in *; [rewrite filter_nil; simpl; lia|].
      assert (length (filter (fun p => p.1 = rp_payload_path x) sent) <= 1)%nat.
      { destruct Hlen as [->|[payload ->]]; [simpl; lia|]. etrans; [apply length_filter|]. simpl. lia. }
      unfold sat_add in *. lia.
Qed.

Lemma effect_ok t k r x r' :
  store_ok r -> records_ok t k r -> x ∈ ri_packages (rl_index r) -> settled (rp_state x) = false ->
  effect t k r x r' -> fine t k (rkey x) r r'.
Proof.
  intros Hok Hr Hx Hs [->|(f & Hu & Hf & Hc)]; [by apply unchanged_ok|]. split; [by eapply updated_ok|].
  pose proof (charged_posts r x f r' Hok Hx Hu Hc) as Hpo. destruct Hu as (Hk & Hi & _ & Hp).
  unfold records_ok, preserves, others. rewrite Hi, Hp. simpl. split_and!; [|done|..].
  - intros y [[Hy _]|(z & Hz & Ez & ->)]%elem_of_touch; [by apply Hr|].
    by rewrite (unique_key _ z x (so_nodup _ Hok) Hz Hx Ez).
  - intros y Hy. pose proof (touch_elem (rkey x) f _ _ Hy) as Hin. eexists. split; [exact Hin|].
    case_bool_decide as E; [|done]. split_and!; [apply Hk| |done].
    rewrite (unique_key _ y x (so_nodup _ Hok) Hy Hx E). congruence.
  - intros y Hy Hne. pose proof (touch_elem (rkey x) f _ _ Hy) as Hin. by rewrite bool_decide_eq_false_2 in Hin.
Qed.

Lemma attempt_ok t k r x n due now response :
  store_ok r -> records_ok t k r -> x ∈ ri_packages (rl_index r) -> waiting (rp_state x) = true ->
  rp_next_delivery_at_unix_ms x = Some n -> n <= due -> t <= due <= now -> 0 <= k ->
  fine now k (rkey x) r (fst (attempt_delivery in_range settings x now response r)).
Proof.
  intros Hok Hr Hx Hw Hn Hdue Ht Hk0. assert (settled (rp_state x) = false) as Hs by (by destruct (rp_state x)).
  pose proof (records_ok_mono t now k k r ltac:(lia) ltac:(lia) Hr) as Hr'.
  unfold attempt_delivery, bind. destruct (begin_delivery _ _ x now r) as [r1 res] eqn:Eb.
  destruct (begin_cases t k r x n now r1 res) as [[He Hres]|(payload & -> & Hp & He)]; [done|done|done|by apply Hr|done|lia|lia|done| |];
    destruct (effect_ok now k r x r1 Hok Hr' Hx Hs He) as (Hok1 & Hr1 & Hk1 & Ho1).
  { destruct res as [[payload|]|e]; [by destruct (Hres payload)|done|done]. }
  destruct Hp as (y & Hy & Hid & Hsy & Ha & _ & _ & _ & Hready & _).
  assert (effect now k r1 y (fst (finish_delivery in_range settings x now response r1))) as Hf.
  { apply finish_effect; try done; [by apply Hr1|]. intros l Hl. rewrite (ready_at_identity l y x Hid). apply Hready.
    rewrite <-Hl. pose proof (identity_key _ _ Hid) as E. unfold rkey in E. congruence. }
  destruct (effect_ok now k r1 y _ Hok1 Hr1 Hy ltac:(by rewrite Hsy) Hf) as (Hok2 & Hr2 & Hk2 & Ho2).
  split_and!; [done|done|by eapply preserves_trans|]. intros z Hz Hne. apply Ho2; [by apply Ho1|].
  by rewrite (identity_key _ _ Hid).
Qed.

(** The key of the record a tick looks for. *)
Definition tick_key (s d : DomainId) (e : Z) (hex : bytes) : RecordKey :=
  (s, d, e, match decode_hex_hash hex with Ok h => hex_hash h | Err _ => hex end).

Lemma tick_record_ok t k r input s d e hex :
  store_ok r -> records_ok t k r -> t <= ti_due_now input <= ti_now input -> 0 <= k ->
  fine (ti_now input) k (tick_key s d e hex) r (fst (tick_record in_range settings input s d e hex r)).
Proof.
  intros Hok Hr Ht Hk0. pose proof (records_ok_mono t (ti_now input) k k r ltac:(lia) ltac:(lia) Hr) as Hr'.
  unfold tick_record, tick_key, bind, lift, gets. destruct (decode_hex_hash hex) as [h|err]; [|by apply unchanged_ok].
  unfold index_record. rewrite (find_ext _ (fun z => bool_decide (rkey z = (s, d, e, hex_hash h))))
    by (intros z; apply record_matches_key).
  destruct (find _ _) as [x|] eqn:Ef; [|by apply unchanged_ok]. apply find_key in Ef as [Hx <-].
  assert (waiting (rp_state x) = true ->
    fine (ti_now input) k (rkey x) r
      (fst ((if due_now (rp_next_delivery_at_unix_ms x) (ti_due_now input)
             then attempt_delivery in_range settings x (ti_now input) (ti_delivery input) else ret tt) r))) as Hatt.
  { intros Hw. unfold due_now. destruct (rp_next_delivery_at_unix_ms x) as [n|] eqn:En; [|by apply unchanged_ok].
    destruct (n <=? _) eqn:El; [|by apply unchanged_ok]. bool_to_prop.
    by apply (attempt_ok t k r x n (ti_due_now input)). }
  destruct (rp_state x) eqn:Es; try (by apply unchanged_ok).
  - apply (effect_ok _ _ _ x); [done|done|done|by rewrite Es|]. by apply schedule_effect; [..|apply Hr'|].
  - by apply (Hatt eq_refl).
  - by apply (Hatt eq_refl).
  - clear Hatt. destruct (due_now _ _); [|by apply unchanged_ok]. apply (effect_ok _ _ _ x); [done|done|done|by rewrite Es|].
    apply (poll_effect t); [done|done|done|by apply Hr|lia].
  - by apply (Hatt eq_refl).
Qed.

Context (length_blake2_256 : forall b, length (blake2_256 b) = 32%nat).

Lemma submission_extends r body now r' res :
  store_ok r -> submission r body now (r', res) ->
  (forall x, x ∈ ri_packages (rl_index r) ->
     x ∈ ri_packages (rl_index r') /\ rl_payloads r' !! rp_payload_path x = rl_payloads r !! rp_payload_path x) /\
  (forall x, x ∈ ri_packages (rl_index r') -> x ∈ ri_packages (rl_index r) \/ exists env, x = accepted_record env now).
Proof.
  intros Hok Hs. inversion Hs as [|env pkg x|env pkg x other|env pkg r1 Hv Ha Hi Hsv Hp Hpo]; subst;
    [by (split; [done|by left])..|].
  rewrite Hi, Hp. simpl. split.
  - intros x Hx. split; [set_solver|]. rewrite lookup_insert_ne; [done|]. intros E. apply Ha.
    destruct (stored_paths _ _ (so_stored _ Hok x Hx)) as (h & _ & _ & Hk & Hpath). apply list_elem_of_fmap.
    exists x. split; [|done]. rewrite Hk. rewrite Hpath in E. unfold env_key. simpl in E. congruence.
  - intros x [Hx|Hx%list_elem_of_singleton]%elem_of_app; [by left|right; by exists env].
Qed.

Lemma submission_posts r body now r' res :
  store_ok r -> submission r body now (r', res) -> posts_ok r -> posts_ok r'.
Proof.
  intros Hok Hs. inversion Hs as [|env pkg x|env pkg x other|env pkg r1 Hv Ha Hi Hsv Hp Hpo]; subst; [done..|].
  intros [Pk Pc]. split; rewrite Hi; simpl.
  - intros p. rewrite Hpo, map_app, elem_of_app. left. by apply Pk.
  - unfold posts_of in *. rewrite Hpo. intros y [Hy|Hy%list_elem_of_singleton]%elem_of_app; [by apply Pc|subst y].
    intros _. destruct (filter _ _) as [|p ps] eqn:Ef; [done|]. exfalso.
    assert (p ∈ filter (fun p => p.1 = rp_payload_path (accepted_record env now)) (rl_posts r)) as [Ep Hin]%list_elem_of_filter
      by (rewrite Ef; set_solver).
    apply Pk, list_elem_of_fmap in Hin as (x & Ex & Hx). apply Ha. apply list_elem_of_fmap. exists x. split; [|done].
    destruct (stored_paths _ _ (so_stored _ Hok x Hx)) as (h & _ & _ & Hk & Hpath). rewrite Hk. rewrite Ep, Hpath in Ex.
    unfold env_key. simpl in Ex. congruence.
Qed.

Lemma submit_ok t k r body now p :
  store_ok r -> records_ok t k r -> posted_ok t k r p -> t <= now ->
  let r' := fst (submit_package body now r) in
  store_ok r' /\ records_ok now k r' /\ posted_ok now k r' p /\ preserves r r'.
Proof.
  intros Hok Hr Hp Ht. pose proof (submit_spec length_blake2_256 r body now Hok) as Hs.
  destruct (submit_package body now r) as [r' res]. pose proof (submission_extends _ _ _ _ _ Hok Hs) as [He Hn].
  pose proof (submission_posts _ _ _ _ _ Hok Hs) as Hpo.
  simpl. split_and!.
  - by eapply submit_store_ok.
  - intros x [Hx|[env ->]]%Hn; [|done]. eapply rec_ok_mono; [exact Ht|reflexivity|by apply Hr].
  - destruct p as [[[record at_] payload]|]; [|done].
    destruct Hp as (y & Hy & Hid & Hsy & Ha & Hw & Hrec & Hat & Hl & Hpl & Hi). exists y.
    destruct (He y Hy) as [Hy' Hpay]. assert (rp_payload_path record = rp_payload_path y) as Epath
      by (unfold identity in Hid; congruence).
    split_and!; try done; [by eapply rec_ok_mono; [exact Ht|reflexivity|]|lia|]. rewrite Epath in *. congruence.
  - split; [done|]. intros x Hx. exists x. destruct (He x Hx). by split_and!.
Qed.

Lemma restart_ok t k r now r' :
  store_ok r -> records_ok t k r -> t <= now -> restart settings now r = Ok r' ->
  store_ok r' /\ records_ok now (k + 1) r' /\ preserves r r'.
Proof.
  intros Hok Hr Ht Hop. assert (load_index r = Ok (rl_index r)) as El.
  { destruct Hok as [Sv [Hs|[Hs He]] _ _]; unfold load_index; rewrite Hs.
    - by rewrite Sv.
    - f_equal. destruct (rl_index r). simpl in *. by subst. }
  unfold restart in Hop. rewrite El in Hop. injection Hop as <-. simpl.
  assert (forall x, identity (normalize_record settings now x) = identity x) as Hid.
  { intros x. unfold normalize_record. destruct (rp_state x); try done. by destruct (rp_next_ack_poll_at_unix_ms x). }
  unfold records_ok, preserves. simpl. split_and!.
  - destruct Hok as [Sv _ Sn Ss]. split; simpl; [done|by left| |].
    + rewrite map_map. erewrite map_ext; [done|]. intros x. apply identity_key, Hid.
    + intros y (x & -> & Hx)%list_elem_of_fmap. eapply stored_identity; [|by apply Ss]. symmetry. apply Hid.
  - intros y (x & -> & Hx)%list_elem_of_fmap. specialize (Hr x Hx). unfold normalize_record.
    destruct (rp_state x) eqn:Es; try (by eapply rec_ok_mono; [| |exact Hr]; lia).
    + destruct (rec_ok_link _ _ _ ltac:(by rewrite Es) Hr) as (l & El' & [P1 P2 P3 P4 P5 P6 P7]). rewrite Es in *.
      apply (link_rec_ok _ _ _ l); [done|done|]. specialize (P4 (or_introl eq_refl)). solve_progress.
      specialize (P7 _ H3). lia.
    + destruct (rp_next_ack_poll_at_unix_ms x) eqn:Ep; [by eapply rec_ok_mono; [| |exact Hr]; lia|].
      destruct (rec_ok_link _ _ _ ltac:(by rewrite Es) Hr) as (l & El' & [P1 P2 P3 P4 P5 P6 P7]).
      destruct (P5 Es) as [? E]. congruence.
  - intros [Pk Pc]. assert (forall x, rp_delivery_attempts (normalize_record settings now x) = rp_delivery_attempts x) as Ha.
    { intros x. unfold normalize_record. destruct (rp_state x); try done. by destruct (rp_next_ack_poll_at_unix_ms x). }
    assert (forall x, rp_payload_path (normalize_record settings now x) = rp_payload_path x) as Hpath
      by (intros x; specialize (Hid x); unfold identity in Hid; congruence).
    split; simpl.
    + intros p Hp. rewrite map_map. erewrite map_ext; [by apply Pk|done].
    + intros y (x & -> & Hx)%list_elem_of_fmap. rewrite Ha, Hpath. exact (Pc x Hx).
  - intros x Hx. exists (normalize_record settings now x). split_and!; [by apply list_elem_of_fmap_2|apply Hid| |done].
    unfold normalize_record. by destruct (rp_state x).
Qed.

(** The invariant holds in every reachable state, and settled records stay. *)
Lemma step_ok s s' : sys_ok s -> relay_step s s' -> sys_ok s' /\ preserves (rs_relay s) (rs_relay s').
Proof.
  intros [Hok Hr Hp Hk Hpo] Hstep. destruct Hstep; simpl in *.
  - destruct (submit_ok t k r body now p) as (? & ? & ? & Hpr); [done..|]. split; [split; try done; by apply Hpr|done].
  - destruct (tick_record_ok t k r input s d e hex) as (? & ? & Hpr & _); [done..|]. split; [split; try done; by apply Hpr|done].
  - match goal with H : due_now (rp_next_delivery_at_unix_ms ?x) _ = true |- _ =>
      unfold due_now in H; destruct (rp_next_delivery_at_unix_ms x) as [n|] eqn:En; [|done] end. bool_to_prop.
    edestruct (begin_cases t k r record n now) as [[_ Hne]|(q & Hq & Hpost & He)]; [done..|by apply Hr|done|lia|lia|done| |].
    { by destruct (Hne payload). }
    assert (settled (rp_state record) = false) as Hs by (by destruct (rp_state record)).
    destruct (effect_ok now k r record r') as (? & ? & Hpr & _); [done|by eapply records_ok_mono; [| |exact Hr]; lia|done..|].
    simplify_eq. split; [split; try done; by apply Hpr|done].
  - destruct Hp as (y & Hy & Hid & Hsy & Ha & Hw & Hrec & Hat & Hl & Hpl & Hi).
    destruct (effect_ok t k r y (fst (finish_delivery in_range settings record now response r))) as (? & ? & Hpr & _);
      [done|done|done|by rewrite Hsy| |split; [split; try done; by apply Hpr|done]].
    apply finish_effect; try done; [by apply Hr|]. intros l Hl'. rewrite (ready_at_identity l y record Hid).
    apply Hl. rewrite <-Hl'. pose proof (identity_key _ _ Hid) as E. unfold rkey in E. congruence.
  - destruct (restart_ok t k r now r') as (? & ? & Hpr); [done..|]. split; [|done]. split; simpl; try done; [lia|by apply Hpr].
Qed.

Lemma start_ok now : sys_ok (relay_start now).
Proof.
  split; simpl; [|set_solver|done|done|split; simpl; set_solver]. split; simpl; [done|by right|constructor|set_solver].
Qed.

Lemma run_ok s s' : rtc relay_step s s' -> sys_ok s -> sys_ok s' /\ preserves (rs_relay s) (rs_relay s').
Proof.
  induction 1 as [s|s1 s2 s3 Hstep _ IH]; intros Hok; [split; [done|apply preserves_refl]|].
  destruct (step_ok _ _ Hok Hstep) as [Hok2 H12]. destruct (IH Hok2) as [Hok3 H23].
  split; [done|by eapply preserves_trans].
Qed.

Lemma relay_reachable_ok s : relay_reachable s -> sys_ok s.
Proof. intros [now Hr]. by apply (run_ok _ _ Hr), start_ok. Qed.

(** A record found under its key. *)
Lemma find_record r x : 
  store_ok r -> x ∈ ri_packages (rl_index r) ->
  exists h, decode_hex_hash (rp_package_hash x) = Ok h /\
    index_record (rl_index r) (rp_source_domain x) (rp_target_domain x) (rp_epoch_id x) h = Some x /\
    rp_payload_path x = (rp_source_domain x, rp_target_domain x, rp_epoch_id x, h).
Proof.
  intros Hok Hx. destruct (stored_paths _ _ (so_stored _ Hok x Hx)) as (h & _ & Hd & Hk & Hp). exists h.
  split_and!; [done| |done]. unfold index_record.
  rewrite (find_ext _ (fun z => bool_decide (rkey z = rkey x))) by (intros z; rewrite record_matches_key, Hk; done).
  apply find_unique; [apply Hok|done].
Qed.

(** The ticks of the scheduler are steps of the machine. *)
Lemma relay_reachable_step s s' : relay_reachable s -> relay_step s s' -> relay_reachable s'.
Proof. intros [now Hr] Hs. exists now. by eapply rtc_r. Qed.

Definition ticking_clock (inputs : nat -> TickInput) : Prop :=
  forall j, ti_due_now (inputs j) <= ti_now (inputs j) <= ti_due_now (inputs (S j)).

Lemma tick_all_reachable inputs work i r t k :
  ticking_clock inputs -> t <= ti_due_now (inputs i) -> relay_reachable (mkRelaySys r t k None) ->
  exists t', relay_reachable (mkRelaySys (fst (tick_all in_range settings inputs i work r)) t' k None).
Proof.
  intros Hc. revert i r t. induction work as [|w work IH]; intros i r t Ht Hr; [by exists t|].
  simpl. unfold bind at 1. pose proof (Hc i) as Hi.
  assert (relay_reachable (mkRelaySys (fst (tick_record in_range settings (inputs i) (rp_source_domain w)
    (rp_target_domain w) (rp_epoch_id w) (rp_package_hash w) r)) (ti_now (inputs i)) k None)) as Hr'.
  { eapply relay_reachable_step; [exact Hr|]. apply step_tick. lia. }
  destruct (tick_record _ _ _ _ _ _ _ r) as [r' [u|e]]; simpl in *; [|by eexists].
  apply (IH (S i) r' (ti_now (inputs i))); [lia|done].
Qed.

Lemma scheduler_tick_reachable inputs r t k :
  ticking_clock inputs -> t <= ti_due_now (inputs 0%nat) -> relay_reachable (mkRelaySys r t k None) ->
  exists t', relay_reachable (mkRelaySys (fst (scheduler_tick in_range settings inputs r)) t' k None).
Proof. intros. by eapply tick_all_reachable. Qed.

(** ** Properties *)

(** C24: what the relay posts.  In every run of the relay, whatever is submitted
    and whatever importers answer, a delivery in progress carries the bytes of
    an envelope that passes all envelope checks and has the record's source,
    target, epoch and package hash; it goes over a configured link to a
    configured importer; and it did not start before the package's acceptance
    plus the one-way delay of the link. *)
Theorem relay_delivery_sound s record now payload :
  relay_reachable s -> rs_posted s = Some (record, now, payload) ->
  exists env pkg l,
    payload = scale_encode env /\ decode_and_validate_envelope payload = Ok (env, pkg) /\
    (rp_source_domain record, rp_target_domain record, rp_epoch_id record, rp_package_hash record)
    = (env_source_domain env, env_target_domain env, env_epoch_id env, hex_hash (env_package_hash env)) /\
    link settings (rp_source_domain record) (rp_target_domain record) = Some l /\
    is_Some (tc_importers settings !! rp_target_domain record) /\
    sat_add u64_max (rp_relay_accepted_at_unix_ms record)
      (sat_mul u64_max (lk_base_one_way_delay_seconds l) 1000) <= now <= rs_clock s.
Proof.
  intros Hr Hp. destruct (relay_reachable_ok _ Hr) as [Hok _ Hpost _ _]. rewrite Hp in Hpost.
  destruct Hpost as (y & Hy & Hid & _ & _ & Hw & Hrec & Hnow & Hready & Hpl & Hi).
  destruct (rec_ok_link _ _ _ ltac:(by intros E; rewrite E in Hw) Hrec) as (l & Hl & _).
  destruct (stored_identity _ _ _ Hid (so_stored _ Hok y Hy)) as (env & pkg & Hv & _ & Hide & Hpay).
  assert (payload = scale_encode env) as -> by congruence. exists env, pkg, l.
  split_and!; try done; [|by apply Hready]. apply identity_key in Hide. exact Hide.
Qed.

(** C27: a retry limit limits.  On a link with [max_attempts] set, the relay has
    posted no package to its importer more than [max_attempts + 1] times plus
    once per restart, and a package that waits for its next delivery at most
    [max_attempts] times plus once per restart; every post it has made is of a
    package in its index.  (As long as the 32-bit counter of attempts is not
    saturated.) *)
Theorem relay_attempts_bounded s :
  relay_reachable s ->
  (forall p, p ∈ rl_posts (rs_relay s) -> p.1 ∈ map rp_payload_path (ri_packages (rl_index (rs_relay s)))) /\
  forall x l, x ∈ ri_packages (rl_index (rs_relay s)) ->
    link settings (rp_source_domain x) (rp_target_domain x) = Some l -> lk_max_attempts l <> 0 ->
    lk_max_attempts l + 1 + rs_restarts s < u32_max ->
    posts_of (rp_payload_path x) (rs_relay s) <= rp_delivery_attempts x <= lk_max_attempts l + 1 + rs_restarts s /\
    (waiting (rp_state x) = true -> rp_delivery_attempts x <= lk_max_attempts l + rs_restarts s).
Proof.
  intros Hr. destruct (relay_reachable_ok _ Hr) as [_ Hrec _ Hk [Pk Pc]]. split; [exact Pk|].
  intros x l Hx Hl Hm Hmax. pose proof (Hrec x Hx) as Hx1. destruct (link_unsigned _ _ _ Hl) as (_ & _ & U).
  assert (0 <= rp_delivery_attempts x <= lk_max_attempts l + rs_restarts s + (if waiting (rp_state x) then 0 else 1)) as Hb.
  { destruct (decide (rp_state x = Queued)) as [E|Hq].
    - unfold rec_ok in Hx1. rewrite E in *. destruct Hx1 as [-> _]. simpl. lia.
    - destruct (rec_ok_link _ _ _ Hq Hx1) as (l' & Hl' & [P1 P2 _ _ _ _ _]).
      assert (l' = l) as -> by congruence. specialize (P2 Hm). lia. }
  specialize (Pc x Hx ltac:(destruct (waiting _); lia)). split; [destruct (waiting _); lia|].
  intros Hw. rewrite Hw in Hb. lia.
Qed.

(** C26: the relay never forgets.  Once a package is accepted, every later state
    has exactly one record with its identity, its payload file is unchanged,
    and a record that was settled (acknowledged or failed) is the same record,
    field by field; a settled record has its completion time, a delivered one
    a time for its next status poll. *)
Theorem relay_settled_final s s' x :
  relay_reachable s -> rtc relay_step s s' -> x ∈ ri_packages (rl_index (rs_relay s)) ->
  exists y, y ∈ ri_packages (rl_index (rs_relay s')) /\ identity y = identity x /\
    (forall z, z ∈ ri_packages (rl_index (rs_relay s')) -> rkey z = rkey x -> z = y) /\
    rl_payloads (rs_relay s') !! rp_payload_path x = rl_payloads (rs_relay s) !! rp_payload_path x /\
    (settled (rp_state x) = true -> y = x /\ is_Some (rp_completed_at_unix_ms x)) /\
    (rp_state y = Delivered -> is_Some (rp_next_ack_poll_at_unix_ms y)).
Proof.
  intros Hr Hrun Hx. pose proof (relay_reachable_ok _ Hr) as Hok. destruct (run_ok _ _ Hrun Hok) as [Hok' Hpres].
  destruct (proj2 Hpres x Hx) as (y & Hy & Hid & Hs & Hp). exists y. split_and!; try done.
  - intros z Hz Hk. apply (unique_key _ _ _ (so_nodup _ (sk_store _ Hok')) Hz Hy). rewrite Hk. symmetry.
    by apply identity_key.
  - intros Hset. split; [by apply Hs|].
    destruct (rec_ok_link _ _ _ ltac:(by intros E; rewrite E in Hset) (sk_records _ Hok x Hx)) as (l & _ & Hpg).
    by apply (pg_done _ _ _ _ Hpg).
  - intros Hd. destruct (rec_ok_link _ _ _ ltac:(by rewrite Hd) (sk_records _ Hok' y Hy)) as (l & _ & Hpg).
    by apply (pg_poll _ _ _ _ Hpg).
Qed.

(** The only record a submission can be answered with, once [x] is stored. *)
Lemma resubmission r x env body now other pkg :
  store_ok r -> x ∈ ri_packages (rl_index r) -> rkey x = env_key env ->
  rl_payloads r !! rp_payload_path x = Some (scale_encode env) ->
  decode_and_validate_envelope body = Ok (other, pkg) -> env_key other = env_key env ->
  submit_package body now r = (r, if bool_decide (other = env) then Ok (x, true) else Err DifferentPayloadBytes).
Proof.
  intros Hok Hx Hk Hp Hv Hke. pose proof (submit_spec length_blake2_256 r body now Hok) as Hs.
  inversion Hs as [e Hv'|env1 pkg1 y Hv' Hy Hky Hpy|env1 pkg1 y o Hv' Hy Hky Hpy Hne|env1 pkg1 r' Hv' Ha]; rewrite Hv in Hv'; [done|injection Hv' as <- <-..].
  - assert (y = x) as -> by (apply (unique_key _ _ _ (so_nodup _ Hok)); [done|done|congruence]).
    rewrite bool_decide_eq_true_2; [done|]. apply scale_encode_inj. congruence.
  - assert (y = x) as -> by (apply (unique_key _ _ _ (so_nodup _ Hok)); [done|done|congruence]).
    rewrite bool_decide_eq_false_2; [done|]. intros ->. congruence.
  - destruct Ha. rewrite Hke, <-Hk. by apply list_elem_of_fmap_2.
Qed.

Lemma submission_kept r t k p body env pkg now r1 x known s' body' other pkg' now' :
  relay_reachable (mkRelaySys r t k p) -> t <= now ->
  decode_and_validate_envelope body = Ok (env, pkg) -> submit_package body now r = (r1, Ok (x, known)) ->
  rtc relay_step (mkRelaySys r1 now k p) s' ->
  decode_and_validate_envelope body' = Ok (other, pkg') -> env_key other = env_key env ->
  exists y, identity y = identity x /\ y ∈ ri_packages (rl_index (rs_relay s')) /\
    submit_package body' now' (rs_relay s')
    = (rs_relay s', if bool_decide (other = env) then Ok (y, true) else Err DifferentPayloadBytes).
Proof.
  intros Hr Ht Hv Hsub Hrun Hv' Hke.
  assert (relay_reachable (mkRelaySys r1 now k p)) as Hr1.
  { eapply relay_reachable_step; [exact Hr|]. replace r1 with (fst (submit_package body now r)) by (by rewrite Hsub).
    by apply step_submit. }
  pose proof (sk_store _ (relay_reachable_ok _ Hr)) as Hok. pose proof (relay_reachable_ok _ Hr1) as Hok1. simpl in Hok.
  assert (x ∈ ri_packages (rl_index r1) /\ rkey x = env_key env /\
          rl_payloads r1 !! rp_payload_path x = Some (scale_encode env)) as (Hx & Hk & Hp).
  { pose proof (submit_spec length_blake2_256 r body now Hok) as Hs. rewrite Hsub in Hs.
    inversion Hs as [|env1 pkg1 y Hv1 Hy Hky Hpy| |env1 pkg1 r2 Hv1 Ha Hi Hsv Hp1 Hpo]; simplify_eq; rewrite Hv in Hv1; injection Hv1 as <- <-; [by split_and!|].
    rewrite Hi, Hp1. simpl. split_and!; [set_solver|done|apply lookup_insert_eq]. }
  destruct (run_ok _ _ Hrun Hok1) as [Hok' Hpres]. destruct (proj2 Hpres x Hx) as (y & Hy & Hid & _ & Hpy). simpl in *.
  exists y. split_and!; [done|done|]. apply (resubmission _ _ _ _ _ _ pkg'); [apply Hok'|done| | |done|done].
  - rewrite <-Hk. by apply identity_key.
  - assert (rp_payload_path y = rp_payload_path x) as -> by (unfold identity in Hid; congruence). congruence.
Qed.

(** C25: submission is idempotent for ever.  After a submission that was accepted,
    in every later state, a submission of the same envelope changes nothing and
    answers with the same package's record, and a submission of a different
    envelope for the same source, target, epoch and package hash changes nothing
    and is refused as a conflict. *)
Theorem relay_submission_idempotent r t k p body env pkg now r1 x known s' body' other pkg' now' :
  relay_reachable (mkRelaySys r t k p) -> t <= now ->
  decode_and_validate_envelope body = Ok (env, pkg) -> submit_package body now r = (r1, Ok (x, known)) ->
  rtc relay_step (mkRelaySys r1 now k p) s' ->
  decode_and_validate_envelope body' = Ok (other, pkg') -> env_key other = env_key env ->
  exists y, identity y = identity x /\ y ∈ ri_packages (rl_index (rs_relay s')) /\
    submit_package body' now' (rs_relay s')
    = (rs_relay s', if bool_decide (other = env) then Ok (y, true) else Err DifferentPayloadBytes).
Proof. apply submission_kept. Qed.

(** C29: one record without a link stops the scheduler.  When the first record of
    the index is queued and its domains have no link, every tick of the
    scheduler fails before any other record is looked at, and changes nothing. *)
Theorem unlinked_record_blocks r t k p x rest inputs :
  relay_reachable (mkRelaySys r t k p) -> ri_packages (rl_index r) = x :: rest -> rp_state x = Queued ->
  link settings (rp_source_domain x) (rp_target_domain x) = None ->
  scheduler_tick in_range settings inputs r = (r, Err LinkMissing).
Proof.
  intros Hr Hpk Hs Hl. pose proof (sk_store _ (relay_reachable_ok _ Hr)) as Hok. simpl in Hok.
  destruct (find_record r x Hok) as (h & Hd & Hf & _); [rewrite Hpk; set_solver|].
  unfold scheduler_tick, bind, gets. rewrite Hpk. simpl. unfold bind at 1, tick_record, bind, lift, gets.
  rewrite Hd, Hf, Hs. unfold schedule_record, record_link, bind, lift. by rewrite Hl.
Qed.

(** A delivery that no blackout postpones, and a terminal answer to it. *)
Definition start_attempt (x : RelayPackageRecord) : RelayPackageRecord :=
  x {{ rp_state := InDelivery }} {{ rp_delivery_attempts ::= fun n => sat_add u32_max n 1 }}
    {{ rp_last_delivery_error := None }}.

Lemma updated_elem r x f r' :
  x ∈ ri_packages (rl_index r) -> updated r (rkey x) f r' -> f x ∈ ri_packages (rl_index r').
Proof.
  intros Hx (_ & -> & _). pose proof (touch_elem (rkey x) f _ _ Hx) as Hin. by rewrite bool_decide_eq_true_2 in Hin.
Qed.

Lemma begin_posts r x n now l m imp :
  store_ok r -> x ∈ ri_packages (rl_index r) -> rp_next_delivery_at_unix_ms x = Some n ->
  link settings (rp_source_domain x) (rp_target_domain x) = Some l ->
  next_delivery_after in_range l n = Ok m -> m <= now -> tc_importers settings !! rp_target_domain x = Some imp ->
  exists r1 payload, begin_delivery in_range settings x now r = (r1, Ok (Some payload)) /\
    updated r (rkey x) start_attempt r1.
Proof.
  intros Hok Hx Hn Hl Hnd Hm Hi. destruct (find_record r x Hok Hx) as (h & Hd & _ & Hpath).
  destruct (so_stored _ Hok x Hx) as (env & pkg & _ & _ & _ & Hpay).
  destruct (update_record_spec r x x start_attempt) as (r1 & Eu & Hu); [done|done|done|by intros z|].
  exists (r1 {{ rl_posts ::= fun posts => posts ++ [(rp_payload_path x, scale_encode env)] }}), (scale_encode env). split; [|exact Hu].
  unfold begin_delivery, record_link, bind, lift. rewrite Hl, Hn, Hnd, (proj2 (Z.ltb_ge _ _)) by lia.
  unfold start_attempt in Eu. rewrite Eu, Hd. unfold load_payload, bind, gets. rewrite <-Hpath.
  destruct Hu as (_ & _ & _ & Hpl). rewrite Hpl.
  match goal with |- context [match ?o with Some payload => ret payload | None => _ end] =>
    replace o with (Some (scale_encode env)) by (symmetry; exact Hpay) end.
  simpl. rewrite Hi, Hpath. done.
Qed.

Lemma finish_terminal r x record now l status :
  store_ok r -> x ∈ ri_packages (rl_index r) -> rkey record = rkey x ->
  link settings (rp_source_domain record) (rp_target_domain record) = Some l ->
  importer_state_is_terminal (isv_state status) = true ->
  exists r' y, finish_delivery in_range settings record now (Receipt status) r = (r', Ok tt) /\
    y ∈ ri_packages (rl_index r') /\ identity y = identity x /\ rp_state y = ImporterAcked /\
    rp_importer_state y = Some (isv_state status) /\ rp_delivery_attempts y = rp_delivery_attempts x /\
    rp_completed_at_unix_ms y = Some now.
Proof.
  intros Hok Hx Hk Hl Ht. unfold finish_delivery, bind, record_link, lift. rewrite Hl, Ht.
  match goal with |- context [update_record record ?f r] =>
    destruct (update_record_spec r record x f) as (r' & -> & Hu); [done|done|done|by intros z|]; set (g := f) in * end.
  exists r', (g x). split_and!; try done. by apply updated_elem with r.
Qed.

(** What the tick makes of a due record. *)
Definition got_through (l : LinkProfileConfig) (now n : Z) (status : ImporterPackageStatusView) x y : Prop :=
  identity y = identity x /\
  ((rp_state y = ImporterAcked /\ rp_importer_state y = Some (isv_state status) /\
    rp_delivery_attempts y = sat_add u32_max (rp_delivery_attempts x) 1 /\
    rp_completed_at_unix_ms y = Some now) \/
   (exists m, next_delivery_after in_range l n = Ok m /\ now < m /\ rp_state y = BlockedByBlackout /\
      rp_next_delivery_at_unix_ms y = Some m /\ rp_delivery_attempts y = rp_delivery_attempts x)).

(** The record's own turn. *)
Lemma due_record_settles r t k x n input status l :
  relay_reachable (mkRelaySys r t k None) -> t <= ti_due_now input <= ti_now input ->
  x ∈ ri_packages (rl_index r) -> waiting (rp_state x) = true ->
  rp_next_delivery_at_unix_ms x = Some n -> 0 <= n <= ti_due_now input ->
  n <= i64_max -> in_range n = true ->
  is_Some (tc_importers settings !! rp_target_domain x) ->
  link settings (rp_source_domain x) (rp_target_domain x) = Some l ->
  ti_delivery input = Receipt status -> importer_state_is_terminal (isv_state status) = true ->
  exists r' y, tick_record in_range settings input (rp_source_domain x) (rp_target_domain x) (rp_epoch_id x)
                 (rp_package_hash x) r = (r', Ok tt) /\
    y ∈ ri_packages (rl_index r') /\ got_through l (ti_now input) n status x y.
Proof.
  intros Hr Ht Hx Hw Hn Hdue Hmax Hir [imp Hi] Hl Hresp Hterm.
  pose proof (sk_store _ (relay_reachable_ok _ Hr)) as Hok. simpl in Hok.
  destruct (find_record r x Hok Hx) as (h & Hd & Hf & Hpath).
  destruct (next_delivery_spec in_range l n) as (c & Hnd & _); [done|lia|].
  set (now := ti_now input) in *. set (m := c / nanos_per_milli) in *.
  unfold tick_record, bind at 1, lift, bind at 1, gets. rewrite Hd, Hf.
  assert (forall A (a b d e : A), match rp_state x with Queued => a | Delivered => b
    | Scheduled' | BlockedByBlackout | Retrying => d | _ => e end = d) as ->.
  { intros. by destruct (rp_state x). }
  unfold due_now. rewrite Hn, (proj2 (Z.leb_le _ _)) by lia. fold now. rewrite Hresp.
  unfold attempt_delivery, bind at 1. destruct (Z.lt_ge_cases now m) as [Hlt|Hge].
  - unfold begin_delivery, record_link, bind, lift. rewrite Hl, Hn, Hnd, (proj2 (Z.ltb_lt _ _)) by lia.
    match goal with |- context [update_record x ?f r] =>
      destruct (update_record_spec r x x f) as (r1 & -> & Hu); [done|done|done|by intros z|]; set (g := f) in * end.
    exists r1, (g x). split_and!; [done|by apply updated_elem with r|]. split; [done|right; by exists m].
  - destruct (begin_posts r x n now l m imp) as (r1 & payload & -> & Hu); [done..|].
    destruct (finish_terminal r1 (start_attempt x) x now l status) as (r' & y & -> & Hy & Hid & Hrest);
      [by eapply updated_ok|by apply updated_elem with r|done..|].
    destruct Hrest as (H1' & H2' & H3' & H4'). exists r', y. split_and!; [done|done|]. split; [done|left; by split_and!].
Qed.

(** ** The whole tick *)

Definition plannable (ms : Z) : Prop := in_range ms = true /\ 0 <= ms <= i64_max.

(** Nothing in the handling of a record can fail: its domains have a link and an
    importer endpoint, the times it is planned for can be represented, and the
    importer's answers can be decoded. *)
Definition answerable (input : TickInput) x : Prop :=
  exists l, link settings (rp_source_domain x) (rp_target_domain x) = Some l /\
    is_Some (tc_importers settings !! rp_target_domain x) /\
    (rp_state x = Queued -> plannable (ready_at l x)) /\
    (forall n, rp_next_delivery_at_unix_ms x = Some n -> plannable n) /\
    (forall ms, ti_now input <= ms <= ti_now input + lk_max_retry_delay_seconds l * 1000 -> plannable ms) /\
    ti_delivery input <> BadReceipt /\ ti_status input <> BadStatus.

(** Updates of stored records do not fail. *)
Lemma update_runs r record x f :
  store_ok r -> x ∈ ri_packages (rl_index r) -> rkey record = rkey x -> keeps f ->
  snd (update_record record f r) = Ok tt.
Proof. intros Hok Hx Hk Hf. by destruct (update_record_spec r record x f) as (r' & -> & _). Qed.

Lemma retry_runs r x record now l error :
  store_ok r -> x ∈ ri_packages (rl_index r) -> rkey record = rkey x -> 0 <= now ->
  0 <= lk_initial_retry_delay_seconds l -> 0 <= lk_max_retry_delay_seconds l ->
  (forall ms, now <= ms <= now + lk_max_retry_delay_seconds l * 1000 -> plannable ms) ->
  snd (schedule_retry in_range record now l error r) = Ok tt.
Proof.
  intros Hok Hx Hk Hnow U1 U2 Hp. unfold schedule_retry. destruct (_ && _); [by eapply update_runs|].
  set (delay := Z.min _ _). assert (0 <= delay <= lk_max_retry_delay_seconds l) as Hd.
  { assert (0 <= Z.shiftl 1 (Z.min (Z.max (rp_delivery_attempts record) 1 - 1) 16)) by (apply Z.shiftl_nonneg; done).
    unfold delay, sat_mul, u64_max, umax. nia. }
  assert (plannable (now + lk_max_retry_delay_seconds l * 1000)) as [_ Hmax] by (apply Hp; lia).
  assert (sat_add u64_max now (sat_mul u64_max delay 1000) = now + delay * 1000) as ->.
  { unfold sat_add, sat_mul, u64_max, umax, i64_max in *. lia. }
  destruct (Hp (now + delay * 1000)) as [Hir Hi]; [lia|].
  destruct (next_delivery_spec in_range l _ Hir Hi) as (c & Hc & _). unfold bind, lift. rewrite Hc. by eapply update_runs.
Qed.

Lemma finish_runs r x record now l response :
  store_ok r -> x ∈ ri_packages (rl_index r) -> rkey record = rkey x -> 0 <= now ->
  link settings (rp_source_domain record) (rp_target_domain record) = Some l ->
  (forall ms, now <= ms <= now + lk_max_retry_delay_seconds l * 1000 -> plannable ms) -> response <> BadReceipt ->
  snd (finish_delivery in_range settings record now response r) = Ok tt.
Proof.
  intros Hok Hx Hk Hnow Hl Hp Hb. destruct (link_unsigned _ _ _ Hl) as (U1 & U2 & _).
  unfold finish_delivery, bind, record_link, lift. rewrite Hl.
  destruct response; [destruct (importer_state_is_terminal _); by eapply update_runs|done|by eapply update_runs|by eapply retry_runs..].
Qed.

Lemma attempt_runs r x n now response l :
  store_ok r -> x ∈ ri_packages (rl_index r) -> rp_next_delivery_at_unix_ms x = Some n -> 0 <= now -> plannable n ->
  link settings (rp_source_domain x) (rp_target_domain x) = Some l ->
  is_Some (tc_importers settings !! rp_target_domain x) ->
  (forall ms, now <= ms <= now + lk_max_retry_delay_seconds l * 1000 -> plannable ms) -> response <> BadReceipt ->
  snd (attempt_delivery in_range settings x now response r) = Ok tt.
Proof.
  intros Hok Hx Hn Hnow [Hir Hi] Hl [imp Himp] Hp Hb. unfold attempt_delivery, bind at 1.
  destruct (next_delivery_spec in_range l n Hir Hi) as (c & Hnd & _).
  destruct (Z.lt_ge_cases now (c / nanos_per_milli)) as [Hlt|Hge].
  - unfold begin_delivery, record_link, bind, lift. rewrite Hl, Hn, Hnd, (proj2 (Z.ltb_lt _ _)) by lia.
    match goal with |- context [update_record x ?f r] =>
      destruct (update_record_spec r x x f) as (r1 & -> & _); [done|done|done|by intros z|done] end.
  - destruct (begin_posts r x n now l (c / nanos_per_milli) imp) as (r1 & payload & -> & Hu); [done..|].
    apply (finish_runs r1 (start_attempt x) x now l); [by eapply updated_ok|by apply updated_elem with r|done..].
Qed.

Lemma tick_runs r x input :
  store_ok r -> x ∈ ri_packages (rl_index r) -> 0 <= ti_now input -> answerable input x ->
  snd (tick_record in_range settings input (rp_source_domain x) (rp_target_domain x) (rp_epoch_id x) (rp_package_hash x) r) = Ok tt.
Proof.
  intros Hok Hx Hnow (l & Hl & Hi & Hq & Hn & Hp & Hb & Hb'). destruct (find_record r x Hok Hx) as (h & Hd & Hf & _).
  unfold tick_record, bind at 1, lift, bind at 1, gets. rewrite Hd, Hf.
  assert (snd ((if due_now (rp_next_delivery_at_unix_ms x) (ti_due_now input)
                then attempt_delivery in_range settings x (ti_now input) (ti_delivery input) else ret tt) r) = Ok tt) as Hatt.
  { unfold due_now. destruct (rp_next_delivery_at_unix_ms x) as [n|] eqn:En; [|done]. destruct (n <=? _); [|done].
    by apply (attempt_runs r x n _ _ l); [..|apply Hn|done|done|done|done]. }
  destruct (rp_state x); try exact Hatt; try done.
  - destruct (Hq eq_refl) as [Hir Hm]. unfold schedule_record, record_link, bind, lift. rewrite Hl.
    destruct (next_delivery_spec in_range l _ Hir Hm) as (c & Hc & _). unfold ready_at in Hc. rewrite Hc.
    eapply update_runs; [done|done|done|]. intros z. by destruct (bool_decide _).
  - clear Hatt. destruct (due_now _ _); [|done]. unfold poll_importer_status. destruct Hi as [imp ->].
    destruct (ti_status input); [destruct (importer_state_is_terminal _)|done|..]; by eapply update_runs.
Qed.

(** A turn of the loop; the key it works on is the record's. *)
Lemma tick_turn inputs j r t k w :
  relay_reachable (mkRelaySys r t k None) -> ticking_clock inputs -> t <= ti_due_now (inputs j) ->
  w ∈ ri_packages (rl_index r) ->
  let r1 := fst (tick_record in_range settings (inputs j) (rp_source_domain w) (rp_target_domain w) (rp_epoch_id w)
                   (rp_package_hash w) r) in
  relay_reachable (mkRelaySys r1 (ti_now (inputs j)) k None) /\ others (rkey w) r r1.
Proof.
  intros Hr Hc Ht Hw. pose proof (Hc j) as Hj. pose proof (relay_reachable_ok _ Hr) as [Hok Hrec _ Hk _]. simpl in *. split.
  { eapply relay_reachable_step; [exact Hr|]. apply step_tick. lia. }
  destruct (tick_record_ok t k r (inputs j) (rp_source_domain w) (rp_target_domain w) (rp_epoch_id w) (rp_package_hash w))
    as (_ & _ & _ & Ho); [done|done|lia|done|].
  destruct (stored_paths _ _ (so_stored _ Hok w Hw)) as (h & Eh & Ed & Ek & _).
  rewrite Ek. unfold tick_key in Ho. rewrite Ed in Ho. exact Ho.
Qed.

(** The loop leaves alone what is not on its list. *)
Lemma tick_all_others inputs work : forall j r t k y,
  relay_reachable (mkRelaySys r t k None) -> ticking_clock inputs -> t <= ti_due_now (inputs j) ->
  NoDup (map rkey work) -> (forall w, w ∈ work -> w ∈ ri_packages (rl_index r)) ->
  y ∈ ri_packages (rl_index r) -> rkey y ∉ map rkey work ->
  y ∈ ri_packages (rl_index (fst (tick_all in_range settings inputs j work r))).
Proof.
  induction work as [|w work IH]; intros j r t k y Hr Hc Ht Hnd Hin Hy Hk; [done|]. simpl in *.
  apply NoDup_cons in Hnd as [Hw Hnd]. apply not_elem_of_cons in Hk as [Hne Hk].
  destruct (tick_turn inputs j r t k w Hr Hc Ht) as [Hr1 Ho]; [apply Hin; set_solver|]. unfold bind at 1.
  destruct (tick_record _ _ _ _ _ _ _ r) as [r1 [[]|e]]; simpl in *; [|by apply Ho].
  apply (IH (S j) r1 (ti_now (inputs j)) k); [done|done|apply (Hc j)|done| |by apply Ho|done].
  intros z Hz. apply Ho; [apply Hin; set_solver|]. intros E. apply Hw. rewrite <-E. by apply list_elem_of_fmap_2.
Qed.

Lemma tick_all_settles inputs x n status l : forall i work j r t k,
  relay_reachable (mkRelaySys r t k None) -> ticking_clock inputs -> 0 <= t <= ti_due_now (inputs j) ->
  NoDup (map rkey work) -> (forall w, w ∈ work -> w ∈ ri_packages (rl_index r)) ->
  work !! i = Some x ->
  (forall i' w, (i' < i)%nat -> work !! i' = Some w -> answerable (inputs (j + i')%nat) w) ->
  waiting (rp_state x) = true -> rp_next_delivery_at_unix_ms x = Some n -> n <= ti_due_now (inputs (j + i)%nat) ->
  plannable n -> is_Some (tc_importers settings !! rp_target_domain x) ->
  link settings (rp_source_domain x) (rp_target_domain x) = Some l ->
  ti_delivery (inputs (j + i)%nat) = Receipt status -> importer_state_is_terminal (isv_state status) = true ->
  exists y, y ∈ ri_packages (rl_index (fst (tick_all in_range settings inputs j work r))) /\
    got_through l (ti_now (inputs (j + i)%nat)) n status x y.
Proof.
  induction i as [|i IH]; intros [|w work] j r t k Hr Hc Ht Hnd Hin Hx Ha Hw Hn Hdue Hp Hi Hl Hresp Hterm;
    simpl in Hx; try done; pose proof (Hc j) as Hj; simpl in *; apply NoDup_cons in Hnd as [Hwk Hnd].
  - injection Hx as ->. rewrite Nat.add_0_r in *. destruct Hp as [Hir Hm].
    destruct (due_record_settles r t k x n (inputs j) status l) as (r1 & y & Hop & Hy & Hg); try done; [lia|apply Hin; set_solver|lia|lia|].
    destruct (tick_turn inputs j r t k x Hr Hc) as [Hr1 Ho]; [lia|apply Hin; set_solver|].
    unfold bind. rewrite Hop in *. simpl in *. exists y. split; [|done].
    apply (tick_all_others inputs work (S j) r1 (ti_now (inputs j)) k); [done|done|lia|done| |done|].
    + intros z Hz. apply Ho; [apply Hin; set_solver|]. intros E. apply Hwk. rewrite <-E. by apply list_elem_of_fmap_2.
    + destruct Hg as [Hid _]. by rewrite (identity_key _ _ Hid).
  - destruct (tick_turn inputs j r t k w Hr Hc) as [Hr1 Ho]; [lia|apply Hin; set_solver|].
    assert (snd (tick_record in_range settings (inputs j) (rp_source_domain w) (rp_target_domain w) (rp_epoch_id w)
                   (rp_package_hash w) r) = Ok tt) as Hrun.
    { apply tick_runs; [apply (relay_reachable_ok _ Hr)|apply Hin; set_solver|lia|].
      rewrite <-(Nat.add_0_r j). by apply (Ha 0%nat w); [lia|]. }
    unfold bind. destruct (tick_record _ _ _ _ _ _ _ r) as [r1 res]. simpl in *. subst res.
    replace (j + S i)%nat with (S j + i)%nat in * by lia.
    apply (IH work (S j) r1 (ti_now (inputs j)) k); try done; [lia| |].
    + intros z Hz. apply Ho; [apply Hin; set_solver|]. intros E. apply Hwk. rewrite <-E. by apply list_elem_of_fmap_2.
    + intros i' z Hi' Hz. replace (S j + i')%nat with (j + S i')%nat by lia. apply (Ha (S i') z); [lia|done].
Qed.

Lemma tick_all_runs inputs work : forall j r t k,
  relay_reachable (mkRelaySys r t k None) -> ticking_clock inputs -> 0 <= t <= ti_due_now (inputs j) ->
  NoDup (map rkey work) -> (forall w, w ∈ work -> w ∈ ri_packages (rl_index r)) ->
  (forall i w, work !! i = Some w -> answerable (inputs (j + i)%nat) w) ->
  snd (tick_all in_range settings inputs j work r) = Ok tt.
Proof.
  induction work as [|w work IH]; intros j r t k Hr Hc Ht Hnd Hin Ha; [done|]. simpl in *. pose proof (Hc j) as Hj.
  apply NoDup_cons in Hnd as [Hwk Hnd]. destruct (tick_turn inputs j r t k w Hr Hc) as [Hr1 Ho]; [lia|apply Hin; set_solver|].
  pose proof (tick_runs r w (inputs j) (sk_store _ (relay_reachable_ok _ Hr)) ltac:(apply Hin; set_solver) ltac:(lia)
                ltac:(rewrite <-(Nat.add_0_r j); by apply (Ha 0%nat w))) as Hrun.
  unfold bind. destruct (tick_record _ _ _ _ _ _ _ r) as [r1 res]. simpl in *. subst res.
  apply (IH (S j) r1 (ti_now (inputs j)) k); [done|done|lia|done| |].
  - intros z Hz. apply Ho; [apply Hin; set_solver|]. intros E. apply Hwk. rewrite <-E. by apply list_elem_of_fmap_2.
  - intros i z Hz. replace (S j + i)%nat with (j + S i)%nat by lia. by apply (Ha (S i) z).
Qed.

(** C28: a due package gets through.  In a tick of the scheduler, let a waiting
    record's time have come when its turn does, and let the importer answer its
    delivery with a terminal status.  Provided that the handling of no earlier record of the
    index can fail, the tick settles the record, with the importer's verdict and one
    more attempt; only a blackout that covers the planned moment postpones it, to
    the end of that blackout.  What happens to the later records, an error included,
    does not matter; when none of them can fail either, the tick succeeds. *)
Theorem relay_due_package_settles inputs r t k i x n status l :
  relay_reachable (mkRelaySys r t k None) -> ticking_clock inputs -> 0 <= t <= ti_due_now (inputs 0%nat) ->
  ri_packages (rl_index r) !! i = Some x ->
  (forall j w, (j < i)%nat -> ri_packages (rl_index r) !! j = Some w -> answerable (inputs j) w) ->
  waiting (rp_state x) = true -> rp_next_delivery_at_unix_ms x = Some n -> n <= ti_due_now (inputs i) ->
  plannable n -> is_Some (tc_importers settings !! rp_target_domain x) ->
  link settings (rp_source_domain x) (rp_target_domain x) = Some l ->
  ti_delivery (inputs i) = Receipt status -> importer_state_is_terminal (isv_state status) = true ->
  let '(r', outcome) := scheduler_tick in_range settings inputs r in
  (exists y, y ∈ ri_packages (rl_index r') /\ identity y = identity x /\
    ((rp_state y = ImporterAcked /\ rp_importer_state y = Some (isv_state status) /\
      rp_delivery_attempts y = sat_add u32_max (rp_delivery_attempts x) 1 /\
      rp_completed_at_unix_ms y = Some (ti_now (inputs i))) \/
     (exists m, next_delivery_after in_range l n = Ok m /\ ti_now (inputs i) < m /\ rp_state y = BlockedByBlackout /\
        rp_next_delivery_at_unix_ms y = Some m /\ rp_delivery_attempts y = rp_delivery_attempts x))) /\
  ((forall j w, ri_packages (rl_index r) !! j = Some w -> answerable (inputs j) w) -> outcome = Ok tt).
Proof.
  intros Hr Hc Ht Hx Ha Hw Hn Hdue Hp Hi Hl Hresp Hterm.
  pose proof (so_nodup _ (sk_store _ (relay_reachable_ok _ Hr))) as Hnd. simpl in Hnd.
  pose proof (tick_all_settles inputs x n status l i _ 0 r t k Hr Hc Ht Hnd (fun w Hin => Hin) Hx Ha Hw Hn Hdue Hp Hi Hl Hresp Hterm) as Hs.
  pose proof (tick_all_runs inputs _ 0 r t k Hr Hc Ht Hnd (fun w Hin => Hin)) as Hrun.
  change (scheduler_tick in_range settings inputs r) with (tick_all in_range settings inputs 0 (ri_packages (rl_index r)) r).
  destruct (tick_all _ _ _ _ _ _) as [r' outcome]. split; [exact Hs|exact Hrun].
Qed.
End Machine.
