(* ===== verification/RelayWitnesses.v ===== *)
(** * Runs of the relay

    A concrete relay on the reference codec with 32-byte hashes: one package is
    accepted, held for its delay, delivered, retried around a blackout until
    its attempts are used up.  The theorems of [RelaySafety.v] are applied to
    the states of this run. *)

From S2P Require Import Prelude Effects Types Codec Reference Config Relay RelayProofs RelaySafety.

(** ** The instance *)

Definition first_32 (b : bytes) : bytes := take 32 (reverse b ++ replicate 32 0).

#[export] Instance short_codec : Codec := {|
  blake2_256 := first_32;
  blake2_128 := first_16;
  twox_128 := first_16;
  scale_u64 := @scale_u64 reference_codec;
  scale_hash := @scale_hash reference_codec;
  scale_domain_seq := @scale_domain_seq reference_codec;
  scale_ack_key := @scale_ack_key reference_codec;
  scale_seed := @scale_seed reference_codec;
  scale_fold := @scale_fold reference_codec;
  scale_event_envelope := @scale_event_envelope reference_codec;
  scale_tx_envelope := @scale_tx_envelope reference_codec;
  scale_commitment_empty := @scale_commitment_empty reference_codec;
  scale_merkle_empty := @scale_merkle_empty reference_codec;
  scale_merkle_node := @scale_merkle_node reference_codec;
  scale_authorities := @scale_authorities reference_codec;
  scale_payload := @scale_payload reference_codec;
  scale_summary_input := @scale_summary_input reference_codec;
  scale_export_input := @scale_export_input reference_codec;
  scale_import_input := @scale_import_input reference_codec;
  scale_proposal_input := @scale_proposal_input reference_codec;
  scale_ack_input := @scale_ack_input reference_codec;
  scale_header := @scale_header reference_codec;
  scale_inclusion_proof := @scale_inclusion_proof reference_codec;
  scale_package_input := @scale_package_input reference_codec;
  scale_package := @scale_package reference_codec;
  scale_envelope := @scale_envelope reference_codec
|}.

Lemma short_codec_ok : @CodecOk short_codec.
Proof. split; first [apply length_first_16 | apply tagged_ok, _]. Qed.

Lemma length_first_32 b : length (first_32 b) = 32%nat.
Proof. unfold first_32. rewrite length_take, length_app, length_replicate. lia. Qed.

#[export] Instance plain_hex : HexCodec := {| hex_encode b := b; hex_decode b := Some b |}.
Lemma plain_hex_ok : @HexCodecOk plain_hex.
Proof. by split. Qed.

Lemma example_links_unsigned : links_unsigned example_transport.
Proof.
  intros l Hl. repeat (apply elem_of_cons in Hl as [->|Hl]; [vm_compute; repeat split; discriminate|]).
  by apply elem_of_nil in Hl.
Qed.

(** ** A package *)

Definition relay_leaf (target : DomainId) : ExportLeaf :=
  {| el_version := 1; el_export_id := [1]; el_source_domain := Mars; el_target_domain := target; el_sender := [2];
     el_recipient := [3]; el_amount := 5; el_source_epoch_id := 3; el_source_block_height := 33;
     el_extrinsic_index := 1; el_export_hash := [4] |}.
Definition relay_package (target : DomainId) : CertifiedSummaryPackage :=
  from_bundle_with_export_proofs (from_hash_input example_input) example_bundle
    [mkExportInclusionProof 1 (relay_leaf target) 0 1 []].
Definition relay_envelope (target : DomainId) : RelayPackageEnvelopeV1 :=
  let package := relay_package target in
  new_envelope Mars target 3 (sh_summary_hash (pkg_header package)) (pkg_package_hash package)
    (scale_encode package) 1 900.
Definition relay_body (target : DomainId) : bytes := scale_encode (relay_envelope target).

(** ** A run *)

Definition anytime (_ : Z) : bool := true.
Definition empty_relay : Relay := mkRelay (mkRelayIndex INDEX_SCHEMA_VERSION []) None ∅ ∅ [].
Definition accepted_relay (target : DomainId) : Relay := fst (submit_package (relay_body target) 1000 empty_relay).
Definition at_time (t : Z) (response : DeliveryResponse) : TickInput := mkTickInput t t response BadStatus.
Definition tick_once (t : Z) (response : DeliveryResponse) (r : Relay) : Relay :=
  fst (tick_record anytime example_transport (at_time t response) Mars Earth 3
         (hex_hash (pkg_package_hash (relay_package Earth))) r).
Definition no_answer : DeliveryResponse := DeliveryFailed "timeout".

Definition scheduled_relay : Relay := tick_once 1500 no_answer (accepted_relay Earth).
Definition exhausted_relay : Relay :=
  tick_once 26000 no_answer (tick_once 22000 no_answer (tick_once 20000 no_answer
    (tick_once 4000 no_answer scheduled_relay))).
Definition first_record (r : Relay) : RelayPackageRecord :=
  default (accepted_record (relay_envelope Earth) 0) (ri_packages (rl_index r) !! 0%nat).

#[export] Existing Instance short_codec_ok.
#[export] Existing Instance plain_hex_ok.

Lemma accepted_reachable target :
  relay_reachable anytime example_transport (mkRelaySys (accepted_relay target) 1000 0 None).
Proof.
  exists 0. apply rtc_once. apply (step_submit anytime example_transport empty_relay 0 0 None). lia.
Qed.

Lemma tick_once_step r t t' response :
  t <= t' -> relay_step anytime example_transport (mkRelaySys r t 0 None)
               (mkRelaySys (tick_once t' response r) t' 0 None).
Proof. intros Ht. apply (step_tick anytime example_transport r t 0 (at_time t' response)). simpl. lia. Qed.

Lemma scheduled_step :
  relay_step anytime example_transport (mkRelaySys (accepted_relay Earth) 1000 0 None)
    (mkRelaySys scheduled_relay 1500 0 None).
Proof. apply tick_once_step. lia. Qed.

Lemma tick_reachable r t t' response :
  t <= t' -> relay_reachable anytime example_transport (mkRelaySys r t 0 None) ->
  relay_reachable anytime example_transport (mkRelaySys (tick_once t' response r) t' 0 None).
Proof.
  intros Ht Hr. eapply relay_reachable_step; [exact Hr|]. by apply tick_once_step.
Qed.

Lemma scheduled_reachable : relay_reachable anytime example_transport (mkRelaySys scheduled_relay 1500 0 None).
Proof. apply (tick_reachable _ 1000), accepted_reachable. lia. Qed.

Lemma exhausted_reachable : relay_reachable anytime example_transport (mkRelaySys exhausted_relay 26000 0 None).
Proof.
  apply (tick_reachable _ 22000); [lia|]. apply (tick_reachable _ 20000); [lia|].
  apply (tick_reachable _ 4000); [lia|]. apply (tick_reachable _ 1500), scheduled_reachable. lia.
Qed.

(** A relay with two packages that wait, for the Moon and for the Earth. *)
Definition tick_for (target : DomainId) (t : Z) (response : DeliveryResponse) (r : Relay) : Relay :=
  fst (tick_record anytime example_transport (at_time t response) Mars target 3
         (hex_hash (pkg_package_hash (relay_package target))) r).
Definition two_accepted : Relay := fst (submit_package (relay_body Earth) 1000 (accepted_relay Moon)).
Definition two_waiting : Relay := tick_for Earth 1500 no_answer (tick_for Moon 1500 no_answer two_accepted).

Lemma two_waiting_reachable : relay_reachable anytime example_transport (mkRelaySys two_waiting 1500 0 None).
Proof.
  eapply relay_reachable_step; [|apply (step_tick anytime example_transport _ 1500 0 (at_time 1500 no_answer)); simpl; lia].
  eapply relay_reachable_step; [|apply (step_tick anytime example_transport _ 1000 0 (at_time 1500 no_answer)); simpl; lia].
  eapply relay_reachable_step; [apply (accepted_reachable Moon)|].
  apply (step_submit anytime example_transport (accepted_relay Moon) 1000 0 None). lia.
Qed.

Definition posted_relay : Relay := fst (begin_delivery anytime example_transport (first_record scheduled_relay) 4000 scheduled_relay).

Lemma first_record_in r : (0 < length (ri_packages (rl_index r)))%nat -> first_record r ∈ ri_packages (rl_index r).
Proof.
  unfold first_record. destruct (ri_packages (rl_index r)); simpl; [lia|]. intros _. apply elem_of_cons. by left.
Qed.

Lemma posted_reachable :
  relay_reachable anytime example_transport
    (mkRelaySys posted_relay 4000 0 (Some (first_record scheduled_relay, 4000, relay_body Earth))).
Proof.
  eapply relay_reachable_step; [exact scheduled_reachable|].
  apply (step_post anytime example_transport scheduled_relay 1500 0 4000 4000).
  - lia.
  - apply first_record_in. vm_compute. lia.
  - vm_compute. reflexivity.
  - vm_compute. reflexivity.
  - vm_compute. reflexivity.
Qed.

Lemma has_first_record r : (0 <? length (ri_packages (rl_index r)))%nat = true ->
  first_record r ∈ ri_packages (rl_index r).
Proof. intros Hl%Nat.ltb_lt. by apply first_record_in. Qed.

#[local] Opaque two_waiting scheduled_relay exhausted_relay accepted_relay posted_relay first_record tick_once relay_body.

(** ** Witnesses *)

Lemma relay_delivery_sound_witness :
  exists env pkg l, relay_body Earth = scale_encode env /\
    decode_and_validate_envelope (relay_body Earth) = Ok (env, pkg) /\
    link example_transport Mars Earth = Some l /\
    1000 + lk_base_one_way_delay_seconds l * 1000 <= 4000.
Proof.
  destruct (relay_delivery_sound (H := short_codec) anytime example_transport example_links_unsigned length_first_32 _ _ _ _
              posted_reachable eq_refl) as (env & pkg & l & H1 & H2 & _ & H3 & _).
  exists env, pkg, l. split; [exact H1|]. split; [exact H2|]. split; [exact H3|].
  vm_compute in H3. injection H3 as <-. vm_compute. congruence.
Defined.

(** The bound on posts is reached: four with [max_attempts = 3]. *)
Lemma relay_attempts_bounded_witness :
  rp_state (first_record exhausted_relay) = Failed /\
  posts_of (rp_payload_path (first_record exhausted_relay)) exhausted_relay = 4 /\
  posts_of (rp_payload_path (first_record exhausted_relay)) exhausted_relay <= 3 + 1 + 0.
Proof.
  split; [vm_compute; reflexivity|]. split; [vm_compute; reflexivity|].
  destruct (relay_attempts_bounded (H := short_codec) anytime example_transport example_links_unsigned length_first_32
    (mkRelaySys exhausted_relay 26000 0 None) exhausted_reachable) as [_ Hall].
  destruct (Hall (first_record exhausted_relay) (example_link Mars Earth)) as [[Hlo Hhi] _].
  - apply has_first_record. vm_compute. reflexivity.
  - vm_compute. reflexivity.
  - discriminate.
  - vm_compute. reflexivity.
  - change (lk_max_attempts (example_link Mars Earth) + 1 + rs_restarts (mkRelaySys exhausted_relay 26000 0 None)) with 4 in Hhi.
    change (3 + 1 + 0) with 4. exact (Z.le_trans _ _ _ Hlo Hhi).
Defined.

Lemma relay_settled_final_witness :
  exists y, y ∈ ri_packages (rl_index (tick_once 30000 no_answer exhausted_relay)) /\
    y = first_record exhausted_relay.
Proof.
  destruct (relay_settled_final (H := short_codec) anytime example_transport example_links_unsigned length_first_32
    (mkRelaySys exhausted_relay 26000 0 None) (mkRelaySys (tick_once 30000 no_answer exhausted_relay) 30000 0 None)
    (first_record exhausted_relay)) as (y & Hy & _ & _ & _ & Hs & _).
  - exact exhausted_reachable.
  - apply rtc_once, tick_once_step. lia.
  - apply has_first_record. vm_compute. reflexivity.
  - exists y. split; [exact Hy|]. apply Hs. vm_compute. reflexivity.
Defined.

Lemma relay_submission_idempotent_witness :
  exists y, submit_package (relay_body Earth) 5000 scheduled_relay = (scheduled_relay, Ok (y, true)).
Proof.
  destruct (relay_submission_idempotent (H := short_codec) anytime example_transport example_links_unsigned length_first_32
    empty_relay 0 0 None (relay_body Earth) (relay_envelope Earth) (relay_package Earth) 1000 (accepted_relay Earth)
    (accepted_record (relay_envelope Earth) 1000) false (mkRelaySys scheduled_relay 1500 0 None)
    (relay_body Earth) (relay_envelope Earth) (relay_package Earth) 5000) as (y & _ & _ & Hop).
  - exists 0. apply rtc_refl.
  - lia.
  - vm_compute. reflexivity.
  - vm_compute. reflexivity.
  - apply rtc_once, scheduled_step.
  - vm_compute. reflexivity.
  - reflexivity.
  - exists y. rewrite bool_decide_eq_true_2 in Hop by reflexivity. exact Hop.
Defined.

(** The relay accepts a package that Mars addresses to Mars; it has no link. *)
Lemma unlinked_record_blocks_witness :
  snd (submit_package (relay_body Mars) 1000 empty_relay)
  = Ok (accepted_record (relay_envelope Mars) 1000, false) /\
  validate_transport_config example_transport = Ok tt /\
  scheduler_tick anytime example_transport (fun _ => at_time 9000 no_answer) (accepted_relay Mars)
  = (accepted_relay Mars, Err LinkMissing).
Proof.
  split; [vm_compute; reflexivity|]. split; [vm_compute; reflexivity|].
  apply (unlinked_record_blocks (H := short_codec) anytime example_transport example_links_unsigned length_first_32
    (accepted_relay Mars) 1000 0 None (accepted_record (relay_envelope Mars) 1000) []).
  - apply accepted_reachable.
  - vm_compute. reflexivity.
  - reflexivity.
  - vm_compute. reflexivity.
Defined.

Definition verified_status : ImporterPackageStatusView :=
  mkImporterPackageStatusView Mars Earth 3 [] [] AckedVerified true None 1 [].

(** The package for the Moon comes first and its importer does not answer; the tick
    goes on and settles the package for the Earth. *)
Definition two_answers (j : nat) : TickInput :=
  let t := 4000 + Z.of_nat j in
  mkTickInput t t (match j with 1%nat => Receipt verified_status | _ => no_answer end) (StatusFailed "timeout").
Definition second_record (r : Relay) : RelayPackageRecord :=
  default (accepted_record (relay_envelope Earth) 0) (ri_packages (rl_index r) !! 1%nat).

#[local] Transparent first_record.
Lemma relay_due_package_settles_witness :
  snd (scheduler_tick anytime example_transport two_answers two_waiting) = Ok tt /\
  exists y, y ∈ ri_packages (rl_index (fst (scheduler_tick anytime example_transport two_answers two_waiting))) /\
    rp_package_hash y = rp_package_hash (second_record two_waiting).
Proof.
  assert (forall j w, ri_packages (rl_index two_waiting) !! j = Some w -> answerable anytime example_transport (two_answers j) w) as Hall.
  { intros j w Hw.
    assert (w = first_record two_waiting /\ j = 0%nat \/ w = second_record two_waiting /\ j = 1%nat) as Hcase.
    { destruct j as [|[|j]]; [left|right|].
      - unfold first_record. rewrite Hw. split; reflexivity.
      - unfold second_record. rewrite Hw. split; reflexivity.
      - apply lookup_lt_Some in Hw. vm_compute in Hw. lia. }
    assert (forall m, 0 <= m <= 4001 + 1000000 -> plannable anytime m) as Hplan.
    { intros m Hm. split; [reflexivity|]. unfold i64_max. lia. }
    destruct Hcase as [[-> ->]|[-> ->]].
    - exists (example_link Mars Moon). split_and!.
      + vm_compute. reflexivity.
      + exists (mkImporterTransportConfig [50]). vm_compute. reflexivity.
      + intros E. vm_compute in E. discriminate E.
      + intros n E. apply Hplan. vm_compute in E. injection E as <-. lia.
      + intros m Hm. apply Hplan. change (4000 <= m <= 64000) in Hm. lia.
      + discriminate.
      + discriminate.
    - exists (example_link Mars Earth). split_and!.
      + vm_compute. reflexivity.
      + exists (mkImporterTransportConfig [49]). vm_compute. reflexivity.
      + intros E. vm_compute in E. discriminate E.
      + intros n E. apply Hplan. vm_compute in E. injection E as <-. lia.
      + intros m Hm. apply Hplan. change (4001 <= m <= 64001) in Hm. lia.
      + discriminate.
      + discriminate. }
  pose proof (relay_due_package_settles (H := short_codec) anytime example_transport example_links_unsigned length_first_32
    two_answers two_waiting 1500 0 1 (second_record two_waiting) 4000 verified_status (example_link Mars Earth)) as Hsettles.
  destruct (scheduler_tick anytime example_transport two_answers two_waiting) as [r' outcome].
  destruct Hsettles as [(y & Hy & Hid & _) Hrun].
  - exact two_waiting_reachable.
  - intros j. simpl. lia.
  - simpl. lia.
  - vm_compute. reflexivity.
  - intros j w _ Hw. exact (Hall j w Hw).
  - vm_compute. reflexivity.
  - vm_compute. reflexivity.
  - simpl. lia.
  - split; [reflexivity|vm_compute; split; discriminate].
  - exists (mkImporterTransportConfig [49]). vm_compute. reflexivity.
  - vm_compute. reflexivity.
  - reflexivity.
  - reflexivity.
  - split; [exact (Hrun Hall)|]. exists y. split; [exact Hy|]. unfold identity, rkey in Hid. simpl in *. congruence.
Defined.
