(* ===== verification/Verify.v ===== *)
(** * Verification of certified packages ([services/importer/src/lib.rs])

    What the importer checks before it submits anything: the package hash, the
    summary-header storage proof against the state root of the proof block, the
    chain of ancestry headers, the GRANDPA justification, and every inclusion
    proof against the roots of the certified header.

    Block headers, trie proofs and justifications belong to Substrate: they are
    the operations of [LightClient].  The domain configurations the importer
    loads are an argument. *)

From S2P Require Import Prelude Types Codec Merkle Config.

(** ** Substrate *)
Class LightClient := {
  Header : Type;
  header_encode : Header -> bytes;
  header_decode : bytes -> option Header;
  header_hash : Header -> hash;
  header_number : Header -> Z;
  header_parent_hash : Header -> hash;
  header_state_root : Header -> hash;
  (** The value a trie proof shows for a key under a root; [None] when the check fails. *)
  read_proof_check : hash -> list bytes -> bytes -> option (option bytes);
  Justification : Type;
  justification_decode : bytes -> option Justification;
  just_target_hash : Justification -> hash;
  just_target_number : Justification -> Z;
  justification_verify : Justification -> Z -> list (bytes * Z) -> bool;
  (** [get_from_seed] of a GRANDPA key. *)
  get_from_seed : bytes -> option bytes
}.

Inductive VerifyError : Type :=
| PackageHashWrong
| SummaryProofMissing
| SummaryProofUndecodable
| SummaryProofExpected
| ProofBlockMismatch
| ProofHeaderUndecodable
| ProofHeaderHashWrong
| ProofHeaderNumberWrong
| StorageKeyWrong
| StorageProofInvalid
| StorageValueWrong
| AncestryUndecodable
| AncestryNotDescending
| AncestryNotContiguous
| AncestryEndsElsewhere
| SourceConfigMissing
| AuthorityKeyInvalid
| JustificationUndecodable
| JustificationTargetWrong
| JustificationInvalid
| NoItemProof
| ItemUndecodable
| SummaryProofMisplaced
| LeafHashWrong
| LeafSourceWrong
| LeafTargetWrong
| InclusionInvalid
| MixedTargets
| NoSupportedItem.

Section Verify.
Context `{!Codec, !LightClient}.

(** ** The certificate *)

Definition verify_package_hash (package : CertifiedSummaryPackage) : result VerifyError unit :=
  let expected := compute_package_hash package in
  ensure! bool_decide (pkg_package_hash package = expected) else PackageHashWrong in
  Ok tt.

Definition decode_summary_storage_proof (bs : bytes) : result VerifyError SummaryHeaderStorageProof :=
  let?? proof := (scale_decode bs : option InclusionProof) else SummaryProofUndecodable in
  match proof with
  | SummaryHeaderStorageV1 proof => Ok proof
  | _ => Err SummaryProofExpected
  end.

Definition verify_summary_storage_proof (package : CertifiedSummaryPackage)
    (summary_proof : SummaryHeaderStorageProof) (proof_block_header : Header) : result VerifyError unit :=
  let expected_key := summary_header_storage_key (sh_epoch_id (pkg_header package)) in
  ensure! bool_decide (shp_storage_key summary_proof = expected_key) else StorageKeyWrong in
  let?? verified := read_proof_check (header_state_root proof_block_header) (shp_trie_nodes summary_proof)
                      (shp_storage_key summary_proof) else StorageProofInvalid in
  match verified with
  | Some value =>
    ensure! bool_decide (value = scale_encode (pkg_header package)) else StorageValueWrong in Ok tt
  | None => Err StorageValueWrong
  end.

(** The loop of [verify_ancestry_chain]; block numbers are [u32]. *)
Fixpoint walk_ancestry (current_hash : hash) (current_number : Z) (ancestry : list bytes)
    : result VerifyError (hash * Z) :=
  match ancestry with
  | [] => Ok (current_hash, current_number)
  | encoded :: ancestry =>
    let?? header := header_decode encoded else AncestryUndecodable in
    ensure! bool_decide (header_parent_hash header = current_hash) else AncestryNotDescending in
    ensure! header_number header =? as_u32 (current_number + 1) else AncestryNotContiguous in
    walk_ancestry (header_hash header) (header_number header) ancestry
  end.

Definition verify_ancestry_chain (certificate : GrandpaFinalityCertificate) : result VerifyError unit :=
  let? last := walk_ancestry (gfc_target_block_hash certificate) (gfc_target_block_number certificate)
                 (gfc_ancestry_headers certificate) in
  let '(current_hash, current_number) := last in
  ensure! bool_decide (current_hash = gfc_proof_block_hash certificate)
          && (current_number =? gfc_proof_block_number certificate) else AncestryEndsElsewhere in
  Ok tt.

Definition verify_summary_chain_context (package : CertifiedSummaryPackage)
    : result VerifyError GrandpaFinalityCertificate :=
  let certificate := match pkg_certificate package with GrandpaV1 certificate => certificate end in
  let?? encoded := head (pkg_inclusion_proofs package) else SummaryProofMissing in
  let? summary_proof := decode_summary_storage_proof encoded in
  ensure! (shp_proof_block_number summary_proof =? gfc_proof_block_number certificate)
          && bool_decide (shp_proof_block_hash summary_proof = gfc_proof_block_hash certificate)
    else ProofBlockMismatch in
  let?? proof_block_header := header_decode (shp_proof_block_header summary_proof)
    else ProofHeaderUndecodable in
  ensure! bool_decide (header_hash proof_block_header = shp_proof_block_hash summary_proof)
    else ProofHeaderHashWrong in
  ensure! header_number proof_block_header =? shp_proof_block_number summary_proof
    else ProofHeaderNumberWrong in
  let? _ := verify_summary_storage_proof package summary_proof proof_block_header in
  let? _ := verify_ancestry_chain certificate in
  Ok certificate.

(** The authorities configured for a domain, each with weight 1. *)
Fixpoint configured_authorities (authorities : list AuthorityConfig) : result VerifyError (list (bytes * Z)) :=
  match authorities with
  | [] => Ok []
  | authority :: authorities =>
    let?? key := get_from_seed (au_grandpa_seed authority) else AuthorityKeyInvalid in
    let? rest := configured_authorities authorities in
    Ok ((key, 1) :: rest)
  end.

Definition verify_grandpa_certificate (domain_configs : DomainId -> option DomainConfig)
    (certificate : GrandpaFinalityCertificate) (source_domain : DomainId) : result VerifyError unit :=
  let?? source_config := domain_configs source_domain else SourceConfigMissing in
  let? authorities := configured_authorities (dc_authorities source_config) in
  let?? justification := justification_decode (gfc_justification certificate) else JustificationUndecodable in
  ensure! bool_decide (just_target_hash justification = gfc_proof_block_hash certificate)
          && (just_target_number justification =? gfc_proof_block_number certificate)
    else JustificationTargetWrong in
  ensure! justification_verify justification (gfc_grandpa_set_id certificate) authorities
    else JustificationInvalid in
  Ok tt.

(** ** The items *)

Record VerifiedPackageItems : Type := mkVerifiedPackageItems {
  vi_export_proofs : list ExportInclusionProof;
  vi_finalized_import_proofs : list FinalizedImportInclusionProof;
  vi_governance_proofs : list GovernanceInclusionProof
}.

(** The three loops over [package.inclusion_proofs[1..]] differ in the proofs they
    pick and in what they check of them. *)
Fixpoint verify_each {P} (pick : InclusionProof -> option P) (check : P -> result VerifyError unit)
    (encoded_proofs : list bytes) : result VerifyError (list P) :=
  match encoded_proofs with
  | [] => Ok []
  | encoded :: rest =>
    let?? decoded := (scale_decode encoded : option InclusionProof) else ItemUndecodable in
    match decoded with
    | SummaryHeaderStorageV1 _ => Err SummaryProofMisplaced
    | _ =>
      match pick decoded with
      | Some proof =>
        let? _ := check proof in
        let? proofs := verify_each pick check rest in
        Ok (proof :: proofs)
      | None => verify_each pick check rest
      end
    end
  end.

Definition pick_export (proof : InclusionProof) : option ExportInclusionProof :=
  match proof with ExportV1 p => Some p | _ => None end.
Definition pick_finalized_import (proof : InclusionProof) : option FinalizedImportInclusionProof :=
  match proof with FinalizedImportV1 p => Some p | _ => None end.
Definition pick_governance (proof : InclusionProof) : option GovernanceInclusionProof :=
  match proof with GovernanceV1 p => Some p | _ => None end.

(** The checks of one export proof. *)
Definition check_export_proof (header : EpochSummaryHeader) (importer_domain : DomainId)
    (proof : ExportInclusionProof) : result VerifyError unit :=
  let leaf := eip_leaf proof in
  ensure! bool_decide (el_export_hash leaf = compute_export_hash leaf) else LeafHashWrong in
  ensure! bool_decide (el_source_domain leaf = sh_domain_id header)
          && (el_source_epoch_id leaf =? sh_epoch_id header) else LeafSourceWrong in
  ensure! bool_decide (el_target_domain leaf = importer_domain) else LeafTargetWrong in
  ensure! verify_export_inclusion_proof (sh_export_root header) proof else InclusionInvalid in
  Ok tt.

Definition verify_forward_export_proofs (header : EpochSummaryHeader) (importer_domain : DomainId)
    (encoded_proofs : list bytes) : result VerifyError (list ExportInclusionProof) :=
  verify_each pick_export (check_export_proof header importer_domain) encoded_proofs.

Definition check_finalized_import_proof (header : EpochSummaryHeader) (importer_domain : DomainId)
    (proof : FinalizedImportInclusionProof) : result VerifyError unit :=
  let leaf := fip_leaf proof in
  ensure! bool_decide (fl_import_hash leaf = compute_import_hash leaf) else LeafHashWrong in
  ensure! bool_decide (fl_target_domain leaf = sh_domain_id header) else LeafSourceWrong in
  ensure! bool_decide (fl_source_domain leaf = importer_domain) else LeafTargetWrong in
  ensure! verify_finalized_import_inclusion_proof (sh_import_root header) proof else InclusionInvalid in
  Ok tt.

Definition verify_finalized_import_proofs (header : EpochSummaryHeader) (importer_domain : DomainId)
    (encoded_proofs : list bytes) : result VerifyError (list FinalizedImportInclusionProof) :=
  verify_each pick_finalized_import (check_finalized_import_proof header importer_domain) encoded_proofs.

Definition check_governance_proof (header : EpochSummaryHeader) (importer_domain : DomainId)
    (proof : GovernanceInclusionProof) : result VerifyError unit :=
  ensure! verify_governance_inclusion_proof (sh_governance_root header) proof else InclusionInvalid in
  match gip_leaf proof with
  | ProposalV1 leaf =>
    ensure! bool_decide (gpl_leaf_hash leaf = proposal_compute_leaf_hash leaf) else LeafHashWrong in
    ensure! bool_decide (gpl_target_domain leaf = importer_domain) else LeafTargetWrong in
    ensure! bool_decide (gpl_source_domain leaf = sh_domain_id header)
            && (gpl_approval_epoch leaf =? sh_epoch_id header) else LeafSourceWrong in
    Ok tt
  | AckV1 leaf =>
    ensure! bool_decide (gal_leaf_hash leaf = ack_compute_leaf_hash leaf) else LeafHashWrong in
    ensure! bool_decide (gal_target_domain leaf = importer_domain) else LeafTargetWrong in
    ensure! gal_acknowledged_epoch leaf =? sh_epoch_id header else LeafSourceWrong in
    Ok tt
  end.

Definition verify_governance_proofs (header : EpochSummaryHeader) (importer_domain : DomainId)
    (encoded_proofs : list bytes) : result VerifyError (list GovernanceInclusionProof) :=
  verify_each pick_governance (check_governance_proof header importer_domain) encoded_proofs.

Definition verify_package_flow (package : CertifiedSummaryPackage) (importer_domain : DomainId)
    : result VerifyError VerifiedPackageItems :=
  ensure! (2 <=? length (pkg_inclusion_proofs package))%nat else NoItemProof in
  let encoded_proofs := tail (pkg_inclusion_proofs package) in
  let? export_proofs := verify_forward_export_proofs (pkg_header package) importer_domain encoded_proofs in
  let? finalized_import_proofs :=
    verify_finalized_import_proofs (pkg_header package) importer_domain encoded_proofs in
  let? governance_proofs := verify_governance_proofs (pkg_header package) importer_domain encoded_proofs in
  Ok (mkVerifiedPackageItems export_proofs finalized_import_proofs governance_proofs).

(** ** What a package says about itself *)

Record PackageIngestView : Type := mkPackageIngestView {
  iv_source_domain : DomainId;
  iv_target_domain : DomainId;
  iv_epoch_id : Z;
  iv_export_count : Z
}.

Definition same_target (target : option DomainId) (domain : DomainId) : result VerifyError DomainId :=
  match target with
  | Some existing => if bool_decide (existing <> domain) then Err MixedTargets else Ok existing
  | None => Ok domain
  end.

(** One iteration of the loop of [inspect_package_for_ingest]. *)
Definition inspect_proof (header : EpochSummaryHeader) (first : bool) (encoded : bytes)
    (seen : option DomainId * Z) : result VerifyError (option DomainId * Z) :=
  let '(target, count) := seen in
  let?? proof := (scale_decode encoded : option InclusionProof) else ItemUndecodable in
  match first, proof with
  | true, SummaryHeaderStorageV1 _ => Ok (target, count)
  | true, _ => Err SummaryProofExpected
  | false, SummaryHeaderStorageV1 _ => Err SummaryProofMisplaced
  | false, ExportV1 p =>
    let leaf := eip_leaf p in
    let? target := same_target target (el_target_domain leaf) in
    ensure! bool_decide (el_source_domain leaf = sh_domain_id header)
            && (el_source_epoch_id leaf =? sh_epoch_id header) else LeafSourceWrong in
    Ok (Some target, sat_add u32_max count 1)
  | false, FinalizedImportV1 p =>
    let leaf := fip_leaf p in
    let? target := same_target target (fl_source_domain leaf) in
    ensure! bool_decide (fl_target_domain leaf = sh_domain_id header) else LeafSourceWrong in
    Ok (Some target, sat_add u32_max count 1)
  | false, GovernanceV1 p =>
    let leaf := gip_leaf p in
    let? target := same_target target (leaf_target_domain leaf) in
    match leaf with
    | ProposalV1 l =>
      ensure! bool_decide (gpl_source_domain l = sh_domain_id header)
              && (gpl_approval_epoch l =? sh_epoch_id header) else LeafSourceWrong in
      Ok (Some target, sat_add u32_max count 1)
    | AckV1 l =>
      ensure! gal_acknowledged_epoch l =? sh_epoch_id header else LeafSourceWrong in
      Ok (Some target, sat_add u32_max count 1)
    end
  end.

Fixpoint inspect_proofs (header : EpochSummaryHeader) (first : bool) (proofs : list bytes)
    (seen : option DomainId * Z) : result VerifyError (option DomainId * Z) :=
  match proofs with
  | [] => Ok seen
  | encoded :: proofs =>
    let? seen := inspect_proof header first encoded seen in inspect_proofs header false proofs seen
  end.

Definition inspect_package_for_ingest (package : CertifiedSummaryPackage) (importer_domain : DomainId)
    : result VerifyError PackageIngestView :=
  ensure! (2 <=? length (pkg_inclusion_proofs package))%nat else NoItemProof in
  let? seen := inspect_proofs (pkg_header package) true (pkg_inclusion_proofs package) (None, 0) in
  let '(target, item_count) := seen in
  let?? target_domain := target else NoSupportedItem in
  ensure! bool_decide (target_domain = importer_domain) else LeafTargetWrong in
  Ok (mkPackageIngestView (sh_domain_id (pkg_header package)) target_domain
        (sh_epoch_id (pkg_header package)) item_count).
End Verify.
