(* ===== verification/VerifyProofs.v ===== *)
(** * Correctness of package verification

    What the importer accepts: packages whose header is in the storage of a
    finalized block of the source chain and whose items are included under the
    roots of that header; and that it accepts what an honest exporter builds.
    The relay's and the importer's first look at a package agree. *)

From S2P Require Import Prelude Types Codec Merkle Config Verify Effects Relay.

Section Proofs.
Context `{!Codec, !CodecOk, !LightClient}.

(** ** The items a package carries *)

(** Decodable, and not a summary-header proof. *)
Definition is_item (encoded : bytes) : Prop :=
  match (scale_decode encoded : option InclusionProof) with
  | None | Some (SummaryHeaderStorageV1 _) => False
  | Some _ => True
  end.
Definition picked {P} (pick : InclusionProof -> option P) (encoded : bytes) : option P :=
  (scale_decode encoded : option InclusionProof) ≫= pick.

Lemma verify_each_spec {P} (pick : InclusionProof -> option P) check encs ps :
  (forall q, pick (SummaryHeaderStorageV1 q) = None) ->
  verify_each pick check encs = Ok ps <->
  ps = omap (picked pick) encs /\ Forall is_item encs /\ Forall (fun p => check p = Ok tt) ps.
Proof.
  intros Hq. revert ps. induction encs as [|b encs IH]; intros ps; simpl.
  { split; [intros [= <-]; by repeat constructor|intros (-> & _ & _); done]. }
  rewrite Forall_cons. unfold picked at 1, is_item at 1. destruct (scale_decode b) as [q|]; simpl; [|split; [done|tauto]].
  assert (forall q, match pick q with
      | Some proof => match check proof with Ok _ => match verify_each pick check encs with
           Ok proofs => Ok (proof :: proofs) | Err e => Err e end | Err e => Err e end
      | None => verify_each pick check encs end = Ok ps <->
    ps = match pick q with Some y => y :: omap (picked pick) encs | None => omap (picked pick) encs end /\
    (True /\ Forall is_item encs) /\ Forall (fun p => check p = Ok tt) ps) as Hgen.
  { clear q. intros q. destruct (pick q) as [p|]; [|rewrite IH; tauto].
    destruct (check p) as [[]|e] eqn:E.
    - destruct (verify_each pick check encs) as [qs|e]; split; try done.
      + intros [= <-]. destruct (proj1 (IH qs) eq_refl) as (-> & I1 & I2). split_and!; [done..|by constructor].
      + intros (-> & _ & _). by destruct (proj1 (IH qs) eq_refl) as (-> & _).
      + intros (-> & [_ I1] & I2). apply Forall_cons in I2 as [_ I2].
        by pose proof (proj2 (IH _) (conj eq_refl (conj I1 I2))).
    - split; [done|]. intros (-> & _ & I2). apply Forall_cons in I2 as [I2 _]. congruence. }
  destruct q; [split; [done|tauto]|apply Hgen..].
Qed.

Lemma flow_spec package d items :
  verify_package_flow package d = Ok items <->
  (2 <= length (pkg_inclusion_proofs package))%nat /\
  Forall is_item (tail (pkg_inclusion_proofs package)) /\
  (vi_export_proofs items = omap (picked pick_export) (tail (pkg_inclusion_proofs package)) /\
   Forall (fun p => check_export_proof (pkg_header package) d p = Ok tt) (vi_export_proofs items)) /\
  (vi_finalized_import_proofs items = omap (picked pick_finalized_import) (tail (pkg_inclusion_proofs package)) /\
   Forall (fun p => check_finalized_import_proof (pkg_header package) d p = Ok tt)
     (vi_finalized_import_proofs items)) /\
  (vi_governance_proofs items = omap (picked pick_governance) (tail (pkg_inclusion_proofs package)) /\
   Forall (fun p => check_governance_proof (pkg_header package) d p = Ok tt) (vi_governance_proofs items)).
Proof.
  unfold verify_package_flow. destruct (_ <=? _)%nat eqn:El; [apply Nat.leb_le in El|apply Nat.leb_gt in El; split; [done|lia]].
  unfold verify_forward_export_proofs, verify_finalized_import_proofs, verify_governance_proofs.
  set (encs := tail _). destruct items as [eps fps gps]. simpl.
  pose proof (fun c ps => verify_each_spec pick_export c encs ps (fun q => eq_refl)) as S1.
  pose proof (fun c ps => verify_each_spec pick_finalized_import c encs ps (fun q => eq_refl)) as S2.
  pose proof (fun c ps => verify_each_spec pick_governance c encs ps (fun q => eq_refl)) as S3.
  split.
  - intros Hop. dispatch_inv Hop. subst.
    match goal with H : verify_each pick_export _ _ = Ok _ |- _ => apply S1 in H as (? & ? & ?) end.
    match goal with H : verify_each pick_finalized_import _ _ = Ok _ |- _ => apply S2 in H as (? & _ & ?) end.
    match goal with H : verify_each pick_governance _ _ = Ok _ |- _ => apply S3 in H as (? & _ & ?) end.
    by split_and!.
  - intros (_ & Hi & [E1 F1] & [E2 F2] & [E3 F3]).
    by rewrite (proj2 (S1 _ eps)), (proj2 (S2 _ fps)), (proj2 (S3 _ gps)).
Qed.

Lemma decode_proof (q : InclusionProof) : scale_decode (scale_encode q) = Some q.
Proof. rewrite <-(app_nil_r (scale_encode q)). apply scale_decode_encode. Qed.

Lemma omap_picked {P Q} (pick : InclusionProof -> option P) (con : Q -> InclusionProof) (f : Q -> option P) qs :
  (forall q, pick (con q) = f q) -> omap (picked pick) (map (fun q => scale_encode (con q)) qs) = omap f qs.
Proof.
  intros E. induction qs as [|q qs IH]; [done|]. simpl. unfold picked at 1. rewrite decode_proof. simpl. rewrite E.
  destruct (f q); [f_equal|]; apply IH.
Qed.
Lemma omap_some {A} (l : list A) : omap Some l = l.
Proof. induction l as [|x l IH]; [done|]. simpl. f_equal. apply IH. Qed.
Lemma omap_none {A B} (l : list A) : omap (fun _ => None : option B) l = [].
Proof. induction l; [done|]. simpl. done. Qed.
Lemma items_encoded {Q} (con : Q -> InclusionProof) qs :
  (forall q r, con q <> SummaryHeaderStorageV1 r) -> Forall is_item (map (fun q => scale_encode (con q)) qs).
Proof.
  intros Hc. apply Forall_forall. intros b (q & -> & _)%list_elem_of_fmap. unfold is_item. rewrite decode_proof.
  specialize (Hc q). destruct (con q) as [r| | |]; [|done..]. by destruct (Hc r).
Qed.

(** The proofs of a package built from a bundle, as the flow verification picks
    them. *)
Lemma bundle_items header bundle eps fps gps :
  let encs := tail (pkg_inclusion_proofs (from_bundle_with_mixed_proofs header bundle eps fps gps)) in
  Forall is_item encs /\ omap (picked pick_export) encs = eps /\
  omap (picked pick_finalized_import) encs = fps /\ omap (picked pick_governance) encs = gps.
Proof.
  simpl. rewrite !omap_app, !Forall_app. split_and!; try (by apply items_encoded).
  - by rewrite (omap_picked _ _ Some), (omap_picked _ _ (fun _ => None)), (omap_picked _ _ (fun _ => None)),
      omap_some, !omap_none, !app_nil_r.
  - by rewrite (omap_picked _ _ (fun _ => None)), (omap_picked _ _ Some), (omap_picked _ _ (fun _ => None)),
      omap_some, !omap_none, app_nil_r.
  - by rewrite (omap_picked _ _ (fun _ => None)), (omap_picked _ _ (fun _ => None)), (omap_picked _ _ Some),
      omap_some, !omap_none.
Qed.

Lemma bundle_flow_items header bundle d eps fps gps items :
  verify_package_flow (from_bundle_with_mixed_proofs header bundle eps fps gps) d = Ok items ->
  items = mkVerifiedPackageItems eps fps gps.
Proof.
  intros (_ & _ & [E1 _] & [E2 _] & [E3 _])%flow_spec.
  destruct (bundle_items header bundle eps fps gps) as (_ & B1 & B2 & B3).
  destruct items. simpl in *. congruence.
Qed.

(** An honest package passes.  A package that is built from proofs that verify
    against its header, for the importer's domain, passes the flow verification,
    and the importer gets back exactly the proofs it was built from, in order. *)
Theorem honest_package_verifies header bundle d eps fps gps :
  Forall (fun p => check_export_proof header d p = Ok tt) eps ->
  Forall (fun p => check_finalized_import_proof header d p = Ok tt) fps ->
  Forall (fun p => check_governance_proof header d p = Ok tt) gps ->
  eps <> [] \/ fps <> [] \/ gps <> [] ->
  verify_package_flow (from_bundle_with_mixed_proofs header bundle eps fps gps) d
  = Ok (mkVerifiedPackageItems eps fps gps).
Proof.
  intros F1 F2 F3 Hne. apply flow_spec. destruct (bundle_items header bundle eps fps gps) as (B0 & B1 & B2 & B3).
  split_and!; try done. simpl. rewrite !length_app, !length_map.
  destruct eps, fps, gps; simpl; try lia. by destruct Hne as [?|[?|?]].
Qed.

(** ** The relay and the importer agree on a package *)

Definition to_option {E A} (r : result E A) : option A := match r with Ok a => Some a | Err _ => None end.

Lemma to_option_ok {E A} (r : result E A) a : to_option r = Some a <-> r = Ok a.
Proof. destruct r; simpl; split; congruence. Qed.

Lemma merge_same e target d : to_option (merge_target e target d) = to_option (same_target target d).
Proof. destruct target; simpl; [|done]. by case_bool_decide. Qed.

Ltac agree_step :=
  match goal with
  | |- context [merge_target ?e ?t ?d] =>
    let E := fresh "E" in pose proof (merge_same e t d) as E;
    destruct (merge_target e t d), (same_target t d); simplify_eq/=; try done
  end.

Lemma scan_inspect header first encoded seen :
  to_option (scan_proof header first encoded seen) = to_option (inspect_proof header first encoded seen).
Proof.
  destruct seen as [target count]. unfold scan_proof, inspect_proof. destruct (scale_decode encoded) as [q|]; [|done].
  destruct first, q as [q|q|q|q]; try done.
  - agree_step. by destruct (_ && _).
  - agree_step. by destruct (bool_decide _).
  - agree_step. destruct (gip_leaf q); [by destruct (_ && _)|by destruct (_ =? _)].
Qed.

Lemma scan_inspect_all header proofs : forall first seen,
  to_option (scan_proofs header first proofs seen) = to_option (inspect_proofs header first proofs seen).
Proof.
  induction proofs as [|b proofs IH]; intros first seen; [done|]. simpl. pose proof (scan_inspect header first b seen) as E.
  destruct (scan_proof _ _ _ _), (inspect_proof _ _ _ _); simplify_eq/=; [apply IH|done].
Qed.

Lemma derive_inspect package d n :
  derive_target_domain package = Ok (d, n) <->
  inspect_package_for_ingest package d
  = Ok (mkPackageIngestView (sh_domain_id (pkg_header package)) d (sh_epoch_id (pkg_header package)) n).
Proof.
  unfold derive_target_domain, inspect_package_for_ingest. destruct (_ <=? _)%nat; [|done].
  pose proof (scan_inspect_all (pkg_header package) (pkg_inclusion_proofs package) true (None, 0)) as E.
  destruct (scan_proofs _ _ _ _) as [[t m]|], (inspect_proofs _ _ _ _) as [[t' m']|]; simplify_eq/=; [|done].
  destruct t' as [t|]; [|done]. case_bool_decide; split; congruence.
Qed.

(** C33: the relay and the importer read a package the same way.  The relay
    derives target domain [d] and [n] items from a package exactly when the
    importer of domain [d] accepts the package for ingestion with the package's
    source domain and epoch and [n] items. *)
Theorem relay_importer_agree package d n :
  derive_target_domain package = Ok (d, n) <->
  inspect_package_for_ingest package d
  = Ok (mkPackageIngestView (sh_domain_id (pkg_header package)) d (sh_epoch_id (pkg_header package)) n).
Proof. apply derive_inspect. Qed.

(** ** The certificate *)

(** What Substrate documents of its headers: [hash] is BlakeTwo256 of the
    encoding. *)
Class LightClientOk : Prop := {
  header_decode_encode : forall h, header_decode (header_encode h) = Some h;
  header_hash_encode : forall h, header_hash h = blake2_256 (header_encode h)
}.
Context `{!LightClientOk}.

Lemma header_hash_inj h h' : header_hash h = header_hash h' -> h = h' \/ collision blake2_256.
Proof.
  rewrite !header_hash_encode. intros [E|?]%hash_eq_or_collision; [left|by right].
  apply (inj Some). by rewrite <-!header_decode_encode, E.
Qed.

(** The ancestry of a certificate is a chain of headers by parent hash. *)
Fixpoint descends (from to : hash) (headers : list Header) : Prop :=
  match headers with
  | [] => from = to
  | h :: headers => header_parent_hash h = from /\ descends (header_hash h) to headers
  end.

Lemma walk_ancestry_spec ancestry : forall from number to number',
  walk_ancestry from number ancestry = Ok (to, number') ->
  exists headers, map header_decode ancestry = map Some headers /\ descends from to headers.
Proof.
  induction ancestry as [|b ancestry IH]; intros from number to number' Hop; simpl in Hop.
  { injection Hop as <- <-. by exists []. }
  dispatch_inv Hop. bool_to_prop. destruct (IH _ _ _ _ Hop) as (headers & E' & Hd).
  match goal with H : header_decode b = Some ?h |- _ => exists (h :: headers) end. simpl.
  split_and!; [congruence|done|done].
Qed.

(** The storage of finalized blocks.  [final d hd store] says that the header [hd]
    is of a block of domain [d] that its validators finalized and that [store] is
    the state after that block. *)
Context (trie_root : gmap bytes bytes -> hash).
Context (domain_configs : DomainId -> option DomainConfig).
Context (final : DomainId -> Header -> gmap bytes bytes -> Prop).

(** A trie proof shows what is stored. *)
Definition read_proof_sound : Prop := forall store nodes key v,
  read_proof_check (trie_root store) nodes key = Some v -> v = store !! key \/ collision blake2_256.

(** A header's state root is the root of the state. *)
Definition state_roots : Prop := forall d hd store, final d hd store -> header_state_root hd = trie_root store.

(** GRANDPA: what the configured validators of a domain justify is final. *)
Definition grandpa_finality : Prop := forall d config authorities j set_id,
  domain_configs d = Some config -> configured_authorities (dc_authorities config) = Ok authorities ->
  justification_verify j set_id authorities = true ->
  exists hd store, final d hd store /\ header_hash hd = just_target_hash j.

Context (Hread : read_proof_sound) (Hroots : state_roots) (Hfinal : grandpa_finality).

Lemma chain_context_inv package certificate :
  verify_summary_chain_context package = Ok certificate ->
  exists hdr nodes, header_hash hdr = gfc_proof_block_hash certificate /\
    read_proof_check (header_state_root hdr) nodes (summary_header_storage_key (sh_epoch_id (pkg_header package)))
    = Some (Some (scale_encode (pkg_header package))) /\
    exists headers, descends (gfc_target_block_hash certificate) (gfc_proof_block_hash certificate) headers.
Proof.
  unfold verify_summary_chain_context. intros Hop. dispatch_inv Hop. bool_to_prop. subst.
  match goal with H : verify_summary_storage_proof _ _ _ = Ok _ |- _ =>
    unfold verify_summary_storage_proof in H; dispatch_inv H end.
  match goal with H : verify_ancestry_chain _ = Ok _ |- _ => unfold verify_ancestry_chain in H; dispatch_inv H end.
  bool_to_prop. subst. match goal with H : walk_ancestry _ _ _ = Ok _ |- _ => apply walk_ancestry_spec in H as (hs & _ & Hd) end.
  match goal with H : header_hash ?h = _ |- _ => exists h end. eexists. split; [|split; [|by exists hs]].
  - congruence.
  - match goal with H : shp_storage_key _ = _ |- _ => rewrite <-H end. eassumption.
Qed.

(** The header of a verified package is stored in a finalized block. *)
Lemma certified_header package certificate :
  verify_summary_chain_context package = Ok certificate ->
  verify_grandpa_certificate domain_configs certificate (sh_domain_id (pkg_header package)) = Ok tt ->
  (exists hd store, final (sh_domain_id (pkg_header package)) hd store /\
     header_hash hd = gfc_proof_block_hash certificate /\
     store !! summary_header_storage_key (sh_epoch_id (pkg_header package))
     = Some (scale_encode (pkg_header package))) \/
  collision blake2_256.
Proof.
  intros (hdr & nodes & Hh & Hr & _)%chain_context_inv Hg. unfold verify_grandpa_certificate in Hg.
  dispatch_inv Hg. bool_to_prop.
  edestruct Hfinal as (hd & store & Hf & Hhd); [done..|].
  destruct (header_hash_inj hd hdr) as [->|?]; [congruence| |by right].
  rewrite (Hroots _ _ _ Hf) in Hr. apply Hread in Hr as [Hr|?]; [|by right].
  left. exists hdr, store. by split_and!.
Qed.

(** What the importer accepts is certified.  When a package passes the
    certificate and flow checks of the importer of domain [d], its header is the
    value stored for its epoch in a finalized state of its source domain; every
    export it yields is for domain [d], from that source and epoch, and under the
    header's export root; every completion is of an export of domain [d] and
    under its import root; every governance leaf is for [d] and under its
    governance root; or [blake2_256] collides. *)
Theorem verified_package_certified package certificate d items :
  verify_summary_chain_context package = Ok certificate ->
  verify_grandpa_certificate domain_configs certificate (sh_domain_id (pkg_header package)) = Ok tt ->
  verify_package_flow package d = Ok items ->
  (let h := pkg_header package in
   (exists hd store, final (sh_domain_id h) hd store /\
      header_hash hd = gfc_proof_block_hash certificate /\
      store !! summary_header_storage_key (sh_epoch_id h) = Some (scale_encode h)) /\
   (forall p, p ∈ vi_export_proofs items ->
      el_target_domain (eip_leaf p) = d /\ el_source_domain (eip_leaf p) = sh_domain_id h /\
      el_source_epoch_id (eip_leaf p) = sh_epoch_id h /\
      verify_export_inclusion_proof (sh_export_root h) p = true) /\
   (forall p, p ∈ vi_finalized_import_proofs items ->
      fl_source_domain (fip_leaf p) = d /\ fl_target_domain (fip_leaf p) = sh_domain_id h /\
      verify_finalized_import_inclusion_proof (sh_import_root h) p = true) /\
   (forall p, p ∈ vi_governance_proofs items ->
      leaf_target_domain (gip_leaf p) = d /\
      verify_governance_inclusion_proof (sh_governance_root h) p = true)) \/
  collision blake2_256.
Proof.
  intros Hc Hg (_ & _ & [_ F1] & [_ F2] & [_ F3])%flow_spec.
  destruct (certified_header _ _ Hc Hg) as [Hh|?]; [left|by right]. cbv zeta. split_and!; [done|..].
  - intros p Hp. rewrite Forall_forall in F1. specialize (F1 p Hp). unfold check_export_proof in F1.
    dispatch_inv F1. bool_to_prop. by split_and!.
  - intros p Hp. rewrite Forall_forall in F2. specialize (F2 p Hp). unfold check_finalized_import_proof in F2.
    dispatch_inv F2. bool_to_prop. by split_and!.
  - intros p Hp. rewrite Forall_forall in F3. specialize (F3 p Hp). unfold check_governance_proof in F3.
    dispatch_inv F3; bool_to_prop; (split; [simpl; done|done]).
Qed.
End Proofs.
