(* ===== verification/Importer.v ===== *)
(** * The importer service ([services/importer/src/lib.rs], [store.rs], [rpc_client.rs])

    The importer of a domain receives packages from the relay, keeps them in a
    store, verifies each one and submits what it proves to its own chain.

    The store is files; the HTTP handlers work on an index in memory, the
    processing of packages on the index file.  The node and the clock are the
    operations of [NodeRpc]: each call moves the state [N] of the outside world
    and gives an answer.  Keys and signatures are Substrate's. *)

From S2P Require Import Prelude Types Effects Codec Merkle Config Frame Runtime Verify.

(** ** Data *)

Inductive VerificationStatus : Type := Verified | Invalid'.
Inductive DuplicateStatus : Type := NotDuplicate | DuplicateLocal | DuplicateRemote.
Inductive SubmissionStatus : Type :=
| RemoteObserved | SubmittedRemoteFinalized | SourceResolved | SkippedDuplicate | Rejected'.

(** The texts of errors that come from outside. *)
Definition Text : Type := string.

Inductive ImporterError : Type :=
| UnsupportedSchemaVersion
| IndexDomainMismatch
| DifferentPayloadBytes
| PayloadUnreadable
| HashTextInvalid
| EnvelopeUndecodable
| PackageUndecodable
| NotVerified (e : VerifyError)
| EnvelopeMetadataMismatch
| PackageNotFound
| PackageDisappeared
| NodeError (t : Text).

(** The texts [reason] is formatted from. *)
Inductive Reason : Type :=
| ReasonOf (e : VerifyError)
| ReasonText (t : Text)
| ReasonStore (e : ImporterError)
| StoredPackageUndecodable
| SubmitterRequired
| SubmitterInvalid
| ImporterAccountMissing
| SubmitterNotImporter
| GovernanceImporterMissing
| SubmitterNotGovernanceImporter
| RuntimeVersionMismatch
| NoActionableProofs
| SourceExportMissing (export_id : hash)
| ProposalDiffers (proposal_id : hash)
| AckBeforeProposal (proposal_id : hash) (acknowledging_domain : DomainId)
| AckDiffers (proposal_id : hash)
| WaitTimedOut
| ExportAlreadyFinalized
| ExportFinalizedNow
| SourceAlreadyResolved
| SourceResolvedNow
| PackageVerified
| AllDuplicateLocal
| AllDuplicateRemote
| CompletionVerified
| CompletionDuplicateLocal
| CompletionDuplicateRemote
| GovernanceImported
| GovernanceDuplicateRemote (count : Z).

(** A text joined from several by semicolons. *)
Definition Reasons : Type := list Reason.

Record ImportRecord : Type := mkImportRecord {
  ir_export_id : bytes;
  ir_source_domain : DomainId;
  ir_target_domain : DomainId;
  ir_summary_hash : bytes;
  ir_package_hash : bytes;
  ir_verification_status : VerificationStatus;
  ir_duplicate_status : DuplicateStatus;
  ir_submission_status : SubmissionStatus;
  ir_tx_hash : option Text;
  ir_reason : option Reason
}.

Record PackageRecord : Type := mkPackageRecord {
  pr_source_domain : DomainId;
  pr_target_domain : DomainId;
  pr_epoch_id : Z;
  pr_summary_hash : bytes;
  pr_package_hash : bytes;
  pr_state : ImporterPackageState;
  pr_reason : option Reasons;
  pr_export_count : Z;
  pr_received_at_unix_ms : Z;
  pr_last_updated_at_unix_ms : Z;
  pr_completed_at_unix_ms : option Z;
  pr_tx_hashes : list Text;
  pr_payload_path : PackagePath
}.
#[export] Instance PackageRecord_settable : Settable PackageRecord :=
  fun r => mkPackageRecord (pr_source_domain r) (pr_target_domain r) (pr_epoch_id r) (pr_summary_hash r)
    (pr_package_hash r) (pr_state r) (pr_reason r) (pr_export_count r) (pr_received_at_unix_ms r)
    (pr_last_updated_at_unix_ms r) (pr_completed_at_unix_ms r) (pr_tx_hashes r) (pr_payload_path r).

Record ImporterIndex : Type := mkImporterIndex {
  ii_schema_version : Z;
  ii_domain_id : DomainId;
  ii_imports : list ImportRecord;
  ii_packages : list PackageRecord
}.
#[export] Instance ImporterIndex_settable : Settable ImporterIndex :=
  fun r => mkImporterIndex (ii_schema_version r) (ii_domain_id r) (ii_imports r) (ii_packages r).

Definition INDEX_SCHEMA_VERSION : Z := 2.

(** [ImporterIndex::new]. *)
Definition new_index (domain_id : DomainId) : ImporterIndex :=
  mkImporterIndex INDEX_SCHEMA_VERSION domain_id [] [].

(** The index file, by its schema version: the current layout, the layout of
    version 1, or another version. *)
Inductive IndexFile : Type :=
| CurrentIndex (index : ImporterIndex)
| ImporterIndexV1 (domain_id : DomainId) (imports : list ImportRecord)
| OtherIndex (schema_version : Z).

Inductive ProcessPackageError : Type :=
| Retryable (reason : Reasons)
| Invalid (reason : Reasons).

Record ProcessPackageOutcome : Type := mkProcessPackageOutcome {
  po_final_state : ImporterPackageState;
  po_tx_hashes : list Text;
  po_reason : Reasons
}.

(** The files of the store, by what their paths are formatted from. *)
Definition PackageFile : Type := DomainId * DomainId * Z * bytes.

(** The importer and the world around it. *)
Record Importer (N : Type) : Type := mkImporter {
  im_memory : ImporterIndex;
  im_index : option IndexFile;
  im_records : gmap bytes ImportRecord;
  im_packages : gmap PackageFile PackageRecord;
  im_payloads : gmap PackagePath bytes;
  im_node : N
}.
Arguments mkImporter {N}.
Arguments im_memory {N}.
Arguments im_index {N}.
Arguments im_records {N}.
Arguments im_packages {N}.
Arguments im_payloads {N}.
Arguments im_node {N}.
#[export] Instance Importer_settable {N} : Settable (Importer N) :=
  fun r => mkImporter (im_memory r) (im_index r) (im_records r) (im_packages r) (im_payloads r) (im_node r).

(** The monad of the store and of the handlers. *)
Definition ImporterM (N : Type) : Type -> Type := M (Importer N) ImporterError.

(** ** The index *)
Section Index.
Context `{!HexCodec}.

Definition decode_hex_hash (value : bytes) : result ImporterError hash :=
  let trimmed := strip_0x value in
  let?? bs := hex_decode trimmed else HashTextInvalid in
  ensure! (length bs =? 32)%nat else HashTextInvalid in
  Ok bs.

(** [ImporterIndex::record]. *)
Definition record (index : ImporterIndex) (export_id : hash) : option ImportRecord :=
  find (fun r => bool_decide (ir_export_id r = hex_hash export_id)) (ii_imports index).

Definition same_package (source_domain target_domain : DomainId) (epoch_id : Z) (package_hash : bytes)
    (r : PackageRecord) : bool :=
  bool_decide (pr_source_domain r = source_domain)
  && bool_decide (pr_target_domain r = target_domain)
  && (pr_epoch_id r =? epoch_id)
  && bool_decide (pr_package_hash r = package_hash).

(** [ImporterIndex::package]. *)
Definition package (index : ImporterIndex) (source_domain target_domain : DomainId) (epoch_id : Z)
    (package_hash : hash) : option PackageRecord :=
  find (same_package source_domain target_domain epoch_id (hex_hash package_hash)) (ii_packages index).

(** [match list.iter_mut().find(p) { Some(current) => *current = new, None => push }]. *)
Fixpoint replace_or_push {A} (p : A -> bool) (new : A) (l : list A) : list A :=
  match l with
  | [] => [new]
  | current :: l => if p current then new :: l else current :: replace_or_push p new l
  end.

Definition upsert (r : ImportRecord) (index : ImporterIndex) : ImporterIndex :=
  index {{ ii_imports ::= replace_or_push (fun c => bool_decide (ir_export_id c = ir_export_id r)) r }}.

Definition upsert_package (r : PackageRecord) (index : ImporterIndex) : ImporterIndex :=
  index {{ ii_packages ::= replace_or_push
             (same_package (pr_source_domain r) (pr_target_domain r) (pr_epoch_id r) (pr_package_hash r)) r }}.
End Index.

(** ** The store *)
Section Store.
Context `{!HexCodec} {N : Type} (domain_id : DomainId).
Implicit Types (index : ImporterIndex) (s : Importer N).

(** A package that was being verified is taken up again. *)
Definition reset_verifying (r : PackageRecord) : PackageRecord :=
  match pr_state r with
  | Verifying => r {{ pr_state := Received }}
  | _ => r
  end.

Definition load_index : ImporterM N ImporterIndex :=
  do! file := gets im_index in
  match file with
  | None => ret (new_index domain_id)
  | Some file =>
    do! index := lift
      match file with
      | CurrentIndex index => Ok index
      | ImporterIndexV1 domain_id imports => Ok ((new_index domain_id) {{ ii_imports := imports }})
      | OtherIndex _ => Err UnsupportedSchemaVersion
      end in
    check! bool_decide (ii_domain_id index = domain_id) else IndexDomainMismatch in
    ret (index {{ ii_packages ::= map reset_verifying }})
  end.

Definition save_index index : ImporterM N unit :=
  check! bool_decide (ii_domain_id index = domain_id) else IndexDomainMismatch in
  modify (fun s => s {{ im_index := Some (CurrentIndex index) }}).

Definition persist_record index (r : ImportRecord) : ImporterM N ImporterIndex :=
  do! _ := modify (fun s => s {{ im_records ::= <[ir_export_id r := r]> }}) in
  ret (upsert r index).

(** [package_record_path]. *)
Definition package_record_path (source_domain target_domain : DomainId) (epoch_id : Z)
    (package_hash_hex : bytes) : PackageFile :=
  (source_domain, target_domain, epoch_id, strip_0x package_hash_hex).

Definition persist_package index (r : PackageRecord) (payload_bytes : option bytes) : ImporterM N ImporterIndex :=
  do! _ := match payload_bytes with
           | Some bs =>
             do! current := gets (fun s => im_payloads s !! pr_payload_path r) in
             match current with
             | Some current => check! bool_decide (current = bs) else DifferentPayloadBytes in ret tt
             | None => modify (fun s => s {{ im_payloads ::= <[pr_payload_path r := bs]> }})
             end
           | None => ret tt
           end in
  do! _ := modify (fun s => s {{ im_packages ::= <[package_record_path (pr_source_domain r)
             (pr_target_domain r) (pr_epoch_id r) (pr_package_hash r) := r]> }}) in
  ret (upsert_package r index).

(** The file of an import, by the text of its identifier. *)
Definition load_record (export_id : hash) : ImporterM N (option ImportRecord) :=
  gets (fun s => im_records s !! hex_hash export_id).

Definition load_package (source_domain target_domain : DomainId) (epoch_id : Z) (package_hash : hash)
    : ImporterM N (option PackageRecord) :=
  gets (fun s => im_packages s !! package_record_path source_domain target_domain epoch_id
                   (hex_hash package_hash)).

Definition load_package_bytes (r : PackageRecord) : ImporterM N bytes :=
  do! payload := gets (fun s => im_payloads s !! pr_payload_path r) in
  match payload with Some bs => ret bs | None => fail PayloadUnreadable end.

Definition build_package_record (source_domain target_domain : DomainId) (epoch_id : Z)
    (summary_hash package_hash : hash) (export_count received_at_unix_ms : Z) : PackageRecord :=
  {| pr_source_domain := source_domain;
     pr_target_domain := target_domain;
     pr_epoch_id := epoch_id;
     pr_summary_hash := hex_hash summary_hash;
     pr_package_hash := hex_hash package_hash;
     pr_state := Received;
     pr_reason := None;
     pr_export_count := export_count;
     pr_received_at_unix_ms := received_at_unix_ms;
     pr_last_updated_at_unix_ms := received_at_unix_ms;
     pr_completed_at_unix_ms := None;
     pr_tx_hashes := [];
     pr_payload_path := (source_domain, target_domain, epoch_id, package_hash) |}.

Definition ensure_package_record index (source_domain target_domain : DomainId) (epoch_id : Z)
    (summary_hash package_hash : hash) (export_count now : Z) (payload_bytes : bytes)
    : ImporterM N (ImporterIndex * PackageRecord * bool) :=
  match package index source_domain target_domain epoch_id package_hash with
  | Some existing =>
    do! index := persist_package index existing (Some payload_bytes) in
    ret (index, existing, true)
  | None =>
    let r := build_package_record source_domain target_domain epoch_id summary_hash package_hash
               export_count now in
    do! index := persist_package index r (Some payload_bytes) in
    ret (index, r, false)
  end.
End Store.

(** ** The node *)

Record RuntimeVersionView : Type := mkRuntimeVersionView { rv_spec_version : Z; rv_transaction_version : Z }.

(** Values in the storage of the node. *)
Class StorageCodec `{!Account} := {
  scale_account :: Scale AccountId;
  scale_observed_import :: Scale ObservedImportRecord;
  scale_export_record :: Scale ExportRecord;
  scale_governance_proposal :: Scale GovernanceProposal;
  scale_governance_ack_record :: Scale GovernanceAckRecord
}.

(** Key pairs: [Pair::from_string], the account of the public key, signing. *)
Class Keys `{!Account} := {
  Pair : Type;
  Signature : Type;
  pair_from_string : bytes -> option Pair;
  pair_account : Pair -> AccountId;
  (** The signature over a call, a nonce, the runtime versions and the genesis hash. *)
  pair_sign : Pair -> RuntimeCall * Z * Z * Z * hash -> Signature
}.

(** A signed, immortal extrinsic without a tip. *)
Record SignedExtrinsic `{!Account, !Keys} : Type := mkSignedExtrinsic {
  sx_call : RuntimeCall;
  sx_account_id : AccountId;
  sx_signature : Signature;
  sx_nonce : Z
}.

(** The RPC methods the importer calls, and the clock. *)
Class NodeRpc `{!Account, !Keys} (N : Type) := {
  unix_now_millis : N -> N * Z;
  rpc_connect : N -> N * result Text unit;
  state_getRuntimeVersion : N -> N * result Text RuntimeVersionView;
  chain_getBlockHash : Z -> N -> N * result Text hash;
  state_getStorage : bytes -> N -> N * result Text (option bytes);
  system_accountNextIndex : AccountId -> N -> N * result Text Z;
  author_submitExtrinsic : SignedExtrinsic -> N -> N * result Text Text
}.

Section Node.
Context `{!Codec, !HexCodec, !Account, !StorageCodec, !Keys} {N : Type} `{!NodeRpc N}.

(** A call as a handler; its error is the text. *)
Definition call {A} (f : N -> N * result Text A) : M (Importer N) Text A :=
  fun s => let '(n, res) := f (im_node s) in (s {{ im_node := n }}, res).

Definition now_millis {E} : M (Importer N) E Z :=
  fun s => let '(n, t) := unix_now_millis (im_node s) in (s {{ im_node := n }}, Ok t).

Definition load_storage_value {T} `{!Scale T} (key : bytes) : M (Importer N) Text (option T) :=
  do! response := call (state_getStorage ([48; 120] ++ hex_encode key)) in
  match response with
  | None => ret None
  | Some value =>
    match hex_decode (strip_0x value) with
    | None => fail "failed to decode hex bytes"
    | Some raw =>
      match scale_decode raw with
      | Some v => ret (Some v)
      | None => fail "scale decode failed"
      end
    end
  end.

Definition importer_account : M (Importer N) Text (option AccountId) :=
  load_storage_value importer_account_storage_key.
Definition governance_importer_account : M (Importer N) Text (option AccountId) :=
  load_storage_value governance_importer_account_storage_key.
Definition observed_import (export_id : hash) : M (Importer N) Text (option ObservedImportRecord) :=
  load_storage_value (observed_import_storage_key export_id).
Definition export_record (export_id : hash) : M (Importer N) Text (option ExportRecord) :=
  load_storage_value (export_record_storage_key export_id).
Definition governance_proposal (proposal_id : hash) : M (Importer N) Text (option GovernanceProposal) :=
  load_storage_value (governance_proposal_storage_key proposal_id).
Definition governance_ack_record (proposal_id : hash) (acknowledging_domain : DomainId)
    : M (Importer N) Text (option GovernanceAckRecord) :=
  load_storage_value (governance_ack_record_storage_key proposal_id acknowledging_domain).
Definition runtime_version : M (Importer N) Text RuntimeVersionView := call state_getRuntimeVersion.
Definition genesis_hash : M (Importer N) Text hash := call (chain_getBlockHash 0).
Definition account_next_index (account : AccountId) : M (Importer N) Text Z := call (system_accountNextIndex account).
Definition submit_extrinsic (extrinsic : SignedExtrinsic) : M (Importer N) Text Text :=
  call (author_submitExtrinsic extrinsic).

(** [build_signed_extrinsic]; the [build_*_extrinsic] functions differ in the call. *)
Definition build_signed_extrinsic (submitter_pair : Pair) (account_id : AccountId)
    (spec_version transaction_version : Z) (genesis_hash : hash) (nonce : Z) (call : RuntimeCall)
    : SignedExtrinsic :=
  {| sx_call := call;
     sx_account_id := account_id;
     sx_signature := pair_sign submitter_pair (call, nonce, spec_version, transaction_version, genesis_hash);
     sx_nonce := nonce |}.

(** The waiting loops: up to 60 queries. *)
Fixpoint wait_for {T} (attempts : nat) (query : M (Importer N) Text (option T)) (expected : T -> bool)
    : M (Importer N) Reasons unit :=
  match attempts with
  | O => fail [WaitTimedOut]
  | S attempts =>
    do! answer := map_err (fun t => [ReasonText t]) query in
    match answer with
    | Some v => if expected v then ret tt else wait_for attempts query expected
    | None => wait_for attempts query expected
    end
  end.

Definition wait_for_observed_import_status (export_id : hash) (expected : ImportObservationStatus) :=
  wait_for 60 (observed_import export_id) (fun r => bool_decide (oir_status r = expected)).
Definition wait_for_export_record_status (export_id : hash) (expected : ExportStatus) :=
  wait_for 60 (export_record export_id) (fun r => bool_decide (er_status r = expected)).
Definition wait_for_governance_proposal (proposal_id : hash) :=
  wait_for 60 (governance_proposal proposal_id) (fun _ => true).
Definition wait_for_governance_ack (proposal_id : hash) (acknowledging_domain : DomainId) :=
  wait_for 60 (governance_ack_record proposal_id acknowledging_domain) (fun _ => true).
End Node.

(** ** Processing a package *)
Section Processing.
Context `{!Codec, !HexCodec, !LightClient, !Account, !StorageCodec, !Keys} {N : Type} `{!NodeRpc N}.
Context (domain : DomainId).

(** The submitter and the chain it signs for. *)
Context (submitter_pair : Pair) (submitter_account : AccountId).
Context (spec_version transaction_version : Z) (genesis : hash).
Context (pkg : CertifiedSummaryPackage).

Definition ProcessM : Type -> Type := M (Importer N) ProcessPackageError.

Definition retry {A} (m : M (Importer N) Text A) : ProcessM A := map_err (fun t => Retryable [ReasonText t]) m.
Definition retry_store {A} (m : ImporterM N A) : ProcessM A := map_err (fun e => Retryable [ReasonStore e]) m.
Definition retry_wait (m : M (Importer N) Reasons unit) : ProcessM unit := map_err Retryable m.

Definition submit_call (nonce : Z) (c : RuntimeCall) : ProcessM Text :=
  retry (submit_extrinsic (build_signed_extrinsic submitter_pair submitter_account spec_version
           transaction_version genesis nonce c)).

(** The record written for an item of the package. *)
Definition import_record (export_id : hash) (source_domain target_domain : DomainId) (dup : DuplicateStatus)
    (sub : SubmissionStatus) (tx_hash : option Text) (reason : Reason) : ImportRecord :=
  {| ir_export_id := hex_hash export_id;
     ir_source_domain := source_domain;
     ir_target_domain := target_domain;
     ir_summary_hash := hex_hash (sh_summary_hash (pkg_header pkg));
     ir_package_hash := hex_hash (pkg_package_hash pkg);
     ir_verification_status := Verified;
     ir_duplicate_status := dup;
     ir_submission_status := sub;
     ir_tx_hash := tx_hash;
     ir_reason := Some reason |}.

Definition observed_claim (leaf : ExportLeaf) : ObservedImportClaim :=
  {| oic_version := OBSERVED_IMPORT_VERSION;
     oic_export_id := el_export_id leaf;
     oic_source_domain := el_source_domain leaf;
     oic_target_domain := el_target_domain leaf;
     oic_source_epoch_id := el_source_epoch_id leaf;
     oic_summary_hash := sh_summary_hash (pkg_header pkg);
     oic_package_hash := pkg_package_hash pkg;
     oic_recipient := el_recipient leaf;
     oic_amount := el_amount leaf |}.

(** The index and the counters of [process_forward_exports]. *)
Record ForwardScan : Type := mkForwardScan {
  fs_index : ImporterIndex;
  fs_tx_hashes : list Text;
  fs_duplicate_local : Z;
  fs_duplicate_remote : Z;
  fs_finalized : Z
}.
#[export] Instance ForwardScan_settable : Settable ForwardScan :=
  fun r => mkForwardScan (fs_index r) (fs_tx_hashes r) (fs_duplicate_local r) (fs_duplicate_remote r) (fs_finalized r).

Definition plus_one (n : Z) : Z := sat_add u64_max n 1.

(** One iteration of the loop of [process_forward_exports]. *)
Definition forward_export (proof : ExportInclusionProof) (acc : ForwardScan) : ProcessM ForwardScan :=
  let leaf := eip_leaf proof in
  let export_id := el_export_id leaf in
  match record (fs_index acc) export_id with
  | Some _ => ret (acc {{ fs_duplicate_local ::= plus_one }})
  | None =>
    do! existing_remote := retry (observed_import export_id) in
    let already := match existing_remote with
                   | Some r => bool_decide (oir_status r = ImportRemoteFinalized)
                   | None => false
                   end in
    if already then
      do! index := retry_store (persist_record (fs_index acc)
        (import_record export_id (el_source_domain leaf) (el_target_domain leaf) DuplicateRemote
           SubmittedRemoteFinalized None ExportAlreadyFinalized)) in
      ret (acc {{ fs_duplicate_remote ::= plus_one }} {{ fs_index := index }})
    else
      do! next_nonce := retry (account_next_index submitter_account) in
      do! observed := match existing_remote with
        | None =>
          do! tx_hash := submit_call next_nonce (ObserveVerifiedImport (observed_claim leaf)) in
          ret (fs_tx_hashes acc ++ [tx_hash], sat_add u32_max next_nonce 1)
        | Some _ => ret (fs_tx_hashes acc, next_nonce)
        end in
      let '(tx_hashes, next_nonce) := observed in
      do! finalize_tx := submit_call next_nonce (FinalizeVerifiedImport export_id) in
      do! _ := retry_wait (wait_for_observed_import_status export_id ImportRemoteFinalized) in
      do! index := retry_store (persist_record (fs_index acc)
        (import_record export_id (el_source_domain leaf) (el_target_domain leaf) NotDuplicate
           SubmittedRemoteFinalized (Some finalize_tx) ExportFinalizedNow)) in
      ret (acc {{ fs_index := index }} {{ fs_tx_hashes := tx_hashes ++ [finalize_tx] }}
               {{ fs_finalized ::= plus_one }})
  end.

Fixpoint forward_exports (proofs : list ExportInclusionProof) (acc : ForwardScan) : ProcessM ForwardScan :=
  match proofs with
  | [] => ret acc
  | proof :: proofs => do! acc := forward_export proof acc in forward_exports proofs acc
  end.

Definition process_forward_exports (export_proofs : list ExportInclusionProof) : ProcessM ProcessPackageOutcome :=
  do! index := retry_store (load_index domain) in
  do! acc := forward_exports export_proofs (mkForwardScan index [] 0 0 0) in
  do! _ := retry_store (save_index domain (fs_index acc)) in
  let final_state :=
    if 0 <? fs_finalized acc then AckedVerified
    else if (0 <? fs_duplicate_local acc) && (fs_duplicate_remote acc =? 0) then AckedDuplicateLocal
    else if (0 <? fs_duplicate_remote acc) && (fs_duplicate_local acc =? 0) then AckedDuplicateRemote
    else AckedVerified in
  let reason := match final_state with
                | AckedDuplicateLocal => AllDuplicateLocal
                | AckedDuplicateRemote => AllDuplicateRemote
                | _ => PackageVerified
                end in
  ret (mkProcessPackageOutcome final_state (fs_tx_hashes acc) [reason]).

Definition completion_claim (leaf : FinalizedImportLeaf) : RemoteFinalizationClaim :=
  {| rfc_version := REMOTE_FINALIZATION_CLAIM_VERSION;
     rfc_export_id := fl_export_id leaf;
     rfc_source_domain := fl_source_domain leaf;
     rfc_target_domain := fl_target_domain leaf;
     rfc_source_epoch_id := fl_source_epoch_id leaf;
     rfc_recipient := fl_recipient leaf;
     rfc_amount := fl_amount leaf;
     rfc_completion_summary_hash := sh_summary_hash (pkg_header pkg);
     rfc_completion_package_hash := pkg_package_hash pkg |}.

(** The index and the counters of [process_settlement_completions]. *)
Record CompletionScan : Type := mkCompletionScan {
  cs_index : ImporterIndex;
  cs_tx_hashes : list Text;
  cs_duplicate_local : Z;
  cs_resolved : Z
}.
#[export] Instance CompletionScan_settable : Settable CompletionScan :=
  fun r => mkCompletionScan (cs_index r) (cs_tx_hashes r) (cs_duplicate_local r) (cs_resolved r).

Definition settle_completion (proof : FinalizedImportInclusionProof) (acc : CompletionScan)
    : ProcessM CompletionScan :=
  let leaf := fip_leaf proof in
  let export_id := fl_export_id leaf in
  match record (cs_index acc) export_id with
  | Some _ => ret (acc {{ cs_duplicate_local ::= plus_one }})
  | None =>
    do! existing := retry (export_record export_id) in
    match existing with
    | None => fail (Invalid [SourceExportMissing export_id])
    | Some existing_export =>
      if bool_decide (er_status existing_export = RemoteFinalized) then
        do! index := retry_store (persist_record (cs_index acc)
          (import_record export_id (fl_source_domain leaf) (fl_target_domain leaf) DuplicateRemote
             SourceResolved None SourceAlreadyResolved)) in
        ret (acc {{ cs_index := index }})
      else
        do! nonce := retry (account_next_index submitter_account) in
        do! tx_hash := submit_call nonce (AcknowledgeRemoteFinalization (completion_claim leaf)) in
        do! _ := retry_wait (wait_for_export_record_status export_id RemoteFinalized) in
        do! index := retry_store (persist_record (cs_index acc)
          (import_record export_id (fl_source_domain leaf) (fl_target_domain leaf) NotDuplicate
             SourceResolved (Some tx_hash) SourceResolvedNow)) in
        ret (acc {{ cs_index := index }} {{ cs_tx_hashes := cs_tx_hashes acc ++ [tx_hash] }}
                 {{ cs_resolved ::= plus_one }})
    end
  end.

Fixpoint settle_completions (proofs : list FinalizedImportInclusionProof) (acc : CompletionScan)
    : ProcessM CompletionScan :=
  match proofs with
  | [] => ret acc
  | proof :: proofs => do! acc := settle_completion proof acc in settle_completions proofs acc
  end.

Definition process_settlement_completions (proofs : list FinalizedImportInclusionProof)
    : ProcessM ProcessPackageOutcome :=
  do! index := retry_store (load_index domain) in
  do! acc := settle_completions proofs (mkCompletionScan index [] 0 0) in
  do! _ := retry_store (save_index domain (cs_index acc)) in
  let final_state :=
    if 0 <? cs_resolved acc then AckedVerified
    else if 0 <? cs_duplicate_local acc then AckedDuplicateLocal
    else AckedDuplicateRemote in
  let reason := match final_state with
                | AckedDuplicateLocal => CompletionDuplicateLocal
                | AckedDuplicateRemote => CompletionDuplicateRemote
                | _ => CompletionVerified
                end in
  ret (mkProcessPackageOutcome final_state (cs_tx_hashes acc) [reason]).

(** The transactions and the counters of [process_governance_proofs]. *)
Record GovernanceScan : Type := mkGovernanceScan {
  gs_tx_hashes : list Text;
  gs_imported : Z;
  gs_duplicate_remote : Z
}.
#[export] Instance GovernanceScan_settable : Settable GovernanceScan :=
  fun r => mkGovernanceScan (gs_tx_hashes r) (gs_imported r) (gs_duplicate_remote r).

(** A proposal on this chain has the facts of a leaf. *)
Definition proposal_facts (p : GovernanceProposal) (source_domain : DomainId) (target_domains : list DomainId)
    (payload_hash : hash) (activation_epoch : Z) : bool :=
  bool_decide (gp_source_domain p = source_domain) && bool_decide (gp_target_domains p = target_domains)
  && bool_decide (gp_payload_hash p = payload_hash) && (gp_activation_epoch p =? activation_epoch).

Definition note_imported (tx_hash : Text) (acc : GovernanceScan) : GovernanceScan :=
  acc {{ gs_tx_hashes := gs_tx_hashes acc ++ [tx_hash] }} {{ gs_imported ::= plus_one }}.

Definition import_proposal_leaf (leaf : GovernanceProposalLeaf) (acc : GovernanceScan) : ProcessM GovernanceScan :=
  let proposal_id := gpl_proposal_id leaf in
  do! existing := retry (governance_proposal proposal_id) in
  match existing with
  | Some existing =>
    check! proposal_facts existing (gpl_source_domain leaf) (gpl_target_domains leaf) (gpl_payload_hash leaf)
             (gpl_activation_epoch leaf) else Invalid [ProposalDiffers proposal_id] in
    ret (acc {{ gs_duplicate_remote ::= plus_one }})
  | None =>
    do! nonce := retry (account_next_index submitter_account) in
    do! tx_hash := submit_call nonce (ImportVerifiedGovernanceProposal
      (mkImportedGovernanceProposalClaim (gpl_version leaf) leaf (sh_summary_hash (pkg_header pkg))
         (pkg_package_hash pkg))) in
    do! _ := retry_wait (wait_for_governance_proposal proposal_id) in
    ret (note_imported tx_hash acc)
  end.

Definition import_ack_leaf (leaf : GovernanceAckLeaf) (acc : GovernanceScan) : ProcessM GovernanceScan :=
  let proposal_id := gal_proposal_id leaf in
  let acknowledging_domain := gal_acknowledging_domain leaf in
  do! proposal := retry (governance_proposal proposal_id) in
  match proposal with
  | None => fail (Retryable [AckBeforeProposal proposal_id acknowledging_domain])
  | Some proposal =>
    check! proposal_facts proposal (gal_source_domain leaf) (gal_target_domains leaf) (gal_payload_hash leaf)
             (gal_activation_epoch leaf) else Invalid [AckDiffers proposal_id] in
    do! known := retry (governance_ack_record proposal_id acknowledging_domain) in
    match known with
    | Some _ => ret (acc {{ gs_duplicate_remote ::= plus_one }})
    | None =>
      do! nonce := retry (account_next_index submitter_account) in
      do! tx_hash := submit_call nonce (ImportVerifiedGovernanceAck
        (mkImportedGovernanceAckClaim (gal_version leaf) leaf (sh_summary_hash (pkg_header pkg))
           (pkg_package_hash pkg))) in
      do! _ := retry_wait (wait_for_governance_ack proposal_id acknowledging_domain) in
      ret (note_imported tx_hash acc)
    end
  end.

Fixpoint governance_proofs (proofs : list GovernanceInclusionProof) (acc : GovernanceScan)
    : ProcessM GovernanceScan :=
  match proofs with
  | [] => ret acc
  | proof :: proofs =>
    do! acc := match gip_leaf proof with
               | ProposalV1 leaf => import_proposal_leaf leaf acc
               | AckV1 leaf => import_ack_leaf leaf acc
               end in
    governance_proofs proofs acc
  end.

Definition process_governance_proofs (proofs : list GovernanceInclusionProof) : ProcessM ProcessPackageOutcome :=
  do! acc := governance_proofs proofs (mkGovernanceScan [] 0 0) in
  let final_state := if 0 <? gs_imported acc then AckedVerified else AckedDuplicateRemote in
  let reason := match final_state with
                | AckedDuplicateRemote => GovernanceDuplicateRemote (gs_duplicate_remote acc)
                | _ => GovernanceImported
                end in
  ret (mkProcessPackageOutcome final_state (gs_tx_hashes acc) [reason]).

(** [if !proofs.is_empty() { outcomes.push(process(proofs).await?) }]. *)
Definition process_some {A} (proofs : list A) (process : list A -> ProcessM ProcessPackageOutcome)
    (outcomes : list ProcessPackageOutcome) : ProcessM (list ProcessPackageOutcome) :=
  match proofs with
  | [] => ret outcomes
  | _ => do! outcome := process proofs in ret (outcomes ++ [outcome])
  end.

(** The fold over the outcomes: verified, all local duplicates, all remote. *)
Definition merge_state (acc : bool * bool * bool) (state : ImporterPackageState) : bool * bool * bool :=
  let '(any_verified, all_duplicate_local, all_duplicate_remote) := acc in
  match state with
  | AckedDuplicateLocal => (any_verified, all_duplicate_local, false)
  | AckedDuplicateRemote => (any_verified, false, all_duplicate_remote)
  | _ => (true, false, false)
  end.

Definition merge_outcomes (outcomes : list ProcessPackageOutcome) : ProcessPackageOutcome :=
  let '(any_verified, all_duplicate_local, all_duplicate_remote) :=
    foldl merge_state (false, true, true) (map po_final_state outcomes) in
  let final_state :=
    if any_verified : bool then AckedVerified
    else if all_duplicate_local : bool then AckedDuplicateLocal
    else if all_duplicate_remote : bool then AckedDuplicateRemote
    else AckedVerified in
  mkProcessPackageOutcome final_state (concat (map po_tx_hashes outcomes)) (concat (map po_reason outcomes)).

Definition process_package_items (items : VerifiedPackageItems) : ProcessM ProcessPackageOutcome :=
  do! outcomes := process_some (vi_export_proofs items) process_forward_exports [] in
  do! outcomes := process_some (vi_finalized_import_proofs items) process_settlement_completions outcomes in
  do! outcomes := process_some (vi_governance_proofs items) process_governance_proofs outcomes in
  match outcomes with
  | [] => fail (Invalid [NoActionableProofs])
  | _ => ret (merge_outcomes outcomes)
  end.
End Processing.

(** ** The handlers *)
Section Handlers.
Context `{!Codec, !HexCodec, !LightClient, !Account, !StorageCodec, !Keys} {N : Type} `{!NodeRpc N}.
Context (domain : DomainId) (submitter_suri : option bytes).
Context (domain_configs : DomainId -> option DomainConfig).
(** [ialp_runtime::VERSION]. *)
Context (local_version : RuntimeVersionView).
(** The text of a reason. *)
Context (reason_text : Reasons -> Text).
Implicit Types (r : PackageRecord).

Definition finalize_package_error r (state : ImporterPackageState) (reason : Reasons) : ImporterM N unit :=
  do! index := load_index domain in
  do! now := now_millis in
  let r := r {{ pr_state := state }} {{ pr_reason := Some reason }} {{ pr_last_updated_at_unix_ms := now }} in
  let r := if importer_state_is_terminal state then r {{ pr_completed_at_unix_ms := Some now }} else r in
  do! index := persist_package index r None in
  save_index domain index.

Definition ensure_runtime_version_matches (v : RuntimeVersionView) : bool :=
  (rv_spec_version v =? rv_spec_version local_version)
  && (rv_transaction_version v =? rv_transaction_version local_version).

(** What [process_package_by_identity] finds out about a package before it ends
    with an error state or a final state. *)
Definition with_rpc {A} r (m : M (Importer N) Text A) (k : A -> ImporterM N unit) : ImporterM N unit :=
  do! answer := try m in
  match answer with
  | Ok a => k a
  | Err t => finalize_package_error r SubmissionRetrying [ReasonText t]
  end.

Definition with_verified {A} r (res : result VerifyError A) (k : A -> ImporterM N unit) : ImporterM N unit :=
  match res with
  | Ok a => k a
  | Err e => finalize_package_error r AckedInvalid [ReasonOf e]
  end.

(** The accounts the destination chain allows must be the submitter's. *)
Definition check_importer r (m : M (Importer N) Text (option AccountId)) (missing wrong : Reason)
    (submitter_account : AccountId) (k : ImporterM N unit) : ImporterM N unit :=
  do! configured := map_err NodeError m in
  match configured with
  | None => finalize_package_error r SubmissionRetrying [missing]
  | Some configured =>
    if bool_decide (submitter_account = configured) then k else finalize_package_error r AckedInvalid [wrong]
  end.

(** From the verified items to the end of the package. *)
Definition submit_items r index (pkg : CertifiedSummaryPackage) (items : VerifiedPackageItems)
    (source_domain target_domain : DomainId) (epoch_id : Z) (package_hash : hash) : ImporterM N unit :=
  with_rpc r (call rpc_connect) (fun _ =>
  match submitter_suri with
  | None => finalize_package_error r AckedInvalid [SubmitterRequired]
  | Some suri =>
  match pair_from_string suri with
  | None => finalize_package_error r AckedInvalid [SubmitterInvalid]
  | Some submitter_pair =>
  let submitter_account := pair_account submitter_pair in
  check_importer r importer_account ImporterAccountMissing SubmitterNotImporter submitter_account (
  let continue :=
    with_rpc r runtime_version (fun version =>
    if negb (ensure_runtime_version_matches version)
    then finalize_package_error r AckedInvalid [RuntimeVersionMismatch]
    else
    with_rpc r genesis_hash (fun genesis =>
    do! outcome := try (process_package_items domain submitter_pair submitter_account
                          (rv_spec_version version) (rv_transaction_version version) genesis pkg items) in
    match outcome with
    | Err (Retryable message) => finalize_package_error r SubmissionRetrying message
    | Err (Invalid message) => finalize_package_error r AckedInvalid message
    | Ok outcome =>
      do! refreshed := load_package source_domain target_domain epoch_id package_hash in
      match refreshed with
      | None => fail PackageDisappeared
      | Some refreshed =>
        do! now := now_millis in
        let refreshed := refreshed {{ pr_state := po_final_state outcome }}
          {{ pr_tx_hashes := po_tx_hashes outcome }} {{ pr_completed_at_unix_ms := Some now }}
          {{ pr_last_updated_at_unix_ms := now }} {{ pr_reason := Some (po_reason outcome) }} in
        do! index := persist_package index refreshed None in
        save_index domain index
      end
    end)) in
  match vi_governance_proofs items with
  | [] => continue
  | _ => check_importer r governance_importer_account GovernanceImporterMissing
           SubmitterNotGovernanceImporter submitter_account continue
  end)
  end
  end).

Definition process_package_by_identity (source_domain target_domain : DomainId) (epoch_id : Z)
    (package_hash : hash) : ImporterM N unit :=
  do! index := load_index domain in
  match package index source_domain target_domain epoch_id package_hash with
  | None => fail PackageNotFound
  | Some r =>
    if importer_state_is_terminal (pr_state r) then ret tt
    else
      do! now := now_millis in
      let r := r {{ pr_state := Verifying }} {{ pr_last_updated_at_unix_ms := now }} {{ pr_reason := None }} in
      do! index := persist_package index r None in
      do! _ := save_index domain index in
      do! payload := load_package_bytes r in
      match (scale_decode payload : option CertifiedSummaryPackage) with
      | None => finalize_package_error r AckedInvalid [StoredPackageUndecodable]
      | Some pkg =>
        with_verified r (verify_package_hash pkg) (fun _ =>
        with_verified r (verify_summary_chain_context pkg) (fun certificate =>
        with_verified r (verify_grandpa_certificate domain_configs certificate (sh_domain_id (pkg_header pkg))) (fun _ =>
        with_verified r (verify_package_flow pkg domain) (fun items =>
        submit_items r index pkg items source_domain target_domain epoch_id package_hash))))
      end
  end.

Definition package_status_view r : ImporterPackageStatusView :=
  let hash_or_zero value := match decode_hex_hash value with Ok h => h | Err _ => EMPTY_HASH end in
  mkImporterPackageStatusView (pr_source_domain r) (pr_target_domain r) (pr_epoch_id r)
    (hash_or_zero (pr_package_hash r)) (hash_or_zero (pr_summary_hash r)) (pr_state r)
    (importer_state_is_terminal (pr_state r)) (reason_text <$> pr_reason r) (pr_export_count r) (pr_tx_hashes r).

(** [receive_package]: whether the package was known, and its record. *)
Definition receive_package (body : bytes) : ImporterM N (bool * PackageRecord) :=
  match (scale_decode body : option RelayPackageEnvelopeV1) with
  | None => fail EnvelopeUndecodable
  | Some envelope =>
  match (scale_decode (env_package_bytes envelope) : option CertifiedSummaryPackage) with
  | None => fail PackageUndecodable
  | Some pkg =>
    do! _ := lift (match verify_package_hash pkg with Ok u => Ok u | Err e => Err (NotVerified e) end) in
    do! view := lift (match inspect_package_for_ingest pkg domain with
                      | Ok v => Ok v | Err e => Err (NotVerified e) end) in
    check! bool_decide (env_source_domain envelope = iv_source_domain view)
           && bool_decide (env_target_domain envelope = iv_target_domain view)
           && (env_epoch_id envelope =? iv_epoch_id view)
           && bool_decide (env_summary_hash envelope = sh_summary_hash (pkg_header pkg))
           && bool_decide (env_package_hash envelope = pkg_package_hash pkg)
           && (env_export_count envelope =? iv_export_count view) else EnvelopeMetadataMismatch in
    do! now := now_millis in
    do! index := gets im_memory in
    do! ensured := ensure_package_record index (iv_source_domain view) (iv_target_domain view)
      (iv_epoch_id view) (sh_summary_hash (pkg_header pkg)) (pkg_package_hash pkg) (iv_export_count view) now
      (env_package_bytes envelope) in
    let '(index, r, _) := ensured in
    do! _ := modify (fun s => s {{ im_memory := index }}) in
    do! _ := save_index domain index in
    ret (negb (pr_received_at_unix_ms r =? now), r)
  end
  end.

(** [verify_package_command]: the package of a file, without the relay. *)
Definition verify_package_command (package_bytes : bytes) : ImporterM N PackageRecord :=
  match (scale_decode package_bytes : option CertifiedSummaryPackage) with
  | None => fail PackageUndecodable
  | Some pkg =>
    do! _ := lift (match verify_package_hash pkg with Ok u => Ok u | Err e => Err (NotVerified e) end) in
    do! view := lift (match inspect_package_for_ingest pkg domain with
                      | Ok v => Ok v | Err e => Err (NotVerified e) end) in
    do! now := now_millis in
    do! index := load_index domain in
    do! ensured := ensure_package_record index (iv_source_domain view) (iv_target_domain view)
      (iv_epoch_id view) (sh_summary_hash (pkg_header pkg)) (pkg_package_hash pkg) (iv_export_count view) now
      package_bytes in
    let '(index, r, _) := ensured in
    do! _ := save_index domain index in
    do! package_hash := lift (decode_hex_hash (pr_package_hash r)) in
    do! _ := process_package_by_identity (pr_source_domain r) (pr_target_domain r) (pr_epoch_id r) package_hash in
    do! refreshed := load_index domain in
    match package refreshed (iv_source_domain view) (iv_target_domain view) (iv_epoch_id view)
            (pkg_package_hash pkg) with
    | None => fail PackageNotFound
    | Some r => ret r
    end
  end.

(** [package_status]. *)
Definition package_status (source_domain target_domain : DomainId) (epoch_id : Z) (package_hash : bytes)
    : ImporterM N ImporterPackageStatusView :=
  do! package_hash := lift (decode_hex_hash package_hash) in
  do! index := gets im_memory in
  match package index source_domain target_domain epoch_id package_hash with
  | None => fail PackageNotFound
  | Some r => ret (package_status_view r)
  end.

(** One round of the loop of [process_pending_packages_once]. *)
Definition process_and_refresh (r : PackageRecord) : ImporterM N unit :=
  do! package_hash := lift (decode_hex_hash (pr_package_hash r)) in
  do! _ := process_package_by_identity (pr_source_domain r) (pr_target_domain r) (pr_epoch_id r) package_hash in
  do! refreshed := load_index domain in
  modify (fun s => s {{ im_memory := refreshed }}).

Fixpoint process_all (work : list PackageRecord) : ImporterM N unit :=
  match work with
  | [] => ret tt
  | r :: work => do! _ := process_and_refresh r in process_all work
  end.

Definition process_pending_packages_once : ImporterM N unit :=
  do! work := gets (fun s => List.filter (fun r => negb (importer_state_is_terminal (pr_state r)))
                               (ii_packages (im_memory s))) in
  process_all work.

(** The start of [run_importer]. *)
Definition start_importer : ImporterM N unit :=
  do! index := load_index domain in
  modify (fun s => s {{ im_memory := index }}).
End Handlers.
