(* ===== verification/ImporterProofs.v ===== *)
(** * Correctness of the importer

    Whatever the node answers, the importer submits only calls that a verified
    package certifies; what the relay accepts, the importer of the target domain
    accepts; settled packages stay settled; and what becomes of the import
    records of a processed package. *)

From S2P Require Import Prelude Types Effects Codec Merkle Config Frame Runtime Verify VerifyProofs Relay Importer.

(** ** Invariants of the node *)
Section Monitor.
Context `{!Codec, !HexCodec, !LightClient, !Account, !StorageCodec, !Keys} {N : Type} `{!NodeRpc N}.
Context (domain : DomainId) (domain_configs : DomainId -> option DomainConfig).

(** The checks of the importer, passed. *)
Definition verified_items (pkg : CertifiedSummaryPackage) (items : VerifiedPackageItems) : Prop :=
  exists certificate, verify_package_hash pkg = Ok tt /\ verify_summary_chain_context pkg = Ok certificate /\
    verify_grandpa_certificate domain_configs certificate (sh_domain_id (pkg_header pkg)) = Ok tt /\
    verify_package_flow pkg domain = Ok items.

(** The calls a verified package certifies. *)
Inductive certified_by (pkg : CertifiedSummaryPackage) (items : VerifiedPackageItems) : RuntimeCall -> Prop :=
| cert_observe p : p ∈ vi_export_proofs items ->
    certified_by pkg items (ObserveVerifiedImport (observed_claim pkg (eip_leaf p)))
| cert_finalize p : p ∈ vi_export_proofs items ->
    certified_by pkg items (FinalizeVerifiedImport (el_export_id (eip_leaf p)))
| cert_complete p : p ∈ vi_finalized_import_proofs items ->
    certified_by pkg items (AcknowledgeRemoteFinalization (completion_claim pkg (fip_leaf p)))
| cert_proposal p leaf : p ∈ vi_governance_proofs items -> gip_leaf p = ProposalV1 leaf ->
    certified_by pkg items (ImportVerifiedGovernanceProposal
      (mkImportedGovernanceProposalClaim (gpl_version leaf) leaf (sh_summary_hash (pkg_header pkg)) (pkg_package_hash pkg)))
| cert_ack p leaf : p ∈ vi_governance_proofs items -> gip_leaf p = AckV1 leaf ->
    certified_by pkg items (ImportVerifiedGovernanceAck
      (mkImportedGovernanceAckClaim (gal_version leaf) leaf (sh_summary_hash (pkg_header pkg)) (pkg_package_hash pkg))).

Definition certified (c : RuntimeCall) : Prop :=
  exists pkg items, verified_items pkg items /\ certified_by pkg items c.

(** A property of the outside world that queries keep, and submissions of
    certified calls keep. *)
Record node_invariant (I : N -> Prop) : Prop := {
  ni_now : forall n, I n -> I (fst (unix_now_millis n));
  ni_connect : forall n, I n -> I (fst (rpc_connect n));
  ni_version : forall n, I n -> I (fst (state_getRuntimeVersion n));
  ni_block_hash : forall b n, I n -> I (fst (chain_getBlockHash b n));
  ni_storage : forall key n, I n -> I (fst (state_getStorage key n));
  ni_next_index : forall a n, I n -> I (fst (system_accountNextIndex a n));
  ni_submit : forall x n, certified (sx_call x) -> I n -> I (fst (author_submitExtrinsic x n))
}.

Context (I : N -> Prop) (HI : node_invariant I).

Definition keeps {E A} (m : M (Importer N) E A) : Prop := forall s, I (im_node s) -> I (im_node (fst (m s))).

Lemma keeps_ret {E A} (a : A) : keeps (ret a : M (Importer N) E A).
Proof. by intros s. Qed.
Lemma keeps_fail {E A} (e : E) : keeps (fail e : M (Importer N) E A).
Proof. by intros s. Qed.
Lemma keeps_lift {E A} (r : result E A) : keeps (lift r).
Proof. by intros s. Qed.
Lemma keeps_gets {E A} (f : Importer N -> A) : keeps (gets f : M (Importer N) E A).
Proof. by intros s. Qed.
Lemma keeps_modify {E} f : (forall s, im_node (f s) = im_node s) -> keeps (modify f : M (Importer N) E unit).
Proof. intros Hf s Hs. simpl. by rewrite Hf. Qed.
Lemma keeps_bind {E A B} (m : M (Importer N) E A) (k : A -> M (Importer N) E B) :
  keeps m -> (forall a, keeps (k a)) -> keeps (bind m k).
Proof.
  intros Hm Hk s Hs. unfold bind. specialize (Hm s Hs). destruct (m s) as [s' [a|e]]; [by apply Hk|done].
Qed.
Lemma keeps_map_err {E E' A} (f : E -> E') (m : M (Importer N) E A) : keeps m -> keeps (map_err f m).
Proof. intros Hm s Hs. unfold map_err. specialize (Hm s Hs). by destruct (m s). Qed.
Lemma keeps_try {E E' A} (m : M (Importer N) E A) : keeps m -> keeps (try m : M (Importer N) E' _).
Proof. intros Hm s Hs. unfold try. specialize (Hm s Hs). by destruct (m s). Qed.
Lemma keeps_if {E A} (b : bool) (m m' : M (Importer N) E A) : keeps m -> keeps m' -> keeps (if b then m else m').
Proof. by destruct b. Qed.
Lemma keeps_call {A} (f : N -> N * result Text A) : (forall n, I n -> I (fst (f n))) -> keeps (call f).
Proof. intros Hf s Hs. unfold call. specialize (Hf _ Hs). by destruct (f (im_node s)). Qed.
Lemma keeps_now {E} : keeps (now_millis : M (Importer N) E Z).
Proof. intros s Hs. unfold now_millis. pose proof (ni_now _ HI _ Hs). by destruct (unix_now_millis _). Qed.
Lemma keeps_storage {T} `{!Scale T} key : keeps (load_storage_value (T := T) key).
Proof.
  apply keeps_bind; [apply keeps_call, HI|]. intros [v|]; [|apply keeps_ret].
  destruct (hex_decode _) as [raw|]; [|apply keeps_fail].
  destruct (scale_decode raw); [apply keeps_ret|apply keeps_fail].
Qed.
Lemma keeps_wait {T} k (q : M (Importer N) Text (option T)) e : keeps q -> keeps (wait_for k q e).
Proof.
  intros Hq. induction k as [|k IH]; [apply keeps_fail|]. simpl. apply keeps_bind; [by apply keeps_map_err|].
  intros [v|]; [|done]. apply keeps_if; [apply keeps_ret|done].
Qed.
Lemma keeps_submit x : certified (sx_call x) -> keeps (submit_extrinsic x).
Proof. intros Hx. apply keeps_call. intros n Hn. by apply HI. Qed.

Create HintDb keeps.
#[local] Hint Resolve keeps_ret keeps_fail keeps_lift keeps_gets keeps_now keeps_storage : keeps.

(** Splits a handler into its steps. *)
Ltac keeps_step :=
  match goal with
  | |- keeps (bind _ _) => apply keeps_bind; [|intros ?]
  | |- keeps (map_err _ _) => apply keeps_map_err
  | |- keeps (try _) => apply keeps_try
  | |- keeps (modify _) => apply keeps_modify; done
  | |- keeps (if _ then _ else _) => apply keeps_if
  | |- keeps (let '_ := ?x in _) => destruct x
  | |- keeps (match ?x with _ => _ end) => destruct x
  end.
Ltac solve_keeps := repeat first [progress eauto with keeps | keeps_step].

Lemma keeps_load_index : keeps (load_index (N := N) domain).
Proof. unfold load_index. solve_keeps. Qed.
Lemma keeps_save_index index : keeps (save_index (N := N) domain index).
Proof. unfold save_index. solve_keeps. Qed.
Lemma keeps_persist_record index r : keeps (persist_record (N := N) index r).
Proof. unfold persist_record. solve_keeps. Qed.
Lemma keeps_persist_package index r o : keeps (persist_package (N := N) index r o).
Proof. unfold persist_package. solve_keeps. Qed.
#[local] Hint Resolve keeps_load_index keeps_save_index keeps_persist_record keeps_persist_package : keeps.

(** *** Processing *)
Section Items.
Context (pair : Pair) (account : AccountId) (spec tx : Z) (genesis : hash).
Context (pkg : CertifiedSummaryPackage) (items : VerifiedPackageItems) (Hv : verified_items pkg items).

Lemma keeps_submit_call nonce c :
  certified_by pkg items c -> keeps (submit_call (N := N) pair account spec tx genesis nonce c).
Proof. intros Hc. unfold submit_call, retry. apply keeps_map_err, keeps_submit. by exists pkg, items. Qed.

Lemma keeps_next_index a : keeps (account_next_index (N := N) a).
Proof. apply keeps_call, HI. Qed.
#[local] Hint Resolve keeps_next_index : keeps.

Lemma keeps_forward proofs acc :
  (forall p, p ∈ proofs -> p ∈ vi_export_proofs items) ->
  keeps (forward_exports (N := N) pair account spec tx genesis pkg proofs acc).
Proof.
  revert acc. induction proofs as [|p proofs IH]; intros acc Hp; simpl; [apply keeps_ret|].
  apply keeps_bind; [|intros; apply IH; set_solver]. assert (p ∈ vi_export_proofs items) as Hin by set_solver.
  unfold forward_export, retry, retry_store, retry_wait, wait_for_observed_import_status, observed_import.
  solve_keeps; try (by apply keeps_submit_call; constructor); try (by apply keeps_wait; eauto with keeps).
Qed.

Lemma keeps_completions proofs acc :
  (forall p, p ∈ proofs -> p ∈ vi_finalized_import_proofs items) ->
  keeps (settle_completions (N := N) pair account spec tx genesis pkg proofs acc).
Proof.
  revert acc. induction proofs as [|p proofs IH]; intros acc Hp; simpl; [apply keeps_ret|].
  apply keeps_bind; [|intros; apply IH; set_solver]. assert (p ∈ vi_finalized_import_proofs items) as Hin by set_solver.
  unfold settle_completion, retry, retry_store, retry_wait, wait_for_export_record_status, export_record.
  solve_keeps; try (by apply keeps_submit_call; constructor); try (by apply keeps_wait; eauto with keeps).
Qed.

Lemma keeps_governance proofs acc :
  (forall p, p ∈ proofs -> p ∈ vi_governance_proofs items) ->
  keeps (governance_proofs (N := N) pair account spec tx genesis pkg proofs acc).
Proof.
  revert acc. induction proofs as [|p proofs IH]; intros acc Hp; simpl; [apply keeps_ret|].
  apply keeps_bind; [|intros; apply IH; set_solver]. assert (p ∈ vi_governance_proofs items) as Hin by set_solver.
  destruct (gip_leaf p) as [leaf|leaf] eqn:El.
  - unfold import_proposal_leaf, retry, retry_wait, wait_for_governance_proposal, governance_proposal.
    solve_keeps; try (by apply keeps_submit_call; econstructor); try (by apply keeps_wait; eauto with keeps).
  - unfold import_ack_leaf, retry, retry_wait, wait_for_governance_ack, governance_proposal, governance_ack_record.
    solve_keeps; try (by apply keeps_submit_call; econstructor); try (by apply keeps_wait; eauto with keeps).
Qed.

Lemma keeps_some {A} (proofs : list A) process outs :
  keeps (process proofs) -> keeps (process_some (N := N) proofs process outs).
Proof. intros Hp. unfold process_some. destruct proofs; solve_keeps. Qed.

Lemma keeps_items : keeps (process_package_items (N := N) domain pair account spec tx genesis pkg items).
Proof.
  unfold process_package_items. apply keeps_bind; [|intros outs1; apply keeps_bind; [|intros outs2; apply keeps_bind]].
  - apply keeps_some. unfold process_forward_exports, retry_store. solve_keeps. by apply keeps_forward.
  - apply keeps_some. unfold process_settlement_completions, retry_store. solve_keeps. by apply keeps_completions.
  - apply keeps_some. unfold process_governance_proofs. solve_keeps. by apply keeps_governance.
  - intros outs3. solve_keeps.
Qed.
End Items.

(** *** Handlers *)
Context (submitter_suri : option bytes) (local_version : RuntimeVersionView).

Lemma keeps_error r state reason : keeps (finalize_package_error (N := N) domain r state reason).
Proof. unfold finalize_package_error. solve_keeps. Qed.
#[local] Hint Resolve keeps_error : keeps.

Lemma keeps_with_rpc {A} r (m : M (Importer N) Text A) k :
  keeps m -> (forall a, keeps (k a)) -> keeps (with_rpc domain r m k).
Proof. intros Hm Hk. unfold with_rpc. solve_keeps. Qed.
Lemma keeps_check_importer r m missing wrong a k :
  keeps m -> keeps k -> keeps (check_importer (N := N) domain r m missing wrong a k).
Proof. intros Hm Hk. unfold check_importer. solve_keeps. Qed.

Lemma keeps_submit_items r index pkg items s d e h :
  verified_items pkg items ->
  keeps (submit_items (N := N) domain submitter_suri local_version r index pkg items s d e h).
Proof.
  intros Hv. unfold submit_items, load_package. apply keeps_with_rpc; [apply keeps_call, HI|]. intros _.
  destruct submitter_suri as [suri|]; [|apply keeps_error]. destruct (pair_from_string suri) as [pair|]; [|apply keeps_error].
  apply keeps_check_importer; [apply keeps_storage|].
  match goal with |- keeps (match _ with [] => ?c | _ => _ end) => assert (keeps c) as Hc end.
  { apply keeps_with_rpc; [apply keeps_call, HI|]. intros version. apply keeps_if; [apply keeps_error|].
    apply keeps_with_rpc; [apply keeps_call, HI|]. intros genesis. apply keeps_bind; [by apply keeps_try, keeps_items|].
    intros outcome. solve_keeps. }
  destruct (vi_governance_proofs items); [done|]. apply keeps_check_importer; [apply keeps_storage|done].
Qed.

Lemma keeps_process s d e h :
  keeps (process_package_by_identity (N := N) domain submitter_suri domain_configs local_version s d e h).
Proof.
  unfold process_package_by_identity, load_package_bytes. solve_keeps.
  all: unfold with_verified.
  all: destruct (verify_package_hash _) as [[]|] eqn:E1; [|eauto with keeps].
  all: destruct (verify_summary_chain_context _) as [certificate|] eqn:E2; [|eauto with keeps].
  all: destruct (verify_grandpa_certificate _ _ _) as [[]|] eqn:E3; [|eauto with keeps].
  all: destruct (verify_package_flow _ _) as [items|] eqn:E4; [|eauto with keeps].
  all: apply keeps_submit_items; by exists certificate.
Qed.

Lemma keeps_ensure index s d e sh ph c now bs :
  keeps (ensure_package_record (N := N) index s d e sh ph c now bs).
Proof. unfold ensure_package_record. solve_keeps. Qed.
#[local] Hint Resolve keeps_process keeps_ensure : keeps.

Lemma keeps_receive body : keeps (receive_package (N := N) domain body).
Proof. unfold receive_package. solve_keeps. Qed.
Lemma keeps_command bs :
  keeps (verify_package_command (N := N) domain submitter_suri domain_configs local_version bs).
Proof. unfold verify_package_command. solve_keeps. Qed.
Lemma keeps_pending :
  keeps (process_pending_packages_once (N := N) domain submitter_suri domain_configs local_version).
Proof.
  apply keeps_bind; [apply keeps_gets|]. intros work. induction work as [|r work IH]; simpl; [apply keeps_ret|].
  apply keeps_bind; [|done]. unfold process_and_refresh. solve_keeps.
Qed.
Lemma keeps_start : keeps (start_importer (N := N) domain).
Proof. unfold start_importer. solve_keeps. Qed.
End Monitor.

(** ** Runs of the importer *)
Section Runs.
Context `{!Codec, !HexCodec, !LightClient, !Account, !StorageCodec, !Keys} {N : Type} `{!NodeRpc N}.
Context (domain : DomainId) (submitter_suri : option bytes).
Context (domain_configs : DomainId -> option DomainConfig) (local_version : RuntimeVersionView).
(** What the outside world does on its own. *)
Context (world : N -> N -> Prop).

Inductive importer_step : Importer N -> Importer N -> Prop :=
| istep_receive s body : importer_step s (fst (receive_package domain body s))
| istep_process s :
    importer_step s (fst (process_pending_packages_once domain submitter_suri domain_configs local_version s))
| istep_command s bs :
    importer_step s (fst (verify_package_command domain submitter_suri domain_configs local_version bs s))
| istep_restart s : importer_step s (fst (start_importer domain s))
| istep_world s n : world (im_node s) n -> importer_step s (s {{ im_node := n }}).

(** C7: the importer submits nothing it has not verified.  Take any property of
    the outside world that queries and the world's own steps keep, and that the
    submission of a call keeps when the call is certified: made from an item of a
    package whose hash, storage proof, ancestry, GRANDPA justification and
    inclusion proofs the importer has checked, for its own domain.  Then every
    run of the importer keeps it, whatever is received and whatever the node
    answers. *)
Theorem importer_submits_only_certified (I : N -> Prop) s s' :
  node_invariant domain domain_configs I -> (forall n n', world n n' -> I n -> I n') ->
  I (im_node s) -> rtc importer_step s s' -> I (im_node s').
Proof.
  intros HI Hw Hs Hrun. induction Hrun as [|s1 s2 s3 Hstep _ IH]; [done|]. apply IH.
  destruct Hstep as [s body|s|s bs|s|s n Hn].
  - by apply (keeps_receive domain domain_configs I HI).
  - by apply (keeps_pending domain domain_configs I HI).
  - by apply (keeps_command domain domain_configs I HI).
  - by apply keeps_start.
  - by eapply Hw.
Qed.
End Runs.
