(* ===== verification/ImporterSafety.v ===== *)
(** * What the importer acknowledges

    The importer reports a package as settled only when the node has reported
    every item of it as done; what it saves after a package is the index it
    loaded before; and it accepts what the relay accepts. *)

From S2P Require Import Prelude Types Effects Handlers Codec Merkle Config Frame Runtime Verify VerifyProofs Relay RelayProofs Importer ImporterProofs.

(** What the node can have done for an item of a package. *)
Inductive Effect : Type :=
| Imported (export_id : hash)
| Resolved (export_id : hash)
| ProposalKnown (proposal_id : hash)
| AckKnown (proposal_id : hash) (acknowledging_domain : DomainId).
#[export] Instance Effect_eq_dec : EqDecision Effect.
Proof. solve_decision. Defined.

(** ** Records of the index *)

Lemma find_replace_or_push {A} (p : A -> bool) new l : p new = true -> find p (replace_or_push p new l) = Some new.
Proof.
  intros Hn. induction l as [|x l IH]; simpl; [by rewrite Hn|]. destruct (p x) eqn:E; simpl; [by rewrite Hn|by rewrite E].
Qed.
Lemma find_replace_other {A} (p q : A -> bool) new l :
  q new = false -> (forall x, p x = true -> q x = false) -> find q (replace_or_push p new l) = find q l.
Proof.
  intros Hn Hpq. induction l as [|x l IH]; simpl; [by rewrite Hn|].
  destruct (p x) eqn:E; simpl; [by rewrite Hn, (Hpq x E)|by rewrite IH].
Qed.

Lemma same_package_true src dst e h r :
  same_package src dst e h r = true <->
  pr_source_domain r = src /\ pr_target_domain r = dst /\ pr_epoch_id r = e /\ pr_package_hash r = h.
Proof. unfold same_package. rewrite !andb_true_iff, !bool_decide_eq_true, Z.eqb_eq. tauto. Qed.

Lemma package_upsert `{!HexCodec} index r src dst e h :
  same_package src dst e (hex_hash h) r = true -> package (upsert_package r index) src dst e h = Some r.
Proof.
  intros Hr. pose proof Hr as (<- & <- & <- & Eh)%same_package_true. unfold package, upsert_package. simpl.
  rewrite <-Eh. apply find_replace_or_push. by apply same_package_true.
Qed.
Lemma package_upsert_other `{!HexCodec} index r src dst e h :
  same_package src dst e (hex_hash h) r = false -> package (upsert_package r index) src dst e h = package index src dst e h.
Proof.
  intros Hr. unfold package, upsert_package. simpl. apply find_replace_other; [done|].
  intros x (E1 & E2 & E3 & E4)%same_package_true. destruct (same_package src dst e (hex_hash h) x) eqn:E; [|done].
  apply same_package_true in E as (F1 & F2 & F3 & F4).
  rewrite (proj2 (same_package_true src dst e (hex_hash h) r)) in Hr by (split_and!; congruence). done.
Qed.

Section Settled.
Context `{!Codec, !HexCodec, !HexCodecOk, !LightClient, !Account, !StorageCodec, !Keys} {N : Type} `{!NodeRpc N}.
Context (domain : DomainId) (domain_configs : DomainId -> option DomainConfig).

(** Storage values as the importer reads them. *)
Definition reads (T : Type) `{!Scale T} (key : bytes) (n : N) (v : T) : Prop :=
  exists value raw, snd (state_getStorage ([48; 120] ++ hex_encode key) n) = Ok (Some value) /\
    hex_decode (strip_0x value) = Some raw /\ scale_decode raw = Some v.

(** [done e n]: the node has done [e].  What a node has done stays done, and it is
    done when the node's storage says so. *)
Record node_reports (done : Effect -> N -> Prop) : Prop := {
  nr_now : forall e n, done e n -> done e (fst (unix_now_millis n));
  nr_connect : forall e n, done e n -> done e (fst (rpc_connect n));
  nr_version : forall e n, done e n -> done e (fst (state_getRuntimeVersion n));
  nr_block_hash : forall e b n, done e n -> done e (fst (chain_getBlockHash b n));
  nr_storage : forall e key n, done e n -> done e (fst (state_getStorage key n));
  nr_next_index : forall e a n, done e n -> done e (fst (system_accountNextIndex a n));
  nr_submit : forall e x n, done e n -> done e (fst (author_submitExtrinsic x n));
  nr_imported : forall id n r, reads ObservedImportRecord (observed_import_storage_key id) n r ->
    oir_status r = ImportRemoteFinalized -> done (Imported id) n;
  nr_resolved : forall id n r, reads ExportRecord (export_record_storage_key id) n r ->
    er_status r = RemoteFinalized -> done (Resolved id) n;
  nr_proposal : forall id n p, reads GovernanceProposal (governance_proposal_storage_key id) n p ->
    done (ProposalKnown id) n;
  nr_ack : forall id d n a, reads GovernanceAckRecord (governance_ack_record_storage_key id d) n a ->
    done (AckKnown id d) n
}.

(** The least such reading: what the node's storage has said at some time. *)
Inductive node_op : N -> N -> Prop :=
| op_now n : node_op n (fst (unix_now_millis n))
| op_connect n : node_op n (fst (rpc_connect n))
| op_version n : node_op n (fst (state_getRuntimeVersion n))
| op_block_hash b n : node_op n (fst (chain_getBlockHash b n))
| op_storage key n : node_op n (fst (state_getStorage key n))
| op_next_index a n : node_op n (fst (system_accountNextIndex a n))
| op_submit x n : node_op n (fst (author_submitExtrinsic x n)).

Definition says (e : Effect) (n : N) : Prop :=
  match e with
  | Imported id => exists r, reads ObservedImportRecord (observed_import_storage_key id) n r /\
      oir_status r = ImportRemoteFinalized
  | Resolved id => exists r, reads ExportRecord (export_record_storage_key id) n r /\ er_status r = RemoteFinalized
  | ProposalKnown id => exists p, reads GovernanceProposal (governance_proposal_storage_key id) n p
  | AckKnown id d => exists a, reads GovernanceAckRecord (governance_ack_record_storage_key id d) n a
  end.
Definition reported (e : Effect) (n : N) : Prop := exists n0, rtc node_op n0 n /\ says e n0.

Lemma reported_reports : node_reports reported.
Proof.
  assert (forall e n n', node_op n n' -> reported e n -> reported e n') as Hop.
  { intros e n n' Hn (n0 & Hr & Hs). exists n0. split; [by eapply rtc_r|done]. }
  assert (forall e n, says e n -> reported e n) as Hs by (intros e n Hs; by exists n).
  split; try (intros; eapply Hop; [constructor|done]); intros; apply Hs; simpl; eauto.
Qed.

Context (done : Effect -> N -> Prop) (Hdone : node_reports done).
Implicit Types (s : Importer N).

(** ** The invariant *)

(** The transfer is settled on this chain. *)
Definition transfer_done (id : hash) s : Prop := done (Imported id) (im_node s) \/ done (Resolved id) (im_node s).

Definition leaf_done (leaf : GovernanceLeaf) s : Prop :=
  match leaf with
  | ProposalV1 l => done (ProposalKnown (gpl_proposal_id l)) (im_node s)
  | AckV1 l => done (AckKnown (gal_proposal_id l) (gal_acknowledging_domain l)) (im_node s)
  end.

Definition items_done (items : VerifiedPackageItems) s : Prop :=
  Forall (fun p => transfer_done (el_export_id (eip_leaf p)) s) (vi_export_proofs items) /\
  Forall (fun p => transfer_done (fl_export_id (fip_leaf p)) s) (vi_finalized_import_proofs items) /\
  Forall (fun p => leaf_done (gip_leaf p) s) (vi_governance_proofs items).

(** The stored package was verified and all its items are done. *)
Definition payload_settled (path : PackagePath) s : Prop :=
  exists payload pkg items, im_payloads s !! path = Some payload /\ scale_decode payload = Some pkg /\
    verified_items domain domain_configs pkg items /\ items_done items s.

Definition acknowledged (state : ImporterPackageState) : bool :=
  match state with AckedVerified | AckedDuplicateLocal | AckedDuplicateRemote => true | _ => false end.

(** A record names its payload. *)
Definition names_payload (r : PackageRecord) : Prop :=
  exists h, pr_package_hash r = hex_hash h /\
    pr_payload_path r = (pr_source_domain r, pr_target_domain r, pr_epoch_id r, h).

Definition package_ok s (r : PackageRecord) : Prop :=
  names_payload r /\ (acknowledged (pr_state r) = true -> payload_settled (pr_payload_path r) s).
Definition import_ok s (r : ImportRecord) : Prop := exists id, ir_export_id r = hex_hash id /\ transfer_done id s.
Definition index_ok s (index : ImporterIndex) : Prop :=
  Forall (import_ok s) (ii_imports index) /\ Forall (package_ok s) (ii_packages index).
Definition file_ok s (file : IndexFile) : Prop :=
  match file with
  | CurrentIndex index => index_ok s index
  | ImporterIndexV1 _ imports => Forall (import_ok s) imports
  | OtherIndex _ => True
  end.

Record Settled s : Prop := {
  st_memory : index_ok s (im_memory s);
  st_index : forall file, im_index s = Some file -> file_ok s file;
  st_packages : forall path r, im_packages s !! path = Some r -> names_payload r /\
    path = package_record_path (pr_source_domain r) (pr_target_domain r) (pr_epoch_id r) (pr_package_hash r)
}.

(** Later states: what is done stays done, payload files stay. *)
Definition later s s' : Prop :=
  (forall e, done e (im_node s) -> done e (im_node s')) /\ im_payloads s ⊆ im_payloads s'.

#[export] Instance later_preorder : PreOrder later.
Proof. split; [by intros s|]. intros s1 s2 s3 [A1 A2] [A3 A4]. split; [auto|by transitivity (im_payloads s2)]. Qed.

Lemma transfer_done_later id s s' : later s s' -> transfer_done id s -> transfer_done id s'.
Proof. intros [Hl _] [?|?]; [left|right]; auto. Qed.
Lemma leaf_done_later leaf s s' : later s s' -> leaf_done leaf s -> leaf_done leaf s'.
Proof. intros [Hl _]. destruct leaf; simpl; auto. Qed.
Lemma items_done_later items s s' : later s s' -> items_done items s -> items_done items s'.
Proof.
  intros Hl (F1 & F2 & F3). split_and!; (eapply Forall_impl; [eassumption|]); intros p;
    first [by apply transfer_done_later | by apply leaf_done_later].
Qed.
Lemma payload_settled_later path s s' : later s s' -> payload_settled path s -> payload_settled path s'.
Proof.
  intros Hl (payload & pkg & items & Hp & Hd & Hv & Hi). exists payload, pkg, items.
  split_and!; [by eapply lookup_weaken; [|apply Hl]|done|done|by eapply items_done_later].
Qed.
Lemma package_ok_later r s s' : later s s' -> package_ok s r -> package_ok s' r.
Proof. intros Hl [Hn Hp]. split; [done|]. intros Ha. eapply payload_settled_later; [done|auto]. Qed.
Lemma import_ok_later r s s' : later s s' -> import_ok s r -> import_ok s' r.
Proof. intros Hl (id & E & Hd). exists id. split; [done|by eapply transfer_done_later]. Qed.
Lemma index_ok_later index s s' : later s s' -> index_ok s index -> index_ok s' index.
Proof.
  intros Hl [F1 F2]. split; (eapply Forall_impl; [eassumption|]); intros r;
    first [by apply import_ok_later | by apply package_ok_later].
Qed.
Lemma file_ok_later file s s' : later s s' -> file_ok s file -> file_ok s' file.
Proof.
  intros Hl. destruct file; simpl; [by apply index_ok_later| |done].
  intros F. eapply Forall_impl; [exact F|]. intros r. by apply import_ok_later.
Qed.

Lemma hex_hash_inj h h' : hex_hash h = hex_hash h' -> h = h'.
Proof. intros E. injection E as E. apply (f_equal hex_decode) in E. rewrite !hex_decode_encode in E. congruence. Qed.

(** ** Handlers from settled states *)

#[local] Abbreviation ensures := (ensures Settled later).

Lemma settled_later s s' :
  later s s' -> im_memory s' = im_memory s -> im_index s' = im_index s -> im_packages s' = im_packages s ->
  Settled s -> Settled s'.
Proof.
  intros Hl E1 E2 E3 [S1 S2 S3]. split; [rewrite E1; by eapply index_ok_later| |by rewrite E3].
  intros file. rewrite E2. intros Hf. eapply file_ok_later; [done|auto].
Qed.

(** Calls to the node. *)
Lemma ensures_call {A} s (f : N -> N * result Text A) Q :
  (forall e n, done e n -> done e (fst (f n))) ->
  (forall a, snd (f (im_node s)) = Ok a -> Q a (s {{ im_node := fst (f (im_node s)) }})) ->
  ensures s (call f) Q.
Proof.
  intros Hf HQ Hs. unfold call. specialize (fun e => Hf e (im_node s)). destruct (f (im_node s)) as [n res].
  simpl in *. assert (later s (s {{ im_node := n }})) as Hl by (by split).
  split_and!; [by apply (settled_later s)|done|]. destruct res; [by apply HQ|done].
Qed.
Lemma ensures_now {E} s : ensures s (now_millis : M (Importer N) E Z) (fun _ _ => True).
Proof.
  intros Hs. unfold now_millis. pose proof (fun e => nr_now _ Hdone e (im_node s)) as Hf.
  destruct (unix_now_millis (im_node s)) as [n t]. assert (later s (s {{ im_node := n }})) as Hl by (by split).
  split_and!; [by apply (settled_later s)|done|done].
Qed.
Lemma ensures_storage {T} `{!Scale T} s key (P : T -> Importer N -> Prop) :
  (forall v s', later s s' -> reads T key (im_node s) v -> P v s') ->
  ensures s (load_storage_value (T := T) key)
    (fun o s' => match o with Some v => P v s' | None => True end).
Proof.
  intros HP. unfold load_storage_value.
  eapply (ensures_bind _ _ _ (fun response s' =>
    snd (state_getStorage ([48; 120] ++ hex_encode key) (im_node s)) = Ok response)).
  { apply ensures_call; [intros e n; apply (nr_storage _ Hdone)|done]. }
  intros response s' Hl E. destruct response as [value|]; [|by apply ensures_ret].
  destruct (hex_decode (strip_0x value)) as [raw|] eqn:Er; [|apply ensures_fail].
  destruct (scale_decode raw) as [v|] eqn:Ev; [|apply ensures_fail]. apply ensures_ret.
  apply HP; [done|]. by exists value, raw.
Qed.
Lemma ensures_wait {T} k s (q : M (Importer N) Text (option T)) expected (P : Importer N -> Prop) :
  (forall s', ensures s' q (fun o s'' => match o with Some v => expected v = true -> P s'' | None => True end)) ->
  ensures s (wait_for k q expected) (fun _ s' => P s').
Proof.
  intros Hq. revert s. induction k as [|k IH]; intros s; [apply ensures_fail|]. simpl.
  eapply ensures_bind; [apply ensures_map_err, Hq|]. intros [v|] s' _ HP; [|apply IH].
  destruct (expected v); [|apply IH]. apply ensures_ret. auto.
Qed.

(** *** The store *)

Lemma Forall_replace_or_push {A} (P : A -> Prop) f new l : P new -> Forall P l -> Forall P (replace_or_push f new l).
Proof.
  intros Hn Hl. induction Hl as [|x l Hx Hl IH]; simpl; [by constructor|]. destruct (f x); by constructor.
Qed.

Lemma settled_modify {E} s f :
  im_node (f s) = im_node s -> im_payloads s ⊆ im_payloads (f s) ->
  (Settled s -> later s (f s) -> Settled (f s)) ->
  ensures s (modify f : M (Importer N) E unit) (fun _ s' => s' = f s).
Proof.
  intros En Ep Hf Hs. assert (later s (f s)) as Hl by (split; [by rewrite En|done]). by split_and!; [apply Hf| |].
Qed.

Lemma reset_verifying_ok s r : package_ok s r -> package_ok s (reset_verifying r).
Proof. unfold reset_verifying. destruct (pr_state r) eqn:E; [done| |done..]. intros [Hn _]. by split. Qed.

Lemma ensures_load_index s : ensures s (load_index domain) (fun index s' => index_ok s' index).
Proof.
  intros Hs. unfold load_index. cbn [bind gets]. destruct (im_index s) as [file|] eqn:Ef;
    [|split_and!; [done..|]; split; by constructor].
  pose proof (st_index _ Hs file Ef) as Hf. cbn [lift bind].
  destruct file as [index|d imports|v]; [| |by split_and!]; simpl.
  - destruct (bool_decide _); [|by split_and!]. split_and!; [done..|]. destruct Hf as [F1 F2]. split; [done|].
    simpl. apply Forall_fmap. eapply Forall_impl; [exact F2|]. apply reset_verifying_ok.
  - destruct (bool_decide _); [|by split_and!]. split_and!; [done..|]. split; [exact Hf|by constructor].
Qed.
Lemma ensures_save_index s index : index_ok s index -> ensures s (save_index domain index) (fun _ s' => im_index s' = Some (CurrentIndex index)).
Proof.
  intros Hi. unfold save_index. destruct (bool_decide _); [|apply ensures_fail].
  eapply ensures_mono; [apply settled_modify; [done..|]|by intros _ s' _ ->]. intros Hs Hl. split; simpl.
  - eapply index_ok_later; [done|apply Hs].
  - intros file [= <-]. by eapply index_ok_later.
  - apply Hs.
Qed.
Lemma ensures_set_memory {E} s index :
  index_ok s index -> ensures s (modify (fun s => s {{ im_memory := index }}) : M (Importer N) E unit) (fun _ s' => index_ok s' index).
Proof.
  intros Hi. eapply ensures_mono; [apply settled_modify; [done..|]|].
  - intros Hs Hl. split; simpl; [by eapply index_ok_later| |apply Hs].
    intros file Hf. eapply file_ok_later; [done|]. by apply Hs.
  - intros _ s' Hl ->. by eapply index_ok_later.
Qed.
Lemma ensures_persist_record s index r :
  index_ok s index -> import_ok s r -> ensures s (persist_record index r) (fun index' s' => index_ok s' index').
Proof.
  intros Hi Hr. unfold persist_record. eapply ensures_bind; [apply settled_modify; [done..|]|].
  - intros Hs Hl. by apply (settled_later s).
  - intros _ s' Hl ->. apply ensures_ret. apply (index_ok_later _ _ _ Hl) in Hi as [F1 F2]. split; [|done].
    simpl. apply Forall_replace_or_push; [by eapply import_ok_later|done].
Qed.
Lemma ensures_persist_package s index r o :
  index_ok s index -> package_ok s r -> ensures s (persist_package index r o)
    (fun index' s' => index_ok s' index' /\ index' = upsert_package r index).
Proof.
  intros Hi Hr. unfold persist_package. eapply (ensures_bind _ _ _ (fun _ _ => True)).
  { destruct o as [bs|]; [|by apply ensures_ret]. eapply ensures_bind; [apply ensures_gets|].
    intros cur s' _ [-> ->]. destruct (im_payloads s !! pr_payload_path r) as [cur|] eqn:Ec.
    - destruct (bool_decide _); [by apply ensures_ret|apply ensures_fail].
    - eapply ensures_any, settled_modify; [done|by apply insert_subseteq|]. intros Hs Hl. by apply (settled_later s). }
  intros _ s1 Hl1 _. eapply ensures_bind; [apply settled_modify; [done..|]|].
  - intros Hs Hl. split; simpl; [eapply index_ok_later; [done|apply Hs]| |].
    + intros file Hf. eapply file_ok_later; [done|]. by apply Hs.
    + intros path r' [[<- <-]|[_ Hr']]%lookup_insert_Some; [split; [apply Hr|done]|by apply Hs].
  - intros _ s2 Hl2 ->. apply ensures_ret. assert (later s (s1 {{ im_packages ::= <[package_record_path (pr_source_domain r)
      (pr_target_domain r) (pr_epoch_id r) (pr_package_hash r) := r]> }})) as Hl by (by etransitivity).
    apply (index_ok_later _ _ _ Hl) in Hi as [F1 F2]. split; [|done]. split; [done|].
    simpl. apply Forall_replace_or_push; [by eapply package_ok_later|done].
Qed.

(** *** Processing *)
Section Items.
Context (pair : Pair) (account : AccountId) (spec tx : Z) (genesis : hash) (pkg : CertifiedSummaryPackage).

Lemma ensures_submit s nonce c :
  ensures s (submit_call (N := N) pair account spec tx genesis nonce c) (fun _ _ => True).
Proof.
  unfold submit_call, retry. apply ensures_map_err. unfold submit_extrinsic. apply ensures_call; [|done].
  intros e n. apply (nr_submit _ Hdone).
Qed.
Lemma ensures_nonce s a : ensures s (account_next_index (N := N) a) (fun _ _ => True).
Proof. apply ensures_call; [|done]. intros e n. apply (nr_next_index _ Hdone). Qed.

Lemma done_later e s s' : later s s' -> done e (im_node s) -> done e (im_node s').
Proof. intros Hl. apply Hl. Qed.

Lemma ensures_observed s id :
  ensures s (observed_import (N := N) id)
    (fun o s' => match o with Some r => oir_status r = ImportRemoteFinalized -> done (Imported id) (im_node s') | None => True end).
Proof.
  apply (ensures_storage s _ (fun r s' => oir_status r = ImportRemoteFinalized -> done (Imported id) (im_node s'))).
  intros r s' Hl Hr Hst. eapply done_later; [exact Hl|]. by eapply nr_imported.
Qed.
Lemma ensures_export s id :
  ensures s (export_record (N := N) id)
    (fun o s' => match o with Some r => er_status r = RemoteFinalized -> done (Resolved id) (im_node s') | None => True end).
Proof.
  apply (ensures_storage s _ (fun r s' => er_status r = RemoteFinalized -> done (Resolved id) (im_node s'))).
  intros r s' Hl Hr Hst. eapply done_later; [exact Hl|]. by eapply nr_resolved.
Qed.
Lemma ensures_proposal s id :
  ensures s (governance_proposal (N := N) id)
    (fun o s' => match o with Some _ => done (ProposalKnown id) (im_node s') | None => True end).
Proof.
  apply (ensures_storage s _ (fun _ s' => done (ProposalKnown id) (im_node s'))).
  intros r s' Hl Hr. eapply done_later; [exact Hl|]. by eapply nr_proposal.
Qed.
Lemma ensures_ack s id d :
  ensures s (governance_ack_record (N := N) id d)
    (fun o s' => match o with Some _ => done (AckKnown id d) (im_node s') | None => True end).
Proof.
  apply (ensures_storage s _ (fun _ s' => done (AckKnown id d) (im_node s'))).
  intros r s' Hl Hr. eapply done_later; [exact Hl|]. by eapply nr_ack.
Qed.

Lemma recorded_done s index id r : index_ok s index -> record index id = Some r -> transfer_done id s.
Proof.
  intros [F _] Hr. unfold record in Hr. apply find_some in Hr as [Hin Hb]. apply bool_decide_eq_true in Hb.
  rewrite Forall_forall in F. apply list_elem_of_In in Hin. destruct (F r Hin) as (id' & E & Hd).
  rewrite Hb in E. apply hex_hash_inj in E as ->. done.
Qed.

(** A step whose outcome is not needed. *)
Ltac skip_with lem :=
  eapply ensures_bind; [apply ensures_map_err, lem|]; let s1 := fresh "s1" in intros ? s1 ? _.

Lemma ensures_forward s proof acc :
  index_ok s (fs_index acc) ->
  ensures s (forward_export (N := N) pair account spec tx genesis pkg proof acc)
    (fun acc' s' => index_ok s' (fs_index acc') /\ transfer_done (el_export_id (eip_leaf proof)) s').
Proof.
  intros Hi. unfold forward_export. destruct (record _ _) as [r|] eqn:Er.
  { apply ensures_ret. split; [done|by eapply recorded_done]. }
  eapply ensures_bind; [apply ensures_map_err, ensures_observed|]. intros existing s1 Hl1 Hex. cbv zeta.
  apply (index_ok_later _ _ _ Hl1) in Hi.
  match goal with |- ensures _ (if ?b then _ else _) _ => destruct b eqn:Eb end.
  - destruct existing as [r|]; [|done]. apply bool_decide_eq_true in Eb.
    eapply ensures_bind; [apply ensures_map_err, ensures_persist_record; [done|]|].
    + eexists. split; [done|left; auto].
    + intros index s2 Hl2 Hi2. apply ensures_ret. split; [done|]. left. eapply done_later; [done|auto].
  - skip_with ensures_nonce. eapply (ensures_bind _ _ _ (fun _ _ => True)).
    { destruct existing; [by apply ensures_ret|]. eapply ensures_bind; [apply ensures_submit|]. intros. by apply ensures_ret. }
    intros [txs nonce] s3 Hl3 _. eapply ensures_bind; [apply ensures_submit|]. intros ftx s4 Hl4 _.
    eapply ensures_bind; [apply ensures_map_err, (ensures_wait _ _ _ _ (fun s' => done (Imported (el_export_id (eip_leaf proof))) (im_node s')))|].
    { intros sw. eapply ensures_mono; [apply ensures_observed|]. intros [r|] sw' _ Hr; [|done].
      intros Eq%bool_decide_eq_true. auto. }
    intros u s5 Hl5 Hd. eapply ensures_bind; [apply ensures_map_err, ensures_persist_record|].
    + eapply index_ok_later; [|exact Hi]. by repeat (etransitivity; [eassumption|]).
    + eexists. split; [done|by left].
    + intros index s6 Hl6 Hi6. apply ensures_ret. split; [done|]. left. by eapply done_later.
Qed.

Lemma ensures_completion s proof acc :
  index_ok s (cs_index acc) ->
  ensures s (settle_completion (N := N) pair account spec tx genesis pkg proof acc)
    (fun acc' s' => index_ok s' (cs_index acc') /\ transfer_done (fl_export_id (fip_leaf proof)) s').
Proof.
  intros Hi. unfold settle_completion. destruct (record _ _) as [r|] eqn:Er.
  { apply ensures_ret. split; [done|by eapply recorded_done]. }
  eapply ensures_bind; [apply ensures_map_err, ensures_export|]. intros [x|] s1 Hl1 Hex; [|apply ensures_fail].
  apply (index_ok_later _ _ _ Hl1) in Hi. case_bool_decide as Es.
  - eapply ensures_bind; [apply ensures_map_err, ensures_persist_record; [done|]|].
    + eexists. split; [done|right; auto].
    + intros index s2 Hl2 Hi2. apply ensures_ret. split; [done|]. right. eapply done_later; [done|auto].
  - skip_with ensures_nonce. eapply ensures_bind; [apply ensures_submit|]. intros txh s3 Hl3 _.
    eapply ensures_bind; [apply ensures_map_err, (ensures_wait _ _ _ _ (fun s' => done (Resolved (fl_export_id (fip_leaf proof))) (im_node s')))|].
    { intros sw. eapply ensures_mono; [apply ensures_export|]. intros [r|] sw' _ Hr; [|done].
      intros Eq%bool_decide_eq_true. auto. }
    intros u s5 Hl5 Hd. eapply ensures_bind; [apply ensures_map_err, ensures_persist_record|].
    + eapply index_ok_later; [|exact Hi]. by repeat (etransitivity; [eassumption|]).
    + eexists. split; [done|by right].
    + intros index s6 Hl6 Hi6. apply ensures_ret. split; [done|]. right. by eapply done_later.
Qed.

Lemma ensures_leaf s proof acc :
  ensures s (match gip_leaf proof with
             | ProposalV1 leaf => import_proposal_leaf (N := N) pair account spec tx genesis pkg leaf acc
             | AckV1 leaf => import_ack_leaf (N := N) pair account spec tx genesis pkg leaf acc
             end) (fun _ s' => leaf_done (gip_leaf proof) s').
Proof.
  destruct (gip_leaf proof) as [leaf|leaf].
  - unfold import_proposal_leaf. eapply ensures_bind; [apply ensures_map_err, ensures_proposal|].
    intros [p|] s1 Hl1 Hp; [destruct (proposal_facts _ _ _ _ _); [by apply ensures_ret|apply ensures_fail]|].
    skip_with ensures_nonce. eapply ensures_bind; [apply ensures_submit|]. intros txh s3 Hl3 _.
    eapply ensures_bind; [apply ensures_map_err, (ensures_wait _ _ _ _ (fun s' => done (ProposalKnown (gpl_proposal_id leaf)) (im_node s')))|].
    + intros sw. eapply ensures_mono; [apply ensures_proposal|]. intros [r|] sw' _ Hr; [by intros _|done].
    + intros u s4 Hl4 Hd. by apply ensures_ret.
  - unfold import_ack_leaf. eapply ensures_bind; [apply ensures_map_err, ensures_proposal|].
    intros [p|] s1 Hl1 Hp; [|apply ensures_fail]. destruct (proposal_facts _ _ _ _ _); [|apply ensures_fail].
    eapply ensures_bind; [apply ensures_map_err, ensures_ack|]. intros [a|] s2 Hl2 Ha; [by apply ensures_ret|].
    skip_with ensures_nonce. eapply ensures_bind; [apply ensures_submit|]. intros txh s4 Hl4 _.
    eapply ensures_bind; [apply ensures_map_err, (ensures_wait _ _ _ _ (fun s' =>
      done (AckKnown (gal_proposal_id leaf) (gal_acknowledging_domain leaf)) (im_node s')))|].
    + intros sw. eapply ensures_mono; [apply ensures_ack|]. intros [r|] sw' _ Hr; [by intros _|done].
    + intros u s5 Hl5 Hd. by apply ensures_ret.
Qed.

Lemma ensures_forwards proofs : forall s acc,
  index_ok s (fs_index acc) ->
  ensures s (forward_exports (N := N) pair account spec tx genesis pkg proofs acc)
    (fun acc' s' => index_ok s' (fs_index acc') /\ Forall (fun p => transfer_done (el_export_id (eip_leaf p)) s') proofs).
Proof.
  induction proofs as [|p proofs IH]; intros s acc Hi; simpl; [by apply ensures_ret|].
  eapply ensures_bind; [by apply ensures_forward|]. intros acc1 s1 Hl1 [Hi1 Hd].
  eapply ensures_mono; [by apply IH|]. intros acc2 s2 Hl2 [Hi2 HF]. split; [done|].
  constructor; [by eapply transfer_done_later|done].
Qed.
Lemma ensures_completions proofs : forall s acc,
  index_ok s (cs_index acc) ->
  ensures s (settle_completions (N := N) pair account spec tx genesis pkg proofs acc)
    (fun acc' s' => index_ok s' (cs_index acc') /\ Forall (fun p => transfer_done (fl_export_id (fip_leaf p)) s') proofs).
Proof.
  induction proofs as [|p proofs IH]; intros s acc Hi; simpl; [by apply ensures_ret|].
  eapply ensures_bind; [by apply ensures_completion|]. intros acc1 s1 Hl1 [Hi1 Hd].
  eapply ensures_mono; [by apply IH|]. intros acc2 s2 Hl2 [Hi2 HF]. split; [done|].
  constructor; [by eapply transfer_done_later|done].
Qed.
Lemma ensures_leaves proofs : forall s acc,
  ensures s (governance_proofs (N := N) pair account spec tx genesis pkg proofs acc)
    (fun _ s' => Forall (fun p => leaf_done (gip_leaf p) s') proofs).
Proof.
  induction proofs as [|p proofs IH]; intros s acc; simpl; [by apply ensures_ret|].
  eapply ensures_bind; [apply ensures_leaf|]. intros acc1 s1 Hl1 Hd.
  eapply ensures_mono; [by apply IH|]. intros acc2 s2 Hl2 HF. constructor; [by eapply leaf_done_later|done].
Qed.

(** One kind of proofs of a package. *)
Lemma ensures_some {A} s (proofs : list A) process outs (P : A -> Importer N -> Prop) :
  ensures s (process proofs) (fun _ s' => Forall (fun p => P p s') proofs) ->
  ensures s (process_some (N := N) proofs process outs) (fun _ s' => Forall (fun p => P p s') proofs).
Proof.
  intros Hp. destruct proofs as [|p proofs]; [by apply ensures_ret|].
  eapply ensures_bind; [exact Hp|]. intros outcome s1 _ HF. by apply ensures_ret.
Qed.

Lemma ensures_items s items :
  ensures s (process_package_items (N := N) domain pair account spec tx genesis pkg items)
    (fun outcome s' => items_done items s').
Proof.
  unfold process_package_items. eapply ensures_bind; [|intros outs1 s1 Hl1 F1; eapply ensures_bind;
    [|intros outs2 s2 Hl2 F2; eapply ensures_bind; [|intros outs3 s3 Hl3 F3]]].
  - apply (ensures_some _ _ _ _ (fun p s' => transfer_done (el_export_id (eip_leaf p)) s')).
    unfold process_forward_exports. eapply ensures_bind; [apply ensures_map_err, ensures_load_index|].
    intros index s1 _ Hi. eapply ensures_bind; [by apply ensures_forwards|]. intros acc s2 Hl2 [Hi2 HF].
    eapply ensures_bind; [by apply ensures_map_err, ensures_save_index|]. intros _ s3 Hl3 _. apply ensures_ret.
    eapply Forall_impl; [exact HF|]. intros p. by apply transfer_done_later.
  - apply (ensures_some _ _ _ _ (fun p s' => transfer_done (fl_export_id (fip_leaf p)) s')).
    unfold process_settlement_completions. eapply ensures_bind; [apply ensures_map_err, ensures_load_index|].
    intros index s3 _ Hi. eapply ensures_bind; [by apply ensures_completions|]. intros acc s4 Hl4 [Hi4 HF].
    eapply ensures_bind; [by apply ensures_map_err, ensures_save_index|]. intros _ s5 Hl5 _. apply ensures_ret.
    eapply Forall_impl; [exact HF|]. intros p. by apply transfer_done_later.
  - apply (ensures_some _ _ _ _ (fun p s' => leaf_done (gip_leaf p) s')). unfold process_governance_proofs.
    eapply ensures_bind; [apply ensures_leaves|]. intros acc s3 Hl3 HF. by apply ensures_ret.
  - destruct outs3 as [|out outs]; [apply ensures_fail|]. apply ensures_ret. split_and!.
    + eapply Forall_impl; [exact F1|]. intros p. apply transfer_done_later. by etransitivity.
    + eapply Forall_impl; [exact F2|]. intros p. by apply transfer_done_later.
    + done.
Qed.

End Items.

(** *** Handlers *)
Context (submitter_suri : option bytes) (local_version : RuntimeVersionView).

Lemma package_ok_state s r r' :
  names_payload r -> pr_source_domain r' = pr_source_domain r -> pr_target_domain r' = pr_target_domain r ->
  pr_epoch_id r' = pr_epoch_id r -> pr_package_hash r' = pr_package_hash r -> pr_payload_path r' = pr_payload_path r ->
  (acknowledged (pr_state r') = true -> payload_settled (pr_payload_path r) s) -> package_ok s r'.
Proof.
  intros (h & E1 & E2) F1 F2 F3 F4 F5 Hs. unfold package_ok, names_payload. rewrite F1, F2, F3, F4, F5.
  split; [by exists h|done].
Qed.

(** *** What is saved after a package *)

(** The saved index has a record of the package; when the package is
    acknowledged, the saved index is [index] but for that record. *)
Definition saved_from (src dst : DomainId) (e : Z) (h : hash) index s : Prop :=
  exists r index', im_index s = Some (CurrentIndex (upsert_package r index')) /\
    same_package src dst e (hex_hash h) r = true /\ (acknowledged (pr_state r) = true -> index' = index).

Section Outcome.
Context (src dst : DomainId) (e : Z) (h : hash) (index : ImporterIndex).
Let saved (_ : unit) s : Prop := saved_from src dst e h index s.

Lemma ensures_error s r state reason :
  names_payload r -> same_package src dst e (hex_hash h) r = true -> acknowledged state = false ->
  ensures s (finalize_package_error (N := N) domain r state reason) saved.
Proof.
  intros Hr Hid Hst. unfold finalize_package_error. eapply ensures_bind; [apply ensures_load_index|].
  intros index1 s1 _ Hi. eapply ensures_bind; [apply ensures_now|]. intros now s2 Hl2 _.
  eapply ensures_bind; [apply ensures_persist_package; [by eapply index_ok_later|]|].
  - apply (package_ok_state _ r); destruct (importer_state_is_terminal state); simpl; try done; congruence.
  - intros index' s3 _ [Hi' ->]. eapply ensures_mono; [by apply ensures_save_index|]. intros u s4 _ E.
    do 2 eexists. split; [exact E|]. destruct (importer_state_is_terminal state); (split; [done|simpl; congruence]).
Qed.

Lemma ensures_with_rpc {A} s r (m : M (Importer N) Text A) k :
  names_payload r -> same_package src dst e (hex_hash h) r = true -> ensures s m (fun _ _ => True) ->
  (forall a s', later s s' -> ensures s' (k a) saved) -> ensures s (with_rpc domain r m k) saved.
Proof.
  intros Hr Hid Hm Hk. unfold with_rpc. eapply ensures_bind; [by apply ensures_try|].
  intros [a|t] s' Hl _; [by apply Hk|by apply ensures_error].
Qed.
Lemma ensures_check_importer s r m missing wrong a k :
  names_payload r -> same_package src dst e (hex_hash h) r = true -> ensures s m (fun _ _ => True) ->
  (forall s', later s s' -> ensures s' k saved) ->
  ensures s (check_importer (N := N) domain r m missing wrong a k) saved.
Proof.
  intros Hr Hid Hm Hk. unfold check_importer. eapply ensures_bind; [by apply ensures_map_err|].
  intros [configured|] s' Hl _; [|by apply ensures_error]. destruct (bool_decide _); [by apply Hk|by apply ensures_error].
Qed.
Lemma ensures_verified {A} s r (res : result VerifyError A) k :
  names_payload r -> same_package src dst e (hex_hash h) r = true ->
  (forall a, res = Ok a -> ensures s (k a) saved) -> ensures s (with_verified (N := N) domain r res k) saved.
Proof. intros Hr Hid Hk. unfold with_verified. destruct res; [by apply Hk|by apply ensures_error]. Qed.

(** The file of a package names the payload of its identity. *)
Lemma stored_package s r :
  Settled s -> im_packages s !! package_record_path src dst e (hex_hash h) = Some r ->
  names_payload r /\ pr_payload_path r = (src, dst, e, h) /\ same_package src dst e (hex_hash h) r = true.
Proof.
  intros Hs Hr. destruct (st_packages _ Hs _ _ Hr) as [(h' & E1 & E2) E]. split; [by exists h'|].
  rewrite E1 in E. unfold package_record_path in E. injection E as E3 E4 E5 E. rewrite E2.
  apply (f_equal hex_decode) in E. rewrite !hex_decode_encode in E. injection E as <-.
  split; [congruence|]. apply same_package_true. by split_and!.
Qed.

Lemma ensures_submit_items s r pkg items payload :
  names_payload r -> same_package src dst e (hex_hash h) r = true -> index_ok s index -> im_payloads s !! (src, dst, e, h) = Some payload ->
  scale_decode payload = Some pkg -> verified_items domain domain_configs pkg items ->
  ensures s (submit_items (N := N) domain submitter_suri local_version r index pkg items src dst e h) saved.
Proof.
  intros Hr Hid Hi Hp Hdec Hv. unfold submit_items.
  apply ensures_with_rpc; [done|done|apply ensures_call; [intros ? ?; apply (nr_connect _ Hdone)|done]|]. intros _ s1 Hl1.
  destruct submitter_suri as [suri|]; [|by apply ensures_error].
  destruct (pair_from_string suri) as [pair|]; [|by apply ensures_error].
  apply ensures_check_importer; [done|done|by eapply ensures_any, (ensures_storage _ _ (fun _ _ => True))|]. intros s2 Hl2.
  match goal with |- ensures _ (match _ with [] => ?c | _ => _ end) _ =>
    assert (forall s', later s s' -> ensures s' c saved) as Hc end.
  { intros s3 Hl3. apply ensures_with_rpc; [done|done|apply ensures_call; [intros ? ?; apply (nr_version _ Hdone)|done]|].
    intros version s4 Hl4. destruct (negb _); [by apply ensures_error|].
    apply ensures_with_rpc; [done|done|apply ensures_call; [intros ? ?; apply (nr_block_hash _ Hdone)|done]|].
    intros genesis s5 Hl5. eapply ensures_bind; [apply ensures_try, ensures_items|].
    intros [outcome|[m|m]] s6 Hl6 Hd; [|by apply ensures_error..].
    assert (later s s6) as Hl by (by repeat (etransitivity; [eassumption|])). intros Hs6. revert Hs6.
    eapply ensures_bind; [apply ensures_gets|]. intros o s7 _ [-> ->] Hs6.
    destruct (im_packages s6 !! _) as [refreshed|] eqn:Er; [|by apply ensures_fail].
    destruct (stored_package _ _ Hs6 Er) as (Hn & Hpath & Hid'). revert Hs6.
    eapply ensures_bind; [apply ensures_now|]. intros now s8 Hl8 _.
    eapply ensures_bind; [apply ensures_persist_package; [by eapply index_ok_later, Hi; etransitivity|]|].
    - apply (package_ok_state _ refreshed); [done..|]. intros _. rewrite Hpath. exists payload, pkg, items.
      split_and!; [|done|done|by eapply items_done_later].
      eapply lookup_weaken; [exact Hp|]. transitivity (im_payloads s6); [apply Hl|apply Hl8].
    - intros index' s9 _ [Hi' ->]. eapply ensures_mono; [by apply ensures_save_index|]. intros u s10 _ E.
      do 2 eexists. split; [exact E|]. split; [done|]. by intros _. }
  destruct (vi_governance_proofs items); [apply Hc; by etransitivity|].
  apply ensures_check_importer; [done|done|by eapply ensures_any, (ensures_storage _ _ (fun _ _ => True))|].
  intros s3 Hl3. apply Hc. by repeat (etransitivity; [eassumption|]).
Qed.

End Outcome.

Lemma indexed_package s index src dst e h r :
  index_ok s index -> package index src dst e h = Some r ->
  package_ok s r /\ pr_payload_path r = (src, dst, e, h) /\ same_package src dst e (hex_hash h) r = true.
Proof.
  intros [_ F] Hr. unfold package in Hr. apply find_some in Hr as [Hin Hb]. apply list_elem_of_In in Hin.
  rewrite Forall_forall in F. specialize (F r Hin). split; [done|]. split; [|done].
  apply same_package_true in Hb as (B1 & B2 & B3 & B4). destruct F as [(h' & E1 & E2) _]. rewrite E2.
  assert (h' = h) as -> by (apply hex_hash_inj; congruence). congruence.
Qed.

(** The record a package is processed with. *)
Lemma ensures_process s src dst e h :
  ensures s (process_package_by_identity (N := N) domain submitter_suri domain_configs local_version src dst e h)
    (fun _ s' => forall index r, snd (load_index domain s) = Ok index -> package index src dst e h = Some r ->
       importer_state_is_terminal (pr_state r) = false ->
       exists r', same_package src dst e (hex_hash h) r' = true /\ saved_from src dst e h (upsert_package r' index) s').
Proof.
  unfold process_package_by_identity. eapply ensures_bind; [apply ensures_result, ensures_load_index|]. intros index s1 _ [Hi El].
  destruct (package index src dst e h) as [r|] eqn:Er; [|apply ensures_fail].
  destruct (indexed_package _ _ _ _ _ _ _ Hi Er) as ([Hn _] & Hpath & Hid).
  destruct (importer_state_is_terminal (pr_state r)) eqn:Et; [apply ensures_ret; congruence|].
  eapply ensures_bind; [apply ensures_now|]. intros now s2 Hl2 _. cbv zeta.
  set (r' := r {{ pr_state := Verifying }} {{ pr_last_updated_at_unix_ms := now }} {{ pr_reason := None }}).
  assert (names_payload r') as Hn' by exact Hn. assert (same_package src dst e (hex_hash h) r' = true) as Hid' by exact Hid.
  eapply ensures_bind; [apply ensures_persist_package; [by eapply index_ok_later|by apply (package_ok_state _ r)]|].
  intros index' s3 Hl3 [Hi' ->]. eapply ensures_bind; [by apply ensures_save_index|]. intros _ s4 Hl4 _.
  apply (index_ok_later _ _ _ Hl4) in Hi'. unfold load_package_bytes.
  eapply (ensures_mono _ _ (fun _ s' => saved_from src dst e h (upsert_package r' index) s'));
    [|intros u s' _ Hsv index0 r0 E0 _ _; exists r'; rewrite El in E0; by injection E0 as <-].
  eapply (ensures_bind _ _ _ (fun payload s5 => s5 = s4 /\ im_payloads s4 !! (src, dst, e, h) = Some payload)).
  { eapply ensures_bind; [apply ensures_gets|]. intros o s5 _ [-> ->].
    destruct (im_payloads s4 !! _) as [payload|] eqn:Ep; [|apply ensures_fail]. apply ensures_ret. split; [done|].
    by rewrite <-Hpath. }
  intros payload s5 _ [-> Hp]. destruct (scale_decode payload) as [pkg|] eqn:Ed; [|by apply ensures_error].
  apply ensures_verified; [done|done|]. intros [] E1. apply ensures_verified; [done|done|]. intros certificate E2.
  apply ensures_verified; [done|done|]. intros [] E3. apply ensures_verified; [done|done|]. intros items E4.
  eapply ensures_submit_items; [done|done|done|done|done|]. by exists certificate.
Qed.

Lemma ensures_ensure s index src dst e sh ph c now bs :
  index_ok s index ->
  ensures s (ensure_package_record (N := N) index src dst e sh ph c now bs) (fun res s' => index_ok s' res.1.1).
Proof.
  intros Hi. unfold ensure_package_record. destruct (package _ _ _ _ _) as [r|] eqn:Er.
  - eapply ensures_bind; [apply ensures_persist_package; [done|]|].
    + by destruct (indexed_package _ _ _ _ _ _ _ Hi Er).
    + intros index' s' _ [Hi' _]. by apply ensures_ret.
  - eapply ensures_bind; [apply ensures_persist_package; [done|]|].
    + split; [by exists ph|done].
    + intros index' s' _ [Hi' _]. by apply ensures_ret.
Qed.

Lemma ensures_receive s body : ensures s (receive_package (N := N) domain body) (fun _ _ => True).
Proof.
  unfold receive_package. destruct (scale_decode body) as [env|]; [|apply ensures_fail].
  destruct (scale_decode (env_package_bytes env)) as [pkg|]; [|apply ensures_fail].
  eapply ensures_bind; [apply ensures_lift|]. intros _ s1 _ [_ ->].
  eapply ensures_bind; [apply ensures_lift|]. intros view s1 _ [_ ->]. destruct (_ && _); [|apply ensures_fail].
  eapply ensures_bind; [apply ensures_now|]. intros now s1 Hl1 _ Hs1. revert Hs1.
  eapply (ensures_bind _ _ _ (fun index s2 => index_ok s2 index)); [intros Hs1; split_and!; [done..|apply Hs1]|].
  intros index s2 _ Hi. eapply ensures_bind; [by apply ensures_ensure|]. intros [[index' r] known] s3 _ Hi'. simpl in Hi'.
  eapply ensures_bind; [by apply ensures_set_memory|]. intros u s4 _ Hi4.
  eapply ensures_bind; [by apply ensures_save_index|]. intros. by apply ensures_ret.
Qed.

Lemma ensures_command s bs :
  ensures s (verify_package_command (N := N) domain submitter_suri domain_configs local_version bs) (fun _ _ => True).
Proof.
  unfold verify_package_command. destruct (scale_decode bs) as [pkg|]; [|apply ensures_fail].
  eapply ensures_bind; [apply ensures_lift|]. intros _ s1 _ [_ ->].
  eapply ensures_bind; [apply ensures_lift|]. intros view s1 _ [_ ->].
  eapply ensures_bind; [apply ensures_now|]. intros now s1 Hl1 _.
  eapply ensures_bind; [apply ensures_load_index|]. intros index s2 _ Hi.
  eapply ensures_bind; [by apply ensures_ensure|]. intros [[index' r] known] s3 _ Hi'. simpl in Hi'.
  eapply ensures_bind; [by apply ensures_save_index|]. intros _ s4 _ _.
  eapply ensures_bind; [apply ensures_lift|]. intros h s5 _ [_ ->].
  eapply ensures_bind; [apply ensures_process|]. intros _ s6 _ _.
  eapply ensures_bind; [apply ensures_load_index|]. intros index6 s7 _ _.
  destruct (package _ _ _ _ _); [by apply ensures_ret|apply ensures_fail].
Qed.

Lemma ensures_pending s :
  ensures s (process_pending_packages_once (N := N) domain submitter_suri domain_configs local_version) (fun _ _ => True).
Proof.
  eapply ensures_bind; [apply ensures_gets|]. intros work s1 _ [_ ->]. revert s.
  induction work as [|r work IH]; intros s; simpl; [by apply ensures_ret|].
  eapply ensures_bind; [|intros _ s1 _ _; apply IH]. unfold process_and_refresh.
  eapply ensures_bind; [apply ensures_lift|]. intros h s1 _ [_ ->].
  eapply ensures_bind; [apply ensures_process|]. intros _ s2 _ _.
  eapply ensures_bind; [apply ensures_load_index|]. intros index s3 _ Hi.
  by eapply ensures_any, ensures_set_memory.
Qed.

Lemma ensures_start s : ensures s (start_importer (N := N) domain) (fun _ _ => True).
Proof.
  eapply ensures_bind; [apply ensures_load_index|]. intros index s1 _ Hi. by eapply ensures_any, ensures_set_memory.
Qed.

Lemma ensures_settled {E A} s (m : M (Importer N) E A) Q :
  Settled s -> ensures s m Q -> Settled (fst (m s)) /\ later s (fst (m s)).
Proof. intros Hs Hm. specialize (Hm Hs). destruct (m s). by destruct Hm as (? & ? & _). Qed.

(** C8: the importer acknowledges only what is done.  Whatever is received and
    whatever the node answers: a package the importer reports as acknowledged is
    stored, it passed every check, and the node has reported each of its items
    as done: each transfer imported here or resolved here, each proposal and each
    acknowledgement known. *)
Theorem acknowledged_packages_done world s s' r :
  (forall n n' e, world n n' -> done e n -> done e n') ->
  Settled s -> rtc (importer_step domain submitter_suri domain_configs local_version world) s s' ->
  r ∈ ii_packages (im_memory s') -> acknowledged (pr_state r) = true -> payload_settled (pr_payload_path r) s'.
Proof.
  intros Hw Hs Hrun Hin Ha. enough (Settled s') as Hs'.
  { destruct (st_memory _ Hs') as [_ F]. rewrite Forall_forall in F. by apply F. }
  clear r Hin Ha. induction Hrun as [|s1 s2 s3 Hstep _ IH]; [done|]. apply IH.
  destruct Hstep as [s body|s|s bs|s|s n Hn]; [eapply ensures_settled..|]; try done.
  - apply ensures_receive.
  - apply ensures_pending.
  - apply ensures_command.
  - apply ensures_start.
  - apply (settled_later s); [|done..]. split; [|done]. intros e. by apply Hw.
Qed.

(** C34: what is saved after a package.  When the importer has processed a
    package, the saved index has a record of it; and when that record is an
    acknowledgement, the saved index is otherwise the one that was loaded before
    the package was processed: the same import records, so none of those written
    for the package's own items, and the same other packages. *)
Theorem processed_package_restores_index s s' index src dst e h r :
  Settled s -> snd (load_index domain s) = Ok index -> package index src dst e h = Some r ->
  importer_state_is_terminal (pr_state r) = false ->
  process_package_by_identity (N := N) domain submitter_suri domain_configs local_version src dst e h s = (s', Ok tt) ->
  exists index' r', im_index s' = Some (CurrentIndex index') /\ package index' src dst e h = Some r' /\
    (acknowledged (pr_state r') = true ->
     ii_imports index' = ii_imports index /\
     forall src2 dst2 e2 h2, (src2, dst2, e2, h2) <> (src, dst, e, h) ->
       package index' src2 dst2 e2 h2 = package index src2 dst2 e2 h2).
Proof.
  intros Hs Hl Hr Ht Hop. pose proof (ensures_process s src dst e h Hs) as Hp. rewrite Hop in Hp.
  destruct Hp as (_ & _ & Hp). destruct (Hp index r Hl Hr Ht) as (r0 & Hid0 & r1 & index1 & E & Hid1 & Ha).
  assert (forall r2 src2 dst2 e2 h2, same_package src dst e (hex_hash h) r2 = true ->
    (src2, dst2, e2, h2) <> (src, dst, e, h) -> same_package src2 dst2 e2 (hex_hash h2) r2 = false) as Hne.
  { intros r2 src2 dst2 e2 h2 (A1 & A2 & A3 & A4)%same_package_true Hne. apply not_true_iff_false.
    intros (B1 & B2 & B3 & B4)%same_package_true. apply Hne.
    assert (h2 = h) as -> by (apply hex_hash_inj; congruence). congruence. }
  eexists _, r1. split; [exact E|]. split; [by apply package_upsert|]. intros ->%Ha. split; [done|].
  intros src2 dst2 e2 h2 Hother. rewrite !package_upsert_other by (by apply Hne). done.
Qed.
End Settled.

(** ** The relay and the importer *)
Section Handover.
Context `{!Codec, !HexCodec, !HexCodecOk, !LightClient, !Account, !StorageCodec, !Keys} {N : Type} `{!NodeRpc N}.

Lemma persist_accepts (s : Importer N) index r bs :
  from_option (fun bs' => bs' = bs) True (im_payloads s !! pr_payload_path r) ->
  exists s', persist_package index r (Some bs) s = (s', Ok (upsert_package r index)) /\
    im_payloads s' !! pr_payload_path r = Some bs /\ im_node s' = im_node s.
Proof.
  intros Hp. unfold persist_package, bind, gets, modify, ret. destruct (im_payloads s !! _) as [bs'|] eqn:E; simpl in Hp.
  - subst bs'. rewrite bool_decide_eq_true_2 by done. eexists. split; [done|]. done.
  - eexists. split; [done|]. simpl. by rewrite lookup_insert_eq.
Qed.

(** The record of a package that was not known. *)
Definition fresh_record (index : ImporterIndex) src dst e (ph : hash) (r : PackageRecord) : Prop :=
  package index src dst e ph = None -> pr_state r = Received /\ pr_payload_path r = (src, dst, e, ph).

Lemma ensure_accepts (s : Importer N) index src dst e sh ph c now bs :
  Forall names_payload (ii_packages index) ->
  from_option (fun bs' => bs' = bs) True (im_payloads s !! (src, dst, e, ph)) ->
  exists s' index' r known, ensure_package_record index src dst e sh ph c now bs s = (s', Ok (index', r, known)) /\
    package index' src dst e ph = Some r /\ ii_domain_id index' = ii_domain_id index /\
    im_payloads s' !! (src, dst, e, ph) = Some bs /\ im_node s' = im_node s /\
    ii_imports index' = ii_imports index /\ fresh_record index src dst e ph r.
Proof.
  intros Hn Hp. unfold ensure_package_record, fresh_record. destruct (package index src dst e ph) as [r|] eqn:Er.
  - pose proof Er as Hr. unfold package in Hr. apply find_some in Hr as [Hin Hb]. apply list_elem_of_In in Hin.
    rewrite Forall_forall in Hn. destruct (Hn r Hin) as (h & E1 & E2). pose proof Hb as (B1 & B2 & B3 & B4)%same_package_true.
    assert (h = ph) as -> by (apply hex_hash_inj; congruence). rewrite B1, B2, B3 in E2.
    destruct (persist_accepts s index r bs) as (s' & Ep & Hs' & En); [by rewrite E2|]. rewrite E2 in Hs'.
    unfold bind. rewrite Ep. do 4 eexists. split; [done|]. split; [by apply package_upsert|done].
  - set (r := build_package_record src dst e sh ph c now).
    destruct (persist_accepts s index r bs Hp) as (s' & Ep & Hs' & En).
    unfold bind. rewrite Ep. do 4 eexists. split; [done|]. split; [|done]. apply package_upsert. by apply same_package_true.
Qed.

(** What the relay accepts, the importer accepts: an envelope that passes the
    relay's checks is accepted by the importer of its target domain, unless another
    payload is stored for the same package.  The importer then knows the package and
    has stored the bytes it carries. *)
Lemma relayed_package_received env pkg body (s : Importer N) :
  decode_and_validate_envelope body = Ok (env, pkg) ->
  ii_domain_id (im_memory s) = env_target_domain env ->
  Forall names_payload (ii_packages (im_memory s)) ->
  let src := env_source_domain env in
  let dst := env_target_domain env in
  let e := env_epoch_id env in
  let h := env_package_hash env in
  from_option (fun bs => bs = env_package_bytes env) True (im_payloads s !! (src, dst, e, h)) ->
  exists s' known r, receive_package dst body s = (s', Ok (known, r)) /\
    package (im_memory s') src dst e h = Some r /\ fresh_record (im_memory s) src dst e h r /\
    im_index s' = Some (CurrentIndex (im_memory s')) /\ im_payloads s' !! (src, dst, e, h) = Some (env_package_bytes env) /\
    im_node s' = fst (unix_now_millis (im_node s)) /\ ii_imports (im_memory s') = ii_imports (im_memory s) /\
    ii_domain_id (im_memory s') = dst.
Proof.
  unfold decode_and_validate_envelope. intros Hop Hdom Hn. cbv zeta. intros Hp. dispatch_inv Hop. bool_to_prop. subst.
  match goal with H : derive_target_domain _ = Ok _ |- _ => apply derive_inspect in H as Hv end.
  match goal with H : pkg_package_hash pkg = _ |- _ => rename H into Eh end.
  match goal with H : sh_domain_id _ = _ |- _ => rename H into Ed end.
  match goal with H : sh_epoch_id _ = _ |- _ => rename H into Ee end.
  match goal with H : sh_summary_hash _ = _ |- _ => rename H into Es end.
  match goal with H : compute_package_hash _ = _ |- _ => rename H into Ec end.
  match goal with H : scale_decode body = _ |- _ => rename H into D1 end.
  match goal with H : scale_decode (env_package_bytes env) = _ |- _ => rename H into D2 end.
  unfold receive_package. rewrite D1, D2. unfold verify_package_hash. rewrite Ec, bool_decide_eq_true_2 by done.
  rewrite Hv. unfold bind, lift. simpl. rewrite Ed, Ee, Es, Eh, !bool_decide_eq_true_2, !Z.eqb_refl by done. simpl.
  unfold now_millis. destruct (unix_now_millis (im_node s)) as [n now]. simpl.
  match goal with |- context [ensure_package_record ?i ?a ?b ?c ?d ?e ?f ?g ?h ?s1] =>
    destruct (ensure_accepts s1 i a b c d e f g h Hn Hp) as (s' & index' & r & known & E & Hpk & Hd & Hpl & En & Ei & Hf) end.
  rewrite E. unfold save_index. rewrite bool_decide_eq_true_2 by congruence. simpl. do 3 eexists. split; [done|].
  split_and!; try done. simpl. congruence.
Qed.
End Handover.
