(* ===== verification/ChainProgress.v ===== *)
(** * What becomes of the calls an importer submits

    A chain grows by blocks.  The blocks hold extrinsics of anybody, and among
    them, in the order they were submitted, the calls of the importer's account.
    This file follows such a growing chain between two submissions: what others do
    leaves alone what the importer waits for ([quiet]), and each call of the
    importer moves the chain as the pallets say.  A stage describes the chain by
    the calls that are still to be executed; when none is left, the chain is where
    the importer wants it ([grows_stage]). *)

From S2P Require Import Prelude Types Codec Frame Domain Epochs Transfers TransfersProofs Governance GovernanceProofs PublicationProofs Runtime RuntimeProofs Verify Effects Importer ImporterProofs ImporterSafety.

(** ** The governance pallet, seen by an importer *)
Section Governance.
Context `{!Codec, !Account, !AccountOk}.
Context (d : DomainId).
Context (proposal_ids_distinct : forall d1 d2 s1 s2,
  0 <= s1 < u64_max -> 0 <= s2 < u64_max ->
  governance_proposal_id d1 s1 = governance_proposal_id d2 s2 -> d1 = d2 /\ s1 = s2).

(** Identifiers of other domains. *)
Definition foreign (id : hash) : Prop :=
  exists src seq, src <> d /\ 0 <= seq < u64_max /\ id = governance_proposal_id src seq.

(** What others leave alone: the importer, the acknowledgements, and the place of
    a proposal of another domain. *)
Record gov_quiet (st st' : GovernanceState) : Prop := {
  gq_importer : gs_importer_account st' = gs_importer_account st;
  gq_acks : gs_ack_records_by_key st' = gs_ack_records_by_key st;
  gq_absent : forall id, foreign id -> gs_proposals_by_id st !! id = None -> gs_proposals_by_id st' !! id = None
}.

#[export] Instance gov_quiet_preorder : PreOrder gov_quiet.
Proof. split; [by split|]. intros s1 s2 s3 [A1 A2 A3] [B1 B2 B3]. split; [congruence|congruence|auto]. Qed.

Lemma insert_leaves_importer {A} (f : A -> GovernanceLeaf) ep l st :
  gs_importer_account (foldl (fun st x => insert_epoch_leaf ep st (f x)) st l) = gs_importer_account st.
Proof. revert st. induction l as [|x l IH]; intros st; [done|]. simpl. by rewrite IH. Qed.

Lemma try_activate_importer id e h st :
  gs_importer_account (try_activate_proposal id e h st).2 = gs_importer_account st.
Proof.
  unfold try_activate_proposal.
  repeat first [done | match goal with |- context [match ?x with _ => _ end] => destruct x end].
Qed.
Lemma on_initialize_importer sys e st : gs_importer_account (governance_on_initialize sys e st) = gs_importer_account st.
Proof.
  unfold governance_on_initialize, activate_ready_queue, activate_epoch_bucket. destruct (_ =? 0); [done|].
  set (h := saturated_into_u32 _). set (stb := foldl _ st _).
  transitivity (gs_importer_account stb).
  - generalize (gs_ready_activation_ids stb). intros ids. clearbody stb. revert stb.
    induction ids as [|id ids IH]; intros stb; [done|]. simpl.
    pose proof (try_activate_importer id e h stb) as E1. destruct (try_activate_proposal id e h stb) as [b st1].
    specialize (IH st1). simpl in *. destruct (activate_all ids e h st1) as [rem st2]. simpl in *. congruence.
  - unfold stb. clear stb. generalize (gs_scheduled_by_epoch st !!! e). intros ids. revert st.
    induction ids as [|id ids IH]; intros st; [done|]. simpl. by rewrite IH, try_activate_importer.
Qed.
Lemma schedule_importer id e st : gs_importer_account (maybe_schedule_activation id e st) = gs_importer_account st.
Proof.
  unfold maybe_schedule_activation.
  repeat first [done | match goal with |- context [match ?x with _ => _ end] => destruct x end].
Qed.
Lemma schedule_acks id e st : gs_ack_records_by_key (maybe_schedule_activation id e st) = gs_ack_records_by_key st.
Proof.
  unfold maybe_schedule_activation.
  repeat first [done | match goal with |- context [match ?x with _ => _ end] => destruct x end].
Qed.

Lemma import_base_importer e sys leaf st : gs_importer_account (import_base d e sys leaf st) = gs_importer_account st.
Proof. unfold import_base, record_local_ack_and_fanout. simpl. by rewrite insert_leaves_importer. Qed.

Lemma quiet_create e balance origin targets version st st' :
  IdInv d st -> gs_next_proposal_sequence st < u64_max ->
  create_proposal d e balance origin targets version st = Ok st' -> gov_quiet st st'.
Proof.
  intros HI Hlt (who & targets' & total & power & _ & _ & _ & _ & _ & ->)%create_proposal_inv. split; [done..|]. simpl.
  intros id (src & seq & Hne & Hseq & ->) Hid. rewrite lookup_insert_ne; [done|].
  intros [E _]%proposal_ids_distinct; [congruence| |done]. destruct HI as [I1 _]. lia.
Qed.
Lemma quiet_vote e sys origin id choice st st' : cast_vote e sys origin id choice st = Ok st' -> gov_quiet st st'.
Proof.
  intros (who & p & power & vote & -> & _ & Hp & _)%cast_vote_inv. split; [done..|]. simpl.
  intros id' _ Hid. rewrite lookup_insert_ne; [done|]. congruence.
Qed.
Lemma quiet_close e origin id st st' : close_proposal e origin id st = Ok st' -> gov_quiet st st'.
Proof.
  intros (p & Hp & _ & _ & Hcase)%close_proposal_inv. destruct (_ && _); subst st'.
  - set (st1 := store_activation_record (accepted e p) [] None st).
    destruct (insert_outbound_same (accepted e p) e st1) as (E1 & _ & E3 & _).
    split; simpl; [unfold insert_outbound_proposal_leaves; by rewrite insert_leaves_importer|by rewrite E3|].
    intros id' _ Hid. rewrite lookup_insert_ne by congruence. by rewrite E1.
  - split; [done..|]. simpl. intros id' _ Hid. rewrite lookup_insert_ne; [done|]. congruence.
Qed.
Lemma quiet_hook sys e st : sys_block_number sys <> 0 -> ActCore e st -> gov_quiet st (governance_on_initialize sys e st).
Proof.
  intros Hn HA. pose proof (on_initialize_importer sys e st) as Ei.
  destruct (on_initialize_spec sys e st Hn HA) as (st1 & rem & Hr & E & _). rewrite E in *. split; [done|..]; simpl.
  - apply (act_rtc_frame _ _ _ _ Hr).
  - intros id _ Hid. pose proof (act_rtc_proposals _ _ _ _ id Hr) as Hm. rewrite Hid in Hm.
    by destruct (gs_proposals_by_id st1 !! id).
Qed.
End Governance.

(** ** The chain, seen by an importer *)
Section Progress.
Context `{!Codec, !CodecOk, !CodecSep, !Account, !AccountOk, !Currency B, !CurrencyOk B}.
Context (d : DomainId) (L : Z) (HL : 1 <= L).
Context (export_ids_distinct : forall s s',
  0 <= s < u64_max -> 0 <= s' < u64_max -> export_id d s = export_id d s' -> s = s').
Context (proposal_ids_distinct : forall d1 d2 s1 s2,
  0 <= s1 < u64_max -> 0 <= s2 < u64_max ->
  governance_proposal_id d1 s1 = governance_proposal_id d2 s2 -> d1 = d2 /\ s1 = s2).
(** The account of the importer. *)
Context (importer : AccountId).
Implicit Types (ch : Chain B) (cs : list RuntimeCall).

Definition imports_of ch : gmap hash ObservedImportRecord := ts_observed_imports_by_id (w_transfers (ch_world ch)).
Definition exports_of ch : gmap hash ExportRecord := ts_exports_by_id (w_transfers (ch_world ch)).
Definition proposals_of ch : gmap hash GovernanceProposal := gs_proposals_by_id (w_governance (ch_world ch)).
Definition acks_of ch : gmap (hash * DomainId) GovernanceAckRecord := gs_ack_records_by_key (w_governance (ch_world ch)).
(** Both pallets take the importer's calls. *)
Definition configured ch : Prop :=
  ts_importer_account (w_transfers (ch_world ch)) = Some importer /\
  gs_importer_account (w_governance (ch_world ch)) = Some importer.

Record transfers_quiet (st st' : TransfersState) : Prop := {
  tq_importer : ts_importer_account st' = ts_importer_account st;
  tq_imports : ts_observed_imports_by_id st' = ts_observed_imports_by_id st;
  tq_exported : forall id r, ts_exports_by_id st !! id = Some r -> er_status r = Exported ->
    ts_exports_by_id st' !! id = Some r
}.

(** What others leave alone, on a chain that goes on. *)
Record quiet ch ch' : Prop := {
  q_advances : advances d ch ch';
  q_transfers : transfers_quiet (w_transfers (ch_world ch)) (w_transfers (ch_world ch'));
  q_governance : gov_quiet d (w_governance (ch_world ch)) (w_governance (ch_world ch'))
}.

#[export] Instance transfers_quiet_preorder : PreOrder transfers_quiet.
Proof. split; [by split|]. intros s1 s2 s3 [A1 A2 A3] [B1 B2 B3]. split; [congruence|congruence|auto]. Qed.
#[export] Instance chain_quiet_preorder : PreOrder quiet.
Proof. split; [by split|]. intros s1 s2 s3 [A1 A2 A3] [B1 B2 B3]. split; by etransitivity. Qed.

Lemma quiet_configured ch ch' : quiet ch ch' -> configured ch -> configured ch'.
Proof. intros [_ [E _ _] [E' _ _]]. unfold configured. by rewrite E, E'. Qed.

Lemma quiet_charge ch xt : admissible ch xt -> quiet ch (charge xt ch).
Proof. intros Ha. split; [by apply charge_advances|done|done]. Qed.

Lemma quiet_finalize ch sys : quiet ch (finalize_block sys ch).
Proof.
  split; [|done|done]. unfold finalize_block, advances, transfers_conf, gov_conf, current_epoch, epochs_on_finalize. simpl.
  destruct (_ =? 0); split; apply rtc_refl.
Qed.

(** The transfers of others. *)
Lemma quiet_transfer (b : B) st e sys origin target recipient amount (b' : B) st' :
  ExportsInv d (mkConf b st e) -> ts_next_export_sequence st < u64_max ->
  create_cross_domain_transfer d e sys origin target recipient amount (b, st) = Ok (b', st') -> transfers_quiet st st'.
Proof.
  intros HI Hlt Hop. pose proof (fresh_export_id d export_ids_distinct _ HI Hlt) as Hf. simpl in Hf.
  unfold create_cross_domain_transfer in Hop. dispatch_inv Hop. simplify_eq. split; [done..|]. simpl.
  intros id r Hr _. by rewrite lookup_insert_ne by congruence.
Qed.
Lemma quiet_commit ep leaves st : transfers_quiet st (foldl (mark_exported ep) st leaves).
Proof.
  destruct (foldl_mark_frame ep leaves st) as (_ & _ & E2 & E3 & _). split; [done..|].
  intros id r Hr Hs. rewrite (foldl_mark_lookup d export_ids_distinct), Hr. simpl. f_equal. case_decide; [|done].
  by apply set_exported_id.
Qed.

Lemma quiet_enter hist bl ch :
  ChainOk d ch -> epochs_run d L hist (ch_world ch, ch_epochs ch) ->
  sys_block_number (bl_sys bl) = Z.of_nat (length hist) + 1 -> sys_block_number (bl_sys bl) <= u32_max ->
  quiet ch (enter_block bl ch).
Proof.
  intros Hok Hrun Hn Hmax. split; [by eapply (enter_block_advances d L)|..];
    rewrite enter_block_unfold; cbv zeta;
    destruct (epochs_on_initialize _ _) as [w2 es2] eqn:E; cbn [fst snd];
    pose proof (epochs_run_state d L HL export_ids_distinct _ _ Hrun) as Hst; simpl in Hst;
    assert (local_domain_id (before_epochs bl ch) = d) as Hd
      by (unfold local_domain_id; simpl; rewrite domain_on_initialize_id; exact (co_domain _ _ Hok));
    apply (epochs_init_cases d L hist) in E as [(-> & Ec & _)|Hc]; try done;
    try (unfold closes in Hc; cbn [commit_epoch_exports_hook commit_epoch_imports_hook commit_epoch_governance_hook
      runtime_providers] in Hc; destruct (commit_epoch_exports _ _ _ _ _) as [root st] eqn:Ecm;
      cbn [fst snd] in Hc; destruct Hc as (-> & Ec & _)); simpl.
  - injection Ecm as <- <-. apply quiet_commit.
  - destruct (gov_reachable_act d proposal_ids_distinct _ (co_governance _ _ Hok)) as [[HA _] _].
    apply quiet_hook; [lia|]. by rewrite Ec.
  - destruct (gov_reachable_act d proposal_ids_distinct _ (co_governance _ _ Hok)) as [[HA _] _].
    apply quiet_hook; [lia|]. rewrite Ec. eapply act_core_mono; [|exact HA]. unfold gov_conf, current_epoch. simpl. lia.
Qed.

(** The calls of others. *)
Lemma quiet_dispatch sys origin call ch ch' :
  ChainOk d ch -> call_admissible ch call -> configured ch -> origin <> Signed importer ->
  dispatch sys origin call ch = Ok ch' -> quiet ch ch'.
Proof.
  intros Hok Hadm [Ht Hg] Ho Hop. pose proof (dispatch_advances d _ _ _ _ _ Hok Hadm Hop) as Ha.
  destruct (gov_reachable_act d proposal_ids_distinct _ (co_governance _ _ Hok)) as [_ HI].
  destruct (transfers_reachable_inv d export_ids_distinct _ (co_transfers _ _ Hok)) as [HX _].
  unfold dispatch in Hop. rewrite (co_domain _ _ Hok) in Hop.
  destruct call; simpl in Hadm; cbv zeta in Hop;
    match type of Hop with
    | with_transfers _ ?r = _ => destruct r as [[b st]|err] eqn:E; [|done]
    | with_governance _ ?r = _ => destruct r as [st|err] eqn:E; [|done]
    end; injection Hop as <-; (split; [done|..]; simpl; try done);
    try (by eapply quiet_transfer; [exact HX|..]);
    try (by eapply quiet_create; [done|exact HI|apply Hadm|exact E]);
    try (by eapply quiet_vote); try (by eapply quiet_close);
    exfalso; unfold observe_verified_import, finalize_verified_import, acknowledge_remote_finalization,
      import_verified_governance_proposal, import_verified_governance_ack in E;
    destruct origin; simpl in E; try done; rewrite ?Ht, ?Hg in E;
    (rewrite bool_decide_eq_false_2 in E; [done|congruence]).
Qed.

(** ** What a package asks of the chain *)

Inductive Item : Type :=
| ItemExport (leaf : ExportLeaf)
| ItemCompletion (leaf : FinalizedImportLeaf)
| ItemProposal (leaf : GovernanceProposalLeaf)
| ItemAck (leaf : GovernanceAckLeaf).

Definition item_effect (i : Item) : Effect :=
  match i with
  | ItemExport leaf => Imported (el_export_id leaf)
  | ItemCompletion leaf => Resolved (fl_export_id leaf)
  | ItemProposal leaf => ProposalKnown (gpl_proposal_id leaf)
  | ItemAck leaf => AckKnown (gal_proposal_id leaf) (gal_acknowledging_domain leaf)
  end.

(** The chain has done it. *)
Definition chain_done ch (e : Effect) : Prop :=
  match e with
  | Imported id => exists r, imports_of ch !! id = Some r /\ oir_status r = ImportRemoteFinalized
  | Resolved id => exists r, exports_of ch !! id = Some r /\ er_status r = RemoteFinalized
  | ProposalKnown id => is_Some (proposals_of ch !! id)
  | AckKnown id x => is_Some (acks_of ch !! (id, x))
  end.

(** What does not depend on the chain: a package for this domain, with recipients
    that are accounts and with the identifiers its source domain gives. *)
Definition valid_item (i : Item) : Prop :=
  match i with
  | ItemExport leaf => el_target_domain leaf = d /\ is_Some (account_from_bytes (el_recipient leaf))
  | ItemCompletion leaf => fl_source_domain leaf = d
  | ItemProposal leaf =>
    gpl_target_domain leaf = d /\ gpl_source_domain leaf <> d /\ d ∈ gpl_target_domains leaf /\
    payload_hash (SetProtocolVersion (gpl_new_protocol_version leaf)) = gpl_payload_hash leaf /\
    exists seq, 0 <= seq < u64_max /\ gpl_proposal_id leaf = governance_proposal_id (gpl_source_domain leaf) seq
  | ItemAck leaf =>
    gal_target_domain leaf = d /\ gal_acknowledging_domain leaf <> d /\
    gal_acknowledging_domain leaf ∈ gal_target_domains leaf
  end.

(** A proposal of the chain with the terms of a proposal leaf or of an acknowledgement. *)
Definition has_facts (p : GovernanceProposal) (source : DomainId) (targets : list DomainId) (payload : hash)
    (activation : Z) : Prop :=
  finalized_status (gp_status p) /\ proposal_facts p source targets payload activation = true.
Definition proposal_fits (leaf : GovernanceProposalLeaf) (p : GovernanceProposal) : Prop :=
  has_facts p (gpl_source_domain leaf) (gpl_target_domains leaf) (gpl_payload_hash leaf) (gpl_activation_epoch leaf).
Definition ack_fits (leaf : GovernanceAckLeaf) (p : GovernanceProposal) : Prop :=
  has_facts p (gal_source_domain leaf) (gal_target_domains leaf) (gal_payload_hash leaf) (gal_activation_epoch leaf) /\
  protocol_version (gp_payload p) = gal_new_protocol_version leaf.
Definition export_fits (leaf : FinalizedImportLeaf) (l : ExportLeaf) : Prop :=
  fl_target_domain leaf = el_target_domain l /\ fl_source_epoch_id leaf = el_source_epoch_id l /\
  fl_recipient leaf = el_recipient l /\ fl_amount leaf = el_amount l.

(** The chain does not contradict an item: an import that is already observed, an
    export that was made, a proposal that is already held have the terms of the item. *)
Definition ready ch (i : Item) : Prop :=
  match i with
  | ItemExport leaf => forall r, imports_of ch !! el_export_id leaf = Some r ->
    oir_status r = ImportRemoteFinalized \/ oir_recipient r = el_recipient leaf /\ oir_amount r = el_amount leaf
  | ItemCompletion leaf => exists r, exports_of ch !! fl_export_id leaf = Some r /\
    export_fits leaf (er_leaf r) /\ er_status r <> LocalFinal
  | ItemProposal leaf => forall p, proposals_of ch !! gpl_proposal_id leaf = Some p -> proposal_fits leaf p
  | ItemAck leaf => exists p, proposals_of ch !! gal_proposal_id leaf = Some p /\ ack_fits leaf p
  end.

(** ** What lasts *)

Lemma has_facts_forward p p' source targets payload activation :
  forward p p' -> has_facts p source targets payload activation -> has_facts p' source targets payload activation.
Proof.
  intros ((F1 & F2 & F3 & F4 & F5 & F6 & F7 & F8) & _ & _ & Hfin) [Hs Hf].
  unfold has_facts, proposal_facts in *. rewrite F2, F3, F5, F8 by (intros E; rewrite E in Hs; by destruct Hs as [|[]]). auto.
Qed.

Lemma gov_steps_forward (c c' : GovConf) id p :
  gov_reachable d c -> rtc (gov_step d) c c' -> gs_proposals_by_id (g_st c) !! id = Some p ->
  exists p', gs_proposals_by_id (g_st c') !! id = Some p' /\
    (forall source targets payload activation, has_facts p source targets payload activation ->
       has_facts p' source targets payload activation) /\ gp_payload p' = gp_payload p.
Proof.
  intros Hc Hs. revert Hc p. induction Hs as [c|c c1 c' Hstep _ IH]; intros Hc p Hp; [by exists p|].
  destruct (gov_reachable_act d proposal_ids_distinct _ Hc) as [HA HI].
  destruct (gov_step_forward d proposal_ids_distinct c c1 id p HA HI Hstep Hp) as (p1 & Hp1 & Hf).
  destruct (IH (gov_reachable_step d c c1 Hc Hstep) p1 Hp1) as (p' & Hp' & Hf' & E'). exists p'.
  split_and!; [done| |destruct Hf as ((_ & _ & _ & E & _) & _); congruence].
  intros source targets payload activation Hfacts. apply Hf'. by eapply has_facts_forward.
Qed.

Lemma gov_step_acks (c c' : GovConf) k :
  gov_reachable d c -> gov_step d c c' ->
  is_Some (gs_ack_records_by_key (g_st c) !! k) -> is_Some (gs_ack_records_by_key (g_st c') !! k).
Proof.
  intros Hc Hstep Hk. destruct (gov_reachable_act d proposal_ids_distinct _ Hc) as [HA HI].
  destruct Hstep as [st e balance origin targets version st' Hlt Hb Hsum Hop
    |st e sys origin id' choice st' Hop|st e origin id' st' Hop|st e sys origin claim st' seq Hseq Hid Hop
    |st e sys origin claim st' Hop|st e sys e' He Hmax Hn]; simpl in *.
  - by rewrite (gq_acks _ _ _ (quiet_create d proposal_ids_distinct _ _ _ _ _ _ _ HI Hlt Hop)).
  - by rewrite (gq_acks _ _ _ (quiet_vote d _ _ _ _ _ _ _ Hop)).
  - by rewrite (gq_acks _ _ _ (quiet_close d _ _ _ _ _ Hop)).
  - apply import_proposal_inv in Hop. cbv zeta in Hop. destruct Hop as (_ & _ & _ & _ & _ & ->). simpl.
    rewrite schedule_acks. destruct (import_base_spec d e sys (igp_leaf claim) st) as (r & ack & _ & _ & (_ & _ & -> & _) & _).
    simpl. apply lookup_insert_is_Some'. by right.
  - apply import_ack_inv in Hop. cbv zeta in Hop. destruct Hop as (ack & p0 & _ & _ & _ & _ & _ & _ & _ & ->). simpl.
    unfold note_known_ack_domain. rewrite schedule_acks.
    assert (is_Some (gs_ack_records_by_key (st {{ gs_ack_records_by_key ::=
      <[(gal_proposal_id (iga_leaf claim), gal_acknowledging_domain (iga_leaf claim)) := ack]> }}) !! k)) as Hk'
      by (simpl; apply lookup_insert_is_Some'; by right).
    destruct (_ !! gal_proposal_id _); [|done]. by case_decide.
  - rewrite (gq_acks _ _ _ (quiet_hook d sys e' st Hn (act_core_mono e e' st ltac:(lia) (proj1 HA)))). done.
Qed.

(** What is done stays done. *)
Lemma done_advances ch ch' e : ChainOk d ch -> advances d ch ch' -> chain_done ch e -> chain_done ch' e.
Proof.
  intros Hok [Ht Hg] He. destruct e as [id|id|id|id x]; simpl in *.
  - destruct He as (r & Hr & Hs). destruct (finalized_persists d export_ids_distinct _ _ id r Ht Hr Hs) as (r' & Hr' & _ & Hs'). by exists r'.
  - destruct He as (r & Hr & Hs).
    destruct (resolved_persists d export_ids_distinct _ _ id r (co_transfers _ _ Hok) Ht Hr) as (r' & Hr' & _ & Hs').
    exists r'. auto.
  - destruct He as [p Hp]. destruct (gov_steps_forward _ _ id p (co_governance _ _ Hok) Hg Hp) as (p' & Hp' & _). by exists p'.
  - pose proof (co_governance _ _ Hok) as Hc. revert Hc He. unfold acks_of.
    change (w_governance (ch_world ch)) with (g_st (gov_conf ch)). change (w_governance (ch_world ch')) with (g_st (gov_conf ch')).
    clear Ht Hok. induction Hg as [|c1 c2 c3 Hstep _ IH]; [done|]. intros Hc He.
    apply IH; [by eapply gov_reachable_step|by eapply gov_step_acks].
Qed.

(** What others do keeps a chain ready. *)
Lemma ready_quiet ch ch' i : ChainOk d ch -> quiet ch ch' -> valid_item i -> ready ch i -> ready ch' i.
Proof.
  intros Hok [[Ht Hg] [_ E Hx] [_ _ Hn]] Hv Hr. destruct i as [leaf|leaf|leaf|leaf]; simpl in *.
  - unfold imports_of in *. by rewrite E.
  - destruct Hr as (r & Hr & Hf & Hs). destruct (er_status r) eqn:Es; [done|exists r|].
    + split_and!; [by apply Hx|done|congruence].
    + destruct (resolved_persists d export_ids_distinct _ _ _ r (co_transfers _ _ Hok) Ht Hr) as (r' & Hr' & El & Hs').
      exists r'. rewrite El, (Hs' Es). done.
  - intros p' Hp'. destruct (proposals_of ch !! gpl_proposal_id leaf) as [p|] eqn:Ep.
    + destruct (gov_steps_forward _ _ _ p (co_governance _ _ Hok) Hg Ep) as (p1 & Hp1 & Hf & _).
      unfold proposals_of in *. simpl in Hp1. rewrite Hp1 in Hp'. injection Hp' as <-. by apply Hf, Hr.
    + destruct Hv as (_ & Hsrc & _ & _ & seq & Hseq & Hid). unfold proposals_of in *. rewrite Hn in Hp'; [done| |done].
      by exists (gpl_source_domain leaf), seq.
  - destruct Hr as (p & Hp & Hf & Hver). destruct (gov_steps_forward _ _ _ p (co_governance _ _ Hok) Hg Hp) as (p' & Hp' & Hf' & E').
    exists p'. split; [done|]. split; [by apply Hf'|by rewrite E'].
Qed.

(** ** The importer's own calls *)

(** A call for [e] has been executed: what it leaves alone. *)
Record executed (e : Effect) ch ch' : Prop := {
  ex_ok : ChainOk d ch';
  ex_advances : advances d ch ch';
  ex_configured : configured ch';
  ex_imports : forall id, e <> Imported id -> imports_of ch' !! id = imports_of ch !! id;
  ex_exports : forall id r, exports_of ch !! id = Some r -> er_status r = Exported ->
    exists r', exports_of ch' !! id = Some r' /\ er_leaf r' = er_leaf r /\ er_status r' <> LocalFinal;
  ex_proposals : forall id, e <> ProposalKnown id -> proposals_of ch !! id = None -> proposals_of ch' !! id = None
}.

(** The items whose terms a call for [e] sets. *)
Definition contested (e : Effect) (i : Item) : Prop :=
  match i with
  | ItemExport _ | ItemProposal _ => item_effect i = e
  | _ => False
  end.

Lemma ready_executed e ch ch' i :
  ChainOk d ch -> executed e ch ch' -> ~ contested e i -> ready ch i -> ready ch' i.
Proof.
  intros Hok [_ [Ht Hg] _ Hi Hx Hp] Hc Hr. destruct i as [leaf|leaf|leaf|leaf]; simpl in *.
  - by rewrite Hi.
  - destruct Hr as (r & Hr & Hf & Hs). destruct (er_status r) eqn:Es; [done| |].
    + destruct (Hx _ _ Hr Es) as (r' & Hr' & El & Hs'). exists r'. by rewrite El.
    + destruct (resolved_persists d export_ids_distinct _ _ _ r (co_transfers _ _ Hok) Ht Hr) as (r' & Hr' & El & Hs').
      exists r'. rewrite El, (Hs' Es). done.
  - intros p' Hp'. destruct (proposals_of ch !! gpl_proposal_id leaf) as [p|] eqn:Ep.
    + destruct (gov_steps_forward _ _ _ p (co_governance _ _ Hok) Hg Ep) as (p1 & Hp1 & Hf & _).
      unfold proposals_of in *. simpl in Hp1. rewrite Hp1 in Hp'. injection Hp' as <-. by apply Hf, Hr.
    + rewrite Hp in Hp'; [done| |done]. congruence.
  - destruct Hr as (p & Hp' & Hf & Hver). destruct (gov_steps_forward _ _ _ p (co_governance _ _ Hok) Hg Hp') as (p' & Hp1 & Hf' & E').
    exists p'. split; [done|]. split; [by apply Hf'|by rewrite E'].
Qed.

(** A call of the importer has been taken. *)
Definition taken (sys : System) (call : RuntimeCall) (e : Effect) ch ch' : Prop :=
  dispatch sys (Signed importer) call ch = Ok ch' /\ executed e ch ch'.

Lemma transfers_taken e sys call ch (res : result TransfersError (B * TransfersState)) b st :
  ChainOk d ch -> configured ch -> call_admissible ch call ->
  dispatch sys (Signed importer) call ch = with_transfers ch res -> res = Ok (b, st) ->
  ts_importer_account st = ts_importer_account (w_transfers (ch_world ch)) ->
  (forall id, e <> Imported id -> ts_observed_imports_by_id st !! id = imports_of ch !! id) ->
  (forall id r, exports_of ch !! id = Some r -> er_status r = Exported -> exists r', ts_exports_by_id st !! id = Some r' /\
     er_leaf r' = er_leaf r /\ er_status r' <> LocalFinal) ->
  exists ch', taken sys call e ch ch' /\ w_transfers (ch_world ch') = st.
Proof.
  intros Hok [Hc1 Hc2] Hadm Hop -> Ei Hi Hx. simpl in Hop. eexists. split; [split; [exact Hop|]|done].
  destruct (dispatch_ok d export_ids_distinct proposal_ids_distinct _ _ _ _ _ Hok Hadm Hop) as [Hok' _].
  split; [done|by eapply dispatch_advances|by split; [rewrite <-Hc1|]|done|done|done].
Qed.

Lemma governance_taken e sys call ch (res : result GovernanceError GovernanceState) st :
  ChainOk d ch -> configured ch -> call_admissible ch call ->
  dispatch sys (Signed importer) call ch = with_governance ch res -> res = Ok st ->
  gs_importer_account st = gs_importer_account (w_governance (ch_world ch)) ->
  (forall id, e <> ProposalKnown id -> proposals_of ch !! id = None -> gs_proposals_by_id st !! id = None) ->
  exists ch', taken sys call e ch ch' /\ w_governance (ch_world ch') = st.
Proof.
  intros Hok [Hc1 Hc2] Hadm Hop -> Ei Hp. simpl in Hop. eexists. split; [split; [exact Hop|]|done].
  destruct (dispatch_ok d export_ids_distinct proposal_ids_distinct _ _ _ _ _ Hok Hadm Hop) as [Hok' _].
  split; [done|by eapply dispatch_advances|by split; [|rewrite <-Hc2]|done| |done].
  intros id r Hr Hs. exists r. by rewrite Hs.
Qed.

Section Calls.
Context (sys : System) (pkg : CertifiedSummaryPackage).

Lemma observe_taken ch leaf :
  ChainOk d ch -> configured ch -> el_target_domain leaf = d -> imports_of ch !! el_export_id leaf = None ->
  exists ch' r, taken sys (ObserveVerifiedImport (observed_claim pkg leaf)) (Imported (el_export_id leaf)) ch ch' /\
    imports_of ch' !! el_export_id leaf = Some r /\ oir_status r = ImportRemoteObserved /\
    oir_recipient r = el_recipient leaf /\ oir_amount r = el_amount leaf.
Proof.
  intros Hok Hc Ht Hnone. pose proof Hc as [Hc1 _].
  set (rec := from_claim (observed_claim pkg leaf) (saturated_into_u32 (sys_block_number sys)) (account_to_bytes importer)).
  edestruct (transfers_taken (Imported (el_export_id leaf)) sys (ObserveVerifiedImport (observed_claim pkg leaf)) ch)
    as (ch' & Htk & E); [done|done|done|by unfold dispatch; rewrite (co_domain _ _ Hok)| | | | |].
  - unfold observe_verified_import. simpl. rewrite Hc1, !bool_decide_eq_true_2 by done. reflexivity.
  - done.
  - intros id Hne. simpl. rewrite lookup_insert_ne; [done|]. congruence.
  - intros id r Hr Hs. exists r. simpl. by rewrite Hs.
  - exists ch', rec. split; [done|]. unfold imports_of. rewrite E. simpl. by rewrite lookup_insert_eq.
Qed.

Lemma finalize_taken ch id r recipient :
  ChainOk d ch -> configured ch -> imports_of ch !! id = Some r -> oir_status r = ImportRemoteObserved ->
  account_from_bytes (oir_recipient r) = Some recipient ->
  is_Some (cur_mint_into (w_balances (ch_world ch)) recipient (oir_amount r)) ->
  exists ch', taken sys (FinalizeVerifiedImport id) (Imported id) ch ch' /\ chain_done ch' (Imported id).
Proof.
  intros Hok Hc Hr Hs Ha [b Hb]. pose proof Hc as [Hc1 _].
  destruct (transfers_reachable_inv d export_ids_distinct _ (co_transfers _ _ Hok)) as [_ HI].
  destruct (inv_observed _ _ HI id r Hr) as [_ Ht].
  edestruct (transfers_taken (Imported id) sys (FinalizeVerifiedImport id) ch)
    as (ch' & Htk & E); [done|done|done|by unfold dispatch; rewrite (co_domain _ _ Hok)| | | | |].
  - unfold finalize_verified_import, imports_of in *. simpl. rewrite Hc1, bool_decide_eq_true_2, Hr by done.
    rewrite !bool_decide_eq_true_2, Ha, Hb by done. reflexivity.
  - done.
  - intros id' Hne. simpl. rewrite lookup_insert_ne; [done|]. congruence.
  - intros id' r' Hr' Hs'. exists r'. simpl. by rewrite Hs'.
  - exists ch'. split; [done|]. eexists. unfold imports_of. rewrite E. simpl. by rewrite lookup_insert_eq.
Qed.

Lemma complete_taken ch leaf r :
  ChainOk d ch -> configured ch -> fl_source_domain leaf = d -> exports_of ch !! fl_export_id leaf = Some r ->
  export_fits leaf (er_leaf r) -> er_status r = Exported ->
  exists ch', taken sys (AcknowledgeRemoteFinalization (completion_claim pkg leaf)) (Resolved (fl_export_id leaf)) ch ch' /\
    chain_done ch' (Resolved (fl_export_id leaf)).
Proof.
  intros Hok Hc Hsrc Hr (F1 & F2 & F3 & F4) Hs. pose proof Hc as [Hc1 _].
  destruct (acknowledge_accepts d export_ids_distinct (w_balances (ch_world ch)) (w_transfers (ch_world ch)) (current_epoch ch)
              sys importer (completion_claim pkg leaf) r (co_transfers _ _ Hok)) as (b & st & sender & Hop & _); [done..|].
  pose proof (acknowledge_inv d export_ids_distinct _ _ _ _ _ _ _ Hop) as (who & r0 & r1 & _ & _ & _ & Hr0 & Hres & Est).
  assert (r0 = r) as -> by (simpl in Hr0; unfold exports_of in Hr; congruence).
  apply resolve_export_inv in Hres as (_ & _ & _ & _ & _ & _ & Hleaf & Hfin & _).
  edestruct (transfers_taken (Resolved (fl_export_id leaf)) sys (AcknowledgeRemoteFinalization (completion_claim pkg leaf)) ch)
    as (ch' & Htk & E); [done|done|done|by unfold dispatch; rewrite (co_domain _ _ Hok)|exact Hop|by rewrite Est|by rewrite Est| |].
  - intros id r' Hr' Hs'. rewrite Est. simpl. destruct (decide (id = fl_export_id leaf)) as [->|].
    + rewrite lookup_insert_eq. exists r1. unfold exports_of in *. assert (r' = r) as -> by congruence. by rewrite Hfin.
    + rewrite lookup_insert_ne by done. exists r'. by rewrite Hs'.
  - exists ch'. split; [done|]. exists r1. unfold exports_of. rewrite E, Est. simpl. by rewrite lookup_insert_eq.
Qed.

Definition proposal_claim (leaf : GovernanceProposalLeaf) : ImportedGovernanceProposalClaim :=
  mkImportedGovernanceProposalClaim (gpl_version leaf) leaf (sh_summary_hash (pkg_header pkg)) (pkg_package_hash pkg).
Definition ack_claim (leaf : GovernanceAckLeaf) : ImportedGovernanceAckClaim :=
  mkImportedGovernanceAckClaim (gal_version leaf) leaf (sh_summary_hash (pkg_header pkg)) (pkg_package_hash pkg).

Lemma proposal_taken ch leaf :
  ChainOk d ch -> configured ch -> valid_item (ItemProposal leaf) -> proposals_of ch !! gpl_proposal_id leaf = None ->
  exists ch' p, taken sys (ImportVerifiedGovernanceProposal (proposal_claim leaf)) (ProposalKnown (gpl_proposal_id leaf)) ch ch' /\
    proposals_of ch' !! gpl_proposal_id leaf = Some p /\ proposal_fits leaf p.
Proof.
  intros Hok Hc (Ht & Hsrc & Hin & Hph & seq & Hseq & Hid) Hnone. pose proof Hc as [_ Hc2].
  destruct (gov_reachable_act d proposal_ids_distinct _ (co_governance _ _ Hok)) as [HA HI]. simpl in HA, HI.
  destruct (import_base_inv d _ _ sys leaf seq HA HI Hseq Hid Hsrc Hnone) as [[HB _] _].
  destruct (import_base_spec d (current_epoch ch) sys leaf (w_governance (ch_world ch))) as (_ & _ & _ & _ & _ & (Eb & _)).
  pose proof (import_base_importer d (current_epoch ch) sys leaf (w_governance (ch_world ch))) as Ei.
  assert (exists st, import_verified_governance_proposal d (current_epoch ch) sys (Signed importer) (proposal_claim leaf)
    (w_governance (ch_world ch)) = Ok st) as [st Hop].
  { unfold import_verified_governance_proposal. simpl. rewrite Hc2, !bool_decide_eq_true_2 by done. by eexists. }
  pose proof (import_proposal_inv d _ _ _ _ _ _ Hop) as (_ & _ & _ & _ & _ & Est). cbn [igp_leaf proposal_claim] in Est.
  set (base := import_base _ _ _ _ _) in *. clearbody base. simpl in HB, Eb.
  pose proof (fun id => schedule_proposals (gpl_proposal_id leaf) (current_epoch ch) base id HB) as Hm.
  edestruct (governance_taken (ProposalKnown (gpl_proposal_id leaf)) sys (ImportVerifiedGovernanceProposal (proposal_claim leaf)) ch)
    as (ch' & Htk & E); [done|done|by exists seq|by unfold dispatch; rewrite (co_domain _ _ Hok)|exact Hop| | |]; rewrite Est in *.
  - simpl. by rewrite schedule_importer.
  - intros id Hne Hid'. simpl. specialize (Hm id). rewrite Eb, lookup_insert_ne in Hm by congruence.
    unfold proposals_of in Hid'. rewrite Hid' in Hm. by destruct (gs_proposals_by_id (maybe_schedule_activation _ _ _) !! id).
  - specialize (Hm (gpl_proposal_id leaf)). rewrite Eb, lookup_insert_eq in Hm.
    destruct (gs_proposals_by_id (maybe_schedule_activation _ _ _) !! gpl_proposal_id leaf) as [p|] eqn:Ep; [|done].
    exists ch', p. split; [done|]. split; [unfold proposals_of; by rewrite E|].
    unfold proposal_fits, has_facts, proposal_facts. destruct Hm as [->|[_ ->]]; simpl;
      rewrite !bool_decide_eq_true_2, Z.eqb_refl by done; (split; [|done]); unfold finalized_status; tauto.
Qed.

Lemma ack_taken ch leaf p :
  ChainOk d ch -> configured ch -> valid_item (ItemAck leaf) ->
  acks_of ch !! (gal_proposal_id leaf, gal_acknowledging_domain leaf) = None ->
  proposals_of ch !! gal_proposal_id leaf = Some p -> ack_fits leaf p ->
  exists ch', taken sys (ImportVerifiedGovernanceAck (ack_claim leaf))
      (AckKnown (gal_proposal_id leaf) (gal_acknowledging_domain leaf)) ch ch' /\
    chain_done ch' (AckKnown (gal_proposal_id leaf) (gal_acknowledging_domain leaf)).
Proof.
  intros Hok Hc (Ht & Hx & Hin) Hnone Hp [[_ Hf] Hver]. pose proof Hc as [_ Hc2].
  destruct (gov_reachable_act d proposal_ids_distinct _ (co_governance _ _ Hok)) as [HA _]. simpl in HA.
  unfold proposal_facts in Hf. bool_to_prop.
  assert (exists st, import_verified_governance_ack d (current_epoch ch) sys (Signed importer) (ack_claim leaf)
    (w_governance (ch_world ch)) = Ok st) as [st Hop].
  { unfold import_verified_governance_ack, proposals_of in *. simpl. rewrite Hc2, !bool_decide_eq_true_2, Hp by done.
    rewrite !bool_decide_eq_true_2 by done. rewrite !(proj2 (Z.eqb_eq _ _)) by done. by eexists. }
  pose proof (import_ack_inv d _ _ _ _ _ _ Hop) as (ack & p0 & _ & _ & _ & _ & _ & _ & _ & Est). simpl in Est.
  destruct (ack_written _ _ (gal_proposal_id leaf) (gal_acknowledging_domain leaf) ack HA) as [HB Hack].
  edestruct (governance_taken (AckKnown (gal_proposal_id leaf) (gal_acknowledging_domain leaf)) sys
    (ImportVerifiedGovernanceAck (ack_claim leaf)) ch)
    as (ch' & Htk & E); [done|done|done|by unfold dispatch; rewrite (co_domain _ _ Hok)|exact Hop| | |].
  - rewrite Est. simpl. unfold note_known_ack_domain. rewrite schedule_importer. simpl.
    by repeat case_match.
  - intros id _ Hid. rewrite Est. simpl. pose proof (note_known_proposals _ _ _ _ id HB Hack) as Hm. simpl in Hm.
    unfold proposals_of in Hid. rewrite Hid in Hm. by destruct (gs_proposals_by_id (note_known_ack_domain _ _ _ _) !! id).
  - exists ch'. split; [done|]. simpl. unfold acks_of. rewrite E, Est. simpl. unfold note_known_ack_domain.
    rewrite schedule_acks. simpl. repeat case_match; simpl; rewrite lookup_insert_eq; by eexists.
Qed.
End Calls.

(** ** Blocks with calls of the importer *)
Context (items : list Item).

(** The call an extrinsic makes for the importer. *)
Definition signed_call (xt : Extrinsic B) : option RuntimeCall :=
  match xt_origin xt with
  | Signed who => if decide (who = importer) then xt_call xt else None
  | _ => None
  end.

(** The balances pallet can credit the recipients. *)
Definition credits ch : Prop := forall leaf recipient,
  ItemExport leaf ∈ items -> account_from_bytes (el_recipient leaf) = Some recipient ->
  is_Some (cur_mint_into (w_balances (ch_world ch)) recipient (el_amount leaf)).
Fixpoint credits_all (sys : System) (index : Z) (xts : list (Extrinsic B)) ch : Prop :=
  match xts with
  | [] => True
  | xt :: xts =>
    (is_Some (signed_call xt) -> credits (charge xt ch)) /\
    credits_all sys (index + 1) xts (apply_extrinsic (at_index sys index) xt ch)
  end.

(** The chain grows by blocks, in which the importer's calls are [cs]. *)
Inductive grows : list RuntimeCall -> Chain B -> Chain B -> Prop :=
| grows_none ch : grows [] ch ch
| grows_block hist bl cs ch ch' :
    chain_run d L hist ch ->
    sys_block_number (bl_sys bl) = Z.of_nat (length hist) + 1 ->
    sys_block_number (bl_sys bl) <= u32_max ->
    admissible_all (bl_sys bl) 0 (bl_extrinsics bl) (enter_block bl ch) ->
    credits_all (bl_sys bl) 0 (bl_extrinsics bl) (enter_block bl ch) ->
    grows cs (execute_block bl ch) ch' ->
    grows (omap signed_call (bl_extrinsics bl) ++ cs) ch ch'.

(** A description of the chain by the calls that are left. *)
Record follows (stage : list RuntimeCall -> Chain B -> Prop) : Prop := {
  fo_configured : forall cs ch, stage cs ch -> configured ch;
  fo_quiet : forall cs ch ch', ChainOk d ch -> quiet ch ch' -> stage cs ch -> stage cs ch';
  fo_call : forall sys c cs ch, ChainOk d ch -> credits ch -> stage (c :: cs) ch ->
    exists ch', dispatch sys (Signed importer) c ch = Ok ch' /\ stage cs ch'
}.

Lemma extrinsic_stage stage sys xt cs ch :
  follows stage -> ChainOk d ch -> admissible ch xt -> (is_Some (signed_call xt) -> credits (charge xt ch)) ->
  stage (option_list (signed_call xt) ++ cs) ch -> stage cs (apply_extrinsic sys xt ch).
Proof.
  intros [Fc Fq Fs] Hok Ha Hcr Hst. pose proof (charge_ok d export_ids_distinct xt ch Hok Ha) as Hok1.
  apply (Fq _ _ _ Hok (quiet_charge ch xt Ha)) in Hst. pose proof (Fc _ _ Hst) as Hconf. unfold apply_extrinsic. cbv zeta.
  destruct Ha as [_ Hadm]. unfold signed_call in *.
  destruct (xt_call xt) as [call|]; [|by destruct (xt_origin xt); [case_decide|..]].
  assert (xt_origin xt <> Signed importer -> stage cs (charge xt ch) ->
    stage cs (match dispatch sys (xt_origin xt) call (charge xt ch) with Ok ch' => ch' | Err _ => charge xt ch end)) as Hother.
  { intros Hne Hs. destruct (dispatch _ _ _ _) as [ch'|] eqn:E; [|done].
    apply (Fq _ _ _ Hok1 (quiet_dispatch _ _ _ _ _ Hok1 (Hadm call eq_refl) Hconf Hne E)). done. }
  destruct (xt_origin xt) as [who| |]; [case_decide as Hw|by apply Hother..]; [subst who|apply Hother; [congruence|done]].
  simpl in Hst. destruct (Fs sys call cs (charge xt ch) Hok1 (Hcr ltac:(by eexists)) Hst) as (ch' & -> & Hs'). done.
Qed.

Lemma extrinsics_stage stage sys xts : forall index cs ch,
  follows stage -> ChainOk d ch -> admissible_all sys index xts ch -> credits_all sys index xts ch ->
  stage (omap signed_call xts ++ cs) ch -> stage cs (apply_extrinsics sys index xts ch).
Proof.
  induction xts as [|xt xts IH]; intros index cs ch Hf Hok Ha Hcr Hst; simpl in *; [done|].
  destruct Ha as [Ha Has], Hcr as [Hcr Hcrs]. apply IH; [done| |done|done|].
  - by apply (apply_extrinsic_ok d export_ids_distinct proposal_ids_distinct).
  - apply extrinsic_stage; [done..|]. by destruct (signed_call xt).
Qed.

(** The calls that are left when the chain has grown. *)
Lemma grows_stage stage cs cs' ch ch' : follows stage -> grows cs ch ch' -> stage (cs ++ cs') ch -> stage cs' ch'.
Proof.
  intros Hf Hg. induction Hg as [ch|hist bl cs ch ch' Hrun Hn Hmax Ha Hcr _ IH]; [done|]. intros Hst. apply IH.
  destruct (chain_run_ok d L HL export_ids_distinct proposal_ids_distinct _ _ Hrun) as [He Hok].
  pose proof (enter_block_ok d L HL export_ids_distinct proposal_ids_distinct hist bl ch Hok He Hn Hmax) as Hok1.
  destruct (apply_extrinsics_ok d export_ids_distinct proposal_ids_distinct _ _ _ _ Hok1 Ha) as [Hok2 _].
  apply (fo_quiet _ Hf _ _ _ Hok2 (quiet_finalize _ _)). apply extrinsics_stage; [done..|]. rewrite app_assoc.
  by apply (fo_quiet _ Hf _ _ _ Hok (quiet_enter hist bl ch Hok He Hn Hmax)).
Qed.

(** ** The stages of an item *)
Context (Hvalid : Forall valid_item items).

(** What holds while the importer works on [e]: the other items can be done, and
    what was done is done. *)
Record working (finished : Effect -> Prop) (e : option Effect) ch : Prop := {
  wk_configured : configured ch;
  wk_ready : forall i, i ∈ items -> from_option (fun e => ~ contested e i) True e -> ready ch i;
  wk_finished : forall x, finished x -> chain_done ch x
}.

Lemma working_quiet finished e ch ch' : ChainOk d ch -> quiet ch ch' -> working finished e ch -> working finished e ch'.
Proof.
  intros Hok Hq [W1 W2 W3]. split; [by eapply quiet_configured| |].
  - intros i Hi Hc. rewrite Forall_forall in Hvalid. apply (ready_quiet ch); auto.
  - intros x Hx. eapply done_advances; [done|apply Hq|auto].
Qed.
Lemma working_executed finished e ch ch' :
  ChainOk d ch -> executed e ch ch' -> working finished (Some e) ch -> working finished (Some e) ch'.
Proof.
  intros Hok Hx [W1 W2 W3]. split; [apply Hx| |].
  - intros i Hi Hc. eapply ready_executed; eauto.
  - intros x Hfx. eapply done_advances; [done|apply Hx|auto].
Qed.

(** How far the importer is with [e]. *)
Record progresses (e : Effect) (progress : list RuntimeCall -> Chain B -> Prop) : Prop := {
  pg_quiet : forall cs ch ch', ChainOk d ch -> quiet ch ch' -> progress cs ch -> progress cs ch';
  pg_call : forall sys c cs ch, ChainOk d ch -> configured ch -> credits ch -> progress (c :: cs) ch ->
    exists ch', taken sys c e ch ch' /\ progress cs ch'
}.

Definition stage_of finished e (progress : list RuntimeCall -> Chain B -> Prop) cs ch : Prop :=
  working finished (Some e) ch /\ progress cs ch.
Lemma stage_follows finished e progress : progresses e progress -> follows (stage_of finished e progress).
Proof.
  intros [Pq Pc]. split.
  - by intros cs ch [[W _ _] _].
  - intros cs ch ch' Hok Hq [Hw Hp]. split; [by eapply working_quiet|by eapply Pq].
  - intros sys c cs ch Hok Hcr [Hw Hp]. destruct (Pc sys c cs ch Hok (wk_configured _ _ _ Hw) Hcr Hp) as (ch' & [Hop Hx] & Hp').
    exists ch'. split; [done|]. split; [by eapply working_executed|done].
Qed.

(** Between two items, with a fact that others leave alone. *)
Definition steady (fact : Chain B -> Prop) : Prop := forall ch ch', ChainOk d ch -> quiet ch ch' -> fact ch -> fact ch'.
Definition idle finished (fact : Chain B -> Prop) cs ch : Prop := cs = [] /\ working finished None ch /\ fact ch.
Lemma idle_follows finished fact : steady fact -> follows (idle finished fact).
Proof.
  intros Hst. split.
  - by intros cs ch (_ & [W _ _] & _).
  - intros cs ch ch' Hok Hq (-> & Hw & Hf). split_and!; [done|by eapply working_quiet|by eapply Hst].
  - by intros sys c cs ch _ _ [? _].
Qed.

Lemma steady_import id o : steady (fun ch => imports_of ch !! id = o).
Proof. intros ch ch' _ [_ [_ E _] _]. unfold imports_of. by rewrite E. Qed.
Lemma steady_export id r : er_status r = Exported -> steady (fun ch => exports_of ch !! id = Some r).
Proof. intros Hs ch ch' _ [_ [_ _ Hx] _] Hr. by apply Hx. Qed.
Lemma steady_proposal leaf : valid_item (ItemProposal leaf) -> steady (fun ch => proposals_of ch !! gpl_proposal_id leaf = None).
Proof.
  intros (_ & Hsrc & _ & _ & seq & Hseq & Hid) ch ch' _ [_ _ [_ _ Hn]] Hp. apply Hn; [|done].
  by exists (gpl_source_domain leaf), seq.
Qed.
Lemma steady_ack k o : steady (fun ch => acks_of ch !! k = o).
Proof. intros ch ch' _ [_ _ [_ E _]]. unfold acks_of. by rewrite E. Qed.

Lemma idle_stage finished e (progress : list RuntimeCall -> Chain B -> Prop) cs ch :
  working finished None ch -> progress cs ch -> stage_of finished e progress cs ch.
Proof. intros [W1 W2 W3] Hp. split; [|done]. split; [done|by intros; apply W2|done]. Qed.

(** An item that is finished. *)
Definition and_then (finished : Effect -> Prop) (e : Effect) : Effect -> Prop := fun x => finished x \/ x = e.
Lemma working_finish finished e ch :
  working finished (Some e) ch -> chain_done ch e -> (forall i, i ∈ items -> contested e i -> ready ch i) ->
  working (and_then finished e) None ch.
Proof.
  intros [W1 W2 W3] Hd Hc. split; [done| |intros x [Hx| ->]; auto].
  intros i Hi _. assert (Decision (contested e i)) as [?|?] by (destruct i; simpl; apply _); auto.
Qed.
Lemma working_weaken finished ch e : working finished None ch -> finished e -> working (and_then finished e) None ch.
Proof. intros [W1 W2 W3] He. split; [done|done|]. intros x [Hx| ->]; auto. Qed.

(** Leaves of one proposal have its terms. *)
Context (Hagree : forall leaf leaf', ItemProposal leaf ∈ items -> ItemProposal leaf' ∈ items ->
  gpl_proposal_id leaf' = gpl_proposal_id leaf -> gpl_source_domain leaf' = gpl_source_domain leaf /\
  gpl_target_domains leaf' = gpl_target_domains leaf /\ gpl_payload_hash leaf' = gpl_payload_hash leaf /\
  gpl_activation_epoch leaf' = gpl_activation_epoch leaf).

Section Stages.
Context (pkg : CertifiedSummaryPackage).

(** An import that is observed with the terms of the leaf. *)
Definition observed (leaf : ExportLeaf) ch : Prop :=
  exists r, imports_of ch !! el_export_id leaf = Some r /\ oir_status r = ImportRemoteObserved /\
    oir_recipient r = el_recipient leaf /\ oir_amount r = el_amount leaf.

(** An export is observed first, then finalized. *)
Definition observe_progress (leaf : ExportLeaf) cs ch : Prop :=
  cs = [ObserveVerifiedImport (observed_claim pkg leaf)] /\ imports_of ch !! el_export_id leaf = None \/
  cs = [] /\ observed leaf ch.
Definition export_progress (leaf : ExportLeaf) cs ch : Prop :=
  (exists cs', cs = cs' ++ [FinalizeVerifiedImport (el_export_id leaf)] /\ observe_progress leaf cs' ch) \/
  cs = [] /\ chain_done ch (Imported (el_export_id leaf)).

Lemma observe_quiet leaf cs ch ch' : quiet ch ch' -> observe_progress leaf cs ch -> observe_progress leaf cs ch'.
Proof. intros [_ [_ E _] _]. unfold observe_progress, observed, imports_of. by rewrite E. Qed.
Lemma observe_call leaf sys c cs ch :
  el_target_domain leaf = d -> ChainOk d ch -> configured ch -> observe_progress leaf (c :: cs) ch ->
  exists ch', taken sys c (Imported (el_export_id leaf)) ch ch' /\ observe_progress leaf cs ch'.
Proof.
  intros Ht Hok Hc [[Ecs Hn]|[Ecs _]]; [|done]. injection Ecs as -> ->.
  destruct (observe_taken sys pkg ch leaf Hok Hc Ht Hn) as (ch' & r & Htk & Hr). exists ch'. split; [done|].
  right. split; [done|]. by exists r.
Qed.

Lemma observe_progresses leaf :
  ItemExport leaf ∈ items -> progresses (Imported (el_export_id leaf)) (observe_progress leaf).
Proof.
  intros Hin. pose proof (proj1 (Forall_forall _ _) Hvalid _ Hin) as [Ht _]. split.
  - intros cs ch ch' _. apply observe_quiet.
  - intros sys c cs ch Hok Hc _. by apply observe_call.
Qed.
Lemma export_progresses leaf :
  ItemExport leaf ∈ items -> progresses (Imported (el_export_id leaf)) (export_progress leaf).
Proof.
  intros Hin. pose proof (proj1 (Forall_forall _ _) Hvalid _ Hin) as [Ht [recipient Ha]]. split.
  - intros cs ch ch' Hok Hq [(cs' & -> & Hp)|[-> Hd]]; [left; exists cs'; split; [done|by eapply observe_quiet]|right].
    split; [done|]. eapply done_advances; [done|apply Hq|done].
  - intros sys c cs ch Hok Hc Hcr [([|c' cs'] & Ecs & Hp)|[Ecs _]]; [| |done]; injection Ecs as -> ->.
    + destruct Hp as [[? _]|[_ (r & Hr & Hs & Er & Em)]]; [done|].
      destruct (finalize_taken sys ch (el_export_id leaf) r recipient) as (ch' & Htk & Hd); [done..|by rewrite Er| |].
      * rewrite Em. by apply Hcr.
      * exists ch'. split; [done|]. by right.
    + destruct (observe_call leaf sys c' cs' ch Ht Hok Hc Hp) as (ch' & Htk & Hp'). exists ch'. split; [done|].
      left. by exists cs'.
Qed.

Lemma export_finish finished leaf ch :
  stage_of finished (Imported (el_export_id leaf)) (export_progress leaf) [] ch ->
  working (and_then finished (Imported (el_export_id leaf))) None ch.
Proof.
  intros [Hw [(cs & E & _)|[_ Hd]]]; [by destruct cs|]. apply working_finish; [done|done|].
  intros [leaf'|?|?|?] _ E; simpl in E; try done. injection E as E. destruct Hd as (r & Hr & Hs).
  intros r' Hr'. rewrite E, Hr in Hr'. injection Hr' as <-. by left.
Qed.

Definition completion_progress (leaf : FinalizedImportLeaf) cs ch : Prop :=
  cs = [AcknowledgeRemoteFinalization (completion_claim pkg leaf)] /\
    (exists r, exports_of ch !! fl_export_id leaf = Some r /\ export_fits leaf (er_leaf r) /\ er_status r = Exported) \/
  cs = [] /\ chain_done ch (Resolved (fl_export_id leaf)).
Lemma completion_progresses leaf :
  ItemCompletion leaf ∈ items -> progresses (Resolved (fl_export_id leaf)) (completion_progress leaf).
Proof.
  intros Hin. pose proof (proj1 (Forall_forall _ _) Hvalid _ Hin) as Ht. split.
  - intros cs ch ch' Hok Hq [[-> (r & Hr & Hf & Hs)]|[-> Hd]]; [left|right].
    + split; [done|]. exists r. split; [by apply Hq|done].
    + split; [done|]. eapply done_advances; [done|apply Hq|done].
  - intros sys c cs ch Hok Hc Hcr [[Ecs (r & Hr & Hf & Hs)]|[Ecs _]]; [|done]. injection Ecs as -> ->.
    destruct (complete_taken sys pkg ch leaf r) as (ch' & Htk & Hd); [done..|]. exists ch'. split; [done|]. by right.
Qed.

Lemma completion_finish finished leaf ch :
  stage_of finished (Resolved (fl_export_id leaf)) (completion_progress leaf) [] ch ->
  working (and_then finished (Resolved (fl_export_id leaf))) None ch.
Proof. intros [Hw [[? _]|[_ Hd]]]; [done|]. apply working_finish; [done|done|]. by intros []. Qed.

Definition proposal_progress (leaf : GovernanceProposalLeaf) cs ch : Prop :=
  cs = [ImportVerifiedGovernanceProposal (proposal_claim pkg leaf)] /\ proposals_of ch !! gpl_proposal_id leaf = None \/
  cs = [] /\ exists p, proposals_of ch !! gpl_proposal_id leaf = Some p /\ proposal_fits leaf p.
Lemma proposal_progresses leaf :
  ItemProposal leaf ∈ items -> progresses (ProposalKnown (gpl_proposal_id leaf)) (proposal_progress leaf).
Proof.
  intros Hin. pose proof (proj1 (Forall_forall _ _) Hvalid _ Hin) as Hv. split.
  - intros cs ch ch' Hok [[_ Hg] _ [_ _ Hn]] [[-> Hp]|[-> (p & Hp & Hf)]]; [left|right]; (split; [done|]).
    + destruct Hv as (_ & Hsrc & _ & _ & seq & Hseq & Hid). apply Hn; [|done]. by exists (gpl_source_domain leaf), seq.
    + destruct (gov_steps_forward _ _ _ p (co_governance _ _ Hok) Hg Hp) as (p' & Hp' & Hf' & _). exists p'.
      split; [done|by apply Hf'].
  - intros sys c cs ch Hok Hc Hcr [[Ecs Hn]|[Ecs _]]; [|done]. injection Ecs as -> ->.
    destruct (proposal_taken sys pkg ch leaf Hok Hc Hv Hn) as (ch' & p & Htk & Hp). exists ch'. split; [done|].
    right. split; [done|]. by exists p.
Qed.

Lemma proposal_finish finished leaf ch :
  ItemProposal leaf ∈ items ->
  stage_of finished (ProposalKnown (gpl_proposal_id leaf)) (proposal_progress leaf) [] ch ->
  working (and_then finished (ProposalKnown (gpl_proposal_id leaf))) None ch.
Proof.
  intros Hin [Hw [[? _]|[_ (p & Hp & Hf)]]]; [done|]. apply working_finish; [done|by exists p|].
  intros [?|?|leaf'|?] Hi E; simpl in E; try done. injection E as E. intros p' Hp'. rewrite E, Hp in Hp'. injection Hp' as <-.
  destruct (Hagree leaf leaf' Hin Hi E) as (E1 & E2 & E3 & E4). unfold proposal_fits. by rewrite E1, E2, E3, E4.
Qed.

Definition ack_progress (leaf : GovernanceAckLeaf) cs ch : Prop :=
  cs = [ImportVerifiedGovernanceAck (ack_claim pkg leaf)] /\
    acks_of ch !! (gal_proposal_id leaf, gal_acknowledging_domain leaf) = None /\ ready ch (ItemAck leaf) \/
  cs = [] /\ chain_done ch (AckKnown (gal_proposal_id leaf) (gal_acknowledging_domain leaf)).
Lemma ack_progresses leaf :
  ItemAck leaf ∈ items ->
  progresses (AckKnown (gal_proposal_id leaf) (gal_acknowledging_domain leaf)) (ack_progress leaf).
Proof.
  intros Hin. pose proof (proj1 (Forall_forall _ _) Hvalid _ Hin) as Hv. split.
  - intros cs ch ch' Hok Hq [(-> & Hn & Hr)|[-> Hd]]; [left|right].
    + split_and!; [done| |by eapply ready_quiet]. destruct Hq as [_ _ [_ E _]]. unfold acks_of in *. by rewrite E.
    + split; [done|]. eapply done_advances; [done|apply Hq|done].
  - intros sys c cs ch Hok Hc Hcr [(Ecs & Hn & (p & Hp & Hf))|[Ecs _]]; [|done]. injection Ecs as -> ->.
    destruct (ack_taken sys pkg ch leaf p) as (ch' & Htk & Hd); [done..|]. exists ch'. split; [done|]. by right.
Qed.
Lemma ack_finish finished leaf ch :
  let e := AckKnown (gal_proposal_id leaf) (gal_acknowledging_domain leaf) in
  stage_of finished e (ack_progress leaf) [] ch -> working (and_then finished e) None ch.
Proof. intros e [Hw [[? _]|[_ Hd]]]; [done|]. apply working_finish; [done|done|]. by intros []. Qed.
End Stages.
End Progress.
