(* ===== verification/ImporterLiveness.v ===== *)
(** * The importer and a node that answers

    [importer_submits_only_certified] and [acknowledged_packages_done] hold whatever
    the node answers.  Here the node is a good one ([Responsive]): it answers from the
    storage of its chain, it accepts calls that are signed with the right nonce, and
    it gets them into blocks before the importer stops waiting.  Other accounts go on
    using the chain.  The importer then works through a verified package to the end,
    and the chain has done what the package proves. *)

From S2P Require Import Prelude Types Effects Handlers Codec Merkle Frame Domain Epochs Transfers TransfersProofs Governance GovernanceProofs Runtime RuntimeProofs Config Verify VerifyProofs Relay RelayProofs Importer ImporterProofs ImporterSafety ChainProgress.

Class StorageCodecOk `{!Account, !StorageCodec} : Prop := {
  scale_account_ok :: ScaleOk AccountId;
  scale_observed_import_ok :: ScaleOk ObservedImportRecord;
  scale_export_record_ok :: ScaleOk ExportRecord;
  scale_governance_proposal_ok :: ScaleOk GovernanceProposal;
  scale_governance_ack_record_ok :: ScaleOk GovernanceAckRecord
}.

Section Liveness.
Context `{!Codec, !CodecOk, !CodecSep, !HexCodec, !HexCodecOk, !LightClient, !Account, !AccountOk}.
Context `{!StorageCodec, !StorageCodecOk, !Keys, !Currency B, !CurrencyOk B} {N : Type} `{!NodeRpc N}.
Context (d : DomainId) (L : Z) (HL : 1 <= L).
Context (export_ids_distinct : forall s s',
  0 <= s < u64_max -> 0 <= s' < u64_max -> export_id d s = export_id d s' -> s = s').
Context (proposal_ids_distinct : forall d1 d2 s1 s2,
  0 <= s1 < u64_max -> 0 <= s2 < u64_max ->
  governance_proposal_id d1 s1 = governance_proposal_id d2 s2 -> d1 = d2 /\ s1 = s2).

(** The importer's key, and the runtime it was built for. *)
Context (pair : Pair) (local_version : RuntimeVersionView) (genesis : hash).
Abbreviation importer := (pair_account pair).

(** ** The node *)

(** Its chain, the importer's calls that no block holds yet, and the importer's next
    nonce. *)
Context (chain_at : N -> Chain B) (pool : N -> list RuntimeCall) (nonce : N -> Z).

(** The storage of a chain, where the importer reads it. *)
Record importer_store (ch : Chain B) (store : bytes -> option bytes) : Prop := {
  is_importer : store importer_account_storage_key = scale_encode <$> ts_importer_account (w_transfers (ch_world ch));
  is_governance_importer : store governance_importer_account_storage_key
    = scale_encode <$> gs_importer_account (w_governance (ch_world ch));
  is_import : forall id, store (observed_import_storage_key id) = scale_encode <$> imports_of ch !! id;
  is_export : forall id, store (export_record_storage_key id) = scale_encode <$> exports_of ch !! id;
  is_proposal : forall id, store (governance_proposal_storage_key id) = scale_encode <$> proposals_of ch !! id;
  is_ack : forall id x, store (governance_ack_record_storage_key id x) = scale_encode <$> acks_of ch !! (id, x)
}.

(** The items of a package that the importer works through. *)
Section Responsive.
Context (items : list Item).

(** Time passes: the chain grows, by blocks that take calls from the pool in order. *)
Definition passes (n n' : N) (calls : list RuntimeCall) : Prop :=
  exists cs, calls = cs ++ pool n' /\ grows d L importer items cs (chain_at n) (chain_at n').

(** The calls an importer makes, with the identifiers proposals have. *)
Definition importer_call (c : RuntimeCall) : Prop :=
  match c with
  | ObserveVerifiedImport _ | FinalizeVerifiedImport _ | AcknowledgeRemoteFinalization _
  | ImportVerifiedGovernanceAck _ => True
  | ImportVerifiedGovernanceProposal claim =>
    exists seq, 0 <= seq < u64_max /\ gpl_proposal_id (igp_leaf claim)
      = governance_proposal_id (gpl_source_domain (igp_leaf claim)) seq
  | _ => False
  end.

(** After [k] more queries the pool is empty. *)
Fixpoint drained (k : nat) (n : N) : Prop :=
  match k with
  | O => pool n = []
  | S k => forall key, drained k (fst (state_getStorage key n))
  end.

Context (I : N -> Prop).

Definition moves (n n' : N) : Prop := I n' /\ nonce n' = nonce n /\ passes n n' (pool n).
Definition answers {A} (n : N) (res : N * result Text A) (P : A -> N -> Prop) : Prop :=
  exists n' a, res = (n', Ok a) /\ moves n n' /\ P a n'.

Record Responsive : Prop := {
  rs_now : forall n, I n -> moves n (fst (unix_now_millis n));
  rs_connect : forall n, I n -> answers n (rpc_connect n) (fun _ _ => True);
  rs_version : forall n, I n -> answers n (state_getRuntimeVersion n) (fun v _ => v = local_version);
  rs_genesis : forall n, I n -> answers n (chain_getBlockHash 0 n) (fun h _ => h = genesis);
  rs_storage : forall key n, I n -> answers n (state_getStorage (hex_hash key) n) (fun value n' =>
    exists store, importer_store (chain_at n') store /\ value = hex_hash <$> store key);
  rs_nonce : forall n, I n -> answers n (system_accountNextIndex importer n) (fun v n' => v = nonce n');
  (** A call that is signed for this chain with the next nonce enters the pool. *)
  rs_submit : forall c n, I n -> importer_call c -> nonce n < u32_max ->
    exists n' tx, author_submitExtrinsic (build_signed_extrinsic pair importer (rv_spec_version local_version)
        (rv_transaction_version local_version) genesis (nonce n) c) n = (n', Ok tx) /\
      I n' /\ nonce n' = nonce n + 1 /\ passes n n' (pool n ++ [c]);
  (** Calls do not stay in the pool for as long as the importer waits. *)
  rs_prompt : forall n, I n -> drained 60 n
}.

Context (Hnode : Responsive).
Context (Hvalid : Forall (valid_item d) items).
Implicit Types (s : Importer N) (stage : list RuntimeCall -> Chain B -> Prop) (ch : Chain B).

(** ** Talking to the node *)

Definition at_node stage (n : N) : Prop := I n /\ stage (pool n) (chain_at n).

Lemma passes_stage stage n n' calls :
  follows d importer items stage -> passes n n' calls -> stage calls (chain_at n) -> stage (pool n') (chain_at n').
Proof.
  intros Hf (cs & -> & Hg). by apply (grows_stage d L HL export_ids_distinct proposal_ids_distinct importer items stage cs).
Qed.
Lemma moves_stage stage n n' : follows d importer items stage -> moves n n' -> at_node stage n -> at_node stage n'.
Proof. intros Hf (Hi & _ & Hp) [_ Hs]. split; [done|]. by eapply passes_stage. Qed.

(** A query changes the node only. *)
Definition queried stage s s' : Prop :=
  exists n', s' = s {{ im_node := n' }} /\ nonce n' = nonce (im_node s) /\ at_node stage n'.

Lemma queried_trans stage s1 s2 s3 : queried stage s1 s2 -> queried stage s2 s3 -> queried stage s1 s3.
Proof. intros (n2 & -> & E2 & _) (n3 & -> & E3 & Hn3). exists n3. simpl in *. split_and!; [done|congruence|done]. Qed.

Lemma yields_call {A} stage s (f : N -> N * result Text A) P :
  follows d importer items stage -> at_node stage (im_node s) -> answers (im_node s) (f (im_node s)) P ->
  yields s (call f) (fun a s' => queried stage s s' /\ P a (im_node s') /\ im_node s' = fst (f (im_node s))).
Proof.
  intros Hf Hs (n' & a & E & Hm & HP). exists (s {{ im_node := n' }}), a. unfold call. rewrite E. split; [done|].
  split_and!; [|done|done]. exists n'. split_and!; [done|apply Hm|by eapply moves_stage].
Qed.
Lemma yields_now {E} stage s :
  follows d importer items stage -> at_node stage (im_node s) ->
  yields s (now_millis : M (Importer N) E Z) (fun _ s' => queried stage s s').
Proof.
  intros Hf Hs. pose proof (rs_now Hnode _ (proj1 Hs)) as Hm. unfold yields, now_millis.
  destruct (unix_now_millis (im_node s)) as [n' t]. eexists _, t. split; [done|].
  exists n'. split_and!; [done|apply Hm|by eapply moves_stage].
Qed.

(** A read gives what the chain holds. *)
Definition reads_chain {T} `{!Scale T} (key : bytes) (find : Chain B -> option T) : Prop :=
  forall ch store, importer_store ch store -> store key = scale_encode <$> find ch.

Lemma yields_load {T} `{!Scale T, !ScaleOk T} stage s key (find : Chain B -> option T) :
  follows d importer items stage -> at_node stage (im_node s) -> reads_chain key find ->
  yields s (load_storage_value key) (fun o s' => queried stage s s' /\ o = find (chain_at (im_node s')) /\
    im_node s' = fst (state_getStorage (hex_hash key) (im_node s))).
Proof.
  intros Hf Hs Hk. unfold load_storage_value.
  eapply yields_bind; [apply yields_call; [done|done|apply (rs_storage Hnode), Hs]|].
  intros value s' (Hq & (store & Hst & ->) & En). rewrite (Hk _ _ Hst).
  destruct (find (chain_at (im_node s'))) as [v|] eqn:Ev; simpl; [|by apply yields_ret].
  rewrite hex_decode_encode, decode_whole. by apply yields_ret.
Qed.

(** The importer waits for the pool to be empty. *)
Lemma yields_wait {T} `{!Scale T, !ScaleOk T} stage key (find : Chain B -> option T) expected k : forall s,
  follows d importer items stage -> at_node stage (im_node s) -> reads_chain key find ->
  (forall n, at_node stage n -> pool n = [] <-> exists v, find (chain_at n) = Some v /\ expected v = true) ->
  k <> O -> drained k (im_node s) ->
  yields s (wait_for k (load_storage_value key) expected) (fun _ s' => queried stage s s' /\ pool (im_node s') = []).
Proof.
  induction k as [|k IH]; intros s Hf Hs Hk Hw Hne Hd; [done|]. simpl.
  eapply yields_bind; [apply yields_map_err; by apply (yields_load stage s key find)|].
  intros o s' (Hq & -> & En). specialize (Hd (hex_hash key)). rewrite <-En in Hd. pose proof Hq as (n' & E & _ & Hs').
  assert (im_node s' = n') as <- by (by rewrite E). pose proof (Hw _ Hs') as Hw'.
  destruct (decide (pool (im_node s') = [])) as [Ep|Ep].
  - pose proof Ep as (v & -> & ->)%Hw'. by apply yields_ret.
  - assert (yields s' (wait_for k (load_storage_value key) expected)
      (fun _ s'' => queried stage s s'' /\ pool (im_node s'') = [])) as Hagain.
    { eapply yields_mono; [apply IH; [done..| |done]|].
      - intros ->. by apply Ep.
      - intros _ s'' [Hq' He]. split; [by eapply queried_trans|done]. }
    destruct (find (chain_at (im_node s'))) as [v|] eqn:Ev; [|done].
    destruct (expected v) eqn:Ex; [|done]. exfalso. apply Ep, Hw'. by exists v.
Qed.

(** ** Items *)
Context (Hagree : forall leaf leaf', ItemProposal leaf ∈ items -> ItemProposal leaf' ∈ items ->
  gpl_proposal_id leaf' = gpl_proposal_id leaf -> gpl_source_domain leaf' = gpl_source_domain leaf /\
  gpl_target_domains leaf' = gpl_target_domains leaf /\ gpl_payload_hash leaf' = gpl_payload_hash leaf /\
  gpl_activation_epoch leaf' = gpl_activation_epoch leaf).
Context (pkg : CertifiedSummaryPackage).
Abbreviation spec := (rv_spec_version local_version).
Abbreviation tx := (rv_transaction_version local_version).

(** Nothing is pending, [finished] is done, and the nonce has room for [k] calls. *)
Definition ready_for (finished : Effect -> Prop) (k : Z) s : Prop :=
  at_node (idle importer items finished (fun _ => True)) (im_node s) /\ nonce (im_node s) + k <= u32_max.
(** The store, but for the import records. *)
Definition kept s s' : Prop :=
  im_index s' = im_index s /\ im_packages s' = im_packages s /\ im_payloads s' = im_payloads s.

#[local] Instance store_kept_preorder : PreOrder kept.
Proof. split; [by intros s|]. intros s1 s2 s3 (A1 & A2 & A3) (B1 & B2 & B3). split_and!; congruence. Qed.

Lemma idle_stages finished fact : steady d fact -> follows d importer items (idle importer items finished fact).
Proof. by apply (idle_follows d export_ids_distinct proposal_ids_distinct). Qed.

Lemma yields_submit stage s c :
  follows d importer items stage -> I (im_node s) -> stage (pool (im_node s) ++ [c]) (chain_at (im_node s)) ->
  importer_call c -> nonce (im_node s) < u32_max ->
  yields s (submit_call pair importer spec tx genesis (nonce (im_node s)) c)
    (fun _ s' => exists n', s' = s {{ im_node := n' }} /\ nonce n' = nonce (im_node s) + 1 /\ at_node stage n').
Proof.
  intros Hf Hi Hst Hc Hn. destruct (rs_submit Hnode c _ Hi Hc Hn) as (n' & t & E & Hi' & En & Hp).
  apply yields_map_err. exists (s {{ im_node := n' }}), t. unfold submit_extrinsic, call. rewrite E. split; [done|].
  exists n'. split_and!; [done|done|]. split; [done|]. by eapply passes_stage.
Qed.

(** Where the importer reads what. *)
Lemma reads_import id : reads_chain (observed_import_storage_key id) (fun ch => imports_of ch !! id).
Proof. intros ch store Hst. apply Hst. Qed.
Lemma reads_export id : reads_chain (export_record_storage_key id) (fun ch => exports_of ch !! id).
Proof. intros ch store Hst. apply Hst. Qed.
Lemma reads_proposal id : reads_chain (governance_proposal_storage_key id) (fun ch => proposals_of ch !! id).
Proof. intros ch store Hst. apply Hst. Qed.
Lemma reads_ack id x : reads_chain (governance_ack_record_storage_key id x) (fun ch => acks_of ch !! (id, x)).
Proof. intros ch store Hst. apply Hst. Qed.

(** What the importer knows between two items. *)
Definition knows (finished : Effect -> Prop) (k : Z) (fact : Chain B -> Prop) s : Prop :=
  ready_for finished k s /\ pool (im_node s) = [] /\
  working importer items finished None (chain_at (im_node s)) /\ fact (chain_at (im_node s)).

Lemma yields_query {A} finished k fact s (f : N -> N * result Text A) P :
  ready_for finished k s -> steady d fact -> fact (chain_at (im_node s)) -> answers (im_node s) (f (im_node s)) P ->
  yields s (call f) (fun a s' => knows finished k fact s' /\ kept s s' /\ P a (im_node s')).
Proof.
  intros [[Hi (Ep & Hw & _)] Hn] Hst Hf Ha.
  eapply yields_mono; [apply (yields_call (idle importer items finished fact)); [by apply idle_stages|by split|exact Ha]|].
  intros a s' ((n' & -> & En & Hi' & Ep' & Hw' & Hf') & HP & _). simpl in *.
  split_and!; [|done..]. split_and!; [|done..]. split; [by split|simpl; lia].
Qed.
Lemma steady_true : steady d (fun _ : Chain B => True).
Proof. by intros ch ch'. Qed.

Lemma yields_idle {T} `{!Scale T, !ScaleOk T} finished k s key (find : Chain B -> option T) :
  ready_for finished k s -> reads_chain key find ->
  yields s (load_storage_value key) (fun o s' => knows finished k (fun ch => find ch = o) s' /\ kept s s').
Proof.
  intros Hs Hk. pose proof Hs as [Hs0 Hn].
  eapply yields_mono; [apply (yields_load _ s key find (idle_stages finished _ steady_true) Hs0 Hk)|].
  intros o s' ((n' & -> & En & Hi' & Ep' & Hw' & _) & -> & _). simpl in *.
  split; [|by split_and!]. split_and!; [|done..]. split; [by split|simpl; lia].
Qed.
Lemma yields_nonce finished k fact s :
  knows finished k fact s -> steady d fact ->
  yields s (account_next_index importer) (fun v s' => knows finished k fact s' /\ kept s s' /\ v = nonce (im_node s')).
Proof. intros (Hs & _ & _ & Hf) Hst. apply (yields_query finished k fact s _ (fun v n => v = nonce n) Hs Hst Hf). apply (rs_nonce Hnode), Hs. Qed.

(** The calls for an item are submitted: the importer waits for them. *)
Lemma yields_finish {T} `{!Scale T, !ScaleOk T} finished e progress key (find : Chain B -> option T) expected k s :
  progresses d importer items e progress ->
  at_node (stage_of importer items finished e progress) (im_node s) -> nonce (im_node s) + k <= u32_max ->
  reads_chain key find ->
  (forall cs ch, progress cs ch -> cs = [] <-> exists v, find ch = Some v /\ expected v = true) ->
  (forall ch, stage_of importer items finished e progress [] ch -> working importer items (and_then finished e) None ch) ->
  yields s (retry_wait (wait_for 60 (load_storage_value key) expected)) (fun _ s' => ready_for (and_then finished e) k s' /\ kept s s').
Proof.
  intros Hp Hs Hn Hk Hw Hfin. apply yields_map_err.
  pose proof (stage_follows d export_ids_distinct proposal_ids_distinct importer items Hvalid finished e progress Hp) as Hf.
  eapply yields_mono; [apply (yields_wait _ key find expected 60 s Hf Hs Hk); [|done|apply (rs_prompt Hnode), Hs]|].
  - intros n [_ [_ Hpr]]. by apply Hw.
  - intros _ s' ((n' & -> & En & Hi & Hst) & Ep). simpl in *. rewrite Ep in Hst. split; [|by split_and!].
    split; [|simpl; lia]. split; [done|]. simpl. rewrite Ep. split_and!; [done|by apply Hfin|done].
Qed.

(** The first call for an item. *)
Lemma yields_start finished e progress k s c :
  progresses d importer items e progress -> importer_call c -> ready_for finished (1 + k) s -> 0 <= k ->
  progress [c] (chain_at (im_node s)) ->
  yields s (submit_call pair importer spec tx genesis (nonce (im_node s)) c) (fun _ s' =>
    at_node (stage_of importer items finished e progress) (im_node s') /\ nonce (im_node s') = nonce (im_node s) + 1 /\
    nonce (im_node s') + k <= u32_max /\ kept s s').
Proof.
  intros Hp Hc [[Hi (Ep & Hw & _)] Hn] Hk Hpr.
  eapply yields_mono; [apply (yields_submit (stage_of importer items finished e progress)); [|done| |done|lia]|].
  - by apply (stage_follows d export_ids_distinct proposal_ids_distinct).
  - rewrite Ep. by apply idle_stage.
  - intros _ s' (n' & -> & En & Hs'). simpl. split_and!; [done|done|lia|by split_and!].
Qed.

(** *** Exports and completions *)

Lemma record_upsert (index : ImporterIndex) r id id' :
  ir_export_id r = hex_hash id -> is_Some (record (upsert r index) id') -> is_Some (record index id') \/ id' = id.
Proof.
  intros Er. unfold record, upsert. simpl. induction (ii_imports index) as [|c l IH]; simpl.
  - case_bool_decide as E; [|by intros []]. intros _. right. apply hex_hash_inj. congruence.
  - destruct (bool_decide (ir_export_id c = ir_export_id r)) eqn:Ec; simpl.
    + apply bool_decide_eq_true_1 in Ec. rewrite Ec. destruct (bool_decide (ir_export_id r = hex_hash id')); auto.
    + destruct (bool_decide (ir_export_id c = hex_hash id')); [by left|done].
Qed.

Lemma yields_persist {E} (f : ImporterError -> E) finished k s index r :
  ready_for finished k s ->
  yields s (map_err f (persist_record index r)) (fun index' s' =>
    index' = upsert r index /\ ready_for finished k s' /\ kept s s').
Proof.
  intros Hs. apply yields_map_err. eexists _, _. split; [reflexivity|]. split_and!; [done|exact Hs|by split_and!].
Qed.

(** What the importer waits for is that no call is left. *)
Lemma export_waits leaf cs ch :
  export_progress pkg leaf cs ch ->
  cs = [] <-> exists r, imports_of ch !! el_export_id leaf = Some r /\ bool_decide (oir_status r = ImportRemoteFinalized) = true.
Proof.
  intros [(cs' & -> & Hp)|[-> (r & Hr & Hs)]].
  - split; [by destruct cs'|]. intros (r & Hr & Hs%bool_decide_eq_true_1). destruct Hp as [[_ Hn]|[_ (r' & Hr' & Hs' & _)]]; congruence.
  - split; [|done]. intros _. exists r. by rewrite bool_decide_eq_true_2.
Qed.
Lemma completion_waits leaf cs ch :
  completion_progress pkg leaf cs ch ->
  cs = [] <-> exists r, exports_of ch !! fl_export_id leaf = Some r /\ bool_decide (er_status r = RemoteFinalized) = true.
Proof.
  intros [[-> (r & Hr & _ & Hs)]|[-> (r & Hr & Hs)]].
  - split; [done|]. intros (r' & Hr' & Hs'%bool_decide_eq_true_1). congruence.
  - split; [|done]. intros _. exists r. by rewrite bool_decide_eq_true_2.
Qed.
Lemma proposal_waits leaf cs ch :
  proposal_progress pkg leaf cs ch -> cs = [] <-> exists p, proposals_of ch !! gpl_proposal_id leaf = Some p /\ true = true.
Proof.
  intros [[-> Hn]|[-> (p & Hp & _)]].
  - split; [done|]. intros (p & Hp & _). congruence.
  - split; [|done]. intros _. by exists p.
Qed.
Lemma ack_waits leaf cs ch :
  ack_progress pkg leaf cs ch ->
  cs = [] <-> exists a, acks_of ch !! (gal_proposal_id leaf, gal_acknowledging_domain leaf) = Some a /\ true = true.
Proof.
  intros [(-> & Hn & _)|[-> [a Ha]]].
  - split; [done|]. intros (a & Ha & _). congruence.
  - split; [|done]. intros _. by exists a.
Qed.

(** The first half of an export: the import is observed, now or already. *)
Lemma yields_observed finished k s leaf o (txs : list Text) :
  ItemExport leaf ∈ items -> 0 <= k ->
  knows finished (2 + k) (fun ch => imports_of ch !! el_export_id leaf = o) s ->
  (forall r, o = Some r -> oir_status r <> ImportRemoteFinalized) ->
  yields s (match o with
    | None =>
      do! tx_hash := submit_call pair importer spec tx genesis (nonce (im_node s)) (ObserveVerifiedImport (observed_claim pkg leaf)) in
      ret (txs ++ [tx_hash], sat_add u32_max (nonce (im_node s)) 1)
    | Some _ => ret (txs, nonce (im_node s))
    end : ProcessM (list Text * Z)) (fun res s' => snd res = nonce (im_node s') /\
      at_node (stage_of importer items finished (Imported (el_export_id leaf)) (observe_progress pkg leaf)) (im_node s') /\
      nonce (im_node s') + (1 + k) <= u32_max /\ kept s s').
Proof.
  intros Hin Hk (Hs & Ep & Hw & Ho) Hst. pose proof Hs as [[Hi _] Hn]. destruct o as [r|].
  - apply yields_ret. split_and!; [done| |lia|done]. split; [done|]. rewrite Ep. apply idle_stage; [done|]. right. split; [done|].
    exists r. destruct (wk_ready _ _ _ _ _ Hw _ Hin Logic.I r Ho) as [E|[E1 E2]]; [by destruct (Hst r)|].
    split_and!; [done| |done|done]. specialize (Hst r eq_refl). by destruct (oir_status r).
  - eapply yields_bind; [apply (yields_start finished (Imported (el_export_id leaf)) (observe_progress pkg leaf) (1 + k)); [|done|..]|].
    + by apply (observe_progresses d export_ids_distinct proposal_ids_distinct).
    + destruct Hs. split; [done|lia].
    + lia.
    + left. done.
    + intros t s' (Hs' & En & Hn' & K'). apply yields_ret. split_and!; [|done..]. simpl. unfold sat_add. lia.
Qed.

(** The second half: it is finalized. *)
Lemma yields_finalized finished k s leaf :
  ItemExport leaf ∈ items -> 0 <= k ->
  at_node (stage_of importer items finished (Imported (el_export_id leaf)) (observe_progress pkg leaf)) (im_node s) ->
  nonce (im_node s) + (1 + k) <= u32_max ->
  yields s (submit_call pair importer spec tx genesis (nonce (im_node s)) (FinalizeVerifiedImport (el_export_id leaf))) (fun _ s' =>
    at_node (stage_of importer items finished (Imported (el_export_id leaf)) (export_progress pkg leaf)) (im_node s') /\
    nonce (im_node s') + k <= u32_max /\ kept s s').
Proof.
  intros Hin Hk [Hi [Hw Hp]] Hn.
  eapply yields_mono; [apply (yields_submit (stage_of importer items finished (Imported (el_export_id leaf)) (export_progress pkg leaf)));
    [|done| |done|lia]|].
  - apply (stage_follows d export_ids_distinct proposal_ids_distinct); [done|].
    by apply (export_progresses d export_ids_distinct proposal_ids_distinct).
  - split; [done|]. left. by eexists.
  - intros _ s' (n' & -> & En & Hs'). simpl. split_and!; [done|lia|by split_and!].
Qed.

(** One export: it is imported, and only its record is new in the index. *)
Lemma yields_forward finished k s proof (acc : ForwardScan) :
  ItemExport (eip_leaf proof) ∈ items -> 0 <= k -> ready_for finished (2 + k) s ->
  let e := Imported (el_export_id (eip_leaf proof)) in
  (is_Some (record (fs_index acc) (el_export_id (eip_leaf proof))) -> finished e) ->
  yields s (forward_export pair importer spec tx genesis pkg proof acc) (fun acc' s' =>
    ready_for (and_then finished e) k s' /\ kept s s' /\ ii_domain_id (fs_index acc') = ii_domain_id (fs_index acc) /\
    forall id, is_Some (record (fs_index acc') id) -> is_Some (record (fs_index acc) id) \/ id = el_export_id (eip_leaf proof)).
Proof.
  intros Hin Hk Hs e Hrec. set (leaf := eip_leaf proof) in *. unfold forward_export. fold leaf. cbv zeta.
  destruct (record (fs_index acc) (el_export_id leaf)) as [r0|] eqn:Er.
  { apply yields_ret. destruct Hs as [[Hi (Ep & Hw & _)] Hn]. split_and!; [|done|done|by left].
    split; [|lia]. split; [done|]. split_and!; [done| |done]. apply working_weaken; [done|]. apply Hrec. by eexists. }
  eapply yields_bind; [apply yields_map_err, (yields_idle finished (2 + k) s); [done|apply reads_import]|].
  intros o s1 [Hs1 K1]. cbv beta zeta in Hs1 |- *.
  match goal with |- yields _ (if ?b then _ else _) _ => destruct b eqn:Ealready end.
  - destruct o as [r|]; [|done]. apply bool_decide_eq_true_1 in Ealready.
    destruct Hs1 as ([[Hi _] Hn] & Ep & Hw & Hr). eapply yields_bind.
    + apply (yields_persist _ (and_then finished e) k). split; [|lia]. split; [done|]. split_and!; [done| |done].
      destruct Hw as [W1 W2 W3]. split; [done|done|]. intros x [Hx| ->]; [auto|]. by exists r.
    + intros index s2 (-> & Hs2 & K2). apply yields_ret. split_and!; [done|by etransitivity|done|].
      intros id. by apply record_upsert.
  - eapply yields_bind; [apply yields_map_err, (yields_nonce finished (2 + k) _ s1 Hs1), steady_import|].
    intros v s2 (Hs2 & K2 & ->).
    eapply yields_bind; [apply (yields_observed finished k s2 leaf o (fs_tx_hashes acc) Hin Hk Hs2)|].
    { intros r -> E. rewrite bool_decide_eq_true_2 in Ealready by done. done. }
    intros [txs v] s3 (Ev & Hs3 & Hn3 & K3). simpl in Ev. subst v.
    eapply yields_bind; [by apply (yields_finalized finished k)|]. intros t s4 (Hs4 & Hn4 & K4).
    eapply yields_bind; [apply (yields_finish finished e (export_progress pkg leaf) (observed_import_storage_key (el_export_id leaf))
      (fun ch => imports_of ch !! el_export_id leaf)); [|exact Hs4|exact Hn4|apply reads_import|apply export_waits|apply export_finish]|].
    { by apply (export_progresses d export_ids_distinct proposal_ids_distinct). }
    intros _ s5 [Hs5 K5]. eapply yields_bind; [by apply (yields_persist _ (and_then finished e) k)|].
    intros index s6 (-> & Hs6 & K6). apply yields_ret. split_and!; [done| |done|intros id; by apply record_upsert].
    by repeat (etransitivity; [eassumption|]).
Qed.

(** An item the chain has already done. *)
Lemma ready_done finished k k' fact s e :
  knows finished k' fact s -> k <= k' -> chain_done (chain_at (im_node s)) e -> ready_for (and_then finished e) k s.
Proof.
  intros ([[Hi _] Hn] & Ep & [W1 W2 W3] & _) Hle He. split; [|lia]. split; [done|]. split_and!; [done| |done].
  split; [done|done|]. intros x [Hx| ->]; auto.
Qed.

Lemma yields_completion finished k s proof (acc : CompletionScan) :
  ItemCompletion (fip_leaf proof) ∈ items -> 0 <= k -> ready_for finished (1 + k) s ->
  let e := Resolved (fl_export_id (fip_leaf proof)) in
  (is_Some (record (cs_index acc) (fl_export_id (fip_leaf proof))) -> finished e) ->
  yields s (settle_completion pair importer spec tx genesis pkg proof acc) (fun acc' s' =>
    ready_for (and_then finished e) k s' /\ kept s s' /\ ii_domain_id (cs_index acc') = ii_domain_id (cs_index acc) /\
    forall id, is_Some (record (cs_index acc') id) -> is_Some (record (cs_index acc) id) \/ id = fl_export_id (fip_leaf proof)).
Proof.
  intros Hin Hk Hs e Hrec. set (leaf := fip_leaf proof) in *. unfold settle_completion. fold leaf. cbv zeta.
  destruct (record (cs_index acc) (fl_export_id leaf)) as [r0|] eqn:Er.
  { apply yields_ret. destruct Hs as [[Hi (Ep & Hw & _)] Hn]. split_and!; [|done|done|by left].
    split; [|lia]. split; [done|]. split_and!; [done| |done]. apply working_weaken; [done|]. apply Hrec. by eexists. }
  eapply yields_bind; [apply yields_map_err, (yields_idle finished (1 + k) s); [done|apply reads_export]|].
  intros o s1 [Hs1 K1]. cbv beta in Hs1. pose proof Hs1 as (_ & _ & Hw1 & Ho).
  destruct (wk_ready _ _ _ _ _ Hw1 _ Hin Logic.I) as (r & Hr & Hf & Hl). fold leaf in Hr, Hf.
  assert (o = Some r) as -> by congruence. destruct (bool_decide (er_status r = RemoteFinalized)) eqn:Ed.
  - apply bool_decide_eq_true_1 in Ed. eapply yields_bind; [apply (yields_persist _ (and_then finished e) k)|].
    { eapply ready_done; [exact Hs1|lia|by exists r]. }
    intros index s2 (-> & Hs2 & K2). apply yields_ret. split_and!; [done|by etransitivity|done|].
    intros id. by apply record_upsert.
  - apply bool_decide_eq_false_1 in Ed. assert (er_status r = Exported) as Ex by (by destruct (er_status r)).
    eapply yields_bind; [apply yields_map_err, (yields_nonce finished (1 + k) _ s1 Hs1), steady_export, Ex|].
    intros v s2 ((Hs2 & _ & _ & Hr2) & K2 & ->). cbv beta in Hr2.
    pose proof (completion_progresses d export_ids_distinct proposal_ids_distinct importer items Hvalid pkg leaf Hin) as Hp.
    eapply yields_bind; [apply (yields_start finished e _ k s2 _ Hp); [done|done|done|by left; eauto]|].
    intros t s3 (Hs3 & _ & Hn3 & K3).
    eapply yields_bind; [apply (yields_finish finished e (completion_progress pkg leaf) (export_record_storage_key (fl_export_id leaf))
      (fun ch => exports_of ch !! fl_export_id leaf) _ _ _ Hp Hs3 Hn3); [apply reads_export|apply completion_waits|apply completion_finish]|].
    intros _ s4 [Hs4 K4]. eapply yields_bind; [by apply (yields_persist _ (and_then finished e) k)|].
    intros index s5 (-> & Hs5 & K5). apply yields_ret. split_and!; [done| |done|intros id; by apply record_upsert].
    by repeat (etransitivity; [eassumption|]).
Qed.

(** *** Governance *)

Lemma yields_proposal finished k s leaf (acc : GovernanceScan) :
  ItemProposal leaf ∈ items -> 0 <= k -> ready_for finished (1 + k) s ->
  yields s (import_proposal_leaf pair importer spec tx genesis pkg leaf acc) (fun _ s' =>
    ready_for (and_then finished (ProposalKnown (gpl_proposal_id leaf))) k s' /\ kept s s').
Proof.
  intros Hin Hk Hs. set (e := ProposalKnown (gpl_proposal_id leaf)). unfold import_proposal_leaf. cbv zeta.
  pose proof (proj1 (Forall_forall _ _) Hvalid _ Hin) as Hv.
  eapply yields_bind; [apply yields_map_err, (yields_idle finished (1 + k) s); [done|apply reads_proposal]|].
  intros o s1 [Hs1 K1]. cbv beta in Hs1. pose proof Hs1 as (_ & _ & Hw1 & Ho). destruct o as [p|].
  - destruct (wk_ready _ _ _ _ _ Hw1 _ Hin Logic.I p Ho) as [_ Hfacts]. rewrite Hfacts. apply yields_ret.
    split; [|done]. eapply ready_done; [exact Hs1|lia|by exists p].
  - eapply yields_bind; [apply yields_map_err, (yields_nonce finished (1 + k) _ s1 Hs1), steady_proposal, Hv|].
    intros v s2 ((Hs2 & _ & _ & Hn2) & K2 & ->). cbv beta in Hn2.
    pose proof (proposal_progresses d export_ids_distinct proposal_ids_distinct importer items Hvalid pkg leaf Hin) as Hp.
    eapply yields_bind; [apply (yields_start finished e _ k s2 _ Hp); [|done|done|by left]|].
    { destruct Hv as (_ & _ & _ & _ & Hid). exact Hid. }
    intros t s3 (Hs3 & _ & Hn3 & K3).
    eapply yields_bind; [apply (yields_finish finished e (proposal_progress pkg leaf) (governance_proposal_storage_key (gpl_proposal_id leaf))
      (fun ch => proposals_of ch !! gpl_proposal_id leaf) _ _ _ Hp Hs3 Hn3); [apply reads_proposal|apply proposal_waits|]|].
    { intros ch. by apply (proposal_finish importer items Hagree). }
    intros _ s4 [Hs4 K4]. apply yields_ret. split; [done|]. by repeat (etransitivity; [eassumption|]).
Qed.

Lemma yields_ack finished k s leaf (acc : GovernanceScan) :
  ItemAck leaf ∈ items -> 0 <= k -> ready_for finished (1 + k) s ->
  yields s (import_ack_leaf pair importer spec tx genesis pkg leaf acc) (fun _ s' =>
    ready_for (and_then finished (AckKnown (gal_proposal_id leaf) (gal_acknowledging_domain leaf))) k s' /\ kept s s').
Proof.
  intros Hin Hk Hs. set (e := AckKnown (gal_proposal_id leaf) (gal_acknowledging_domain leaf)).
  unfold import_ack_leaf. cbv zeta.
  eapply yields_bind; [apply yields_map_err, (yields_idle finished (1 + k) s); [done|apply reads_proposal]|].
  intros o s1 [Hs1 K1]. cbv beta in Hs1. pose proof Hs1 as (Hr1 & _ & Hw1 & Ho).
  destruct (wk_ready _ _ _ _ _ Hw1 _ Hin Logic.I) as (p & Hp & [_ Hfacts] & _).
  assert (o = Some p) as -> by congruence. rewrite Hfacts.
  eapply yields_bind; [apply yields_map_err, (yields_idle finished (1 + k) s1); [done|apply reads_ack]|].
  intros o s2 [Hs2 K2]. cbv beta in Hs2. destruct o as [a|].
  - apply yields_ret. split; [|by etransitivity]. eapply ready_done; [exact Hs2|lia|exists a; apply Hs2].
  - eapply yields_bind; [apply yields_map_err, (yields_nonce finished (1 + k) _ s2 Hs2), steady_ack|].
    intros v s3 ((Hs3 & _ & Hw3 & Hn3) & K3 & ->). cbv beta in Hn3.
    pose proof (ack_progresses d export_ids_distinct proposal_ids_distinct importer items Hvalid pkg leaf Hin) as Hpg.
    eapply yields_bind; [apply (yields_start finished e _ k s3 _ Hpg); [done|done|done|left]|].
    { split_and!; [done|done|]. by apply (wk_ready _ _ _ _ _ Hw3). }
    intros t s4 (Hs4 & _ & Hn4 & K4).
    eapply yields_bind; [apply (yields_finish finished e (ack_progress pkg leaf)
      (governance_ack_record_storage_key (gal_proposal_id leaf) (gal_acknowledging_domain leaf))
      (fun ch => acks_of ch !! (gal_proposal_id leaf, gal_acknowledging_domain leaf)) _ _ _ Hpg Hs4 Hn4);
      [apply reads_ack|apply ack_waits|apply ack_finish]|].
    intros _ s5 [Hs5 K5]. apply yields_ret. split; [done|]. by repeat (etransitivity; [eassumption|]).
Qed.

(** ** The items of a package *)

(** More is finished, with the effects of [proofs]. *)
Definition extends {A} (effect : A -> Effect) (proofs : list A) (finished finished' : Effect -> Prop) : Prop :=
  (forall x, finished x -> finished' x) /\ forall p, p ∈ proofs -> finished' (effect p).
Definition gov_item (leaf : GovernanceLeaf) : Item :=
  match leaf with ProposalV1 leaf => ItemProposal leaf | AckV1 leaf => ItemAck leaf end.
Definition export_effect (p : ExportInclusionProof) : Effect := Imported (el_export_id (eip_leaf p)).
Definition completion_effect (p : FinalizedImportInclusionProof) : Effect := Resolved (fl_export_id (fip_leaf p)).
Definition governance_effect (p : GovernanceInclusionProof) : Effect := item_effect (gov_item (gip_leaf p)).

Lemma extends_nil {A} (effect : A -> Effect) finished : extends effect [] finished finished.
Proof. split; [done|]. intros p Hp. by apply elem_of_nil in Hp. Qed.
Lemma extends_cons {A} (effect : A -> Effect) p proofs finished finished' :
  extends effect proofs (and_then finished (effect p)) finished' -> extends effect (p :: proofs) finished finished'.
Proof.
  intros [H1' H2']. split; [intros x Hx; apply H1'; by left|].
  intros q [->|Hq]%elem_of_cons; [apply H1'; by right|by apply H2'].
Qed.

(** What the index lists of [proofs] is finished. *)
Definition listed_done {A} (id : A -> hash) (effect : A -> Effect) (proofs : list A) (index : ImporterIndex)
    (finished : Effect -> Prop) : Prop :=
  forall p, p ∈ proofs -> is_Some (record index (id p)) -> finished (effect p).
(** Records for [proofs] were added. *)
Definition lists_more {A} (id : A -> hash) (proofs : list A) (index index' : ImporterIndex) : Prop :=
  ii_domain_id index' = ii_domain_id index /\
  forall h, is_Some (record index' h) -> is_Some (record index h) \/ exists p, p ∈ proofs /\ h = id p.
Abbreviation export_key := (fun p : ExportInclusionProof => el_export_id (eip_leaf p)).
Abbreviation completion_key := (fun p : FinalizedImportInclusionProof => fl_export_id (fip_leaf p)).

Lemma lists_more_cons {A} (id : A -> hash) p proofs index index1 index' :
  ii_domain_id index1 = ii_domain_id index -> (forall h, is_Some (record index1 h) -> is_Some (record index h) \/ h = id p) ->
  lists_more id proofs index1 index' -> lists_more id (p :: proofs) index index'.
Proof.
  intros E H1' [E' H2']. split; [congruence|]. intros h [[Hh| ->]%H1'|(q & Hq & ->)]%H2'; [by left|right..].
  - exists p. split; [by left|done].
  - exists q. split; [by right|done].
Qed.

Lemma yields_forwards proofs : forall finished k s (acc : ForwardScan),
  (forall p, p ∈ proofs -> ItemExport (eip_leaf p) ∈ items) -> 0 <= k ->
  ready_for finished (2 * Z.of_nat (length proofs) + k) s ->
  listed_done export_key export_effect proofs (fs_index acc) finished ->
  yields s (forward_exports pair importer spec tx genesis pkg proofs acc) (fun acc' s' => exists finished',
    extends export_effect proofs finished finished' /\ ready_for finished' k s' /\ kept s s' /\
    lists_more export_key proofs (fs_index acc) (fs_index acc')).
Proof.
  induction proofs as [|p proofs IH]; intros finished k s acc Hin Hk Hs Hl; simpl.
  { apply yields_ret. exists finished. split_and!; [apply extends_nil|by destruct Hs as [? Hn]; split; [|simpl in Hn; lia]|done|split; auto]. }
  eapply yields_bind; [apply (yields_forward finished (2 * Z.of_nat (length proofs) + k) s p acc); [apply Hin; by left|lia| |]|].
  - destruct Hs as [Hs Hn]. split; [done|]. cbn [length] in Hn. lia.
  - intros Hr. apply Hl; [by left|done].
  - intros acc1 s1 (Hs1 & K1 & Ed & Hm).
    eapply yields_mono; [apply (IH (and_then finished (export_effect p)) k s1 acc1); [intros; apply Hin; by right|done|done|]|].
    + intros q Hq Hr. apply Hm in Hr as [Hr|E]; [left; apply Hl; [by right|done]|right]. unfold export_effect. by rewrite E.
    + intros acc' s' (finished' & He & Hs' & K' & Hl'). exists finished'.
      split_and!; [by apply extends_cons|done|by etransitivity|by eapply lists_more_cons].
Qed.

Lemma yields_completions proofs : forall finished k s (acc : CompletionScan),
  (forall p, p ∈ proofs -> ItemCompletion (fip_leaf p) ∈ items) -> 0 <= k ->
  ready_for finished (Z.of_nat (length proofs) + k) s ->
  listed_done completion_key completion_effect proofs (cs_index acc) finished ->
  yields s (settle_completions pair importer spec tx genesis pkg proofs acc) (fun acc' s' => exists finished',
    extends completion_effect proofs finished finished' /\ ready_for finished' k s' /\ kept s s' /\
    lists_more completion_key proofs (cs_index acc) (cs_index acc')).
Proof.
  induction proofs as [|p proofs IH]; intros finished k s acc Hin Hk Hs Hl; simpl.
  { apply yields_ret. exists finished. split_and!; [apply extends_nil|by destruct Hs as [? Hn]; split; [|simpl in Hn; lia]|done|split; auto]. }
  eapply yields_bind; [apply (yields_completion finished (Z.of_nat (length proofs) + k) s p acc); [apply Hin; by left|lia| |]|].
  - destruct Hs as [Hs Hn]. split; [done|]. cbn [length] in Hn. lia.
  - intros Hr. apply Hl; [by left|done].
  - intros acc1 s1 (Hs1 & K1 & Ed & Hm).
    eapply yields_mono; [apply (IH (and_then finished (completion_effect p)) k s1 acc1); [intros; apply Hin; by right|done|done|]|].
    + intros q Hq Hr. apply Hm in Hr as [Hr|E]; [left; apply Hl; [by right|done]|right]. unfold completion_effect. by rewrite E.
    + intros acc' s' (finished' & He & Hs' & K' & Hl'). exists finished'.
      split_and!; [by apply extends_cons|done|by etransitivity|by eapply lists_more_cons].
Qed.

Lemma yields_governance proofs : forall finished k s (acc : GovernanceScan),
  (forall p, p ∈ proofs -> gov_item (gip_leaf p) ∈ items) -> 0 <= k ->
  ready_for finished (Z.of_nat (length proofs) + k) s ->
  yields s (governance_proofs pair importer spec tx genesis pkg proofs acc) (fun _ s' => exists finished',
    extends governance_effect proofs finished finished' /\ ready_for finished' k s' /\ kept s s').
Proof.
  induction proofs as [|p proofs IH]; intros finished k s acc Hin Hk Hs; simpl.
  { apply yields_ret. exists finished. split_and!; [apply extends_nil|by destruct Hs as [? Hn]; split; [|simpl in Hn; lia]|done]. }
  eapply (yields_bind _ _ _ (fun _ s' => ready_for (and_then finished (governance_effect p)) (Z.of_nat (length proofs) + k) s' /\ kept s s')).
  - pose proof (Hin p ltac:(by left)) as Hi. assert (ready_for finished (1 + (Z.of_nat (length proofs) + k)) s) as Hs1.
    { destruct Hs as [Hs Hn]. split; [done|]. cbn [length] in Hn. lia. }
    unfold governance_effect, gov_item in *. destruct (gip_leaf p); [apply yields_proposal|apply yields_ack]; done || lia.
  - intros acc1 s1 [Hs1 K1]. eapply yields_mono; [apply (IH (and_then finished (governance_effect p)) k s1 acc1); [intros; apply Hin; by right|done|exact Hs1]|].
    intros _ s' (finished' & He & Hs' & K'). exists finished'. split_and!; [by apply extends_cons|done|by etransitivity].
Qed.

(** ** The package *)

(** The index file gives [index]. *)
Definition loads s (index : ImporterIndex) : Prop := load_index d s = (s, Ok index).
Definition files_kept s s' : Prop := im_packages s' = im_packages s /\ im_payloads s' = im_payloads s.

Lemma loads_domain s index : loads s index -> ii_domain_id index = d.
Proof.
  unfold loads, load_index, bind, gets, lift. destruct (im_index s) as [[index0|d0 imports|v]|]; [..|by intros [= <-]].
  - case_bool_decide; [|done]. by intros [= <-].
  - case_bool_decide; [|done]. by intros [= <-].
  - done.
Qed.
Lemma loads_kept s s' index : kept s s' -> loads s index -> loads s' index.
Proof.
  intros (E & _). unfold loads, load_index, bind, gets, lift. rewrite E.
  destruct (im_index s) as [[index0|d0 imports|v]|]; try case_bool_decide; try done; by intros [= <-].
Qed.
Lemma yields_load_index {E} (f : ImporterError -> E) s index (Q : ImporterIndex -> Importer N -> Prop) :
  loads s index -> Q index s -> yields s (map_err f (load_index d)) Q.
Proof. intros Hl HQ. exists s, index. unfold map_err. by rewrite Hl. Qed.

(** A saved index is the one that is loaded, up to packages being verified. *)
Lemma yields_save_index {E} (f : ImporterError -> E) finished k s index :
  ready_for finished k s -> ii_domain_id index = d ->
  yields s (map_err f (save_index d index)) (fun _ s' => ready_for finished k s' /\ files_kept s s' /\
    loads s' (index {{ ii_packages ::= map reset_verifying }})).
Proof.
  intros Hs Hd. apply yields_map_err. unfold save_index. rewrite bool_decide_eq_true_2 by done.
  apply yields_modify. split_and!; [done|by split|]. unfold loads, load_index, bind, gets, lift. simpl.
  by rewrite bool_decide_eq_true_2.
Qed.

Lemma yields_process_forward proofs finished k s index :
  (forall p, p ∈ proofs -> ItemExport (eip_leaf p) ∈ items) -> 0 <= k ->
  ready_for finished (2 * Z.of_nat (length proofs) + k) s -> loads s index ->
  listed_done export_key export_effect proofs index finished ->
  yields s (process_forward_exports d pair importer spec tx genesis pkg proofs) (fun outcome s' => exists finished' index',
    acknowledged (po_final_state outcome) = true /\ extends export_effect proofs finished finished' /\
    ready_for finished' k s' /\ files_kept s s' /\ loads s' index' /\ lists_more export_key proofs index index').
Proof.
  intros Hin Hk Hs Hl Hdone. unfold process_forward_exports.
  eapply yields_bind; [apply (yields_load_index _ _ _ (fun i s' => i = index /\ s' = s) Hl); done|]. intros ? ? [-> ->].
  eapply yields_bind; [by apply yields_forwards|]. intros acc s1 (finished' & He & Hs1 & K1 & Hm).
  eapply yields_bind; [apply (yields_save_index _ finished' k); [done|]|].
  { destruct Hm as [-> _]. simpl. by eapply loads_domain. }
  intros _ s2 (Hs2 & F2 & Hl2). apply yields_ret. exists finished'. eexists. split_and!; [|done|done| |exact Hl2|exact Hm].
  - simpl. by repeat case_match.
  - destruct F2 as [E1 E2], K1 as (_ & E3 & E4). split; congruence.
Qed.
Lemma yields_process_completions proofs finished k s index :
  (forall p, p ∈ proofs -> ItemCompletion (fip_leaf p) ∈ items) -> 0 <= k ->
  ready_for finished (Z.of_nat (length proofs) + k) s -> loads s index ->
  listed_done completion_key completion_effect proofs index finished ->
  yields s (process_settlement_completions d pair importer spec tx genesis pkg proofs) (fun outcome s' => exists finished',
    acknowledged (po_final_state outcome) = true /\ extends completion_effect proofs finished finished' /\
    ready_for finished' k s' /\ files_kept s s').
Proof.
  intros Hin Hk Hs Hl Hdone. unfold process_settlement_completions.
  eapply yields_bind; [apply (yields_load_index _ _ _ (fun i s' => i = index /\ s' = s) Hl); done|]. intros ? ? [-> ->].
  eapply yields_bind; [by apply yields_completions|]. intros acc s1 (finished' & He & Hs1 & K1 & Hm).
  eapply yields_bind; [apply (yields_save_index _ finished' k); [done|]|].
  { destruct Hm as [-> _]. simpl. by eapply loads_domain. }
  intros _ s2 (Hs2 & F2 & Hl2). apply yields_ret. exists finished'. split_and!; [|done|done|].
  - simpl. by repeat case_match.
  - destruct F2 as [E1 E2], K1 as (_ & E3 & E4). split; congruence.
Qed.
Lemma yields_process_governance proofs finished k s :
  (forall p, p ∈ proofs -> gov_item (gip_leaf p) ∈ items) -> 0 <= k ->
  ready_for finished (Z.of_nat (length proofs) + k) s ->
  yields s (process_governance_proofs pair importer spec tx genesis pkg proofs) (fun outcome s' => exists finished',
    acknowledged (po_final_state outcome) = true /\ extends governance_effect proofs finished finished' /\
    ready_for finished' k s' /\ files_kept s s').
Proof.
  intros Hin Hk Hs. unfold process_governance_proofs.
  eapply yields_bind; [by apply (yields_governance proofs finished k)|]. intros acc s1 (finished' & He & Hs1 & K1).
  apply yields_ret. exists finished'. split_and!; [|done|done|split; apply K1]. simpl. by repeat case_match.
Qed.

Lemma yields_some {A} s (proofs : list A) process outs (R : Importer N -> Prop) :
  (proofs = [] -> R s) -> yields s (process proofs) (fun _ s' => R s') ->
  yields s (process_some proofs process outs) (fun outs' s' => R s' /\ (outs' = [] -> outs = [] /\ proofs = [])).
Proof.
  intros Hn Hp. destruct proofs as [|p proofs]; simpl; [by apply yields_ret; auto|].
  eapply yields_bind; [exact Hp|]. intros o s' HR. apply yields_ret. split; [done|]. by destruct outs.
Qed.

Lemma merge_acknowledged outs : acknowledged (po_final_state (merge_outcomes outs)) = true.
Proof. unfold merge_outcomes. destruct (foldl _ _ _) as [[[] []] []]; done. Qed.

Definition package_items (vi : VerifiedPackageItems) : list Item :=
  map (fun p => ItemExport (eip_leaf p)) (vi_export_proofs vi)
  ++ map (fun p => ItemCompletion (fip_leaf p)) (vi_finalized_import_proofs vi)
  ++ map (fun p => gov_item (gip_leaf p)) (vi_governance_proofs vi).
(** The calls that the items take: two for an export, one for the others. *)
Definition calls_for (i : Item) : Z := match i with ItemExport _ => 2 | _ => 1 end.
Definition calls_needed (l : list Item) : Z := foldr (fun i n => calls_for i + n) 0 l.

Lemma calls_needed_app l l' : calls_needed (l ++ l') = calls_needed l + calls_needed l'.
Proof. unfold calls_needed. induction l as [|i l IH]; simpl; lia. Qed.
Lemma calls_needed_map {A} (f : A -> Item) c l : (forall a, calls_for (f a) = c) -> calls_needed (map f l) = c * Z.of_nat (length l).
Proof. intros Hc. unfold calls_needed. induction l as [|a l IH]; simpl; [lia|]. rewrite Hc, IH. lia. Qed.
Lemma calls_needed_package vi :
  calls_needed (package_items vi) = 2 * Z.of_nat (length (vi_export_proofs vi))
    + Z.of_nat (length (vi_finalized_import_proofs vi)) + Z.of_nat (length (vi_governance_proofs vi)).
Proof.
  unfold package_items. rewrite !calls_needed_app.
  rewrite (calls_needed_map _ 2), (calls_needed_map _ 1 (vi_finalized_import_proofs vi)), (calls_needed_map _ 1); [lia|..]; try done.
  intros p. by destruct (gip_leaf p).
Qed.

Lemma yields_items vi finished s index :
  items = package_items vi -> items <> [] -> ready_for finished (calls_needed items) s -> loads s index ->
  listed_done export_key export_effect (vi_export_proofs vi) index finished ->
  listed_done completion_key completion_effect (vi_finalized_import_proofs vi) index finished ->
  (forall p q, p ∈ vi_export_proofs vi -> q ∈ vi_finalized_import_proofs vi -> export_key p <> completion_key q) ->
  yields s (process_package_items d pair importer spec tx genesis pkg vi) (fun outcome s' =>
    acknowledged (po_final_state outcome) = true /\ files_kept s s' /\ exists finished', ready_for finished' 0 s' /\
    forall i, i ∈ items -> finished' (item_effect i)).
Proof.
  intros Ei Hne Hs Hl Hx Hc Hdis. unfold process_package_items.
  rewrite Ei, calls_needed_package in Hs. destruct vi as [xs cs gs]. unfold package_items in Ei. simpl in *.
  assert (forall p, p ∈ xs -> ItemExport (eip_leaf p) ∈ items) as Hix by (rewrite Ei; set_solver).
  assert (forall p, p ∈ cs -> ItemCompletion (fip_leaf p) ∈ items) as Hic by (rewrite Ei; set_solver).
  assert (forall p, p ∈ gs -> gov_item (gip_leaf p) ∈ items) as Hig by (rewrite Ei; set_solver).
  eapply yields_bind; [apply (yields_some s xs _ [] (fun s' => exists finished' index', extends export_effect xs finished finished' /\
    ready_for finished' (Z.of_nat (length cs) + Z.of_nat (length gs)) s' /\ files_kept s s' /\ loads s' index' /\
    lists_more export_key xs index index'))|].
  { intros ->. exists finished, index. split_and!; [apply extends_nil| |done|done|by split; [|by left]]. destruct Hs. split; [done|].
    simpl in *. lia. }
  { eapply yields_mono; [apply (yields_process_forward xs finished (Z.of_nat (length cs) + Z.of_nat (length gs)) s index); [done|lia| |done|done]|].
    - destruct Hs. split; [done|lia].
    - intros o s' (f' & i' & _ & Hrest). by exists f', i'. }
  intros outs s1 [(f1 & index1 & [X1 X2] & Hs1 & [F1 F1'] & Hl1 & _ & Hm) Ho1].
  eapply yields_bind; [apply (yields_some s1 cs _ outs (fun s' => exists finished', extends completion_effect cs f1 finished' /\
    ready_for finished' (Z.of_nat (length gs)) s' /\ files_kept s1 s'))|].
  { intros ->. exists f1. split_and!; [apply extends_nil|by destruct Hs1; split|done]. }
  { eapply yields_mono; [apply (yields_process_completions cs f1 (Z.of_nat (length gs)) s1 index1); [done|lia|done|done|]|].
    - intros q Hq Hr. apply Hm in Hr as [Hr|(p & Hp & E)]; [by apply X1, Hc|]. destruct (Hdis p q Hp Hq). done.
    - intros o s' (f' & _ & Hrest). by exists f'. }
  intros outs2 s2 [(f2 & [Y1 Y2] & Hs2 & [F2 F2']) Ho2].
  eapply yields_bind; [apply (yields_some s2 gs _ outs2 (fun s' => exists finished', extends governance_effect gs f2 finished' /\
    ready_for finished' 0 s' /\ files_kept s2 s'))|].
  { intros ->. exists f2. split_and!; [apply extends_nil|done|done]. }
  { eapply yields_mono; [apply (yields_process_governance gs f2 0 s2); [done|lia|]|].
    - destruct Hs2. split; [done|lia].
    - intros o s' (f' & _ & Hrest). by exists f'. }
  intros outs3 s3 [(f3 & [Z1 Z2] & Hs3 & [F3 F3']) Ho3]. destruct outs3 as [|o outs3].
  { exfalso. apply Hne. destruct (Ho3 eq_refl) as [-> ->]. destruct (Ho2 eq_refl) as [-> ->]. destruct (Ho1 eq_refl) as [_ ->]. done. }
  apply yields_ret. split_and!; [apply merge_acknowledged|split; congruence|]. exists f3. split; [done|].
  rewrite Ei. intros i. rewrite !elem_of_app, !list_elem_of_fmap.
  intros [(p & -> & Hp)|[(p & -> & Hp)|(p & -> & Hp)]]; [apply Z1, Y1, (X2 p Hp)|apply Z1, (Y2 p Hp)|apply (Z2 p Hp)].
Qed.

Lemma yields_rpc {A} s r (m : M (Importer N) Text A) k (Q : A -> Importer N -> Prop) R :
  yields s m Q -> (forall a s', Q a s' -> yields s' (k a) R) -> yields s (with_rpc d r m k) R.
Proof.
  intros Hm Hk. unfold with_rpc. eapply yields_bind; [by apply yields_try|].
  intros res s' (a & -> & Ha). by apply Hk.
Qed.
Lemma yields_check {A} `{!Scale A, !ScaleOk A} (key : bytes) (find : Chain B -> option A) finished k s r
    (missing wrong : Reason) (test : A -> bool) (cont : ImporterM N unit) R :
  ready_for finished k s -> reads_chain key find ->
  (forall ch, working importer items finished None ch -> exists a, find ch = Some a /\ test a = true) ->
  (forall s', ready_for finished k s' -> kept s s' -> yields s' cont R) ->
  yields s (do! c := map_err NodeError (load_storage_value key) in
            match c with
            | None => finalize_package_error d r SubmissionRetrying [missing]
            | Some c => if test c then cont else finalize_package_error d r AckedInvalid [wrong]
            end) R.
Proof.
  intros Hs Hk Hw Hc. eapply yields_bind; [by apply yields_map_err, (yields_idle finished k s key find)|].
  intros o s' [(Hs' & _ & Hw' & <-) K']. destruct (Hw _ Hw') as (a & -> & ->). by apply Hc.
Qed.

(** The end of a package: the record is read again and saved with the outcome. *)
Definition settled_as src dst e h (s : Importer N) : Prop :=
  exists index r, im_index s = Some (CurrentIndex index) /\ package index src dst e h = Some r /\
    acknowledged (pr_state r) = true.

Definition with_package r s : Importer N :=
  s {{ im_packages ::= <[package_record_path (pr_source_domain r) (pr_target_domain r) (pr_epoch_id r) (pr_package_hash r) := r]> }}.
Lemma yields_persist_package s index r :
  yields s (persist_package index r None) (fun index' s' => index' = upsert_package r index /\ s' = with_package r s).
Proof. by eexists _, _. Qed.

Lemma yields_submit_items suri r vi finished s index index0 src dst e h r0 :
  pair_from_string suri = Some pair ->
  items = package_items vi -> items <> [] -> ready_for finished (calls_needed items) s -> loads s index0 ->
  listed_done export_key export_effect (vi_export_proofs vi) index0 finished ->
  listed_done completion_key completion_effect (vi_finalized_import_proofs vi) index0 finished ->
  (forall p q, p ∈ vi_export_proofs vi -> q ∈ vi_finalized_import_proofs vi -> export_key p <> completion_key q) ->
  ii_domain_id index = d -> im_packages s !! package_record_path src dst e (hex_hash h) = Some r0 ->
  same_package src dst e (hex_hash h) r0 = true ->
  yields s (submit_items d (Some suri) local_version r index pkg vi src dst e h) (fun _ s' =>
    settled_as src dst e h s' /\ forall i, i ∈ items -> chain_done (chain_at (im_node s')) (item_effect i)).
Proof.
  intros Hpair Ei Hne Hs Hl Hx Hc Hdis Hd Hr0 Hid. unfold submit_items.
  eapply yields_rpc.
  { apply (yields_query finished (calls_needed items) (fun _ => True) s _ (fun _ _ => True) Hs steady_true Logic.I). apply (rs_connect Hnode), Hs. }
  intros _ s1 ((Hs1 & _) & K1 & _). rewrite Hpair. cbv zeta.
  apply (yields_check importer_account_storage_key (fun ch => ts_importer_account (w_transfers (ch_world ch)))
    finished (calls_needed items)); [done|intros ch store Hst; apply Hst| |].
  { intros ch [[E _] _ _]. exists importer. split; [done|]. by apply bool_decide_eq_true_2. }
  intros s2 Hs2 K2. assert (kept s s2) as Ks2 by (by etransitivity).
  match goal with |- yields _ (match _ with [] => ?c | _ => _ end) ?R =>
    assert (forall s', ready_for finished (calls_needed items) s' -> kept s s' -> yields s' c R) as Hcont end.
  - intros s3 Hs3 K3. eapply yields_rpc.
    { apply (yields_query finished (calls_needed items) (fun _ => True) s3 _ (fun v _ => v = local_version) Hs3 steady_true Logic.I).
      apply (rs_version Hnode), Hs3. }
    intros v s4 ((Hs4 & _) & K4 & ->). unfold ensure_runtime_version_matches. rewrite !Z.eqb_refl. simpl.
    eapply yields_rpc.
    { apply (yields_query finished (calls_needed items) (fun _ => True) s4 _ (fun h _ => h = genesis) Hs4 steady_true Logic.I).
      apply (rs_genesis Hnode), Hs4. }
    intros g s5 ((Hs5 & _) & K5 & ->). assert (kept s s5) as Ks5 by (by repeat (etransitivity; [eassumption|])).
    eapply yields_bind; [by eapply yields_try, (yields_items vi finished s5 index0); try done; eapply loads_kept|].
    intros res s6 (outcome & -> & Hack & [F6 _] & finished' & Hs6 & Hall).
    eapply yields_bind; [apply (yields_gets _ _ (fun o s' => o = Some r0 /\ s' = s6)); split; [|done]|].
    { rewrite F6. destruct Ks5 as (_ & -> & _). done. }
    intros ? ? [-> ->]. pose proof Hs6 as [Hs6' _].
    eapply yields_bind; [by apply (yields_now (idle importer items finished' (fun _ => True))); [apply idle_stages, steady_true|]|].
    intros now s7 (n7 & -> & _ & Hi7 & _ & Hw7 & _).
    match goal with |- yields _ (bind (persist_package _ ?r' _) _) _ => set (r1 := r') in * end.
    eapply yields_bind; [apply yields_persist_package|].
    intros ? s8 [-> ->]. unfold save_index. rewrite bool_decide_eq_true_2 by done. apply yields_modify. split.
    + exists (upsert_package r1 index), r1. split_and!; [done|apply package_upsert|exact Hack].
      by apply same_package_true in Hid as (A1 & A2 & A3 & A4); apply same_package_true.
    + intros i Hi. apply Hw7. by apply Hall.
  - destruct (vi_governance_proofs vi); [by apply Hcont|].
    apply (yields_check governance_importer_account_storage_key (fun ch => gs_importer_account (w_governance (ch_world ch)))
      finished (calls_needed items)); [done|intros ch store Hst; apply Hst| |].
    + intros ch [[_ E] _ _]. exists importer. split; [done|]. by apply bool_decide_eq_true_2.
    + intros s3 Hs3 K3. apply Hcont; [done|by etransitivity].
Qed.

Lemma yields_process suri domain_configs vi finished s index src dst e h r payload :
  pair_from_string suri = Some pair ->
  items = package_items vi -> items <> [] -> ready_for finished (calls_needed items) s -> loads s index ->
  package index src dst e h = Some r -> importer_state_is_terminal (pr_state r) = false ->
  im_payloads s !! pr_payload_path r = Some payload -> scale_decode payload = Some pkg ->
  verified_items d domain_configs pkg vi ->
  listed_done export_key export_effect (vi_export_proofs vi) index finished ->
  listed_done completion_key completion_effect (vi_finalized_import_proofs vi) index finished ->
  (forall p q, p ∈ vi_export_proofs vi -> q ∈ vi_finalized_import_proofs vi -> export_key p <> completion_key q) ->
  yields s (process_package_by_identity d (Some suri) domain_configs local_version src dst e h) (fun _ s' =>
    settled_as src dst e h s' /\ forall i, i ∈ items -> chain_done (chain_at (im_node s')) (item_effect i)).
Proof.
  intros Hpair Ei Hne Hs Hl Hr Ht Hpay Hdec (certificate & V1 & V2 & V3 & V4) Hx Hc Hdis. unfold process_package_by_identity.
  eapply (yields_bind _ _ _ (fun i s' => i = index /\ s' = s)); [exists s, index; by rewrite Hl|]. intros ? ? [-> ->].
  rewrite Hr, Ht. pose proof Hs as [Hs0 Hn0].
  eapply yields_bind; [by apply (yields_now (idle importer items finished (fun _ => True))); [apply idle_stages, steady_true|]|].
  intros now s1 (n1 & -> & En1 & Hs1).
  match goal with |- yields _ (bind (persist_package _ ?r' _) _) _ => set (r1 := r') in * end.
  assert (same_package src dst e (hex_hash h) r = true) as Hid by (by unfold package in Hr; apply find_some in Hr as [_ ?]).
  assert (same_package src dst e (hex_hash h) r1 = true) as Hid1
    by (apply same_package_true in Hid as (A1 & A2 & A3 & A4); by apply same_package_true).
  eapply yields_bind; [apply yields_persist_package|]. intros ? ? [-> ->].
  assert (ii_domain_id (upsert_package r1 index) = d) as Hd by exact (loads_domain s index Hl).
  unfold save_index. rewrite bool_decide_eq_true_2 by done.
  eapply (yields_bind _ _ _ (fun _ s' => s' = (with_package r1 (s {{ im_node := n1 }})) {{ im_index := Some (CurrentIndex (upsert_package r1 index)) }}));
    [by apply yields_modify|]. intros _ ? ->. set (s2 := _ {{ im_index := _ }}).
  unfold load_package_bytes. eapply (yields_bind _ _ _ (fun bs s' => bs = payload /\ s' = s2)).
  { eapply yields_bind; [by apply (yields_gets _ _ (fun o s' => o = Some payload /\ s' = s2)); split|].
    intros ? ? [-> ->]. by apply yields_ret. }
  intros ? ? [-> ->]. rewrite Hdec, V1, V2. simpl. rewrite V3. simpl. rewrite V4. simpl.
  eapply (yields_submit_items suri r1 vi finished s2 (upsert_package r1 index)
    ((upsert_package r1 index) {{ ii_packages ::= map reset_verifying }})); try done.
  - split; [exact Hs1|]. simpl. lia.
  - unfold loads, load_index, bind, gets, lift. simpl. by rewrite bool_decide_eq_true_2.
  - apply same_package_true in Hid1 as (<- & <- & <- & <-). apply lookup_insert_eq.
Qed.
End Responsive.

(** ** The theorem *)

(** Recipients are accounts, and governance leaves are as a governance pallet makes
    them. *)
Definition sound_item (i : Item) : Prop :=
  match i with
  | ItemExport leaf => is_Some (account_from_bytes (el_recipient leaf))
  | ItemCompletion _ => True
  | ItemProposal leaf =>
    gpl_source_domain leaf <> d /\ d ∈ gpl_target_domains leaf /\
    payload_hash (SetProtocolVersion (gpl_new_protocol_version leaf)) = gpl_payload_hash leaf /\
    exists seq, 0 <= seq < u64_max /\ gpl_proposal_id leaf = governance_proposal_id (gpl_source_domain leaf) seq
  | ItemAck leaf =>
    gal_acknowledging_domain leaf <> d /\ gal_acknowledging_domain leaf ∈ gal_target_domains leaf
  end.

(** The package is addressed to this domain, and has items. *)
Lemma verified_valid domain_configs pkg vi :
  verified_items d domain_configs pkg vi -> Forall sound_item (package_items vi) ->
  Forall (valid_item d) (package_items vi) /\ package_items vi <> [].
Proof.
  intros (certificate & _ & _ & _ & (Hlen & Hitem & [E1 F1] & [E2 F2] & [E3 F3])%flow_spec) Hs. split.
  - rewrite Forall_forall in Hs. apply Forall_forall. intros i Hi. specialize (Hs i Hi). unfold package_items in Hi.
    rewrite !elem_of_app, !list_elem_of_fmap in Hi. destruct Hi as [(p & -> & Hp)|[(p & -> & Hp)|(p & -> & Hp)]].
    + pose proof (proj1 (Forall_forall _ _) F1 p Hp) as Hc. unfold check_export_proof in Hc. dispatch_inv Hc. by bool_to_prop.
    + pose proof (proj1 (Forall_forall _ _) F2 p Hp) as Hc. unfold check_finalized_import_proof in Hc. dispatch_inv Hc. by bool_to_prop.
    + pose proof (proj1 (Forall_forall _ _) F3 p Hp) as Hc. unfold check_governance_proof in Hc. simpl in Hs |- *.
      destruct (gip_leaf p); dispatch_inv Hc; by bool_to_prop.
  - unfold package_items. rewrite E1, E2, E3. destruct (pkg_inclusion_proofs pkg) as [|b [|b' l]]; simpl in *; [lia..|].
    apply Forall_cons in Hitem as [Hb _]. unfold is_item, picked in *. destruct (scale_decode b') as [[]|]; try done; simpl;
      intros E; repeat (apply app_eq_nil in E as [_ E]); done.
Qed.

(** What the checks of a package do not establish of its items: each is sound, and
    proposals with the same identifier are the same. *)
Record sound_items (items : list Item) : Prop := {
  si_sound : Forall sound_item items;
  si_agree : forall leaf leaf', ItemProposal leaf ∈ items -> ItemProposal leaf' ∈ items ->
    gpl_proposal_id leaf' = gpl_proposal_id leaf -> gpl_source_domain leaf' = gpl_source_domain leaf /\
    gpl_target_domains leaf' = gpl_target_domains leaf /\ gpl_payload_hash leaf' = gpl_payload_hash leaf /\
    gpl_activation_epoch leaf' = gpl_activation_epoch leaf
}.

(** The world in which items can be settled: the chain takes the importer's calls
    and does not contradict the items, nothing is pending, the nonce has room, and
    what the index lists is done. *)
Record deliverable (n : N) (index : ImporterIndex) (items : list Item) : Prop := {
  dl_disjoint : forall leaf leaf', ItemExport leaf ∈ items -> ItemCompletion leaf' ∈ items -> el_export_id leaf <> fl_export_id leaf';
  dl_configured : configured importer (chain_at n);
  dl_ready : Forall (ready (chain_at n)) items;
  dl_exports : forall leaf, ItemExport leaf ∈ items -> is_Some (record index (el_export_id leaf)) ->
    chain_done (chain_at n) (Imported (el_export_id leaf));
  dl_completions : forall leaf, ItemCompletion leaf ∈ items -> is_Some (record index (fl_export_id leaf)) ->
    chain_done (chain_at n) (Resolved (fl_export_id leaf));
  dl_pool : pool n = [];
  dl_nonce : nonce n + calls_needed items <= u32_max
}.

Section Settling.
Context (I : N -> Prop) (domain_configs : DomainId -> option DomainConfig).
Context (suri : bytes) (Hpair : pair_from_string suri = Some pair).
Context (pkg : CertifiedSummaryPackage) (vi : VerifiedPackageItems) (Hv : verified_items d domain_configs pkg vi).
Context (Hnode : Responsive (package_items vi) I) (Hsound : sound_items (package_items vi)).
Abbreviation items := (package_items vi).

(** A deliverable package is ready to be processed. *)
Definition starts (n : N) (index : ImporterIndex) (s : Importer N) : Prop :=
  deliverable n index items /\ ready_for items I (chain_done (chain_at n)) (calls_needed items) s.

Lemma deliverable_starts s index : I (im_node s) -> deliverable (im_node s) index items -> starts (im_node s) index s.
Proof.
  intros Hi Hd. split; [done|]. destruct Hd as [D3 D4 D5 D6 D7 D8 D9]. split; [|done]. split; [done|].
  split_and!; [done| |done]. split; [done| |done]. intros i Hin _. by apply (proj1 (Forall_forall _ _) D5).
Qed.

Lemma package_settles n (s : Importer N) index index0 src dst e h r payload :
  starts n index0 s -> ii_imports index = ii_imports index0 ->
  load_index d s = (s, Ok index) -> package index src dst e h = Some r ->
  importer_state_is_terminal (pr_state r) = false ->
  im_payloads s !! pr_payload_path r = Some payload -> scale_decode payload = Some pkg ->
  exists s' index' r',
    process_package_by_identity d (Some suri) domain_configs local_version src dst e h s = (s', Ok tt) /\
    im_index s' = Some (CurrentIndex index') /\ package index' src dst e h = Some r' /\
    acknowledged (pr_state r') = true /\
    forall i, i ∈ items -> chain_done (chain_at (im_node s')) (item_effect i).
Proof.
  intros [[D3 D4 D5 D6 D7 D8 D9] Hs] Ei Hl Hr Ht Hpay Hdec. destruct Hsound as [D1 D2].
  destruct (verified_valid _ _ _ Hv D1) as [Hvalid Hne].
  assert (forall p, p ∈ vi_export_proofs vi -> ItemExport (eip_leaf p) ∈ items) as Hix
    by (intros p Hp; unfold package_items; set_solver).
  assert (forall p, p ∈ vi_finalized_import_proofs vi -> ItemCompletion (fip_leaf p) ∈ items) as Hic
    by (intros p Hp; unfold package_items; set_solver).
  destruct (yields_process items I Hnode Hvalid D2 pkg suri domain_configs vi (chain_done (chain_at n))
              s index src dst e h r payload) as (s' & [] & Hop & (index' & r' & Hx & Hr' & Ha) & Hall); try done.
  - intros p Hp. unfold record. rewrite Ei. by apply D6, Hix.
  - intros p Hp. unfold record. rewrite Ei. by apply D7, Hic.
  - intros p q Hp Hq. by apply D3; [apply Hix|apply Hic].
  - by exists s', index', r'.
Qed.

Lemma reset_package index src dst e h r :
  package index src dst e h = Some r ->
  package (index {{ ii_packages ::= map reset_verifying }}) src dst e h = Some (reset_verifying r).
Proof.
  unfold package. simpl. induction (ii_packages index) as [|c l IH]; simpl; [done|].
  assert (same_package src dst e (hex_hash h) (reset_verifying c) = same_package src dst e (hex_hash h) c) as ->
    by (unfold reset_verifying; by destruct (pr_state c)).
  destruct (same_package src dst e (hex_hash h) c); [by intros [= <-]|done].
Qed.

(** A package that comes from the relay is ready to be processed. *)
Lemma receive_starts n (s : Importer N) env body :
  let src := env_source_domain env in
  let e := env_epoch_id env in
  let h := env_package_hash env in
  decode_and_validate_envelope body = Ok (env, pkg) -> env_target_domain env = d -> ii_domain_id (im_memory s) = d ->
  Forall names_payload (ii_packages (im_memory s)) -> package (im_memory s) src d e h = None ->
  im_payloads s !! (src, d, e, h) = None -> starts n (im_memory s) s ->
  exists s' known r0 index r, receive_package d body s = (s', Ok (known, r0)) /\ starts n (im_memory s) s' /\
    ii_imports index = ii_imports (im_memory s) /\ load_index d s' = (s', Ok index) /\ package index src d e h = Some r /\
    importer_state_is_terminal (pr_state r) = false /\ im_payloads s' !! pr_payload_path r = Some (env_package_bytes env).
Proof.
  cbv zeta. intros Hop Ed Hdom Hn Hnone Hpay [Hd [Hs Hk]].
  destruct (relayed_package_received env pkg body s Hop) as (s' & known & r0 & Hr & Hpk & Hf & Hx & Hp & En & Ei & Hd');
    rewrite ?Ed in *; [done|done|by rewrite Hpay|].
  destruct (Hf Hnone) as [Hst Hpath]. pose proof (rs_now _ _ Hnode _ (proj1 Hs)) as Hm. rewrite <-En in Hm.
  exists s', known, r0, ((im_memory s') {{ ii_packages ::= map reset_verifying }}), (reset_verifying r0).
  destruct (verified_valid _ _ _ Hv (si_sound _ Hsound)) as [Hvalid _].
  split_and!; [done| |done| |by apply reset_package|unfold reset_verifying; rewrite Hst; by rewrite Hst|].
  - split; [done|]. split; [|destruct Hm as (_ & -> & _); done].
    eapply moves_stage; [by apply idle_stages, steady_true|exact Hm|exact Hs].
  - unfold load_index, bind, gets, lift. rewrite Hx. by rewrite bool_decide_eq_true_2.
  - unfold reset_verifying. rewrite Hst. by rewrite Hpath.
Qed.
End Settling.

(** C6: the importer settles what is proved to it.  On a responsive node, whatever other
    accounts do on the chain meanwhile, the importer works through a stored package
    that passes its checks to the end: the run returns, the saved index says that the
    package is acknowledged, and on the chain every export of the package is
    finalized, every completion has resolved its export, every proposal is held and
    every acknowledgement is recorded. *)
Theorem importer_settles_package I suri domain_configs pkg vi (s : Importer N) index src dst e h r payload :
  Responsive (package_items vi) I -> I (im_node s) -> sound_items (package_items vi) ->
  deliverable (im_node s) index (package_items vi) -> pair_from_string suri = Some pair ->
  load_index d s = (s, Ok index) -> package index src dst e h = Some r ->
  importer_state_is_terminal (pr_state r) = false ->
  im_payloads s !! pr_payload_path r = Some payload -> scale_decode payload = Some pkg ->
  verified_items d domain_configs pkg vi ->
  exists s' index' r',
    process_package_by_identity d (Some suri) domain_configs local_version src dst e h s = (s', Ok tt) /\
    im_index s' = Some (CurrentIndex index') /\ package index' src dst e h = Some r' /\
    acknowledged (pr_state r') = true /\
    forall i, i ∈ package_items vi -> chain_done (chain_at (im_node s')) (item_effect i).
Proof.
  intros Hnode Hi Hsound Hd Hpair Hl Hr Ht Hpay Hdec Hv.
  eapply (package_settles I domain_configs suri Hpair pkg vi Hv Hnode Hsound (im_node s) s index index); try done.
  by apply deliverable_starts.
Qed.
End Liveness.
