(* ===== verification/CrossChain.v ===== *)
(** * Transfers across chains

    The chains of the domains, with their importers, taken together.  Users sign
    what they like; each chain's importer account signs only calls that its
    importer service has certified; GRANDPA justifies only blocks of the chains.
    Then no chain mints what another has not exported, and no chain burns what
    another has not minted. *)

From S2P Require Import Prelude Types Effects Codec Reference Merkle Frame Domain Epochs Transfers TransfersProofs Governance GovernanceProofs PublicationProofs Runtime RuntimeProofs Config Verify VerifyProofs Relay Importer ImporterProofs.

Lemma map_forall_or `{Countable K} {A} (P : K -> A -> Prop) (Q : Prop) (m : gmap K A) :
  (forall k a, m !! k = Some a -> P k a \/ Q) -> (forall k a, m !! k = Some a -> P k a) \/ Q.
Proof.
  induction m as [|k a m Hk IH] using map_ind; intros Hm; [left; intros ? ?; by rewrite lookup_empty|].
  destruct IH as [IH|?]; [|destruct (Hm k a) as [Ha|?]|by right]; [|by rewrite lookup_insert_eq| |by right].
  - intros j b Hj. apply Hm. rewrite lookup_insert_ne; congruence.
  - left. intros j b [[<- <-]|[_ Hj]]%lookup_insert_Some; auto.
Qed.

Lemma domain_forall_or (P : DomainId -> Prop) (Q : Prop) : (forall d, P d \/ Q) -> (forall d, P d) \/ Q.
Proof.
  intros Hd. destruct (Hd Earth), (Hd Moon), (Hd Mars); try (by right). left. by intros [].
Qed.

(** [entry_sum_dominated], for weights that vanish on some entries. *)
Lemma map_sum_matched `{Countable K} {A B} (f : A -> Z) (g : B -> Z) (m : gmap K A) (m' : gmap K B) :
  (forall k b, m' !! k = Some b -> 0 <= g b) ->
  (forall k a, m !! k = Some a -> f a = 0 \/ exists b, m' !! k = Some b /\ f a <= g b) ->
  map_sum f m <= map_sum g m'.
Proof.
  intros Hg Hf. unfold map_sum. transitivity (entry_sum (fun _ => f) (filter (fun ka => f ka.2 <> 0) m)).
  - apply Z.eq_le_incl. clear. induction m as [|k a m Hk IH] using map_ind; [done|].
    rewrite map_filter_insert. case_decide as Ha; simpl in Ha.
    + rewrite !entry_sum_insert_new, IH; [done|rewrite map_lookup_filter_None; by left|done].
    + rewrite entry_sum_insert_new, IH, Ha, delete_id by done. done.
  - apply entry_sum_dominated; [done|]. intros k a [Hk Ha]%map_lookup_filter_Some. by destruct (Hf k a Hk).
Qed.

(** ** Where the records of a chain come from *)
Section Origins.
Context `{!Codec, !CodecOk, !CodecSep, !Account, !AccountOk, !Currency B, !CurrencyOk B}.
Context (d : DomainId) (L : Z) (HL : 1 <= L).
Context (export_ids_distinct : forall s s',
  0 <= s < u64_max -> 0 <= s' < u64_max -> export_id d s = export_id d s' -> s = s').
Context (proposal_ids_distinct : forall d1 d2 s1 s2,
  0 <= s1 < u64_max -> 0 <= s2 < u64_max ->
  governance_proposal_id d1 s1 = governance_proposal_id d2 s2 -> d1 = d2 /\ s1 = s2).
(** The importer account of the chain, and what it signs. *)
Context (importer : AccountId) (signs : RuntimeCall -> Prop).

Definition authored (xt : Extrinsic B) : Prop :=
  forall call, xt_origin xt = Signed importer -> xt_call xt = Some call -> signs call.

(** Adding a block. *)
Inductive block_step : list System * Chain B -> list System * Chain B -> Prop :=
| add_block hist ch bl :
    sys_block_number (bl_sys bl) = Z.of_nat (length hist) + 1 ->
    sys_block_number (bl_sys bl) <= u32_max ->
    admissible_all (bl_sys bl) 0 (bl_extrinsics bl) (enter_block bl ch) ->
    Forall authored (bl_extrinsics bl) ->
    block_step (hist, ch) (hist ++ [bl_sys bl], execute_block bl ch).

Inductive genesis_state : list System * Chain B -> Prop :=
| at_genesis bg identity endowed authorities keys :
    ci_domain_id identity = d -> (forall l a, cur_held (bg l) a = 0) ->
    genesis_state ([], chain_genesis bg identity L endowed authorities keys importer).

(** The states of the chain. *)
Definition chain_state (s : list System * Chain B) : Prop := exists s0, genesis_state s0 /\ rtc block_step s0 s.

Lemma chain_state_ind (Q : list System * Chain B -> Prop) :
  (forall s, genesis_state s -> Q s) ->
  (forall s s', chain_state s -> Q s -> block_step s s' -> Q s') ->
  forall s, chain_state s -> Q s.
Proof.
  intros Hgen Hs s (s0 & Hg & Hr). revert s Hr. refine (rtc_ind_r _ _ _ _); [by apply Hgen|].
  intros s1 s2 Hr Hstep IH. apply (Hs s1); [by exists s0|done|done].
Qed.

Lemma chain_state_run s : chain_state s -> chain_run d L s.1 s.2.
Proof.
  revert s. apply chain_state_ind.
  - intros s [bg identity endowed authorities keys Hd Hh]. simpl. exact (chain_start d L bg identity endowed authorities keys importer Hd Hh).
  - intros s s' _ IH Hstep. destruct Hstep as [hist ch bl Hn Hmax Hadm _]. exact (chain_block d L hist ch bl IH Hn Hmax Hadm).
Qed.

Lemma chain_state_ok s : chain_state s -> epochs_run d L s.1 (ch_world s.2, ch_epochs s.2) /\ ChainOk d s.2.
Proof. intros Hs%chain_state_run. by apply chain_run_ok in Hs. Qed.

(** What an import record takes from its claim. *)
Definition import_of_claim (claim : ObservedImportClaim) (r : ObservedImportRecord) : Prop :=
  oir_export_id r = oic_export_id claim /\ oir_source_domain r = oic_source_domain claim /\
  oir_target_domain r = oic_target_domain claim /\ oir_source_epoch_id r = oic_source_epoch_id claim /\
  oir_recipient r = oic_recipient claim /\ oir_amount r = oic_amount claim.

(** What a completion claim says of an export. *)
Definition completion_of (claim : RemoteFinalizationClaim) (leaf : ExportLeaf) : Prop :=
  el_source_domain leaf = rfc_source_domain claim /\ el_target_domain leaf = rfc_target_domain claim /\
  el_source_epoch_id leaf = rfc_source_epoch_id claim /\ el_recipient leaf = rfc_recipient claim /\
  el_amount leaf = rfc_amount claim.

(** Every import was claimed, and every resolved export acknowledged, in a call
    that the importer signed. *)
Record Origins (st : TransfersState) : Prop := {
  or_importer : ts_importer_account st = Some importer;
  or_import : forall id r, ts_observed_imports_by_id st !! id = Some r ->
    exists claim, signs (ObserveVerifiedImport claim) /\ oic_export_id claim = id /\ import_of_claim claim r;
  or_resolved : forall id x, ts_exports_by_id st !! id = Some x -> er_status x = RemoteFinalized ->
    exists claim, signs (AcknowledgeRemoteFinalization claim) /\ rfc_export_id claim = id /\
      completion_of claim (er_leaf x)
}.

Lemma origins_create e sys origin target recipient amount (b : B) st b' st' :
  create_cross_domain_transfer d e sys origin target recipient amount (b, st) = Ok (b', st') ->
  Origins st -> Origins st'.
Proof.
  unfold create_cross_domain_transfer. intros Hop [O1 O2 O3]. dispatch_inv Hop. simplify_eq.
  split; simpl; [done|done|]. intros id x [[<- <-]|[_ Hx]]%lookup_insert_Some; [done|]. eauto.
Qed.

Lemma origins_observe sys origin claim (b : B) st b' st' :
  (origin = Signed importer -> signs (ObserveVerifiedImport claim)) ->
  observe_verified_import d sys origin claim (b, st) = Ok (b', st') -> Origins st -> Origins st'.
Proof.
  unfold observe_verified_import. intros Hs Hop [O1 O2 O3]. dispatch_inv Hop. bool_to_prop. simplify_eq.
  destruct origin; simplify_eq/=. split; simpl; [done| |done].
  intros id r [[<- <-]|[_ Hr]]%lookup_insert_Some; [|eauto]. exists claim. split_and!; [by apply Hs|done|by split_and!].
Qed.

Lemma origins_finalize e sys origin id (b : B) st b' st' :
  finalize_verified_import d e sys origin id (b, st) = Ok (b', st') -> Origins st -> Origins st'.
Proof.
  unfold finalize_verified_import. intros Hop [O1 O2 O3]. dispatch_inv Hop. bool_to_prop. simplify_eq.
  split; simpl; [done| |done]. intros i r [[<- <-]|[_ Hr]]%lookup_insert_Some; [|eauto].
  match goal with Hr : ts_observed_imports_by_id st !! _ = Some _ |- _ => exact (O2 _ _ Hr) end.
Qed.

Lemma origins_acknowledge sys origin claim (b : B) st b' st' :
  (origin = Signed importer -> signs (AcknowledgeRemoteFinalization claim)) ->
  acknowledge_remote_finalization d sys origin claim (b, st) = Ok (b', st') -> Origins st -> Origins st'.
Proof.
  intros Hs (who & r & r' & -> & Hi & Hd & Hr & Hres & ->)%(acknowledge_inv d export_ids_distinct) [O1 O2 O3]. simplify_eq.
  destruct (resolve_export_inv _ _ _ _ _ _ _ Hres) as (C1 & C2 & C3 & C4 & C5 & _ & El & _).
  split; simpl; [done|done|]. intros id x [[<- <-]|[_ Hx]]%lookup_insert_Some; [|eauto]. intros _.
  exists claim. rewrite El. split_and!; [by apply Hs|done|by split_and!].
Qed.

Lemma origins_commit e s t st root st' :
  commit_epoch_exports d e s t st = (root, st') -> Origins st -> Origins st'.
Proof.
  intros E [O1 O2 O3]. injection E as <- <-.
  destruct (foldl_mark_frame e (canonical_epoch_exports st e) st) as (_ & _ & E1 & E2 & _).
  split; [by rewrite E1|by rewrite E2|]. intros id x. rewrite (foldl_mark_lookup d export_ids_distinct).
  destruct (ts_exports_by_id st !! id) as [x0|] eqn:E; [|done]. simpl. case_decide; intros [= <-]; [done|]. eauto.
Qed.

Lemma dispatch_origins sys origin call ch ch' :
  local_domain_id (ch_world ch) = d -> (origin = Signed importer -> signs call) ->
  dispatch sys origin call ch = Ok ch' ->
  Origins (w_transfers (ch_world ch)) -> Origins (w_transfers (ch_world ch')).
Proof.
  intros Hd Hs Hop. unfold dispatch in Hop. rewrite Hd in Hop. destruct call; cbv zeta in Hop;
    match type of Hop with
    | with_transfers _ ?r = _ => destruct r as [[b st]|err] eqn:E; [|done]
    | with_governance _ ?r = _ => destruct r as [st|err] eqn:E; [|done]
    end; injection Hop as <-; simpl; try done.
  - by eapply origins_create.
  - by eapply origins_observe.
  - by eapply origins_finalize.
  - by eapply origins_acknowledge.
Qed.

Lemma apply_extrinsics_origins sys xts : forall i ch,
  ChainOk d ch -> admissible_all sys i xts ch -> Forall authored xts ->
  Origins (w_transfers (ch_world ch)) -> Origins (w_transfers (ch_world (apply_extrinsics sys i xts ch))).
Proof.
  induction xts as [|xt xts IH]; intros i ch Hok Hadm Ha Ho; simpl; [done|].
  destruct Hadm as [Hx Hadm]. apply Forall_cons in Ha as [Hax Ha].
  apply IH; [by eapply apply_extrinsic_ok|done|done|].
  unfold apply_extrinsic. cbv zeta. destruct (xt_call xt) as [call|] eqn:Ec; [|done].
  destruct (dispatch _ _ call (charge xt ch)) as [ch'|] eqn:E; [|done].
  exact (dispatch_origins _ _ call (charge xt ch) ch' (co_domain _ _ Hok) (fun E' => Hax call E' Ec) E Ho).
Qed.

(** Entering a block commits the exports of the epoch it closes, or leaves the
    transfers and the headers alone. *)
Lemma enter_block_cases hist bl ch :
  ChainOk d ch -> epochs_run d L hist (ch_world ch, ch_epochs ch) ->
  sys_block_number (bl_sys bl) = Z.of_nat (length hist) + 1 -> sys_block_number (bl_sys bl) <= u32_max ->
  (w_transfers (ch_world (enter_block bl ch)) = w_transfers (ch_world ch) /\
   es_summary_headers (ch_epochs (enter_block bl ch)) = es_summary_headers (ch_epochs ch)) \/
  (exists s t root, commit_epoch_exports d (current_epoch ch) s t (w_transfers (ch_world ch))
                    = (root, w_transfers (ch_world (enter_block bl ch)))) /\
  exists h, es_summary_headers (ch_epochs (enter_block bl ch))
            = <[current_epoch ch := h]> (es_summary_headers (ch_epochs ch)).
Proof.
  intros Hok Hrun Hn Hmax. pose proof (epochs_run_state d L HL export_ids_distinct _ _ Hrun) as Hst. rewrite enter_block_unfold. cbv zeta.
  destruct (epochs_on_initialize _ _) as [w2 es2] eqn:E. cbn [fst snd].
  assert (local_domain_id (before_epochs bl ch) = d) as Hd.
  { unfold local_domain_id. simpl. rewrite domain_on_initialize_id. exact (co_domain _ _ Hok). }
  apply (epochs_init_cases d L hist) in E as [(-> & _ & Eh)|Hc]; [left; by split| |done|done|done].
  right. unfold closes in Hc. cbn [commit_epoch_exports_hook commit_epoch_imports_hook commit_epoch_governance_hook
    runtime_providers] in Hc. rewrite Hd in Hc.
  destruct (commit_epoch_exports _ _ _ _ _) as [root st] eqn:Ecm. cbn [fst snd] in Hc.
  destruct Hc as (-> & _ & h & Eh & _). split; [|by exists h]. do 3 eexists. exact Ecm.
Qed.

Lemma chain_state_origins s : chain_state s -> Origins (w_transfers (ch_world s.2)).
Proof.
  revert s. apply chain_state_ind.
  - intros s [bg identity endowed authorities keys Hd Hh]. by split.
  - intros s s' Hs IH Hstep. destruct (chain_state_ok s Hs) as [Hrun Hok].
    destruct Hstep as [hist ch bl Hn Hmax Hadm Ha]. simpl in *.
    apply apply_extrinsics_origins; [by eapply enter_block_ok|done|done|].
    destruct (enter_block_cases hist bl ch Hok Hrun Hn Hmax) as [[-> _]|[(? & ? & ? & E) _]]; [done|].
    by eapply origins_commit.
Qed.

(** Summary headers stay. *)
Lemma header_persists s s' e h :
  chain_state s -> rtc block_step s s' ->
  es_summary_headers (ch_epochs s.2) !! e = Some h -> es_summary_headers (ch_epochs s'.2) !! e = Some h.
Proof.
  intros Hs Hr Hh. revert Hs Hh. induction Hr as [|s s1 s' Hstep _ IH]; [done|]. intros Hs Hh. apply IH.
  { destruct Hs as (s0 & Hg & Hr). exists s0. split; [done|]. by eapply rtc_r. }
  destruct (chain_state_ok s Hs) as [Hrun Hok]. destruct Hstep as [hist ch bl Hn Hmax Hadm Ha]. simpl in *.
  assert (es_summary_headers (ch_epochs (enter_block bl ch)) !! e = Some h) as Hh1.
  { destruct (enter_block_cases hist bl ch Hok Hrun Hn Hmax) as [[_ ->]|[_ [h' ->]]]; [done|].
    rewrite lookup_insert_ne; [done|]. pose proof (proj1 (co_roots _ _ Hok e h Hh)). lia. }
  unfold execute_block, finalize_block, epochs_on_finalize.
  destruct (apply_extrinsics_ok d export_ids_distinct proposal_ids_distinct (bl_sys bl) 0 (bl_extrinsics bl)
              (enter_block bl ch)) as [_ E]; [by eapply enter_block_ok|done|].
  simpl. rewrite E. by destruct (_ =? 0).
Qed.
End Origins.

(** ** Amounts of records *)
Section Amounts.
Context `{!Codec, !Account}.

(** The exports to a domain, those of them that are resolved, and the finalized
    imports from a domain. *)
Definition exports_sum (d' : DomainId) (st : TransfersState) : Z :=
  map_sum (fun x => if decide (el_target_domain (er_leaf x) = d') then el_amount (er_leaf x) else 0) (ts_exports_by_id st).
Definition resolved_sum (d' : DomainId) (st : TransfersState) : Z :=
  map_sum (fun x => if decide (el_target_domain (er_leaf x) = d' /\ er_status x = RemoteFinalized)
                    then el_amount (er_leaf x) else 0) (ts_exports_by_id st).
Definition imports_sum (d : DomainId) (st : TransfersState) : Z :=
  map_sum (fun r => if decide (oir_source_domain r = d /\ oir_status r = ImportRemoteFinalized)
                    then oir_amount r else 0) (ts_observed_imports_by_id st).
End Amounts.

(** ** The network *)
Section Network.
Context `{!Codec, !CodecOk, !CodecSep, !Account, !AccountOk, !Currency B, !CurrencyOk B}.
Context `{!LightClient, !LightClientOk}.
(** Each domain's epoch length, importer account, configuration and chain. *)
Context (len : DomainId -> Z) (importers : DomainId -> AccountId).
Context (domain_configs : DomainId -> option DomainConfig).
Context (trie_root : gmap bytes bytes -> hash).
Context (now : DomainId -> list System * Chain B).

(** The importer of a domain signs what its service has certified. *)
Definition signs_certified (d : DomainId) : RuntimeCall -> Prop := certified d domain_configs.

(** The storage of a chain holds its summary headers. *)
Definition stores_headers (ch : Chain B) (store : gmap bytes bytes) : Prop :=
  forall e, store !! summary_header_storage_key e = scale_encode <$> es_summary_headers (ch_epochs ch) !! e.

(** A header of a block of the chain of domain [d], and the storage after it. *)
Definition block_of (d : DomainId) (hd : Header) (store : gmap bytes bytes) : Prop :=
  header_state_root hd = trie_root store /\
  exists s, chain_state d (len d) (importers d) (signs_certified d) s /\
    rtc (block_step (importers d) (signs_certified d)) s (now d) /\ stores_headers s.2 store.

Context (Hlen : forall d, 1 <= len d).
Context (export_ids_distinct : forall d s s',
  0 <= s < u64_max -> 0 <= s' < u64_max -> export_id d s = export_id d s' -> s = s').
Context (proposal_ids_distinct : forall d1 d2 s1 s2,
  0 <= s1 < u64_max -> 0 <= s2 < u64_max ->
  governance_proposal_id d1 s1 = governance_proposal_id d2 s2 -> d1 = d2 /\ s1 = s2).
Context (Hread : read_proof_sound trie_root) (Hfinal : grandpa_finality domain_configs block_of).
Context (Hnow : forall d, chain_state d (len d) (importers d) (signs_certified d) (now d)).

Definition transfers_of (d : DomainId) : TransfersState := w_transfers (ch_world (now d).2).
Definition exports_of (d : DomainId) : gmap hash ExportRecord := ts_exports_by_id (transfers_of d).
Definition imports_of (d : DomainId) : gmap hash ObservedImportRecord := ts_observed_imports_by_id (transfers_of d).

Lemma now_ok d : ChainOk d (now d).2.
Proof.
  by apply (chain_state_ok d (len d) (Hlen d) (export_ids_distinct d) proposal_ids_distinct (importers d) (signs_certified d)).
Qed.
Lemma now_transfers d : TransfersInv d (transfers_conf (now d).2).
Proof. apply (transfers_reachable_inv d (export_ids_distinct d)), now_ok. Qed.
Lemma now_origins d : Origins (importers d) (signs_certified d) (w_transfers (ch_world (now d).2)).
Proof.
  exact (chain_state_origins d (len d) (Hlen d) (export_ids_distinct d) proposal_ids_distinct _ _ _ (Hnow d)).
Qed.

(** The header of a verified package is one its source chain has. *)
Lemma verified_header d pkg items :
  verified_items d domain_configs pkg items ->
  let h := pkg_header pkg in
  es_summary_headers (ch_epochs (now (sh_domain_id h)).2) !! sh_epoch_id h = Some h \/ collision blake2_256.
Proof.
  intros (certificate & _ & Hc & Hg & _). cbv zeta.
  destruct (certified_header trie_root domain_configs block_of Hread (fun _ _ _ H => proj1 H) Hfinal pkg certificate Hc Hg)
    as [(hd & store & (_ & s & Hs & Hr & Hst) & _ & Hk)|?]; [left|by right].
  set (dom := sh_domain_id (pkg_header pkg)) in *.
  eapply (header_persists dom (len dom) (Hlen dom) (export_ids_distinct dom) proposal_ids_distinct); [exact Hs|exact Hr|].
  rewrite Hst in Hk. destruct (es_summary_headers _ !! _) as [h|]; [|done]. injection Hk as Hk.
  apply scale_encode_inj in Hk. by rewrite Hk.
Qed.

(** An export that a verified package proves is in its source chain's records. *)
Lemma proved_export d pkg items p :
  verified_items d domain_configs pkg items -> p ∈ vi_export_proofs items ->
  (exists x, exports_of (el_source_domain (eip_leaf p)) !! el_export_id (eip_leaf p) = Some x /\
     er_leaf x = eip_leaf p /\ el_target_domain (eip_leaf p) = d /\ er_status x <> LocalFinal) \/
  collision blake2_256.
Proof.
  intros Hv Hp. destruct (verified_header _ _ _ Hv) as [Hh|?]; [|by right].
  destruct Hv as (_ & _ & _ & _ & (_ & _ & [_ F] & _)%flow_spec). rewrite Forall_forall in F. specialize (F p Hp).
  unfold check_export_proof in F. dispatch_inv F. bool_to_prop.
  match goal with E : el_source_domain _ = _ |- _ => rewrite E end. set (dom := sh_domain_id (pkg_header pkg)) in *.
  destruct (co_roots _ _ (now_ok dom) _ _ Hh) as [Hlt (Hx & _ & _)]. destruct (now_transfers dom) as [HI _].
  match goal with V : verify_export_inclusion_proof _ _ = true |- _ => rewrite Hx in V;
    apply export_proof_sound in V as [Hin|?]; [left|by right|] end.
  - apply (canonical_exports_elem dom (transfers_conf (now dom).2)) in Hin as (x & Hlx & El & Ee); [|done].
    exists x. split_and!; [done|done|done|]. intros Es.
    destruct (inv_export_ok _ _ HI _ _ Hlx) as (_ & _ & _ & _ & _ & _ & _ & Hst).
    apply Hst in Es. simpl in Es. rewrite El, Ee in Es. lia.
  - apply Forall_forall. intros leaf (x & Hlx & <- & _)%(canonical_exports_elem dom (transfers_conf (now dom).2)); [|done].
    by apply (inv_export_ok _ _ HI _ _ Hlx).
Qed.

(** A completion that a verified package proves is an import the target chain
    has finalized. *)
Lemma proved_completion d pkg items p :
  verified_items d domain_configs pkg items -> p ∈ vi_finalized_import_proofs items ->
  (exists r, imports_of (fl_target_domain (fip_leaf p)) !! fl_export_id (fip_leaf p) = Some r /\
     oir_status r = ImportRemoteFinalized /\ oir_source_domain r = d /\
     oir_source_epoch_id r = fl_source_epoch_id (fip_leaf p) /\
     oir_recipient r = fl_recipient (fip_leaf p) /\ oir_amount r = fl_amount (fip_leaf p)) \/
  collision blake2_256.
Proof.
  intros Hv Hp. destruct (verified_header _ _ _ Hv) as [Hh|?]; [|by right].
  destruct Hv as (_ & _ & _ & _ & (_ & _ & _ & [_ F] & _)%flow_spec). rewrite Forall_forall in F. specialize (F p Hp).
  unfold check_finalized_import_proof in F. dispatch_inv F. bool_to_prop.
  match goal with E : fl_target_domain _ = _ |- _ => rewrite E end. set (dom := sh_domain_id (pkg_header pkg)) in *.
  destruct (co_roots _ _ (now_ok dom) _ _ Hh) as [_ (_ & Hx & _)]. destruct (now_transfers dom) as [_ HI].
  match goal with V : verify_finalized_import_inclusion_proof _ _ = true |- _ => rewrite Hx in V;
    apply import_proof_sound in V as [Hin|?]; [left|by right|] end.
  - apply (canonical_imports_elem dom (transfers_conf (now dom).2)) in Hin as (_ & r & Hr & Hl); [|done].
    exists r. split; [done|]. unfold finalized_leaf in Hl. destruct (bool_decide _) eqn:Eb; [done|].
    bool_to_prop. apply dec_stable in Eb. injection Hl as Hl.
    match goal with E : fl_source_domain _ = d |- _ => rewrite <-E end. rewrite <-Hl. done.
  - apply Forall_forall. intros leaf (_ & r & _ & Hl)%(canonical_imports_elem dom (transfers_conf (now dom).2)); [|done].
    by eapply finalized_leaf_hashed.
Qed.
(** The import is an export of its source chain, addressed to [d'], of the same
    epoch, recipient and amount, and committed. *)
Definition is_export (d' : DomainId) (id : hash) (r : ObservedImportRecord) : Prop :=
  exists x, exports_of (oir_source_domain r) !! id = Some x /\
    el_target_domain (er_leaf x) = d' /\ el_source_epoch_id (er_leaf x) = oir_source_epoch_id r /\
    el_recipient (er_leaf x) = oir_recipient r /\ el_amount (er_leaf x) = oir_amount r /\
    er_status x <> LocalFinal.

(** The export is an import from [d] that its target chain has finalized, of the
    same epoch, recipient and amount. *)
Definition is_minted (d : DomainId) (id : hash) (x : ExportRecord) : Prop :=
  exists r, imports_of (el_target_domain (er_leaf x)) !! id = Some r /\
    oir_status r = ImportRemoteFinalized /\ oir_source_domain r = d /\
    oir_source_epoch_id r = el_source_epoch_id (er_leaf x) /\
    oir_recipient r = el_recipient (er_leaf x) /\ oir_amount r = el_amount (er_leaf x).

Lemma import_is_export d' id r : imports_of d' !! id = Some r -> is_export d' id r \/ collision blake2_256.
Proof.
  intros Hr. destruct (or_import _ _ _ (now_origins d') _ _ Hr)
    as (claim & (pkg & items & Hv & Hc) & Hid & (_ & Es & _ & Ee & Er & Ea)).
  inversion Hc as [p Hp E| | | |]; subst. simpl in *. unfold is_export. rewrite Es, Ee, Er, Ea.
  destruct (proved_export _ _ _ _ Hv Hp) as [(x & Hx & El & Ht & Hst)|?]; [left|by right].
  exists x. rewrite El. by split_and!.
Qed.

Lemma burned_is_minted d id x :
  exports_of d !! id = Some x -> (er_status x = RemoteFinalized -> is_minted d id x) \/ collision blake2_256.
Proof.
  intros Hx. destruct (decide (er_status x = RemoteFinalized)) as [Hs|]; [|by left].
  destruct (or_resolved _ _ _ (now_origins d) _ _ Hx Hs)
    as (claim & (pkg & items & Hv & Hc) & Hid & (_ & Et & Ee & Er & Ea)).
  inversion Hc as [| |p Hp E| |]; subst. simpl in *. unfold is_minted. rewrite Et, Ee, Er, Ea.
  destruct (proved_completion _ _ _ _ Hv Hp) as [?|?]; [by left|by right].
Qed.

Lemma backed_or :
  ((forall d' id r, imports_of d' !! id = Some r -> is_export d' id r) /\
   (forall d id x, exports_of d !! id = Some x -> er_status x = RemoteFinalized -> is_minted d id x)) \/
  collision blake2_256.
Proof.
  destruct (domain_forall_or _ _ (fun d' => map_forall_or _ _ _ (import_is_export d'))) as [Hi|?]; [|by right].
  destruct (domain_forall_or _ _ (fun d => map_forall_or _ _ _ (burned_is_minted d))) as [Hx|?]; [by left|by right].
Qed.

(** C2: every import is an export and every burned export is an import.
    Whatever users, relays and nodes do, each import that the importer of domain
    [d'] has recorded, and so each one that is minted, is an export that the
    source chain it names has recorded under the same identifier for [d'] and
    committed, with its recipient and amount; and each export whose escrow is
    burned is an import that its target chain has finalized, with its recipient
    and amount; or [blake2_256] collides. *)
Theorem transfers_backed d d' id :
  ((forall r, imports_of d' !! id = Some r -> is_export d' id r) /\
   (forall x, exports_of d !! id = Some x -> er_status x = RemoteFinalized -> is_minted d id x)) \/
  collision blake2_256.
Proof. destruct backed_or as [[Hi Hx]|?]; [left|by right]. split; [apply Hi|apply Hx]. Qed.

Lemma export_amount_pos d id x : exports_of d !! id = Some x -> 0 < el_amount (er_leaf x).
Proof. intros Hx. destruct (now_transfers d) as [HI _]. by apply (inv_export_ok _ _ HI _ _ Hx). Qed.

(** Between any two domains, the resolved exports at the source add up to at most
    the finalized imports at the target, and these to at most the exports. *)
Lemma records_conserved :
  (forall d d', resolved_sum d' (transfers_of d) <= imports_sum d (transfers_of d') <= exports_sum d' (transfers_of d)) \/
  collision blake2_256.
Proof.
  destruct backed_or as [[Hi Hx]|?]; [left|by right]. intros d d'. split.
  - apply map_sum_matched.
    + intros id r Hr. destruct (Hi _ _ _ Hr) as (x & Hlx & _ & _ & _ & <- & _).
      pose proof (export_amount_pos _ _ _ Hlx). case_decide; lia.
    + intros id x Hlx. case_decide as Hc; [right|by left]. destruct Hc as [<- Hs].
      destruct (Hx _ _ _ Hlx Hs) as (r & Hr & Hf & Hd & _ & _ & Ha). exists r. split; [done|].
      rewrite decide_True by done. lia.
  - apply map_sum_matched.
    + intros id x Hlx. pose proof (export_amount_pos _ _ _ Hlx). case_decide; lia.
    + intros id r Hr. case_decide as Hc; [right|by left]. destruct Hc as [<- Hs].
      destruct (Hi _ _ _ Hr) as (x & Hlx & Ht & _ & _ & Ha & _). exists x. split; [done|].
      rewrite decide_True by done. lia.
Qed.
End Network.
