(* ===== verification/Supply.v ===== *)
(** * What the protocol does to the currency

    The records of the transfers pallet say what should have happened to the
    balances.  Here the balances themselves are measured: the log of a run lists the
    calls that were dispatched, with the chain before and after each, and what they
    did to the total issuance, to the holds and to the accounts is summed up over the
    log.  The sums are what the records say, so no value is created or destroyed
    by a transfer, on one chain or over all of them. *)

From S2P Require Import Prelude Types Effects Codec Merkle Frame Domain Epochs Transfers TransfersProofs Governance Runtime RuntimeProofs Config Verify VerifyProofs Importer ImporterProofs CrossChain.

Lemma map_sum_fmap `{Countable K} {A} (f : A -> Z) (m : gmap K A) : map_sum f m = map_sum (fun z => z) (f <$> m).
Proof.
  induction m as [|k a m Hk IH] using map_ind; [by rewrite fmap_empty, !map_sum_empty|].
  rewrite fmap_insert, !map_sum_insert_new, IH by (by rewrite ?lookup_fmap, ?Hk). done.
Qed.
(** Sums of maps that agree in weight. *)
Lemma map_sum_agree `{Countable K} {A} (f : A -> Z) (m m' : gmap K A) :
  (forall k, f <$> m' !! k = f <$> m !! k) -> map_sum f m' = map_sum f m.
Proof.
  intros Hf. rewrite (map_sum_fmap f m), (map_sum_fmap f m'). f_equal. apply map_eq. intros k. by rewrite !lookup_fmap.
Qed.

(** ** The log of a run *)
Section Log.
Context `{!Codec, !Account, !Currency B}.

(** A call that succeeded. *)
Record Dispatched : Type := mkDispatched {
  dp_origin : Origin;
  dp_call : RuntimeCall;
  dp_before : Chain B;
  dp_after : Chain B
}.

Definition dispatched (sys : System) (xt : Extrinsic B) (ch : Chain B) : list Dispatched :=
  match xt_call xt with
  | Some call =>
    match dispatch sys (xt_origin xt) call (charge xt ch) with
    | Ok ch' => [mkDispatched (xt_origin xt) call (charge xt ch) ch']
    | Err _ => []
    end
  | None => []
  end.
Fixpoint dispatched_all (sys : System) (index : Z) (xts : list (Extrinsic B)) (ch : Chain B) : list Dispatched :=
  match xts with
  | [] => []
  | xt :: xts =>
    dispatched (at_index sys index) xt ch
    ++ dispatched_all sys (index + 1) xts (apply_extrinsic (at_index sys index) xt ch)
  end.
Definition block_log (bl : BlockInput B) (ch : Chain B) : list Dispatched :=
  dispatched_all (bl_sys bl) 0 (bl_extrinsics bl) (enter_block bl ch).

(** A run of the chain of domain [d], as [chain_run], and its log. *)
Inductive logged_run (d : DomainId) (L : Z) : list System -> Chain B -> list Dispatched -> Prop :=
| logged_start bg identity endowed authorities keys importer :
    ci_domain_id identity = d -> (forall l a, cur_held (bg l) a = 0) ->
    logged_run d L [] (chain_genesis bg identity L endowed authorities keys importer) []
| logged_block hist ch log bl :
    logged_run d L hist ch log ->
    sys_block_number (bl_sys bl) = Z.of_nat (length hist) + 1 ->
    sys_block_number (bl_sys bl) <= u32_max ->
    admissible_all (bl_sys bl) 0 (bl_extrinsics bl) (enter_block bl ch) ->
    logged_run d L (hist ++ [bl_sys bl]) (execute_block bl ch) (log ++ block_log bl ch).

Lemma logged_run_run d L hist ch log : logged_run d L hist ch log -> chain_run d L hist ch.
Proof. induction 1; [by apply chain_start|by apply chain_block]. Qed.
Lemma run_logged d L hist ch : chain_run d L hist ch -> exists log, logged_run d L hist ch log.
Proof.
  induction 1 as [bg identity endowed authorities keys importer|hist ch bl _ [log IH]];
    eexists; [by apply logged_start|by apply logged_block].
Qed.

(** ** Measures *)

(** What a call did to the total issuance, to a balance, to a hold. *)
Definition supply_change (x : Dispatched) : Z :=
  cur_total_issuance (w_balances (ch_world (dp_after x))) - cur_total_issuance (w_balances (ch_world (dp_before x))).
Definition balance_change (a : AccountId) (x : Dispatched) : Z :=
  cur_balance (w_balances (ch_world (dp_after x))) a - cur_balance (w_balances (ch_world (dp_before x))) a.
Definition hold_change (a : AccountId) (x : Dispatched) : Z :=
  cur_held (w_balances (ch_world (dp_after x))) a - cur_held (w_balances (ch_world (dp_before x))) a.

Definition log_sum (f : Dispatched -> Z) (log : list Dispatched) : Z := foldr (fun x z => f x + z) 0 log.

(** The calls that finalize the import [id]. *)
Definition finalizes (id : hash) (x : Dispatched) : bool :=
  match dp_call x with FinalizeVerifiedImport id' => bool_decide (id' = id) | _ => false end.
Definition in_finalize (id : hash) (f : Dispatched -> Z) (x : Dispatched) : Z := if finalizes id x then f x else 0.

(** Put on hold for a transfer to [d']; minted for a transfer from [d]; burned for a
    transfer to [d']. *)
Definition escrowing (d' : DomainId) (x : Dispatched) : Z :=
  match dp_call x, dp_origin x with
  | CreateCrossDomainTransfer target _ _, Signed who => if decide (target = d') then hold_change who x else 0
  | _, _ => 0
  end.
Definition minting (d : DomainId) (x : Dispatched) : Z :=
  match dp_call x with
  | FinalizeVerifiedImport id =>
    if decide (oir_source_domain <$> ts_observed_imports_by_id (w_transfers (ch_world (dp_before x))) !! id = Some d)
    then supply_change x else 0
  | _ => 0
  end.
Definition burning (d' : DomainId) (x : Dispatched) : Z :=
  match dp_call x with
  | AcknowledgeRemoteFinalization claim => if decide (rfc_target_domain claim = d') then - supply_change x else 0
  | _ => 0
  end.

Definition escrowed (log : list Dispatched) (d' : DomainId) : Z := log_sum (escrowing d') log.
Definition minted (log : list Dispatched) (d : DomainId) : Z := log_sum (minting d) log.
Definition burned (log : list Dispatched) (d' : DomainId) : Z := log_sum (burning d') log.
Definition over_domains (f : DomainId -> Z) : Z := f Earth + f Moon + f Mars.

Lemma log_sum_app f l l' : log_sum f (l ++ l') = log_sum f l + log_sum f l'.
Proof. unfold log_sum. induction l as [|x l IH]; simpl; lia. Qed.
End Log.
Arguments Dispatched {_} _.

(** ** What a call does *)
Section Effects.
Context `{!Codec, !CodecOk, !CodecSep, !Account, !AccountOk, !Currency B, !CurrencyOk B}.
Context (d : DomainId) (L : Z) (HL : 1 <= L).
Context (export_ids_distinct : forall s s',
  0 <= s < u64_max -> 0 <= s' < u64_max -> export_id d s = export_id d s' -> s = s').
Context (proposal_ids_distinct : forall d1 d2 s1 s2,
  0 <= s1 < u64_max -> 0 <= s2 < u64_max ->
  governance_proposal_id d1 s1 = governance_proposal_id d2 s2 -> d1 = d2 /\ s1 = s2).
Implicit Types (x : Dispatched B) (st : TransfersState).

Abbreviation before x := (w_transfers (ch_world (dp_before x))).
Abbreviation after x := (w_transfers (ch_world (dp_after x))).

(** A call on the log: it was dispatched on a sound chain. *)
Definition genuine x : Prop :=
  ChainOk d (dp_before x) /\ call_admissible (dp_before x) (dp_call x) /\
  exists sys, dispatch sys (dp_origin x) (dp_call x) (dp_before x) = Ok (dp_after x).

(** Its effect on records and currency. *)
Inductive call_effect x : Prop :=
| eff_create who target recipient amount id r :
    dp_call x = CreateCrossDomainTransfer target recipient amount -> dp_origin x = Signed who -> 0 < amount ->
    ts_exports_by_id (before x) !! id = None -> ts_exports_by_id (after x) = <[id := r]> (ts_exports_by_id (before x)) ->
    el_target_domain (er_leaf r) = target -> el_amount (er_leaf r) = amount -> er_status r <> RemoteFinalized ->
    ts_observed_imports_by_id (after x) = ts_observed_imports_by_id (before x) ->
    supply_change x = 0 -> hold_change who x = amount -> (forall a, balance_change a x = if decide (a = who) then - amount else 0) ->
    call_effect x
| eff_finalize id r r' recipient :
    dp_call x = FinalizeVerifiedImport id ->
    ts_observed_imports_by_id (before x) !! id = Some r -> oir_status r <> ImportRemoteFinalized ->
    ts_observed_imports_by_id (after x) = <[id := r']> (ts_observed_imports_by_id (before x)) ->
    same_import r r' -> oir_status r' = ImportRemoteFinalized -> account_from_bytes (oir_recipient r) = Some recipient ->
    ts_exports_by_id (after x) = ts_exports_by_id (before x) ->
    supply_change x = oir_amount r -> (forall a, balance_change a x = if decide (a = recipient) then oir_amount r else 0) ->
    call_effect x
| eff_acknowledge claim r r' :
    dp_call x = AcknowledgeRemoteFinalization claim ->
    ts_exports_by_id (before x) !! rfc_export_id claim = Some r -> er_status r <> RemoteFinalized -> 0 < el_amount (er_leaf r) ->
    ts_exports_by_id (after x) = <[rfc_export_id claim := r']> (ts_exports_by_id (before x)) ->
    er_leaf r' = er_leaf r -> er_status r' = RemoteFinalized -> el_target_domain (er_leaf r) = rfc_target_domain claim ->
    ts_observed_imports_by_id (after x) = ts_observed_imports_by_id (before x) ->
    supply_change x = - el_amount (er_leaf r) -> (forall a, balance_change a x = 0) ->
    call_effect x
| eff_observe claim r :
    dp_call x = ObserveVerifiedImport claim ->
    ts_observed_imports_by_id (before x) !! oic_export_id claim = None -> oir_status r <> ImportRemoteFinalized ->
    ts_observed_imports_by_id (after x) = <[oic_export_id claim := r]> (ts_observed_imports_by_id (before x)) ->
    ts_exports_by_id (after x) = ts_exports_by_id (before x) ->
    supply_change x = 0 -> (forall a, balance_change a x = 0) -> call_effect x
| eff_governance :
    (forall target recipient amount, dp_call x <> CreateCrossDomainTransfer target recipient amount) ->
    (forall id, dp_call x <> FinalizeVerifiedImport id) -> (forall claim, dp_call x <> AcknowledgeRemoteFinalization claim) ->
    after x = before x -> supply_change x = 0 -> (forall a, balance_change a x = 0) -> call_effect x.

Lemma genuine_effect x : genuine x -> call_effect x.
Proof.
  destruct x as [origin call ch ch']. intros (Hok & Hadm & sys & Hop). simpl in *.
  pose proof (transfers_reachable_inv d export_ids_distinct _ (co_transfers _ _ Hok)) as [HI _].
  unfold dispatch in Hop. rewrite (co_domain _ _ Hok) in Hop. destruct call; cbv zeta in Hop;
    match type of Hop with
    | with_transfers _ ?r = _ => destruct r as [[b st]|err] eqn:E; [|done]
    | with_governance _ ?r = _ => destruct r as [st|err] eqn:E; [|done]
    end; injection Hop as <-.
  5-9: apply eff_governance; try done; [unfold supply_change; simpl; lia|intros a; unfold balance_change; simpl; lia].
  - pose proof (fresh_export_id d export_ids_distinct _ HI Hadm) as Hfresh. simpl in Hfresh.
    unfold create_cross_domain_transfer in E. dispatch_inv E. bool_to_prop. simplify_eq. destruct origin as [who| |]; simplify_eq/=.
    match goal with H : cur_hold _ _ _ = Some _ |- _ => destruct (cur_hold_spec _ _ _ _ H) as (Hh & Hbal & Hs) end.
    eapply eff_create; unfold supply_change, hold_change, balance_change; simpl; try done; [lia|..].
    + rewrite Hh. rewrite decide_True by done. lia.
    + intros ?. rewrite Hbal. lia.
  - unfold observe_verified_import in E. dispatch_inv E. bool_to_prop. simplify_eq.
    eapply eff_observe; unfold supply_change, balance_change; simpl; try done; [by unfold from_claim|lia|intros; lia].
  - unfold finalize_verified_import in E. dispatch_inv E. bool_to_prop. simplify_eq.
    match goal with H : cur_mint_into _ _ _ = Some _ |- _ => destruct (cur_mint_spec _ _ _ _ H) as (_ & Hbal & Hs) end.
    eapply eff_finalize; unfold supply_change, balance_change; simpl; try done; [congruence|lia|].
    intros ?. rewrite Hbal. lia.
  - apply (acknowledge_inv d export_ids_distinct) in E as (who & r & r' & _ & _ & _ & Hr & Hres & ->).
    destruct (resolve_export_inv _ _ _ _ _ _ _ Hres) as (_ & Ht & _ & _ & _ & Hst & El & Hst' & sender & _ & Hburn).
    destruct (cur_burn_spec _ _ _ _ Hburn) as (_ & Hbal & Hs). destruct (inv_export_ok _ _ HI _ _ Hr) as (_ & _ & _ & _ & Hpos & _).
    eapply eff_acknowledge; unfold supply_change, balance_change; simpl; try done; [congruence|lia|].
    intros ?. rewrite Hbal. lia.
Qed.

(** ** Sums over the log are sums over the records *)

(** A measure of calls that the transfers pallet keeps account of. *)
Record accounted (f : Dispatched B -> Z) (g : TransfersState -> Z) : Prop := {
  ac_start : forall importer, g (transfers_genesis importer) = 0;
  ac_call : forall x, call_effect x -> f x = g (after x) - g (before x);
  ac_close : forall st st', ts_observed_imports_by_id st' = ts_observed_imports_by_id st ->
    (forall id, exists h : ExportRecord -> ExportRecord, ts_exports_by_id st' !! id = h <$> ts_exports_by_id st !! id /\
       forall r, er_leaf (h r) = er_leaf r /\ (ts_exports_by_id st !! id = Some r ->
         er_status (h r) = RemoteFinalized <-> er_status r = RemoteFinalized)) ->
    g st' = g st
}.

Lemma log_genuine sys xts : forall i ch,
  ChainOk d ch -> admissible_all sys i xts ch -> Forall genuine (dispatched_all sys i xts ch).
Proof.
  induction xts as [|xt xts IH]; intros i ch Hok Hadm; simpl; [constructor|]. destruct Hadm as [Ha Hadm].
  apply Forall_app. split; [|apply IH; [by eapply apply_extrinsic_ok|done]].
  pose proof (charge_ok d export_ids_distinct xt ch Hok Ha) as Hok1. destruct Ha as [_ Hcall].
  unfold dispatched. destruct (xt_call xt) as [call|]; [|constructor].
  destruct (dispatch _ _ _ _) as [ch'|] eqn:E; constructor; [|constructor]. split; [done|]. split; [by apply Hcall|].
  by eexists.
Qed.

(** Blocks log what their extrinsics did to the records. *)
Lemma dispatched_account f g sys xts : forall i ch,
  accounted f g -> Forall genuine (dispatched_all sys i xts ch) ->
  log_sum f (dispatched_all sys i xts ch)
  = g (w_transfers (ch_world (apply_extrinsics sys i xts ch))) - g (w_transfers (ch_world ch)).
Proof.
  induction xts as [|xt xts IH]; intros i ch Hac Hg; simpl in *; [lia|]. apply Forall_app in Hg as [Hg Hgs].
  rewrite log_sum_app, IH by done. unfold apply_extrinsic, dispatched in *. cbv zeta in *.
  destruct (xt_call xt) as [call|]; [|simpl; lia]. destruct (dispatch _ _ _ _) as [ch'|]; [|simpl; lia].
  apply Forall_singleton, genuine_effect, (ac_call _ _ Hac) in Hg. simpl in *. lia.
Qed.

Lemma close_account f g hist bl ch :
  accounted f g -> ChainOk d ch -> epochs_run d L hist (ch_world ch, ch_epochs ch) ->
  sys_block_number (bl_sys bl) = Z.of_nat (length hist) + 1 -> sys_block_number (bl_sys bl) <= u32_max ->
  g (w_transfers (ch_world (enter_block bl ch))) = g (w_transfers (ch_world ch)).
Proof.
  intros Hac Hok Hrun Hn Hmax.
  destruct (enter_block_cases d L HL export_ids_distinct hist bl ch Hok Hrun Hn Hmax) as [[-> _]|[(s & t & root & E) _]]; [done|].
  pose proof (transfers_reachable_inv d export_ids_distinct _ (co_transfers _ _ Hok)) as [HI _].
  injection E as _ E. rewrite <-E. set (st := w_transfers (ch_world ch)) in *. set (e := current_epoch ch) in *.
  apply (ac_close _ _ Hac); [by destruct (foldl_mark_frame e (canonical_epoch_exports st e) st) as (_ & _ & _ & ? & _)|].
  intros id. exists (if decide (id ∈ map el_export_id (canonical_epoch_exports st e)) then set_exported else fun r => r).
  split; [by apply (foldl_mark_lookup d export_ids_distinct)|]. intros r. split; [by case_decide|]. intros Hr. case_decide as Hin; [|done].
  apply (canonical_exports_ids d (transfers_conf ch)) in Hin; [|done]. apply (inv_export_ids _ _ HI) in Hin as (r' & Hr' & He).
  destruct (inv_export_ok _ _ HI _ _ Hr) as (_ & _ & _ & _ & _ & _ & _ & Hst).
  assert (r' = r) as -> by exact (inj Some _ _ (eq_trans (eq_sym Hr') Hr)).
  assert (er_status r = LocalFinal) as Hl by exact (proj2 Hst He). rewrite Hl. done.
Qed.

Lemma run_account f g hist ch log :
  accounted f g -> logged_run d L hist ch log -> log_sum f log = g (w_transfers (ch_world ch)) /\ Forall genuine log.
Proof.
  intros Hac. induction 1 as [bg identity endowed authorities keys importer|hist ch log bl Hrun [IH IHg] Hn Hmax Hadm].
  { split; [|constructor]. symmetry. apply (ac_start _ _ Hac). }
  apply logged_run_run in Hrun.
  destruct (chain_run_ok d L HL export_ids_distinct proposal_ids_distinct _ _ Hrun) as [He Hok].
  pose proof (enter_block_ok d L HL export_ids_distinct proposal_ids_distinct hist bl ch Hok He Hn Hmax) as Hok1.
  pose proof (log_genuine _ _ _ _ Hok1 Hadm) as Hg. split; [|by apply Forall_app].
  rewrite log_sum_app, IH. unfold block_log. rewrite (dispatched_account f g) by done.
  rewrite (close_account f g hist bl ch) by done. unfold execute_block, finalize_block. simpl. lia.
Qed.

(** Unfolds a measure on each kind of call. *)
Local Ltac by_effect x :=
  intros x Hx; destruct Hx;
  repeat match goal with
  | H : dp_call x = _ |- _ => rewrite H
  | H : dp_origin x = _ |- _ => rewrite H
  | H : after x = before x |- _ => rewrite H
  | H : ts_exports_by_id (after x) = _ |- _ => rewrite H; clear H
  | H : ts_observed_imports_by_id (after x) = _ |- _ => rewrite H; clear H
  | H : supply_change x = _ |- _ => rewrite H
  | H : hold_change _ x = _ |- _ => rewrite H
  | |- context [match dp_call x with _ => _ end] => destruct (dp_call x) eqn:?
  end; try congruence; try lia.

Lemma escrowing_account d' : accounted (escrowing d') (exports_sum d').
Proof.
  unfold escrowing, exports_sum. split.
  - intros importer. apply map_sum_empty.
  - by_effect x; [rewrite map_sum_insert_new by done|rewrite map_sum_insert].
    + subst. destruct (decide _); lia.
    + match goal with H : _ !! _ = Some _ |- _ => rewrite H end. simpl.
      match goal with H : er_leaf _ = er_leaf _ |- _ => rewrite H end. lia.
  - intros st st' _ Hst. apply map_sum_agree. intros id. destruct (Hst id) as (h & -> & Hh).
    destruct (_ !! id) as [r|]; [|done]. simpl. by rewrite (proj1 (Hh r)).
Qed.

Lemma burning_account d' : accounted (burning d') (resolved_sum d').
Proof.
  unfold burning, resolved_sum. split.
  - intros importer. apply map_sum_empty.
  - by_effect x; [rewrite map_sum_insert_new by done|rewrite map_sum_insert].
    + rewrite decide_False by tauto. lia.
    + match goal with H : _ !! _ = Some _ |- _ => rewrite H end. simpl.
      match goal with H : er_leaf _ = er_leaf _ |- _ => rewrite H end.
      rewrite (decide_False (P := _ /\ er_status r = _)) by tauto. subst.
      destruct (decide (rfc_target_domain claim = d')); [rewrite decide_True by (split; congruence)|rewrite decide_False by intuition congruence]; lia.
  - intros st st' _ Hst. apply map_sum_agree. intros id. destruct (Hst id) as (h & -> & Hh).
    destruct (_ !! id) as [r|] eqn:Er; [|done]. simpl. destruct (Hh r) as [-> Hs]. specialize (Hs eq_refl). f_equal.
    destruct (decide _) as [[]|], (decide _) as [[]|]; tauto.
Qed.

Lemma minting_account s : accounted (minting s) (imports_sum s).
Proof.
  unfold minting, imports_sum. split.
  - intros importer. apply map_sum_empty.
  - by_effect x; rewrite map_sum_insert.
    + match goal with H : _ !! _ = Some _ |- _ => rewrite H end. simpl.
      match goal with H : same_import _ _ |- _ => destruct H as (_ & Es & _ & _ & _ & Ea) end. rewrite Es, Ea.
      rewrite (decide_False (P := _ /\ oir_status r = _)) by tauto.
      destruct (decide (Some _ = _)) as [E|E]; [rewrite decide_True by (split; congruence)|rewrite decide_False by intuition congruence]; lia.
    + match goal with H : _ !! _ = None |- _ => rewrite H end. simpl. rewrite decide_False by tauto. lia.
  - by intros st st' -> _.
Qed.

(** What the records credit for one import. *)
Definition credit (w : ObservedImportRecord -> Z) (id : hash) (st : TransfersState) : Z :=
  match ts_observed_imports_by_id st !! id with
  | Some r => if decide (oir_status r = ImportRemoteFinalized) then w r else 0
  | None => 0
  end.

Lemma finalizing_account f w id :
  (forall r r', same_import r r' -> w r' = w r) ->
  (forall x r, call_effect x -> finalizes id x = true -> ts_observed_imports_by_id (before x) !! id = Some r -> f x = w r) ->
  accounted (in_finalize id f) (credit w id).
Proof.
  intros Hw Hf. split; [done| |by intros st st' E _; unfold credit; rewrite E].
  intros x Hx. pose proof (fun r => Hf x r Hx) as Hfx. unfold in_finalize, finalizes, credit in *. revert Hfx. revert x Hx.
  by_effect x; intros Hfx.
  - destruct (decide (id0 = id)) as [->|].
    + match goal with Hr : _ !! id = Some r |- _ => rewrite (Hfx r (bool_decide_true _ eq_refl) Hr), Hr end.
      rewrite bool_decide_true, lookup_insert_eq, decide_True, decide_False, (Hw r r') by done. lia.
    + rewrite bool_decide_false, lookup_insert_ne by done. lia.
  - destruct (decide (oic_export_id claim = id)) as [<-|].
    + rewrite lookup_insert_eq. match goal with H : _ !! _ = None |- _ => rewrite H end. by rewrite decide_False.
    + rewrite lookup_insert_ne by done. lia.
Qed.

(** The supply changes by what is minted and burned, and by nothing else. *)
Lemma supply_account :
  accounted supply_change (fun st => over_domains (fun s => imports_sum s st) - over_domains (fun d' => resolved_sum d' st)).
Proof.
  assert (forall x, call_effect x -> supply_change x = over_domains (fun s => minting s x) - over_domains (fun d' => burning d' x)) as Hx.
  { unfold minting, burning, over_domains. by_effect x.
    - match goal with H : _ !! _ = Some _ |- _ => rewrite H end. simpl. destruct (oir_source_domain r); simpl; lia.
    - destruct (rfc_target_domain claim); simpl; lia. }
  split.
  - intros importer. unfold over_domains. pose proof (fun s => ac_start _ _ (minting_account s) importer) as Hm.
    pose proof (fun s => ac_start _ _ (burning_account s) importer) as Hb. cbv beta in *. by rewrite !Hm, !Hb.
  - intros x Hc. rewrite Hx by done. unfold over_domains.
    rewrite !(fun s => ac_call _ _ (minting_account s) x Hc), !(fun s => ac_call _ _ (burning_account s) x Hc). lia.
  - intros st st' Hi Hst. unfold over_domains.
    by rewrite !(fun s => ac_close _ _ (minting_account s) st st' Hi Hst), !(fun s => ac_close _ _ (burning_account s) st st' Hi Hst).
Qed.

Lemma run_sums hist ch log :
  logged_run d L hist ch log ->
  (forall d', escrowed log d' = exports_sum d' (w_transfers (ch_world ch))) /\
  (forall s, minted log s = imports_sum s (w_transfers (ch_world ch))) /\
  (forall d', burned log d' = resolved_sum d' (w_transfers (ch_world ch))) /\
  log_sum supply_change log = over_domains (minted log) - over_domains (burned log).
Proof.
  intros Hrun. assert (forall s, minted log s = imports_sum s (w_transfers (ch_world ch))) as Hm.
  { intros s. exact (proj1 (run_account _ _ _ _ _ (minting_account s) Hrun)). }
  assert (forall d', burned log d' = resolved_sum d' (w_transfers (ch_world ch))) as Hb.
  { intros d'. exact (proj1 (run_account _ _ _ _ _ (burning_account d') Hrun)). }
  split_and!; [|done|done|].
  - intros d'. exact (proj1 (run_account _ _ _ _ _ (escrowing_account d') Hrun)).
  - rewrite (proj1 (run_account _ _ _ _ _ supply_account Hrun)). unfold over_domains. by rewrite !Hm, !Hb.
Qed.

(** What an account gets from an import. *)
Definition paid (a : AccountId) (r : ObservedImportRecord) : Z :=
  if decide (account_from_bytes (oir_recipient r) = Some a) then oir_amount r else 0.

Lemma finalize_effect x id r :
  call_effect x -> finalizes id x = true -> ts_observed_imports_by_id (before x) !! id = Some r ->
  supply_change x = oir_amount r /\ forall a, balance_change a x = paid a r.
Proof.
  intros Hx. unfold finalizes. destruct Hx;
    match goal with H : dp_call x = _ |- _ => rewrite H | _ => destruct (dp_call x) eqn:? end; try done; try congruence.
  intros ->%bool_decide_eq_true Hr. simplify_eq. split; [congruence|]. intros a. unfold paid.
  match goal with H : forall a, balance_change a x = _ |- _ => rewrite H end.
  destruct (decide (a = recipient)) as [->|]; [by rewrite decide_True|by rewrite decide_False by congruence].
Qed.
Lemma other_effect x :
  call_effect x -> (forall id, finalizes id x = false) -> supply_change x <= 0 /\ forall a, balance_change a x <= 0.
Proof.
  intros Hx Hf. destruct Hx;
    repeat match goal with H : forall a, balance_change a x = _ |- _ => setoid_rewrite H; clear H | H : supply_change x = _ |- _ => rewrite H end.
  - split; [lia|]. intros a. destruct (decide _); lia.
  - exfalso. specialize (Hf id). unfold finalizes in Hf.
    match goal with H : dp_call x = _ |- _ => rewrite H in Hf end. by rewrite bool_decide_true in Hf.
  - split; intros; lia.
  - split; intros; lia.
  - split; intros; lia.
Qed.

(** C17: an import is minted at most once, and for the right amount.  Over any run of
    the chain, the calls that finalize the import [id] raise the total issuance
    by the amount of its record and the balance of its recipient by the same, no
    other balance, if the record is finalized, and by nothing if it is not; at
    most one such call ever succeeds, exactly as many as [ImportFinalized] events
    are deposited, and the import is in the finalized list of at most one epoch;
    and no other call of the protocol's pallets raises the total
    issuance or any balance. *)
Theorem import_minted_once hist ch log id :
  logged_run d L hist ch log ->
  let st := w_transfers (ch_world ch) in
  log_sum (in_finalize id supply_change) log = credit oir_amount id st /\
  (forall a, log_sum (in_finalize id (balance_change a)) log = credit (paid a) id st) /\
  log_sum (in_finalize id (fun _ => 1)) log = credit (fun _ => 1) id st /\
  Z.of_nat (count_events (is_import_finalized id) (ts_events st)) = credit (fun _ => 1) id st /\
  (forall ep ep', id ∈ epoch_finalized_import_ids st ep -> id ∈ epoch_finalized_import_ids st ep' -> ep = ep') /\
  forall x, x ∈ log -> (forall id', finalizes id' x = false) -> supply_change x <= 0 /\ forall a, balance_change a x <= 0.
Proof.
  intros Hrun st.
  assert (forall f w, (forall r r', same_import r r' -> w r' = w r) ->
    (forall x r, call_effect x -> finalizes id x = true -> ts_observed_imports_by_id (before x) !! id = Some r -> f x = w r) ->
    log_sum (in_finalize id f) log = credit w id st) as Hsum.
  { intros f w Hw Hf. exact (proj1 (run_account _ _ _ _ _ (finalizing_account f w id Hw Hf) Hrun)). }
  destruct (chain_run_ok d L HL export_ids_distinct proposal_ids_distinct _ _ (logged_run_run _ _ _ _ _ Hrun)) as [_ Hok].
  destruct (transfers_reachable_inv d export_ids_distinct _ (co_transfers _ _ Hok)) as [_ HI].
  split_and!.
  - apply Hsum; [by intros r r' (_ & _ & _ & _ & _ & ->)|]. intros x r Hx Hf Hr. by apply (finalize_effect x id r).
  - intros a. apply Hsum; [by intros r r' (_ & _ & _ & _ & E & Ea); unfold paid; rewrite E, Ea|].
    intros x r Hx Hf Hr. by apply (finalize_effect x id r).
  - by apply Hsum.
  - pose proof (inv_mints _ _ HI id) as E. simpl in E. unfold credit. fold st in E. rewrite E.
    destruct (_ !! id) as [r|]; [by case_decide|done].
  - intros ep ep'. apply (inv_finalized_once _ _ HI).
  - intros x Hx Hf. apply other_effect; [|done]. apply genuine_effect.
    destruct (run_account _ _ _ _ _ supply_account Hrun) as [_ Hg]. by eapply Forall_forall in Hg.
Qed.
End Effects.

(** ** The network *)
Section Network.
Context `{!Codec, !CodecOk, !CodecSep, !Account, !AccountOk, !Currency B, !CurrencyOk B}.
Context `{!LightClient, !LightClientOk}.
Context (len : DomainId -> Z) (importers : DomainId -> AccountId).
Context (domain_configs : DomainId -> option DomainConfig).
Context (trie_root : gmap bytes bytes -> hash).
Context (now : DomainId -> list System * Chain B).
Context (Hlen : forall d, 1 <= len d).
Context (export_ids_distinct : forall d s s',
  0 <= s < u64_max -> 0 <= s' < u64_max -> export_id d s = export_id d s' -> s = s').
Context (proposal_ids_distinct : forall d1 d2 s1 s2,
  0 <= s1 < u64_max -> 0 <= s2 < u64_max ->
  governance_proposal_id d1 s1 = governance_proposal_id d2 s2 -> d1 = d2 /\ s1 = s2).
Context (Hread : read_proof_sound trie_root).
Context (Hfinal : grandpa_finality domain_configs (block_of len importers domain_configs trie_root now)).
Context (Hnow : forall d, chain_state d (len d) (importers d) (signs_certified domain_configs d) (now d)).
(** The log of each chain. *)
Context (log : DomainId -> list (Dispatched B)).
Context (Hlog : forall d, logged_run d (len d) (now d).1 (now d).2 (log d)).

(** C1: transfers move currency between chains and create none.  Measured on the
    balances themselves, over whole runs of all chains: between any two domains,
    what acknowledgements burned at the source is at most what finalizations
    minted at the target, and this at most what was put on hold at the source;
    on each chain the total issuance changed by what was minted less what was
    burned and no other call changed it; so over all chains together the calls
    have not lowered the total issuance, nor raised it by more than what was put
    on hold and is not burned; or [blake2_256] collides. *)
Theorem cross_chain_conservation :
  ((forall d d', burned (log d) d' <= minted (log d') d <= escrowed (log d) d') /\
   (forall d, log_sum supply_change (log d) = over_domains (minted (log d)) - over_domains (burned (log d))) /\
   0 <= over_domains (fun d => log_sum supply_change (log d))
     <= over_domains (fun d => over_domains (escrowed (log d)) - over_domains (burned (log d)))) \/
  collision blake2_256.
Proof.
  destruct (records_conserved len importers domain_configs trie_root now Hlen export_ids_distinct proposal_ids_distinct
              Hread Hfinal Hnow) as [Hr|?]; [left|by right].
  assert (forall d d', burned (log d) d' <= minted (log d') d <= escrowed (log d) d') as Hd.
  { intros d d'. specialize (Hr d d').
    destruct (run_sums d (len d) (Hlen d) (export_ids_distinct d) proposal_ids_distinct _ _ _ (Hlog d)) as (-> & _ & -> & _).
    by destruct (run_sums d' (len d') (Hlen d') (export_ids_distinct d') proposal_ids_distinct _ _ _ (Hlog d')) as (_ & -> & _). }
  assert (forall d, log_sum supply_change (log d) = over_domains (minted (log d)) - over_domains (burned (log d))) as Hs.
  { intros d. by destruct (run_sums d (len d) (Hlen d) (export_ids_distinct d) proposal_ids_distinct _ _ _ (Hlog d)) as (_ & _ & _ & ->). }
  split; [done|]. split; [done|]. unfold over_domains. rewrite !Hs. unfold over_domains.
  pose proof (Hd Earth Earth). pose proof (Hd Earth Moon). pose proof (Hd Earth Mars).
  pose proof (Hd Moon Earth). pose proof (Hd Moon Moon). pose proof (Hd Moon Mars).
  pose proof (Hd Mars Earth). pose proof (Hd Mars Moon). pose proof (Hd Mars Mars). lia.
Qed.
End Network.
