(* ===== verification/NetworkExample.v ===== *)
(** * A transfer from Earth to Mars and back

    A concrete network: Earth exports 10^12 to Mars, a package with the proof is
    built from Earth's closed epoch, the importer of Mars observes and finalizes
    the import, and a package from Mars's closed epoch lets the importer of Earth
    burn the escrow.  Headers, tries and justifications are simple concrete
    ones.  The definitions take any codec; the theorems of [VerifyProofs.v] and
    [CrossChain.v] are applied to the network on the reference codec. *)

From S2P Require Import Prelude Types Codec Reference Merkle Frame Domain Epochs Transfers TransfersProofs Governance Runtime RuntimeProofs Config Verify VerifyProofs Effects Relay Importer ImporterProofs CrossChain Supply.

(** ** The network *)
Section Example.
Context {C : Codec}.
#[local] Existing Instance reference_account.
#[local] Existing Instance reference_currency.

(** A header: its number, its parent and its state root. *)
Definition FlatHeader : Type := Z * list Z * list Z.
#[local] Instance FlatHeader_flat : Flat FlatHeader := flat_prod (A := Z * list Z).
Definition flat_header_hash (h : FlatHeader) : hash := blake2_256 (flat h).

(** A trie is the list of its entries; a proof gives it all. *)
Definition flat_trie_root (store : gmap bytes bytes) : hash :=
  flat (A := list (list Z * list Z)) (map_to_list store).
Definition flat_read_proof (root : hash) (nodes : list bytes) (key : bytes) : option (option bytes) :=
  match nodes with
  | [node] =>
    if bool_decide (node = root) then
      '(entries, _) ← unflat (A := list (list Z * list Z)) root;
      Some ((list_to_map entries : gmap bytes bytes) !! key)
    else None
  | _ => None
  end.

(** The storage of a chain, as far as it matters here. *)
Definition header_store (ch : Chain Ledger) : gmap bytes bytes :=
  list_to_map (map (fun '(e, h) => (summary_header_storage_key e, scale_encode h))
                 (map_to_list (es_summary_headers (ch_epochs ch)))).

(** The key of each domain's validator. *)
Definition validator (d : DomainId) : bytes := match d with Earth => [101] | Moon => [102] | Mars => [103] end.

(** The certificate of an epoch that block 3 closed, by the justified block 4. *)
Definition block_3 : FlatHeader := (3, [2], [3]).
Definition block_4 (ch : Chain Ledger) : FlatHeader :=
  (4, flat_header_hash block_3, flat_trie_root (header_store ch)).
Definition flat_bundle (d : DomainId) (ch : Chain Ledger) : SummaryCertificationBundle :=
  let hd := block_4 ch in
  {| scb_certificate := GrandpaV1
       {| gfc_version := 1; gfc_grandpa_set_id := 0;
          gfc_target_block_number := 3; gfc_target_block_hash := flat_header_hash block_3;
          gfc_proof_block_number := 4; gfc_proof_block_hash := flat_header_hash hd;
          gfc_justification := flat (A := list Z * list Z * Z) (validator d, flat_header_hash hd, 4);
          gfc_ancestry_headers := [flat hd] |};
     scb_summary_header_storage_proof :=
       {| shp_version := 1; shp_proof_block_number := 4; shp_proof_block_hash := flat_header_hash hd;
          shp_proof_block_header := flat hd; shp_storage_key := summary_header_storage_key 0;
          shp_trie_nodes := [flat_trie_root (header_store ch)] |} |}.

(** *** Earth *)
Definition network_identity (d : DomainId) : ChainIdentity :=
  {| ci_domain_id := d; ci_chain_id := [1]; ci_chain_name := [2]; ci_token_symbol := [3]; ci_token_decimals := 12 |}.
Definition network_genesis (d : DomainId) : Chain Ledger :=
  chain_genesis example_balances (network_identity d) 2 [acct 1; acct 2] [acct 1] [validator d] (acct 7).
Definition next (xts : list (Extrinsic Ledger)) (s : list System * Chain Ledger) : list System * Chain Ledger :=
  let bl := example_block (Z.of_nat (length (fst s)) + 1) xts in
  (fst s ++ [bl_sys bl], execute_block bl (snd s)).

Definition earth_0 : list System * Chain Ledger := ([], network_genesis Earth).
Definition earth_transfer : RuntimeCall := CreateCrossDomainTransfer Mars (account_to_bytes (acct 2)) 1000000000000.
Definition earth_4 : list System * Chain Ledger := next [] (next [] (next [] (next [plain_xt 1 earth_transfer] earth_0))).

Definition no_header : EpochSummaryHeader := from_hash_input example_input.
Definition header_0 (ch : Chain Ledger) : EpochSummaryHeader :=
  default no_header (es_summary_headers (ch_epochs ch) !! 0).

Definition transfer_id : hash := export_id Earth 0.
Definition export_proofs : list ExportInclusionProof :=
  option_list (build_export_inclusion_proof (canonical_epoch_exports (w_transfers (ch_world (snd earth_4))) 0) transfer_id).
Definition earth_package : CertifiedSummaryPackage :=
  from_bundle_with_mixed_proofs (header_0 (snd earth_4)) (flat_bundle Earth (snd earth_4)) export_proofs [] [].

(** *** Mars *)
Definition mars_0 : list System * Chain Ledger := ([], network_genesis Mars).
Definition mars_observe : list RuntimeCall :=
  map (fun p => ObserveVerifiedImport (observed_claim earth_package (eip_leaf p))) export_proofs.
Definition mars_finalize : list RuntimeCall :=
  map (fun p => FinalizeVerifiedImport (el_export_id (eip_leaf p))) export_proofs.
Definition mars_4 : list System * Chain Ledger :=
  next [] (next [] (next [] (next (map (plain_xt 7) (mars_observe ++ mars_finalize)) mars_0))).
Definition completion_proofs : list FinalizedImportInclusionProof :=
  option_list (build_finalized_import_inclusion_proof
    (canonical_epoch_finalized_imports (w_transfers (ch_world (snd mars_4))) 0) transfer_id).
Definition mars_package : CertifiedSummaryPackage :=
  from_bundle_with_mixed_proofs (header_0 (snd mars_4)) (flat_bundle Mars (snd mars_4)) [] completion_proofs [].

(** *** Earth, after Mars *)
Definition earth_acknowledge : list RuntimeCall :=
  map (fun p => AcknowledgeRemoteFinalization (completion_claim mars_package (fip_leaf p))) completion_proofs.
Definition earth_5 : list System * Chain Ledger := next (map (plain_xt 7) earth_acknowledge) earth_4.

Definition network_now (d : DomainId) : list System * Chain Ledger :=
  match d with Earth => earth_5 | Moon => ([], network_genesis Moon) | Mars => mars_4 end.

(** What the blocks of the three chains did. *)
Definition logged (xts : list (Extrinsic Ledger)) (s : list System * Chain Ledger) : list (Dispatched Ledger) :=
  block_log (example_block (Z.of_nat (length (fst s)) + 1) xts) (snd s).
Definition network_log (d : DomainId) : list (Dispatched Ledger) :=
  match d with
  | Earth => logged [plain_xt 1 earth_transfer] earth_0 ++ logged (map (plain_xt 7) earth_acknowledge) earth_4
  | Moon => []
  | Mars => logged (map (plain_xt 7) (mars_observe ++ mars_finalize)) mars_0
  end.

(** *** The light client, with the justifications that GRANDPA has made *)
Definition FlatJustification : Type := list Z * list Z * Z.
#[local] Instance FlatJustification_flat : Flat FlatJustification := flat_prod (A := list Z * list Z).
Definition flat_light_client_of (js : list FlatJustification) : LightClient := {|
  Header := FlatHeader;
  header_encode h := flat h;
  header_decode b := fst <$> unflat b;
  header_hash := flat_header_hash;
  header_number h := fst (fst h);
  header_parent_hash h := snd (fst h);
  header_state_root h := snd h;
  read_proof_check := flat_read_proof;
  Justification := FlatJustification;
  justification_decode b := fst <$> unflat b;
  just_target_hash j := snd (fst j);
  just_target_number j := snd j;
  justification_verify j set_id authorities :=
    bool_decide (authorities = [(fst (fst j), 1)]) && bool_decide (j ∈ js);
  get_from_seed seed := Some seed
|}.

(** GRANDPA has justified block 4 of Earth and of Mars. *)
Definition justified : list FlatJustification :=
  [(validator Earth, flat_header_hash (block_4 (snd earth_4)), 4);
   (validator Mars, flat_header_hash (block_4 (snd mars_4)), 4)].
Definition flat_light_client : LightClient := flat_light_client_of justified.

Definition network_config (d : DomainId) : option DomainConfig :=
  Some {| dc_domain_id := d; dc_chain_name := []; dc_chain_id := []; dc_chain_type := Local;
          dc_token := mkTokenConfig [] 12; dc_network := mkNetworkConfig 0 0 0 [];
          dc_epoch := mkEpochConfig 12; dc_authorities := [mkAuthorityConfig [] [] [] (validator d)];
          dc_bootstrap := mkBootstrapConfig [] [] [] |}.
End Example.

(** ** The laws hold *)
Section Laws.
Context `{!Codec, !CodecOk} (js : list FlatJustification).
#[local] Existing Instance reference_account.
#[local] Existing Instance reference_currency.
#[local] Instance some_light_client : LightClient := flat_light_client_of js.

#[export] Instance flat_light_client_ok : LightClientOk.
Proof.
  split; [|done]. intros h. pose proof (unflat_flat (A := Z * list Z * list Z) h []) as E.
  rewrite app_nil_r in E. exact (f_equal (fmap fst) E).
Qed.

Lemma flat_read_proof_sound : read_proof_sound flat_trie_root.
Proof.
  intros store nodes key v. change (flat_read_proof (flat_trie_root store) nodes key = Some v -> v = store !! key \/ collision blake2_256).
  pose proof (unflat_flat (A := list (list Z * list Z)) (map_to_list store) []) as E. rewrite app_nil_r in E.
  unfold flat_read_proof, flat_trie_root. rewrite E. destruct nodes as [|node []]; [done| |done].
  case_bool_decide; [|done]. simpl. intros [= <-]. left. by rewrite list_to_map_to_list.
Qed.

Lemma summary_header_key_inj e e' : summary_header_storage_key e = summary_header_storage_key e' -> e = e'.
Proof. intros [Ek _]%storage_map_key_inj. by apply scale_encode_inj in Ek. Qed.

Lemma header_store_spec ch : stores_headers ch (header_store ch).
Proof.
  intros e. unfold header_store. generalize (es_summary_headers (ch_epochs ch)). intros m.
  apply option_eq. intros v. rewrite <-elem_of_list_to_map.
  - rewrite list_elem_of_fmap, fmap_Some. split.
    + intros ([e' h] & E & Hin). injection E as ->%summary_header_key_inj ->. exists h.
      split; [by apply elem_of_map_to_list|done].
    + intros (h & Hh & ->). exists (e, h). split; [done|]. by apply elem_of_map_to_list.
  - rewrite map_map. apply NoDup_fmap_2_strong; [|apply NoDup_map_to_list].
    intros [e1 h1] [e2 h2] H1%elem_of_map_to_list H2%elem_of_map_to_list ->%summary_header_key_inj. congruence.
Qed.

Lemma next_step importer signs xts s :
  let bl := example_block (Z.of_nat (length (fst s)) + 1) xts in
  Z.of_nat (length (fst s)) + 1 <= u32_max ->
  admissible_all (bl_sys bl) 0 xts (enter_block bl (snd s)) -> Forall (authored importer signs) xts ->
  block_step importer signs s (next xts s).
Proof. intros bl Hmax Hadm Ha. destruct s as [hist ch]. by apply (add_block importer signs hist ch bl). Qed.
End Laws.

(** ** Networks *)
Section Networks.
Context (js : list FlatJustification).
#[local] Existing Instance reference_codec.
#[local] Existing Instance reference_account.
#[local] Existing Instance reference_account_ok.
#[local] Existing Instance reference_currency.
#[local] Existing Instance reference_currency_ok.
#[local] Instance some_network_client : LightClient := flat_light_client_of js.

(** The checks of the importer of domain [d], as one test. *)
Definition passes (d : DomainId) (pkg : CertifiedSummaryPackage) : bool :=
  match verify_package_hash pkg, verify_summary_chain_context pkg with
  | Ok _, Ok certificate =>
    match verify_grandpa_certificate network_config certificate (sh_domain_id (pkg_header pkg)),
          verify_package_flow pkg d with
    | Ok _, Ok _ => true
    | _, _ => false
    end
  | _, _ => false
  end.

Lemma passes_verified d header bundle eps fps gps :
  passes d (from_bundle_with_mixed_proofs header bundle eps fps gps) = true ->
  verified_items d network_config (from_bundle_with_mixed_proofs header bundle eps fps gps)
    (mkVerifiedPackageItems eps fps gps).
Proof.
  unfold passes. destruct (verify_package_hash _) as [[]|] eqn:E1; [|done].
  destruct (verify_summary_chain_context _) as [certificate|] eqn:E2; [|done].
  destruct (verify_grandpa_certificate _ _ _) as [[]|] eqn:E3; [|done].
  destruct (verify_package_flow _ _) as [items|] eqn:E4; [|done]. intros _. exists certificate.
  pose proof (bundle_flow_items _ _ _ _ _ _ _ E4) as ->. by split_and!.
Qed.

Definition signed_by_importer (d : DomainId) : RuntimeCall -> Prop := signs_certified network_config d.

Lemma Forall_map_in {A B} (P : B -> Prop) (f : A -> B) l : (forall a, a ∈ l -> P (f a)) -> Forall P (map f l).
Proof. intros Hl. apply Forall_fmap, Forall_forall. exact Hl. Qed.

Lemma importer_authored d calls :
  Forall (signed_by_importer d) calls -> Forall (authored (acct 7) (signed_by_importer d)) (map (plain_xt 7) calls).
Proof.
  intros Hc. apply Forall_fmap. eapply Forall_impl; [exact Hc|]. intros c Hs call _ [= <-]. exact Hs.
Qed.

Definition always_admissible (c : RuntimeCall) : Prop := forall ch : Chain Ledger, call_admissible ch c.

Lemma importer_admissible calls : forall sys i ch,
  Forall always_admissible calls ->
  admissible_all sys i (map (plain_xt 7) calls) ch.
Proof.
  induction calls as [|c calls IH]; intros sys i ch Hc; [done|]. apply Forall_cons in Hc as [H1 Hc].
  simpl. split; [|by apply IH]. by apply plain_admissible.
Qed.

Definition network_step (d : DomainId) := block_step (B := Ledger) (acct 7) (signed_by_importer d).

Lemma empty_block d s : Z.of_nat (length (fst s)) + 1 <= u32_max -> network_step d s (next [] s).
Proof. intros Hs. by apply next_step. Qed.
Lemma importer_block d calls s :
  Z.of_nat (length (fst s)) + 1 <= u32_max -> Forall (signed_by_importer d) calls ->
  Forall always_admissible calls ->
  network_step d s (next (map (plain_xt 7) calls) s).
Proof. intros Hs Hc Hk. apply next_step; [done|by apply importer_admissible|by apply importer_authored]. Qed.

Lemma genesis_network d : chain_state d 2 (acct 7) (signed_by_importer d) ([], network_genesis d).
Proof. eexists. split; [|apply rtc_refl]. by apply at_genesis. Qed.
Lemma chain_state_next d s s' :
  chain_state d 2 (acct 7) (signed_by_importer d) s -> network_step d s s' ->
  chain_state d 2 (acct 7) (signed_by_importer d) s'.
Proof. intros (s0 & Hg & Hr) Hs. exists s0. split; [done|]. by eapply rtc_r. Qed.

End Networks.

(** ** The network is a network *)
Section Witnesses.
#[local] Existing Instance reference_codec.
#[local] Existing Instance reference_account.
#[local] Existing Instance reference_account_ok.
#[local] Existing Instance reference_currency.
#[local] Existing Instance reference_currency_ok.
#[local] Existing Instance flat_light_client.

Lemma earth_package_verified :
  verified_items Mars network_config earth_package (mkVerifiedPackageItems export_proofs [] []).
Proof. apply passes_verified. vm_compute. reflexivity. Qed.
Lemma mars_package_verified :
  verified_items Earth network_config mars_package (mkVerifiedPackageItems [] completion_proofs []).
Proof. apply passes_verified. vm_compute. reflexivity. Qed.

#[local] Opaque earth_package mars_package export_proofs completion_proofs earth_4 mars_4.

Lemma mars_calls_certified : Forall (signed_by_importer justified Mars) (mars_observe ++ mars_finalize).
Proof.
  unfold mars_observe, mars_finalize. apply Forall_app. split.
  - apply Forall_map_in. intros p Hp. exists earth_package, (mkVerifiedPackageItems export_proofs [] []).
    split; [exact earth_package_verified|]. exact (cert_observe earth_package (mkVerifiedPackageItems export_proofs [] []) p Hp).
  - apply Forall_map_in. intros p Hp. exists earth_package, (mkVerifiedPackageItems export_proofs [] []).
    split; [exact earth_package_verified|]. exact (cert_finalize earth_package (mkVerifiedPackageItems export_proofs [] []) p Hp).
Qed.
Lemma earth_calls_certified : Forall (signed_by_importer justified Earth) earth_acknowledge.
Proof.
  unfold earth_acknowledge. apply Forall_map_in. intros p Hp. exists mars_package, (mkVerifiedPackageItems [] completion_proofs []).
  split; [exact mars_package_verified|]. exact (cert_complete mars_package (mkVerifiedPackageItems [] completion_proofs []) p Hp).
Qed.

#[local] Transparent earth_4 mars_4.
Lemma earth_4_state : chain_state Earth 2 (acct 7) (signed_by_importer justified Earth) earth_4.
Proof.
  do 3 (eapply chain_state_next; [|apply empty_block; vm_compute; discriminate]).
  eapply chain_state_next; [apply genesis_network|].
  apply next_step; [vm_compute; discriminate| |].
  - split; [|exact I]. apply plain_admissible. vm_compute. reflexivity.
  - apply Forall_singleton. intros call E. discriminate E.
Qed.
Lemma mars_4_state : chain_state Mars 2 (acct 7) (signed_by_importer justified Mars) mars_4.
Proof.
  do 3 (eapply chain_state_next; [|apply empty_block; vm_compute; discriminate]).
  eapply chain_state_next; [apply genesis_network|]. apply importer_block; [vm_compute; discriminate|exact mars_calls_certified|].
  unfold mars_observe, mars_finalize. apply Forall_app. split; by apply Forall_map_in.
Qed.
Lemma earth_5_step : network_step justified Earth earth_4 earth_5.
Proof.
  apply importer_block; [vm_compute; discriminate|exact earth_calls_certified|].
  unfold earth_acknowledge. by apply Forall_map_in.
Qed.
Lemma network_state d : chain_state d 2 (acct 7) (signed_by_importer justified d) (network_now d).
Proof.
  destruct d; [|apply genesis_network|apply mars_4_state].
  eapply chain_state_next; [apply earth_4_state|apply earth_5_step].
Qed.
#[local] Opaque earth_4 mars_4 earth_5.

Definition network_block : DomainId -> Header -> gmap bytes bytes -> Prop :=
  block_of (fun _ => 2) (fun _ => acct 7) network_config flat_trie_root network_now.

Lemma earth_block_4 : network_block Earth (block_4 (snd earth_4)) (header_store (snd earth_4)).
Proof.
  split; [reflexivity|]. exists earth_4. split; [exact earth_4_state|]. split; [|apply header_store_spec].
  exact (rtc_once _ _ earth_5_step).
Qed.
Lemma mars_block_4 : network_block Mars (block_4 (snd mars_4)) (header_store (snd mars_4)).
Proof.
  split; [reflexivity|]. exists mars_4. split; [exact mars_4_state|]. split; [|apply header_store_spec].
  exact (rtc_refl _ mars_4).
Qed.

Lemma network_finality : grandpa_finality network_config network_block.
Proof.
  intros d config authorities j set_id [= <-] [= <-] Hj. apply andb_prop in Hj as [Ha Hj].
  apply bool_decide_eq_true in Ha, Hj. injection Ha as Ha.
  apply elem_of_cons in Hj as [->|Hj]; [|apply list_elem_of_singleton in Hj as ->]; simpl in Ha.
  - exists (block_4 (snd earth_4)), (header_store (snd earth_4)). split; [|reflexivity].
    assert (d = Earth) as -> by (by destruct d). exact earth_block_4.
  - exists (block_4 (snd mars_4)), (header_store (snd mars_4)). split; [|reflexivity].
    assert (d = Mars) as -> by (by destruct d). exact mars_block_4.
Qed.

Lemma network_export_ids d s s' :
  0 <= s < u64_max -> 0 <= s' < u64_max -> export_id d s = export_id d s' -> s = s'.
Proof. intros _ _ E. apply scale_encode_inj in E. congruence. Qed.
Lemma no_collision : ~ collision blake2_256.
Proof. intros (x & y & Hne & E). by apply Hne. Qed.

Lemma transfers_backed_witness :
  (exists r, imports_of network_now Mars !! transfer_id = Some r /\ is_export network_now Mars transfer_id r) /\
  (exists x, exports_of network_now Earth !! transfer_id = Some x /\ is_minted network_now Earth transfer_id x).
Proof.
  destruct (transfers_backed (fun _ => 2) (fun _ => acct 7) network_config flat_trie_root network_now ltac:(lia)
              network_export_ids reference_proposal_ids (flat_read_proof_sound justified) network_finality network_state
              Earth Mars transfer_id) as [[Hi Hx]|Hc]; [|destruct (no_collision Hc)].
  assert (exists r, imports_of network_now Mars !! transfer_id = Some r) as [r Hr].
  { apply is_Some_alt. vm_compute. exact I. }
  assert (exists x, exports_of network_now Earth !! transfer_id = Some x) as [x Hlx].
  { apply is_Some_alt. vm_compute. exact I. }
  split; [exists r; split; [exact Hr|exact (Hi r Hr)]|exists x; split; [exact Hlx|apply (Hx x Hlx)]].
  assert (er_status <$> exports_of network_now Earth !! transfer_id = Some RemoteFinalized) as Hs by (vm_compute; reflexivity).
  rewrite Hlx in Hs. injection Hs as Hs. exact Hs.
Defined.

Lemma logged_next d s log xts :
  logged_run d 2 (fst s) (snd s) log -> Z.of_nat (length (fst s)) + 1 <= u32_max ->
  (let bl := example_block (Z.of_nat (length (fst s)) + 1) xts in admissible_all (bl_sys bl) 0 xts (enter_block bl (snd s))) ->
  logged_run d 2 (fst (next xts s)) (snd (next xts s)) (log ++ logged xts s).
Proof. intros Hs Hmax Hadm. by apply (logged_block d 2 (fst s) (snd s) log (example_block (Z.of_nat (length (fst s)) + 1) xts)). Qed.
Lemma logged_empty d s log :
  logged_run d 2 (fst s) (snd s) log -> Z.of_nat (length (fst s)) + 1 <= u32_max ->
  logged_run d 2 (fst (next [] s)) (snd (next [] s)) log.
Proof. intros Hs Hmax. pose proof (logged_next d s log [] Hs Hmax I) as Hl. unfold logged, block_log in Hl. simpl bl_extrinsics in Hl. simpl dispatched_all in Hl. by rewrite app_nil_r in Hl. Qed.
Lemma logged_genesis d : logged_run d 2 [] (network_genesis d) [].
Proof. by apply logged_start. Qed.

#[local] Transparent earth_4 mars_4 earth_5.
#[local] Opaque next logged.
Lemma network_logged d : logged_run d 2 (fst (network_now d)) (snd (network_now d)) (network_log d).
Proof.
  destruct d; [|apply logged_genesis|].
  - apply logged_next; [|vm_compute; discriminate|].
    + do 3 (apply logged_empty; [|vm_compute; discriminate]).
      apply (logged_next Earth earth_0 []); [apply logged_genesis|vm_compute; discriminate|].
      split; [|exact I]. apply plain_admissible. vm_compute. reflexivity.
    + apply importer_admissible. unfold earth_acknowledge. by apply Forall_map_in.
  - do 3 (apply logged_empty; [|vm_compute; discriminate]).
    apply (logged_next Mars mars_0 []); [apply logged_genesis|vm_compute; discriminate|].
    apply importer_admissible. unfold mars_observe, mars_finalize. apply Forall_app. split; by apply Forall_map_in.
Qed.
#[local] Opaque earth_4 mars_4 earth_5.
#[local] Transparent next logged.

(** The transfer, in currency: 10^12 put on hold and burned on Earth, minted on Mars. *)
Lemma cross_chain_conservation_witness :
  escrowed (network_log Earth) Mars = 1000000000000 /\ minted (network_log Mars) Earth = 1000000000000 /\
  burned (network_log Earth) Mars = 1000000000000 /\
  burned (network_log Earth) Mars <= minted (network_log Mars) Earth <= escrowed (network_log Earth) Mars /\
  log_sum supply_change (network_log Mars) = over_domains (minted (network_log Mars)) - over_domains (burned (network_log Mars)).
Proof.
  split; [vm_compute; reflexivity|]. split; [vm_compute; reflexivity|]. split; [vm_compute; reflexivity|].
  destruct (Supply.cross_chain_conservation (fun _ => 2) (fun _ => acct 7) network_config flat_trie_root network_now ltac:(lia)
              network_export_ids reference_proposal_ids (flat_read_proof_sound justified) network_finality network_state
              network_log network_logged) as [(Hc & Hs & _)|Hc]; [|destruct (no_collision Hc)].
  split; [exact (Hc Earth Mars)|exact (Hs Mars)].
Defined.

(** The import on Mars, finalized by one call, which credits account 2. *)
Lemma import_minted_once_witness :
  log_sum (in_finalize transfer_id supply_change) (network_log Mars) = 1000000000000 /\
  log_sum (in_finalize transfer_id (balance_change (acct 2))) (network_log Mars) = 1000000000000 /\
  log_sum (in_finalize transfer_id (fun _ => 1)) (network_log Mars) = 1.
Proof.
  destruct (import_minted_once Mars 2 ltac:(lia) (network_export_ids Mars) reference_proposal_ids _ _ _ transfer_id
              (network_logged Mars)) as (-> & Hb & -> & _).
  rewrite (Hb (acct 2)). clear Hb. split_and!; vm_compute; reflexivity.
Defined.

Lemma verified_package_certified_witness :
  exists hd store, network_block Earth hd store /\
    store !! summary_header_storage_key 0 = Some (scale_encode (pkg_header earth_package)).
Proof.
  destruct earth_package_verified as (certificate & _ & Hc & Hg & Hf).
  destruct (verified_package_certified flat_trie_root network_config network_block (flat_read_proof_sound justified)
              (fun _ _ _ H => proj1 H) network_finality earth_package certificate Mars _ Hc Hg Hf)
    as [((hd & store & Hb & _ & Hs) & _)|Hn]; [|destruct (no_collision Hn)].
  assert (sh_domain_id (pkg_header earth_package) = Earth) as Ed by (vm_compute; reflexivity).
  assert (sh_epoch_id (pkg_header earth_package) = 0) as Ee by (vm_compute; reflexivity).
  rewrite Ed in Hb. rewrite Ee in Hs. exists hd, store. split; [exact Hb|exact Hs].
Defined.

Lemma honest_package_verifies_witness :
  verify_package_flow (from_bundle_with_mixed_proofs (header_0 (snd earth_4)) (flat_bundle Earth (snd earth_4)) export_proofs [] []) Mars
  = Ok (mkVerifiedPackageItems export_proofs [] []).
Proof.
  apply (honest_package_verifies (header_0 (snd earth_4)) (flat_bundle Earth (snd earth_4)) Mars export_proofs [] []).
  - assert (exists p, export_proofs = [p] /\ check_export_proof (header_0 (snd earth_4)) Mars p = Ok tt) as (p & -> & Hp).
    { eexists. split; vm_compute; reflexivity. }
    apply Forall_singleton. exact Hp.
  - constructor.
  - constructor.
  - left. vm_compute. discriminate.
Defined.
End Witnesses.
