(* ===== verification/ImporterWitnesses.v ===== *)
(** * A run of the importer

    The importer of Mars on the codec with 32-byte hashes, against a node that
    executes the calls it is sent: the package of [NetworkExample.v] is received
    from the relay, verified, submitted and settled. *)

From S2P Require Import Prelude Types Effects Codec Reference Merkle Frame Domain Epochs Transfers TransfersProofs Governance Runtime RuntimeProofs Config Verify VerifyProofs Relay RelayWitnesses Importer ImporterProofs ImporterSafety CrossChain NetworkExample.

#[local] Existing Instance short_codec.
#[local] Existing Instance plain_hex.
#[local] Existing Instance reference_account.
#[local] Existing Instance reference_currency.
#[local] Existing Instance flat_light_client.

(** ** The node *)

#[local] Instance flat_storage_codec : StorageCodec := {|
  scale_account := tagged 30 Z;
  scale_observed_import := tagged 31 _;
  scale_export_record := tagged 32 _;
  scale_governance_proposal := tagged 33 _;
  scale_governance_ack_record := tagged 34 _
|}.

#[local] Instance plain_keys : Keys := {|
  Pair := Z;
  Signature := unit;
  pair_from_string := head;
  pair_account p := p;
  pair_sign _ _ := tt
|}.

Record Sim : Type := mkSim {
  sim_chain : Chain Ledger;
  sim_log : list RuntimeCall;
  sim_clock : Z
}.

(** The storage the importer reads. *)
Definition sim_storage (ch : Chain Ledger) : gmap bytes bytes :=
  let st := w_transfers (ch_world ch) in
  list_to_map
    ([(importer_account_storage_key, scale_encode (acct 7));
      (governance_importer_account_storage_key, scale_encode (acct 7))]
     ++ map (fun '(id, r) => (observed_import_storage_key id, scale_encode r)) (map_to_list (ts_observed_imports_by_id st))
     ++ map (fun '(id, r) => (export_record_storage_key id, scale_encode r)) (map_to_list (ts_exports_by_id st))
     ++ map (fun '(id, p) => (governance_proposal_storage_key id, scale_encode p))
          (map_to_list (gs_proposals_by_id (w_governance (ch_world ch))))).

#[local] Instance sim_rpc : NodeRpc Sim := {|
  unix_now_millis n := (mkSim (sim_chain n) (sim_log n) (sim_clock n + 1), sim_clock n);
  rpc_connect n := (n, Ok tt);
  state_getRuntimeVersion n := (n, Ok (mkRuntimeVersionView 1 1));
  chain_getBlockHash _ n := (n, Ok [0]);
  state_getStorage key n := (n, Ok (sim_storage (sim_chain n) !! strip_0x key));
  system_accountNextIndex _ n := (n, Ok (Z.of_nat (length (sim_log n))));
  author_submitExtrinsic x n :=
    match dispatch example_sys (Signed (sx_account_id x)) (sx_call x) (sim_chain n) with
    | Ok ch => (mkSim ch (sim_log n ++ [sx_call x]) (sim_clock n), Ok "0x00"%string)
    | Err _ => (n, Err "dispatch failed"%string)
    end
|}.

(** ** The run *)

Definition mars_node : Sim := mkSim (enter_block (example_block 1 []) (network_genesis Mars)) [] 1000.
Definition fresh_importer : Importer Sim := mkImporter (new_index Mars) None ∅ ∅ ∅ mars_node.
Definition mars_body : bytes :=
  let pkg := earth_package in
  scale_encode (new_envelope Earth Mars (sh_epoch_id (pkg_header pkg)) (sh_summary_hash (pkg_header pkg))
    (pkg_package_hash pkg) (scale_encode pkg) 1 900).
Definition importer_1 : Importer Sim := fst (receive_package Mars mars_body fresh_importer).
Definition importer_2 : Importer Sim :=
  fst (process_pending_packages_once Mars (Some [7]) network_config (mkRuntimeVersionView 1 1) importer_1).

Definition log_certified (n : Sim) : Prop := Forall (certified Mars network_config) (sim_log n).

Lemma sim_invariant : node_invariant Mars network_config log_certified.
Proof.
  split; try (by intros; simpl). intros x n Hx Hn. simpl.
  destruct (dispatch _ _ _ _); [|done]. by apply Forall_app_2; [|apply Forall_singleton].
Qed.

Definition mars_step : Importer Sim -> Importer Sim -> Prop :=
  importer_step Mars (Some [7]) network_config (mkRuntimeVersionView 1 1) eq.
Lemma receive_step : mars_step fresh_importer importer_1.
Proof. exact (istep_receive Mars _ _ _ _ fresh_importer mars_body). Qed.
Lemma process_step : mars_step importer_1 importer_2.
Proof. exact (istep_process Mars (Some [7]) network_config (mkRuntimeVersionView 1 1) eq importer_1). Qed.
Lemma importer_run : rtc mars_step fresh_importer importer_2.
Proof. exact (rtc_l _ _ _ _ receive_step (rtc_once _ _ process_step)). Qed.
Lemma fresh_settled n : Settled Mars network_config reported (mkImporter (new_index Mars) None ∅ ∅ ∅ n : Importer Sim).
Proof.
  split; simpl; [split; constructor|intros file E; discriminate E|].
  intros path r E. rewrite lookup_empty in E. discriminate E.
Qed.

Lemma importer_1_settled : Settled Mars network_config reported importer_1.
Proof.
  unfold importer_1.
  apply (ensures_settled Mars network_config reported fresh_importer (receive_package Mars mars_body) (fun _ _ => True)).
  - exact (fresh_settled mars_node).
  - exact (ensures_receive Mars network_config reported reported_reports fresh_importer mars_body).
Qed.
#[local] Opaque fresh_importer importer_1 importer_2.

Lemma importer_submits_only_certified_witness :
  length (sim_log (im_node importer_2)) = 2%nat /\ log_certified (im_node importer_2).
Proof.
  split; [vm_compute; reflexivity|].
  refine (importer_submits_only_certified Mars (Some [7]) network_config (mkRuntimeVersionView 1 1) eq log_certified
            fresh_importer importer_2 sim_invariant _ _ importer_run).
  - intros n n' <- Hn. exact Hn.
  - apply Forall_nil. exact I.
Defined.

(** ** Acknowledgement *)

Definition mars_record (s : Importer Sim) : PackageRecord :=
  default (build_package_record Earth Mars 0 [] [] 0 0) (ii_packages (im_memory s) !! 0%nat).

Lemma acknowledged_packages_done_witness :
  exists payload pkg items, im_payloads importer_2 !! pr_payload_path (mars_record importer_2) = Some payload /\
    scale_decode payload = Some pkg /\ verified_items Mars network_config pkg items /\ items_done reported items importer_2.
Proof.
  refine (acknowledged_packages_done Mars network_config reported reported_reports (Some [7]) (mkRuntimeVersionView 1 1) eq
            fresh_importer importer_2 (mars_record importer_2) _ _ importer_run _ _).
  - intros n n' e <- Hn. exact Hn.
  - exact (fresh_settled mars_node).
  - apply list_elem_of_lookup. exists 0%nat. vm_compute. reflexivity.
  - vm_compute. reflexivity.
Defined.

Definition importer_1_index : ImporterIndex := im_memory importer_1.
Definition processed : Importer Sim :=
  fst (process_package_by_identity Mars (Some [7]) network_config (mkRuntimeVersionView 1 1) Earth Mars 0
         (pkg_package_hash earth_package) importer_1).

(** The package is acknowledged, its import is on file, and the index has no
    record of it. *)
Lemma processed_package_restores_index_witness :
  exists index' r', im_index processed = Some (CurrentIndex index') /\
    package index' Earth Mars 0 (pkg_package_hash earth_package) = Some r' /\
    pr_state r' = AckedVerified /\ size (im_records processed) = 1%nat /\ ii_imports index' = [].
Proof.
  destruct (processed_package_restores_index Mars network_config reported reported_reports (Some [7])
              (mkRuntimeVersionView 1 1) importer_1 processed importer_1_index Earth Mars 0
              (pkg_package_hash earth_package) (mars_record importer_1) importer_1_settled)
    as (index' & r' & Hi & Hr & Ha); [vm_compute; reflexivity..|].
  exists index', r'.
  assert (pr_state <$> (package index' Earth Mars 0 (pkg_package_hash earth_package)) = Some AckedVerified) as Hst.
  { assert (im_index processed = Some (CurrentIndex index')) as Hi' by exact Hi. revert Hi'. clear.
    generalize (eq_refl (im_index processed)). vm_compute. intros _ [= <-]. reflexivity. }
  rewrite Hr in Hst. injection Hst as Hst. split; [exact Hi|]. split; [exact Hr|]. split; [exact Hst|].
  split; [vm_compute; reflexivity|]. rewrite Hst in Ha. destruct (Ha eq_refl) as [E _]. rewrite E. vm_compute. reflexivity.
Defined.
