(* ===== verification/Exporter.v ===== *)
(** * The exporter service ([services/exporter/src/lib.rs], [store.rs], [rpc_client.rs], [relay_client.rs])

    The exporter of a domain reads the staged summaries of its own chain, builds
    one package per target domain for every epoch the node can certify, keeps the
    packages in a store and submits them to the relay.

    The store is files, by what their paths are formatted from.  The node, the
    relay and the clock are the operations of [ExporterEnv]: each call moves the
    state [N] of the outside world and gives an answer.  [ex_sent] is a history of
    the answers of the relay; no operation reads it. *)

From S2P Require Import Prelude Types Effects Codec Merkle Epochs.

(** ** Data *)

(** The texts of errors that come from outside. *)
Definition Text : Type := string.

Inductive ExporterError : Type :=
| NodeError (t : Text)
| StagedBlockMissing (epoch_id : Z)
| HeaderSlotInconsistent (epoch_id : Z)
| ExportRecordMissing (export_id : hash)
| ObservedImportMissing (export_id : hash)
| GovernanceLeafMissing (leaf_hash : hash)
| ExportRootMismatch (epoch_id : Z)
| ImportRootMismatch (epoch_id : Z)
| GovernanceRootMismatch (epoch_id : Z)
| ExportProofMissing (export_id : hash)
| ImportProofMissing (export_id : hash)
| GovernanceProofMissing (leaf_hash : hash)
| PackageLayoutInvalid
| UnsupportedSchemaVersion
| IndexDomainMismatch
| LegacyDomainMissing
| SummaryAlreadyRecorded
| DifferentPackageBytes
| PackageUnreadable
| PackageUndecodable
| SummaryProofMissing
| ProofUndecodable
| NotSummaryProof
| SummaryProofNotFirst
| OtherProofKind
| PendingRecordMissing (* the [expect] of [mark_certified] *)
| ProofCountTooLarge
| ClockError (t : Text)
| NotAccepted (state : Text).

Inductive PackageStatus : Type := Staged' | Certified.
#[export] Instance PackageStatus_eq_dec : EqDecision PackageStatus.
Proof. solve_decision. Defined.
Inductive RelaySubmissionState : Type := NotSubmitted | Submitted | SubmissionRetrying' | SubmissionFailed.
#[export] Instance RelaySubmissionState_eq_dec : EqDecision RelaySubmissionState.
Proof. solve_decision. Defined.

(** What [relay_last_error] is formatted from. *)
Inductive SubmitErrorText : Type :=
| SendFailedText (t : Text)
| BodyUnreadableText (t : Text)
| ReceiptUndecodableText
| RejectedText (status : Z) (body : bytes)
| RejectedHexText (status : Z) (body : bytes).

(** What the path of a package is formatted from. *)
Definition PackageKey : Type := Z * DomainId.

Record PackageRecord : Type := mkPackageRecord {
  xr_epoch_id : Z;
  xr_target_domain : DomainId;
  xr_summary_hash : bytes;
  xr_staged_at_block_number : Z;
  xr_staged_at_block_hash : bytes;
  xr_export_ids : list bytes;
  xr_export_count : Z;
  xr_status : PackageStatus;
  xr_pending_reason : option CertificationPendingReason;
  xr_package_hash : option bytes;
  xr_package_scale_path : option PackageKey;
  xr_package_manifest_path : option PackageKey;
  xr_proof_block_number : option Z;
  xr_proof_block_hash : option bytes;
  xr_proof_count : option Z;
  xr_proof_kinds : list string;
  xr_relay_submission_state : RelaySubmissionState;
  xr_relay_last_submitted_at_unix_ms : option Z;
  xr_relay_submission_attempts : Z;
  xr_relay_last_error : option SubmitErrorText
}.
#[export] Instance PackageRecord_settable : Settable PackageRecord :=
  fun r => mkPackageRecord (xr_epoch_id r) (xr_target_domain r) (xr_summary_hash r)
    (xr_staged_at_block_number r) (xr_staged_at_block_hash r) (xr_export_ids r) (xr_export_count r)
    (xr_status r) (xr_pending_reason r) (xr_package_hash r) (xr_package_scale_path r)
    (xr_package_manifest_path r) (xr_proof_block_number r) (xr_proof_block_hash r) (xr_proof_count r)
    (xr_proof_kinds r) (xr_relay_submission_state r) (xr_relay_last_submitted_at_unix_ms r)
    (xr_relay_submission_attempts r) (xr_relay_last_error r).

Record ExporterIndex : Type := mkExporterIndex {
  xi_schema_version : Z;
  xi_domain_id : DomainId;
  xi_latest_staged_epoch : option Z;
  xi_latest_certified_epoch : option Z;
  xi_latest_certified_target_domain : option DomainId;
  xi_packages : list PackageRecord
}.
#[export] Instance ExporterIndex_settable : Settable ExporterIndex :=
  fun r => mkExporterIndex (xi_schema_version r) (xi_domain_id r) (xi_latest_staged_epoch r)
    (xi_latest_certified_epoch r) (xi_latest_certified_target_domain r) (xi_packages r).

Definition INDEX_SCHEMA_VERSION : Z := 4.
Definition MANIFEST_SCHEMA_VERSION : Z := 3.

Record PackageManifest : Type := mkPackageManifest {
  mf_schema_version : Z;
  mf_domain_id : DomainId;
  mf_target_domain : DomainId;
  mf_epoch_id : Z;
  mf_summary_hash : bytes;
  mf_package_hash : bytes;
  mf_export_ids : list bytes;
  mf_export_count : Z;
  mf_proof_count : Z;
  mf_proof_kinds : list string;
  mf_target_block_number : Z;
  mf_target_block_hash : bytes;
  mf_proof_block_number : Z;
  mf_proof_block_hash : bytes;
  mf_grandpa_set_id : Z;
  mf_justification_len : Z;
  mf_ancestry_header_count : Z;
  mf_summary_storage_key : bytes;
  mf_summary_storage_node_count : Z;
  mf_summary_storage_total_bytes : Z;
  mf_summary_storage_header_len : Z;
  mf_artifacts_state : string;
  mf_scale_path : PackageKey
}.

(** A record of the index of schema 3: no relay fields. *)
Record PackageRecordV3 : Type := mkPackageRecordV3 {
  x3_epoch_id : Z;
  x3_target_domain : DomainId;
  x3_summary_hash : bytes;
  x3_staged_at_block_number : Z;
  x3_staged_at_block_hash : bytes;
  x3_export_ids : list bytes;
  x3_export_count : Z;
  x3_status : PackageStatus;
  x3_pending_reason : option CertificationPendingReason;
  x3_package_hash : option bytes;
  x3_package_scale_path : option PackageKey;
  x3_package_manifest_path : option PackageKey;
  x3_proof_block_number : option Z;
  x3_proof_block_hash : option bytes;
  x3_proof_count : option Z;
  x3_proof_kinds : list string
}.

Record ExporterIndexV3 : Type := mkExporterIndexV3 {
  x3_domain_id : DomainId;
  x3_latest_staged_epoch : option Z;
  x3_latest_certified_epoch : option Z;
  x3_latest_certified_target_domain : option DomainId;
  x3_packages : list PackageRecordV3
}.

(** The index file by its schema version: 4, 3, 1 or 2 (of which only two fields
    are read), or another. *)
Inductive IndexFile : Type :=
| CurrentIndex (index : ExporterIndex)
| IndexV3 (index : ExporterIndexV3)
| LegacyIndex (schema_version : Z) (domain_id : option DomainId) (latest_staged_epoch : option Z)
| OtherIndex (schema_version : Z).

Definition file_schema_version (file : IndexFile) : Z :=
  match file with
  | CurrentIndex _ => INDEX_SCHEMA_VERSION
  | IndexV3 _ => 3
  | LegacyIndex v _ _ | OtherIndex v => v
  end.

Record StagedSummaryView : Type := mkStagedSummaryView {
  ss_header : EpochSummaryHeader;
  ss_staged_at_block_number : Z
}.

Record RelaySubmitReceipt : Type := mkRelaySubmitReceipt {
  rr_accepted : bool;
  rr_idempotent : bool;
  rr_state : Text
}.
Record RelaySubmitError : Type := mkRelaySubmitError {
  se_retryable : bool;
  se_message : SubmitErrorText
}.

(** The answer to a request: none, or a status and a body, if it could be read. *)
Inductive PostResponse : Type :=
| SendFailed (t : Text)
| Responded (status : Z) (body : result Text bytes).

Record TargetPackageInputs : Type := mkTargetPackageInputs {
  ti_export_leaves : list ExportLeaf;
  ti_finalized_import_leaves : list FinalizedImportLeaf;
  ti_governance_leaves : list GovernanceLeaf
}.
#[export] Instance TargetPackageInputs_settable : Settable TargetPackageInputs :=
  fun r => mkTargetPackageInputs (ti_export_leaves r) (ti_finalized_import_leaves r) (ti_governance_leaves r).

Inductive Extension : Type := ScaleFile | JsonFile.
#[export] Instance Extension_eq_dec : EqDecision Extension.
Proof. solve_decision. Defined.
#[export] Instance Extension_countable : Countable Extension.
Proof.
  refine (inj_countable' (fun r => match r with ScaleFile => true | JsonFile => false end)
    (fun b : bool => if b then ScaleFile else JsonFile) _); by intros [].
Defined.

(** The store and the world around it: the files of the [packages] directory of
    this version and of Phase 2A, and those of the [legacy] directory. *)
Record Exporter (N : Type) : Type := mkExporter {
  ex_index : option IndexFile;
  ex_scale : gmap PackageKey bytes;
  ex_manifests : gmap PackageKey PackageManifest;
  ex_phase_2a : gmap (Z * Extension) bytes;
  ex_legacy_index : gmap Z IndexFile;
  ex_legacy_phase_2a : gmap (Z * Extension) bytes;
  ex_sent : list (RelayPackageEnvelopeV1 * PostResponse);
  ex_node : N
}.
Arguments mkExporter {N}.
Arguments ex_index {N}.
Arguments ex_scale {N}.
Arguments ex_manifests {N}.
Arguments ex_phase_2a {N}.
Arguments ex_legacy_index {N}.
Arguments ex_legacy_phase_2a {N}.
Arguments ex_sent {N}.
Arguments ex_node {N}.
#[export] Instance Exporter_settable {N} : Settable (Exporter N) :=
  fun r => mkExporter (ex_index r) (ex_scale r) (ex_manifests r) (ex_phase_2a r) (ex_legacy_index r)
    (ex_legacy_phase_2a r) (ex_sent r) (ex_node r).

Definition ExporterM (N : Type) : Type -> Type := M (Exporter N) ExporterError.

(** [ExporterIndex::new]. *)
Definition new_index (domain_id : DomainId) : ExporterIndex :=
  mkExporterIndex INDEX_SCHEMA_VERSION domain_id None None None [].

(** ** The index *)
Section Index.
Context `{!HexCodec}.
Implicit Types (index : ExporterIndex).

Definition same_key (epoch_id : Z) (target_domain : DomainId) (r : PackageRecord) : bool :=
  (xr_epoch_id r =? epoch_id) && bool_decide (xr_target_domain r = target_domain).

(** [ExporterIndex::record]. *)
Definition record index (epoch_id : Z) (target_domain : DomainId) : option PackageRecord :=
  find (same_key epoch_id target_domain) (xi_packages index).

(** [ExporterIndex::records_for_epoch]. *)
Definition records_for_epoch index (epoch_id : Z) : list PackageRecord :=
  List.filter (fun r => xr_epoch_id r =? epoch_id) (xi_packages index).

(** [ExporterIndex::latest_certified_record]. *)
Definition latest_certified_record index : option PackageRecord :=
  match xi_latest_certified_epoch index, xi_latest_certified_target_domain index with
  | Some epoch, Some target_domain => record index epoch target_domain
  | _, _ => None
  end.

(** A change through the reference that [record_mut] gives: to the first match. *)
Fixpoint update_first {A} (p : A -> bool) (f : A -> A) (l : list A) : list A :=
  match l with
  | [] => []
  | x :: l => if p x then f x :: l else x :: update_first p f l
  end.
Definition record_mut (epoch_id : Z) (target_domain : DomainId) (f : PackageRecord -> PackageRecord)
    index : ExporterIndex :=
  index {{ xi_packages ::= update_first (same_key epoch_id target_domain) f }}.

(** What is reset with the relay's answers. *)
Definition clear_relay_fields (r : PackageRecord) : PackageRecord :=
  r {{ xr_relay_submission_state := NotSubmitted }}
    {{ xr_relay_last_submitted_at_unix_ms := None }}
    {{ xr_relay_submission_attempts := 0 }}
    {{ xr_relay_last_error := None }}.

(** What is reset of a record that is not certified. *)
Definition stage_again (pending_reason : option CertificationPendingReason) (r : PackageRecord) : PackageRecord :=
  clear_relay_fields
    (r {{ xr_status := Staged' }}
       {{ xr_pending_reason := pending_reason }}
       {{ xr_package_hash := None }}
       {{ xr_package_scale_path := None }}
       {{ xr_package_manifest_path := None }}
       {{ xr_proof_block_number := None }}
       {{ xr_proof_block_hash := None }}
       {{ xr_proof_count := None }}
       {{ xr_proof_kinds := [] }}).

Definition upsert_pending (epoch_id : Z) (target_domain : DomainId) (summary_hash : hash)
    (staged_at_block_number : Z) (staged_at_block_hash : hash) (export_ids : list hash)
    (pending_reason : option CertificationPendingReason) index : ExporterIndex :=
  let export_ids := map hex_hash export_ids in
  match record index epoch_id target_domain with
  | Some _ =>
    record_mut epoch_id target_domain (fun r =>
      let r := r {{ xr_summary_hash := hex_hash summary_hash }}
                 {{ xr_staged_at_block_number := staged_at_block_number }}
                 {{ xr_staged_at_block_hash := hex_hash staged_at_block_hash }}
                 {{ xr_export_ids := export_ids }}
                 {{ xr_export_count := Z.of_nat (length export_ids) }} in
      if bool_decide (xr_status r <> Certified) then stage_again pending_reason r else r) index
  | None =>
    index {{ xi_packages ::= fun packages => packages ++ [
      {| xr_epoch_id := epoch_id;
         xr_target_domain := target_domain;
         xr_summary_hash := hex_hash summary_hash;
         xr_staged_at_block_number := staged_at_block_number;
         xr_staged_at_block_hash := hex_hash staged_at_block_hash;
         xr_export_ids := export_ids;
         xr_export_count := Z.of_nat (length export_ids);
         xr_status := Staged';
         xr_pending_reason := pending_reason;
         xr_package_hash := None;
         xr_package_scale_path := None;
         xr_package_manifest_path := None;
         xr_proof_block_number := None;
         xr_proof_block_hash := None;
         xr_proof_count := None;
         xr_proof_kinds := [];
         xr_relay_submission_state := NotSubmitted;
         xr_relay_last_submitted_at_unix_ms := None;
         xr_relay_submission_attempts := 0;
         xr_relay_last_error := None |}] }}
  end.

Definition mark_certified (epoch_id : Z) (target_domain : DomainId) (package_hash : hash)
    (package_scale_path package_manifest_path : PackageKey) (proof_block_number : Z) (proof_block_hash : hash)
    (proof_count : Z) (proof_kinds : list string) index : result ExporterError ExporterIndex :=
  let?? _ := record index epoch_id target_domain else PendingRecordMissing in
  let index := record_mut epoch_id target_domain (fun r =>
    let was_certified := bool_decide (xr_status r = Certified) in
    let r := r {{ xr_status := Certified }}
               {{ xr_pending_reason := None }}
               {{ xr_package_hash := Some (hex_hash package_hash) }}
               {{ xr_package_scale_path := Some package_scale_path }}
               {{ xr_package_manifest_path := Some package_manifest_path }}
               {{ xr_proof_block_number := Some proof_block_number }}
               {{ xr_proof_block_hash := Some (hex_hash proof_block_hash) }}
               {{ xr_proof_count := Some proof_count }}
               {{ xr_proof_kinds := proof_kinds }} in
    if was_certified then r else clear_relay_fields r) index in
  Ok (index {{ xi_latest_certified_epoch := Some epoch_id }}
            {{ xi_latest_certified_target_domain := Some target_domain }}).

Definition mark_relay_submitted (epoch_id : Z) (target_domain : DomainId) (submitted_at_unix_ms : Z) index
    : ExporterIndex :=
  record_mut epoch_id target_domain (fun r =>
    r {{ xr_relay_submission_state := Submitted }}
      {{ xr_relay_last_submitted_at_unix_ms := Some submitted_at_unix_ms }}
      {{ xr_relay_submission_attempts ::= fun n => sat_add u32_max n 1 }}
      {{ xr_relay_last_error := None }}) index.

Definition mark_relay_submission_error (epoch_id : Z) (target_domain : DomainId) (submitted_at_unix_ms : Z)
    (retryable : bool) (error : SubmitErrorText) index : ExporterIndex :=
  record_mut epoch_id target_domain (fun r =>
    r {{ xr_relay_submission_state := if retryable then SubmissionRetrying' else SubmissionFailed }}
      {{ xr_relay_last_submitted_at_unix_ms := Some submitted_at_unix_ms }}
      {{ xr_relay_submission_attempts ::= fun n => sat_add u32_max n 1 }}
      {{ xr_relay_last_error := Some error }}) index.
End Index.

(** ** The proofs of a package *)
Section Proofs.
Context `{!Codec}.

Definition decode_summary_header_storage_proof (bs : bytes) : result ExporterError SummaryHeaderStorageProof :=
  let?? proof := (scale_decode bs : option InclusionProof) else ProofUndecodable in
  match proof with SummaryHeaderStorageV1 proof => Ok proof | _ => Err NotSummaryProof end.

(** The loops of [decode_export_proofs], [decode_finalized_import_proofs] and
    [decode_governance_proofs]: every proof must be of the one kind. *)
Fixpoint decode_kind {P} (pick : InclusionProof -> option P) (bs : list bytes) : result ExporterError (list P) :=
  match bs with
  | [] => Ok []
  | entry :: bs =>
    let?? proof := (scale_decode entry : option InclusionProof) else ProofUndecodable in
    match pick proof, proof with
    | Some p, _ => let? ps := decode_kind pick bs in Ok (p :: ps)
    | None, SummaryHeaderStorageV1 _ => Err SummaryProofNotFirst
    | None, _ => Err OtherProofKind
    end
  end.
Definition decode_export_proofs : list bytes -> result ExporterError (list ExportInclusionProof) :=
  decode_kind (fun proof => match proof with ExportV1 p => Some p | _ => None end).
Definition decode_finalized_import_proofs
    : list bytes -> result ExporterError (list FinalizedImportInclusionProof) :=
  decode_kind (fun proof => match proof with FinalizedImportV1 p => Some p | _ => None end).
Definition decode_governance_proofs : list bytes -> result ExporterError (list GovernanceInclusionProof) :=
  decode_kind (fun proof => match proof with GovernanceV1 p => Some p | _ => None end).

Fixpoint decode_item_kinds (bs : list bytes) : result ExporterError (list string) :=
  match bs with
  | [] => Ok []
  | entry :: bs =>
    let?? proof := (scale_decode entry : option InclusionProof) else ProofUndecodable in
    let? kind :=
      match proof with
      | SummaryHeaderStorageV1 _ => Err SummaryProofNotFirst
      | ExportV1 _ => Ok "export_v1"
      | FinalizedImportV1 _ => Ok "finalized_import_v1"
      | GovernanceV1 _ => Ok "governance_v1"
      end in
    let? kinds := decode_item_kinds bs in
    Ok (kind :: kinds)
  end.
Definition decode_proof_kinds (bs : list bytes) : result ExporterError (list string) :=
  let? kinds := decode_item_kinds bs in Ok ("summary_header_storage_v1"%string :: kinds).
End Proofs.

(** ** The store *)
Section Store.
Context `{!Codec, !HexCodec} {N : Type} (domain_id : DomainId).
Implicit Types (index : ExporterIndex) (s : Exporter N).

(** [SummaryHeaderStorageProof::node_count] and [total_proof_bytes]. *)
Definition node_count (proof : SummaryHeaderStorageProof) : Z := Z.of_nat (length (shp_trie_nodes proof)).
Definition total_proof_bytes (proof : SummaryHeaderStorageProof) : Z :=
  Z.of_nat (sum_list (length <$> shp_trie_nodes proof)).

(** [hex_bytes]. *)
Definition hex_bytes (bs : bytes) : bytes := [48; 120] ++ hex_encode bs.

Definition migrate_record (r : PackageRecordV3) : PackageRecord :=
  {| xr_epoch_id := x3_epoch_id r;
     xr_target_domain := x3_target_domain r;
     xr_summary_hash := x3_summary_hash r;
     xr_staged_at_block_number := x3_staged_at_block_number r;
     xr_staged_at_block_hash := x3_staged_at_block_hash r;
     xr_export_ids := x3_export_ids r;
     xr_export_count := x3_export_count r;
     xr_status := x3_status r;
     xr_pending_reason := x3_pending_reason r;
     xr_package_hash := x3_package_hash r;
     xr_package_scale_path := x3_package_scale_path r;
     xr_package_manifest_path := x3_package_manifest_path r;
     xr_proof_block_number := x3_proof_block_number r;
     xr_proof_block_hash := x3_proof_block_hash r;
     xr_proof_count := x3_proof_count r;
     xr_proof_kinds := x3_proof_kinds r;
     xr_relay_submission_state := NotSubmitted;
     xr_relay_last_submitted_at_unix_ms := None;
     xr_relay_submission_attempts := 0;
     xr_relay_last_error := None |}.

(** The copy of the index file that a migration leaves in the [legacy] directory. *)
Definition archive_index (file : IndexFile) : ExporterM N unit :=
  modify (fun s => s {{ ex_legacy_index ::= <[file_schema_version file := file]> }}).

(** [migrate_legacy_index], for the two layouts of old indexes. *)
Definition migrate_v3 (legacy : ExporterIndexV3) : ExporterM N ExporterIndex :=
  do! _ := archive_index (IndexV3 legacy) in
  ret ((new_index (x3_domain_id legacy))
    {{ xi_latest_staged_epoch := x3_latest_staged_epoch legacy }}
    {{ xi_latest_certified_epoch := x3_latest_certified_epoch legacy }}
    {{ xi_latest_certified_target_domain := x3_latest_certified_target_domain legacy }}
    {{ xi_packages := map migrate_record (x3_packages legacy) }}).
Definition migrate_legacy_index (v : Z) (legacy_domain : option DomainId) (latest_staged_epoch : option Z)
    : ExporterM N ExporterIndex :=
  do! domain := match legacy_domain with Some d => ret d | None => fail LegacyDomainMissing end in
  do! _ := archive_index (LegacyIndex v legacy_domain latest_staged_epoch) in
  ret ((new_index domain) {{ xi_latest_staged_epoch := latest_staged_epoch }}).

Definition load_index : ExporterM N ExporterIndex :=
  do! file := gets ex_index in
  match file with
  | None => ret (new_index domain_id)
  | Some file =>
    do! index :=
      match file with
      | CurrentIndex index => ret index
      | IndexV3 legacy => migrate_v3 legacy
      | LegacyIndex v legacy_domain latest => migrate_legacy_index v legacy_domain latest
      | OtherIndex _ => fail UnsupportedSchemaVersion
      end in
    check! bool_decide (xi_domain_id index = domain_id) else IndexDomainMismatch in
    ret index
  end.

Definition save_index index : ExporterM N unit :=
  check! bool_decide (xi_domain_id index = domain_id) else IndexDomainMismatch in
  modify (fun s => s {{ ex_index := Some (CurrentIndex index) }}).

Definition build_manifest (package : CertifiedSummaryPackage) (target_domain : DomainId) (export_ids : list hash)
    (scale_path : PackageKey) : result ExporterError PackageManifest :=
  let '(GrandpaV1 certificate) := pkg_certificate package in
  let?? first := head (pkg_inclusion_proofs package) else SummaryProofMissing in
  let? summary_proof := decode_summary_header_storage_proof first in
  let? proof_kinds := decode_proof_kinds (tail (pkg_inclusion_proofs package)) in
  Ok {| mf_schema_version := MANIFEST_SCHEMA_VERSION;
        mf_domain_id := domain_id;
        mf_target_domain := target_domain;
        mf_epoch_id := sh_epoch_id (pkg_header package);
        mf_summary_hash := hex_hash (sh_summary_hash (pkg_header package));
        mf_package_hash := hex_hash (pkg_package_hash package);
        mf_export_ids := map hex_hash export_ids;
        mf_export_count := Z.of_nat (length export_ids);
        mf_proof_count := Z.of_nat (length (pkg_inclusion_proofs package));
        mf_proof_kinds := proof_kinds;
        mf_target_block_number := gfc_target_block_number certificate;
        mf_target_block_hash := hex_hash (gfc_target_block_hash certificate);
        mf_proof_block_number := gfc_proof_block_number certificate;
        mf_proof_block_hash := hex_hash (gfc_proof_block_hash certificate);
        mf_grandpa_set_id := gfc_grandpa_set_id certificate;
        mf_justification_len := Z.of_nat (length (gfc_justification certificate));
        mf_ancestry_header_count := Z.of_nat (length (gfc_ancestry_headers certificate));
        mf_summary_storage_key := hex_bytes (shp_storage_key summary_proof);
        mf_summary_storage_node_count := node_count summary_proof;
        mf_summary_storage_total_bytes := total_proof_bytes summary_proof;
        mf_summary_storage_header_len := Z.of_nat (length (shp_proof_block_header summary_proof));
        mf_artifacts_state := match pkg_artifacts package with [] => "empty" | _ => "non_empty" end;
        mf_scale_path := scale_path |}.

(** [fs::rename] of the Phase 2A file with one extension, when it exists. *)
Definition archive_phase_2a_file (epoch_id : Z) (extension : Extension) : ExporterM N unit :=
  do! legacy := gets (fun s => ex_phase_2a s !! (epoch_id, extension)) in
  match legacy with
  | None => ret tt
  | Some contents =>
    modify (fun s => s {{ ex_phase_2a ::= delete (epoch_id, extension) }}
                       {{ ex_legacy_phase_2a ::= <[(epoch_id, extension) := contents]> }})
  end.
Definition archive_phase_2a_package_files_if_needed (epoch_id : Z) : ExporterM N unit :=
  do! _ := archive_phase_2a_file epoch_id ScaleFile in
  archive_phase_2a_file epoch_id JsonFile.

Definition persist_package index (target_domain : DomainId) (export_ids : list hash)
    (package : CertifiedSummaryPackage) : ExporterM N ExporterIndex :=
  let epoch_id := sh_epoch_id (pkg_header package) in
  let summary_hash := hex_hash (sh_summary_hash (pkg_header package)) in
  check! match record index epoch_id target_domain with
         | Some existing => bool_decide (xr_summary_hash existing = summary_hash)
         | None => true
         end else SummaryAlreadyRecorded in
  let scale_path : PackageKey := (epoch_id, target_domain) in
  let manifest_path : PackageKey := (epoch_id, target_domain) in
  let scale_bytes := scale_encode package in
  do! current := gets (fun s => ex_scale s !! scale_path) in
  check! match current with Some current => bool_decide (current = scale_bytes) | None => true end
    else DifferentPackageBytes in
  do! _ := archive_phase_2a_package_files_if_needed epoch_id in
  do! manifest := lift (build_manifest package target_domain export_ids scale_path) in
  do! _ := modify (fun s => s {{ ex_scale ::= <[scale_path := scale_bytes]> }}) in
  do! _ := modify (fun s => s {{ ex_manifests ::= <[manifest_path := manifest]> }}) in
  let '(GrandpaV1 certificate) := pkg_certificate package in
  lift (mark_certified epoch_id target_domain (pkg_package_hash package) scale_path manifest_path
          (gfc_proof_block_number certificate) (gfc_proof_block_hash certificate)
          (Z.of_nat (length (pkg_inclusion_proofs package))) (mf_proof_kinds manifest) index).

Definition load_package (epoch_id : Z) (target_domain : DomainId)
    : ExporterM N (PackageManifest * CertifiedSummaryPackage) :=
  let manifest_path : PackageKey := (epoch_id, target_domain) in
  let scale_path : PackageKey := (epoch_id, target_domain) in
  do! manifest := gets (fun s => ex_manifests s !! manifest_path) in
  do! scale_bytes := gets (fun s => ex_scale s !! scale_path) in
  match manifest, scale_bytes with
  | Some manifest, Some scale_bytes =>
    match (scale_decode scale_bytes : option CertifiedSummaryPackage) with
    | Some package => ret (manifest, package)
    | None => fail PackageUndecodable
    end
  | _, _ => fail PackageUnreadable
  end.

(** What [show_package] prints of the proofs: the summary proof, and the proofs
    of each kind when all of them are of that kind. *)
Definition show_package_proofs (package : CertifiedSummaryPackage)
    : result ExporterError (SummaryHeaderStorageProof * list ExportInclusionProof
                            * list FinalizedImportInclusionProof * list GovernanceInclusionProof) :=
  let?? first := head (pkg_inclusion_proofs package) else SummaryProofMissing in
  let? summary_proof := decode_summary_header_storage_proof first in
  let items := tail (pkg_inclusion_proofs package) in
  let unwrap_or_default {A} (r : result ExporterError (list A)) := match r with Ok l => l | Err _ => [] end in
  Ok (summary_proof, unwrap_or_default (decode_export_proofs items),
      unwrap_or_default (decode_finalized_import_proofs items),
      unwrap_or_default (decode_governance_proofs items)).
End Store.

(** ** The node and the relay *)

(** Values in the storage of the node. *)
Class ExporterCodec := {
  scale_slot :: Scale SummarySlotRecord;
  scale_hashes :: Scale (list hash);
  scale_stored_export :: Scale ExportRecord;
  scale_stored_import :: Scale ObservedImportRecord;
  scale_stored_leaf :: Scale GovernanceLeaf
}.

(** The RPC methods the exporter calls, the relay's endpoint, the decoding of its
    receipts, and the clock. *)
Class ExporterEnv (N : Type) := {
  state_getStorage : bytes -> N -> N * result Text (option bytes);
  ialp_summary_certificationReadiness : Z -> N -> N * result Text SummaryCertificationReadiness;
  post_packages : bytes -> N -> N * PostResponse;
  receipt_from_slice : bytes -> option RelaySubmitReceipt;
  unix_now_millis : N -> N * result Text Z
}.

Section Node.
Context `{!Codec, !HexCodec, !ExporterCodec} {N : Type} `{!ExporterEnv N}.

Definition call {A} (f : N -> N * result Text A) (e : Text -> ExporterError) : ExporterM N A :=
  fun s => let '(n, res) := f (ex_node s) in
    (s {{ ex_node := n }}, match res with Ok a => Ok a | Err t => Err (e t) end).

Definition load_storage_value {T} `{!Scale T} (key : bytes) : ExporterM N (option T) :=
  do! response := call (state_getStorage ([48; 120] ++ hex_encode key)) NodeError in
  match response with
  | None => ret None
  | Some value =>
    match hex_decode (strip_0x value) with
    | None => fail (NodeError "failed to decode hex bytes")
    | Some raw =>
      match scale_decode raw with
      | Some v => ret (Some v)
      | None => fail (NodeError "scale decode failed")
      end
    end
  end.

Definition latest_summary_header_storage_key : bytes :=
  twox_128 (str_bytes "Epochs") ++ twox_128 (str_bytes "LatestSummaryHeader").
Definition summary_slot_storage_key (epoch_id : Z) : bytes :=
  twox_128 (str_bytes "Epochs") ++ twox_128 (str_bytes "SummarySlots")
  ++ blake2_128 (scale_encode epoch_id) ++ scale_encode epoch_id.

Definition summary_by_epoch (epoch_id : Z) : ExporterM N (option StagedSummaryView) :=
  do! header := load_storage_value (T := EpochSummaryHeader) (summary_header_storage_key epoch_id) in
  do! slot := load_storage_value (T := SummarySlotRecord) (summary_slot_storage_key epoch_id) in
  match header, slot with
  | Some header, Some slot =>
    match slot_staged_at_block_number slot with
    | Some staged => ret (Some (mkStagedSummaryView header staged))
    | None => fail (StagedBlockMissing epoch_id)
    end
  | None, None => ret None
  | _, _ => fail (HeaderSlotInconsistent epoch_id)
  end.

Definition latest_staged_summary : ExporterM N (option StagedSummaryView) :=
  do! header := load_storage_value (T := EpochSummaryHeader) latest_summary_header_storage_key in
  match header with
  | None => ret None
  | Some header => summary_by_epoch (sh_epoch_id header)
  end.

Definition certification_readiness (epoch_id : Z) : ExporterM N SummaryCertificationReadiness :=
  call (ialp_summary_certificationReadiness epoch_id) NodeError.

(** The loops of [epoch_exports], [epoch_finalized_imports] and
    [epoch_governance_leaves]. *)
Fixpoint load_each {T} (load : hash -> ExporterM N (option T)) (missing : hash -> ExporterError) (ids : list hash)
    : ExporterM N (list T) :=
  match ids with
  | [] => ret []
  | id :: ids =>
    do! found := load id in
    match found with
    | None => fail (missing id)
    | Some v => do! rest := load_each load missing ids in ret (v :: rest)
    end
  end.

Definition epoch_export_ids (epoch_id : Z) : ExporterM N (list hash) :=
  do! ids := load_storage_value (epoch_export_ids_storage_key epoch_id) in ret (default [] ids).
Definition export_record (export_id : hash) : ExporterM N (option ExportRecord) :=
  load_storage_value (export_record_storage_key export_id).
Definition epoch_exports (epoch_id : Z) : ExporterM N (list ExportRecord) :=
  do! export_ids := epoch_export_ids epoch_id in load_each export_record ExportRecordMissing export_ids.

Definition epoch_finalized_import_ids (epoch_id : Z) : ExporterM N (list hash) :=
  do! ids := load_storage_value (epoch_finalized_import_ids_storage_key epoch_id) in ret (default [] ids).
Definition observed_import (export_id : hash) : ExporterM N (option ObservedImportRecord) :=
  load_storage_value (observed_import_storage_key export_id).
Definition epoch_finalized_imports (epoch_id : Z) : ExporterM N (list ObservedImportRecord) :=
  do! export_ids := epoch_finalized_import_ids epoch_id in
  load_each observed_import ObservedImportMissing export_ids.

Definition epoch_governance_leaf_ids (epoch_id : Z) : ExporterM N (list hash) :=
  do! ids := load_storage_value (epoch_governance_leaf_ids_storage_key epoch_id) in ret (default [] ids).
Definition governance_leaf (leaf_hash : hash) : ExporterM N (option GovernanceLeaf) :=
  load_storage_value (governance_leaf_storage_key leaf_hash).
Definition epoch_governance_leaves (epoch_id : Z) : ExporterM N (list GovernanceLeaf) :=
  do! leaf_ids := epoch_governance_leaf_ids epoch_id in
  load_each governance_leaf GovernanceLeafMissing leaf_ids.

(** [StatusCode]: success, refusals that are worth another attempt. *)
Definition is_server_error (status : Z) : bool := (500 <=? status) && (status <? 600).
Definition TOO_MANY_REQUESTS : Z := 429.

Definition submission_result (response : PostResponse) : result RelaySubmitError RelaySubmitReceipt :=
  match response with
  | SendFailed t => Err (mkRelaySubmitError true (SendFailedText t))
  | Responded status (Err t) => Err (mkRelaySubmitError (is_server_error status) (BodyUnreadableText t))
  | Responded status (Ok body) =>
    if (status =? 200) || (status =? 202) then
      match receipt_from_slice body with
      | Some receipt => Ok receipt
      | None => Err (mkRelaySubmitError false ReceiptUndecodableText)
      end
    else
      let message := if utf8_valid body then RejectedText status body else RejectedHexText status (hex_encode body) in
      Err (mkRelaySubmitError (is_server_error status || (status =? TOO_MANY_REQUESTS)) message)
  end.

(** [RelayHttpClient::submit_package]. *)
Definition submit_package (envelope : RelayPackageEnvelopeV1)
    : ExporterM N (result RelaySubmitError RelaySubmitReceipt) :=
  fun s =>
    let '(n, response) := post_packages (scale_encode envelope) (ex_node s) in
    (s {{ ex_node := n }} {{ ex_sent ::= fun sent => sent ++ [(envelope, response)] }},
     Ok (submission_result response)).

Definition ensure_submission_succeeded (receipt : RelaySubmitReceipt) : result ExporterError unit :=
  ensure! rr_accepted receipt else NotAccepted (rr_state receipt) in Ok tt.
End Node.

(** ** Grouping by target *)

(** [grouped.entry(key).or_insert_with(Vec::new).push(leaf)], for each leaf. *)
Definition group_by {L} (key : L -> DomainId) (leaves : list L) : gmap DomainId (list L) :=
  foldl (fun grouped leaf => partial_alter (fun entry => Some (default [] entry ++ [leaf])) (key leaf) grouped)
    ∅ leaves.
Definition group_exports_by_target : list ExportLeaf -> gmap DomainId (list ExportLeaf) :=
  group_by el_target_domain.
Definition group_finalized_imports_by_source : list FinalizedImportLeaf -> gmap DomainId (list FinalizedImportLeaf) :=
  group_by fl_source_domain.
Definition group_governance_by_target : list GovernanceLeaf -> gmap DomainId (list GovernanceLeaf) :=
  group_by leaf_target_domain.

(** The entries of a [BTreeMap], in the order of the keys. *)
Definition btree_entries {A} (m : gmap DomainId A) : list (DomainId * A) :=
  omap (fun d => (fun a => (d, a)) <$> m !! d) [Earth; Moon; Mars].

Definition default_inputs : TargetPackageInputs := mkTargetPackageInputs [] [] [].

(** [grouped.entry(target_domain).or_insert_with(default).field = leaves], for each entry. *)
Definition set_each {L} (set : list L -> TargetPackageInputs -> TargetPackageInputs) (m : gmap DomainId (list L))
    (grouped : gmap DomainId TargetPackageInputs) : gmap DomainId TargetPackageInputs :=
  foldl (fun grouped '(target_domain, leaves) =>
    partial_alter (fun entry => Some (set leaves (default default_inputs entry))) target_domain grouped)
    grouped (btree_entries m).

Definition combine_target_inputs (exports : gmap DomainId (list ExportLeaf))
    (finalized_imports : gmap DomainId (list FinalizedImportLeaf)) (governance : gmap DomainId (list GovernanceLeaf))
    : gmap DomainId TargetPackageInputs :=
  set_each (fun leaves inputs => inputs {{ ti_governance_leaves := leaves }}) governance
    (set_each (fun leaves inputs => inputs {{ ti_finalized_import_leaves := leaves }}) finalized_imports
      (set_each (fun leaves inputs => inputs {{ ti_export_leaves := leaves }}) exports ∅)).

Definition collect_target_export_ids (inputs : TargetPackageInputs) : list hash :=
  dedup (sort_by bytes_cmp
    (map el_export_id (ti_export_leaves inputs) ++ map fl_export_id (ti_finalized_import_leaves inputs))).

(** [iter().map(f).collect::<Result<Vec<_>>>()]. *)
Fixpoint collect {E A B} (f : A -> result E B) (l : list A) : result E (list B) :=
  match l with
  | [] => Ok []
  | a :: l => let? b := f a in let? bs := collect f l in Ok (b :: bs)
  end.

Definition ok_or {E A} (o : option A) (e : E) : result E A :=
  match o with Some a => Ok a | None => Err e end.

(** ** Synchronisation *)
Section Sync.
Context `{!Codec, !HexCodec, !ExporterCodec} {N : Type} `{!ExporterEnv N} (domain_id : DomainId).
Implicit Types (index : ExporterIndex).

(** The package for one target: a proof for each of its leaves. *)
Definition target_package (header : EpochSummaryHeader) (bundle : SummaryCertificationBundle)
    (leaves : list ExportLeaf) (finalized_imports : list FinalizedImportLeaf) (governance_leaves : list GovernanceLeaf)
    (inputs : TargetPackageInputs) : result ExporterError CertifiedSummaryPackage :=
  let? export_proofs := collect (fun leaf =>
    ok_or (build_export_inclusion_proof leaves (el_export_id leaf)) (ExportProofMissing (el_export_id leaf)))
    (ti_export_leaves inputs) in
  let? import_proofs := collect (fun leaf =>
    ok_or (build_finalized_import_inclusion_proof finalized_imports (fl_export_id leaf))
      (ImportProofMissing (fl_export_id leaf)))
    (ti_finalized_import_leaves inputs) in
  let? governance_proofs := collect (fun leaf =>
    ok_or (build_governance_inclusion_proof governance_leaves (leaf_hash leaf)) (GovernanceProofMissing (leaf_hash leaf)))
    (ti_governance_leaves inputs) in
  let package := from_bundle_with_mixed_proofs header bundle export_proofs import_proofs governance_proofs in
  ensure! bool_decide (pkg_inclusion_proofs package <> []) && bool_decide (pkg_artifacts package = [])
    else PackageLayoutInvalid in
  Ok package.

Fixpoint persist_targets (header : EpochSummaryHeader) (bundle : SummaryCertificationBundle)
    (leaves : list ExportLeaf) (finalized_imports : list FinalizedImportLeaf) (governance_leaves : list GovernanceLeaf)
    (targets : list (DomainId * TargetPackageInputs)) index : ExporterM N ExporterIndex :=
  match targets with
  | [] => ret index
  | (target_domain, inputs) :: targets =>
    let export_ids := collect_target_export_ids inputs in
    do! package := lift (target_package header bundle leaves finalized_imports governance_leaves inputs) in
    do! index := persist_package domain_id index target_domain export_ids package in
    persist_targets header bundle leaves finalized_imports governance_leaves targets index
  end.

Definition upsert_targets (epoch_id : Z) (staged : StagedSummaryView) (readiness : SummaryCertificationReadiness)
    (targets : list (DomainId * TargetPackageInputs)) index : ExporterIndex :=
  let pending_reason := match scr_state readiness with Pending reason => Some reason | Ready _ => None end in
  foldl (fun index '(target_domain, inputs) =>
    upsert_pending epoch_id target_domain (sh_summary_hash (ss_header staged)) (ss_staged_at_block_number staged)
      (scr_staged_at_block_hash readiness) (collect_target_export_ids inputs) pending_reason index)
    index targets.

(** One iteration of the loop of [sync_once] over the epochs. *)
Definition sync_epoch index (epoch_id : Z) : ExporterM N ExporterIndex :=
  do! staged := summary_by_epoch epoch_id in
  match staged with
  | None => ret index
  | Some staged =>
    let header := ss_header staged in
    do! readiness := certification_readiness epoch_id in
    do! exports := epoch_exports epoch_id in
    let leaves := map er_leaf exports in
    check! bool_decide (export_merkle_root (sh_domain_id header) (sh_epoch_id header) (sh_start_block_height header)
                          (sh_end_block_height header) leaves = sh_export_root header)
      else ExportRootMismatch epoch_id in
    let leaves := sort_export_leaves leaves in
    let grouped := group_exports_by_target leaves in
    do! imports := epoch_finalized_imports epoch_id in
    let finalized_imports := omap finalized_leaf imports in
    check! bool_decide (import_merkle_root (sh_domain_id header) (sh_epoch_id header) (sh_start_block_height header)
                          (sh_end_block_height header) finalized_imports = sh_import_root header)
      else ImportRootMismatch epoch_id in
    let finalized_imports := sort_finalized_import_leaves finalized_imports in
    let grouped_finalized_imports := group_finalized_imports_by_source finalized_imports in
    do! governance_leaves := epoch_governance_leaves epoch_id in
    check! bool_decide (governance_merkle_root (sh_domain_id header) (sh_epoch_id header) (sh_start_block_height header)
                          (sh_end_block_height header) governance_leaves = sh_governance_root header)
      else GovernanceRootMismatch epoch_id in
    let governance_leaves := sort_governance_leaves governance_leaves in
    let grouped_governance := group_governance_by_target governance_leaves in
    let grouped_targets := btree_entries (combine_target_inputs grouped grouped_finalized_imports grouped_governance) in
    let index := upsert_targets epoch_id staged readiness grouped_targets index in
    match scr_state readiness with
    | Pending _ => ret index
    | Ready bundle => persist_targets header bundle leaves finalized_imports governance_leaves grouped_targets index
    end
  end.

Fixpoint sync_epochs (epochs : list Z) index : ExporterM N ExporterIndex :=
  match epochs with
  | [] => ret index
  | epoch_id :: epochs => do! index := sync_epoch index epoch_id in sync_epochs epochs index
  end.

(** The envelope of a stored package. *)
Definition relay_envelope (package : CertifiedSummaryPackage) (target_domain : DomainId) (now : Z)
    : result ExporterError RelayPackageEnvelopeV1 :=
  let count := sat_sub (Z.of_nat (length (pkg_inclusion_proofs package))) 1 in
  ensure! count <=? u32_max else ProofCountTooLarge in
  Ok (new_envelope (sh_domain_id (pkg_header package)) target_domain (sh_epoch_id (pkg_header package))
        (sh_summary_hash (pkg_header package)) (pkg_package_hash package) (scale_encode package) count now).

(** One iteration of the loop of [submit_certified_packages_to_relay]. *)
Definition submit_record (r : PackageRecord) index : ExporterM N ExporterIndex :=
  do! now := call unix_now_millis ClockError in
  do! loaded := load_package (xr_epoch_id r) (xr_target_domain r) in
  let '(_, package) := loaded in
  do! envelope := lift (relay_envelope package (xr_target_domain r) now) in
  do! answer := submit_package envelope in
  match answer with
  | Ok receipt =>
    do! _ := lift (ensure_submission_succeeded receipt) in
    ret (mark_relay_submitted (xr_epoch_id r) (xr_target_domain r) now index)
  | Err error =>
    ret (mark_relay_submission_error (xr_epoch_id r) (xr_target_domain r) now (se_retryable error)
           (se_message error) index)
  end.

Fixpoint submit_records (records : list PackageRecord) index : ExporterM N ExporterIndex :=
  match records with
  | [] => ret index
  | r :: records => do! index := submit_record r index in submit_records records index
  end.

Definition to_submit (r : PackageRecord) : bool :=
  bool_decide (xr_status r = Certified) && bool_decide (xr_relay_submission_state r <> Submitted).

Definition submit_certified_packages_to_relay index : ExporterM N ExporterIndex :=
  submit_records (List.filter to_submit (xi_packages index)) index.

Definition sync_once : ExporterM N unit :=
  do! latest_staged := latest_staged_summary in
  do! index := load_index domain_id in
  let index := index {{ xi_latest_staged_epoch := (fun staged => sh_epoch_id (ss_header staged)) <$> latest_staged }} in
  match latest_staged with
  | None => save_index domain_id index
  | Some latest_staged =>
    do! index := sync_epochs (seqZ 0 (sh_epoch_id (ss_header latest_staged) + 1)) index in
    do! index := submit_certified_packages_to_relay index in
    save_index domain_id index
  end.
End Sync.
