(* ===== verification/Services.v ===== *)
(** * How the services are put together

    The settings that the relay, the importers and the exporters load
    ([RelaySettings], [ImporterSettings] and [ExporterSettings] of
    [services/*/src/lib.rs], [load_domain_config] and [load_transport_config] of
    [crates/common-config]), their commands, and the loop of the exporter.  Reading
    a file is a handler of the surrounding state and TOML is a library, so both are
    parameters.  Services that are started with one transport configuration reach
    each other. *)

From S2P Require Import Prelude Types Effects Codec Merkle Config Frame Runtime Verify Relay Importer Exporter.

(** ** Texts *)

(** [u64::to_string]; a [u128] has at most 39 digits. *)
Fixpoint decimal_go (fuel : nat) (n : Z) (acc : bytes) : bytes :=
  match fuel with
  | O => acc
  | S fuel =>
    let acc := 48 + n mod 10 :: acc in
    if n <? 10 then acc else decimal_go fuel (n / 10) acc
  end.
Definition decimal (n : Z) : bytes := decimal_go 39 n [].

(** [Path::join]: an absolute path replaces the first one. *)
Definition join (a b : bytes) : bytes :=
  if bool_decide (head b = Some 47) || bool_decide (a = []) then b
  else if bool_decide (last a = Some 47) then a ++ b
  else a ++ [47] ++ b.

Definition domain_text (d : DomainId) : bytes := str_bytes (domain_as_str d).

(** ** Loading configurations *)

Class Toml := {
  domain_from_toml : bytes -> option DomainConfig;
  domain_to_toml : DomainConfig -> bytes;
  transport_from_toml : bytes -> option TransportConfig;
  transport_to_toml : TransportConfig -> bytes
}.

Inductive LoadError : Type :=
| ReadFailed (path : bytes)
| ParseFailed (path : bytes)
| Validation (e : ConfigError)
| EndpointMissing (domain : DomainId).

Record LoadedDomainConfig : Type := mkLoadedDomainConfig { ld_source : bytes; ld_config : DomainConfig }.
Record LoadedTransportConfig : Type := mkLoadedTransportConfig { lt_source : bytes; lt_config : TransportConfig }.

Definition default_config_path (domain : DomainId) : bytes :=
  join (str_bytes "config/domains") (domain_text domain ++ str_bytes ".toml").
Definition default_transport_config_path : bytes := str_bytes "config/transport/local.toml".

Section Load.
Context `{!Toml} {Multiaddr : Type} (multiaddr_from_str : bytes -> option Multiaddr) (has_p2p : Multiaddr -> bool).
Context {S : Type} (read_to_string : bytes -> M S LoadError bytes).

Definition load_domain_config (domain : DomainId) (path_override : option bytes) : M S LoadError LoadedDomainConfig :=
  let path := default (default_config_path domain) path_override in
  do! contents := read_to_string path in
  match domain_from_toml contents with
  | None => fail (ParseFailed path)
  | Some config =>
    do! _ := map_err Validation (lift (validate_domain_config multiaddr_from_str has_p2p config domain)) in
    ret (mkLoadedDomainConfig path config)
  end.

Definition load_transport_config (path_override : option bytes) : M S LoadError LoadedTransportConfig :=
  let path := default default_transport_config_path path_override in
  do! contents := read_to_string path in
  match transport_from_toml contents with
  | None => fail (ParseFailed path)
  | Some config =>
    do! _ := map_err Validation (lift (validate_transport_config config)) in
    ret (mkLoadedTransportConfig path config)
  end.

(** ** Settings *)

Record RelaySettings : Type := mkRelaySettings {
  rs_listen_addr : bytes;
  rs_store_dir : bytes;
  rs_scheduler_tick_millis : Z;
  rs_ack_poll_millis : Z;
  rs_transport : TransportConfig
}.

Definition load_relay_settings (path : option bytes) : M S LoadError RelaySettings :=
  do! loaded := load_transport_config path in
  let relay := tc_relay (lt_config loaded) in
  ret {| rs_listen_addr := rt_listen_addr relay;
         rs_store_dir := rt_store_dir relay;
         rs_scheduler_tick_millis := rt_scheduler_tick_millis relay;
         rs_ack_poll_millis := rt_ack_poll_millis relay;
         rs_transport := lt_config loaded |}.

Record ImporterSettings : Type := mkImporterSettings {
  is_domain : DomainId;
  is_node_url : bytes;
  is_listen_addr : option bytes;
  is_store_dir : bytes;
  is_submitter_suri : option bytes
}.

Definition local_node_url (config : DomainConfig) : bytes :=
  str_bytes "ws://127.0.0.1:" ++ decimal (net_rpc_port (dc_network config)).

Definition load_importer_settings (domain : DomainId) (node_url store_dir transport_config submitter_suri : option bytes)
    : M S LoadError ImporterSettings :=
  do! loaded := load_domain_config domain None in
  let node_url := default (local_node_url (ld_config loaded)) node_url in
  let store_dir := default (join (str_bytes "var/importer") (domain_text domain)) store_dir in
  do! listen_addr := match transport_config with
    | None => ret None
    | Some path =>
      do! transport := load_transport_config (Some path) in
      match tc_importers (lt_config transport) !! domain with
      | Some config => ret (Some (it_listen_addr config))
      | None => fail (EndpointMissing domain)
      end
    end in
  ret {| is_domain := domain; is_node_url := node_url; is_listen_addr := listen_addr;
         is_store_dir := store_dir; is_submitter_suri := submitter_suri |}.

Record ExporterSettings : Type := mkExporterSettings {
  xs_domain : DomainId;
  xs_node_url : bytes;
  xs_relay_url : bytes;
  xs_store_dir : bytes
}.

Definition load_exporter_settings (domain : DomainId) (config transport_config node_url relay_url store_dir : option bytes)
    : M S LoadError ExporterSettings :=
  do! loaded := load_domain_config domain config in
  do! loaded_transport := load_transport_config transport_config in
  ret {| xs_domain := domain;
         xs_node_url := default (local_node_url (ld_config loaded)) node_url;
         xs_relay_url := default (str_bytes "http://" ++ rt_listen_addr (tc_relay (lt_config loaded_transport))) relay_url;
         xs_store_dir := default (join (str_bytes "var/exporter") (domain_text domain)) store_dir |}.

(** Where the relay delivers. *)
Definition importer_base_url (transport : TransportConfig) (target_domain : DomainId) : result LoadError bytes :=
  let?? importer := tc_importers transport !! target_domain else EndpointMissing target_domain in
  Ok (str_bytes "http://" ++ it_listen_addr importer).
End Load.

(** ** Commands of the relay *)

Definition relay_state_name (state : RelayQueueState) : string :=
  match state with
  | Queued => "queued"
  | Scheduled' => "scheduled"
  | BlockedByBlackout => "blocked_by_blackout"
  | InDelivery => "in_delivery"
  | Delivered => "delivered"
  | ImporterAcked => "importer_acked"
  | Retrying => "retrying"
  | Failed => "failed"
  end.

Definition matches {A} `{!EqDecision A} (filter : option A) (a : A) : bool :=
  match filter with Some f => bool_decide (f = a) | None => true end.

Definition relay_show_status `{!Codec, !HexCodec} (source_domain target_domain : option DomainId) (state : option string)
    (r : Relay) : result RelayError (list RelayPackageRecord) :=
  let? index := Relay.load_index r in
  Ok (List.filter (fun record => matches source_domain (rp_source_domain record)
                                 && matches target_domain (rp_target_domain record)
                                 && matches state (relay_state_name (rp_state record))) (ri_packages index)).

(** [None]: the command ends with an error, as in [importer_show_record]. *)
Definition relay_show_entry `{!Codec, !HexCodec} (source_domain target_domain : DomainId) (epoch : Z) (package_hash : bytes)
    (r : Relay) : result RelayError (option RelayPackageRecord) :=
  let? index := Relay.load_index r in
  let? package_hash := Relay.decode_hex_hash package_hash in
  Ok (index_record index source_domain target_domain epoch package_hash).

(** ** Commands of the importer *)
Section ImporterCommands.
Context `{!HexCodec} {N : Type} (domain : DomainId).

Definition parse_export_id_hex (value : bytes) : result ImporterError hash :=
  let?? bs := hex_decode (strip_0x value) else Importer.HashTextInvalid in
  ensure! (length bs =? 32)%nat else Importer.HashTextInvalid in
  Ok bs.

(** One record, or the packages and the records of the index. *)
Definition importer_show_status (export_id : option bytes)
    : ImporterM N (option ImportRecord + list Importer.PackageRecord * list ImportRecord) :=
  do! index := Importer.load_index domain in
  match export_id with
  | Some export_id =>
    do! export_id := lift (parse_export_id_hex export_id) in
    ret (inl (Importer.record index export_id))
  | None => ret (inr (ii_packages index, ii_imports index))
  end.

Definition importer_show_record (export_id : bytes) : ImporterM N (option ImportRecord) :=
  do! export_id := lift (parse_export_id_hex export_id) in
  load_record export_id.
End ImporterCommands.

(** ** Commands of the exporter *)
Section ExporterCommands.
Context `{!Codec, !HexCodec, !ExporterCodec} {N : Type} `{!ExporterEnv N} (domain : DomainId).

Inductive StatusView : Type :=
| EpochStatus (staged : option StagedSummaryView) (readiness : option SummaryCertificationReadiness)
    (packages : list Exporter.PackageRecord)
| LatestStatus (latest_staged : option StagedSummaryView) (latest_staged_readiness : option SummaryCertificationReadiness)
    (latest_certified : option Exporter.PackageRecord) (index : ExporterIndex).

(** The readiness of a staged summary, if there is one. *)
Definition readiness_of (staged : option StagedSummaryView) (epoch_id : Z)
    : ExporterM N (option SummaryCertificationReadiness) :=
  match staged with
  | Some _ => do! readiness := Exporter.certification_readiness epoch_id in ret (Some readiness)
  | None => ret None
  end.

Definition exporter_show_status (epoch : option Z) (target_domain : option DomainId) : ExporterM N StatusView :=
  do! index := Exporter.load_index domain in
  do! latest_staged := latest_staged_summary in
  let latest_certified := latest_certified_record index in
  match epoch with
  | Some epoch_id =>
    do! staged := summary_by_epoch epoch_id in
    do! readiness := readiness_of staged epoch_id in
    let records := match target_domain with
      | Some target_domain => option_list (Exporter.record index epoch_id target_domain)
      | None => records_for_epoch index epoch_id
      end in
    ret (EpochStatus staged readiness records)
  | None =>
    do! latest_readiness := match latest_staged with
      | Some staged => readiness_of (Some staged) (sh_epoch_id (ss_header staged))
      | None => ret None
      end in
    ret (LatestStatus latest_staged latest_readiness latest_certified index)
  end.

Definition exporter_show_package (epoch : Z) (target_domain : DomainId)
    : ExporterM N (PackageManifest * (SummaryHeaderStorageProof * list ExportInclusionProof
                                      * list FinalizedImportInclusionProof * list GovernanceInclusionProof)) :=
  do! loaded := Exporter.load_package epoch target_domain in
  do! proofs := lift (show_package_proofs (snd loaded)) in
  ret (fst loaded, proofs).

(** [run_exporter]: a synchronisation, then one for every finalized head of the
    subscription, up to its end or its error. *)
Fixpoint follow_heads (heads : list (result Exporter.Text unit)) : ExporterM N unit :=
  match heads with
  | [] => ret tt
  | Err t :: _ => fail (Exporter.NodeError t)
  | Ok _ :: heads => do! _ := sync_once domain in follow_heads heads
  end.
Definition run_exporter (heads : list (result Exporter.Text unit)) : ExporterM N unit :=
  do! _ := sync_once domain in
  follow_heads heads.
End ExporterCommands.

(** ** Reaching each other *)
Section Connected.
Context `{!Toml} {Multiaddr : Type} (multiaddr_from_str : bytes -> option Multiaddr) (has_p2p : Multiaddr -> bool).
Context {S : Type} (read_to_string : bytes -> M S LoadError bytes).
Context (path : bytes) (contents : bytes) (config : TransportConfig).
(** The file at [path], whenever it is read. *)
Context (Hread : forall s, exists s', read_to_string path s = (s', Ok contents)).
Context (Hparse : transport_from_toml contents = Some config).

Lemma load_transport_inv s s' loaded :
  load_transport_config read_to_string (Some path) s = (s', Ok loaded) ->
  lt_config loaded = config /\ validate_transport_config config = Ok tt.
Proof.
  destruct (Hread s) as [s1 E]. unfold load_transport_config, bind. simpl. rewrite E, Hparse. unfold map_err, lift.
  destruct (validate_transport_config config) as [[]|]; [|done]. intros [= _ <-]. done.
Qed.

Lemma relay_settings_inv s s' rs :
  load_relay_settings read_to_string (Some path) s = (s', Ok rs) ->
  rs_transport rs = config /\ rs_listen_addr rs = rt_listen_addr (tc_relay config) /\
  validate_transport_config config = Ok tt.
Proof.
  unfold load_relay_settings. unfold bind at 1.
  destruct (load_transport_config _ _ s) as [s1 [loaded|]] eqn:E; [|done].
  apply load_transport_inv in E as [<- Hv]. intros [= _ <-]. done.
Qed.

Lemma importer_settings_inv d node_url store_dir suri s s' settings :
  load_importer_settings multiaddr_from_str has_p2p read_to_string d node_url store_dir (Some path) suri s
    = (s', Ok settings) ->
  exists i, tc_importers config !! d = Some i /\ is_listen_addr settings = Some (it_listen_addr i).
Proof.
  unfold load_importer_settings. unfold bind at 1. destruct (load_domain_config _ _ _ d None s) as [s1 [loaded|]]; [|done].
  cbv zeta. unfold bind at 1. unfold bind at 1.
  destruct (load_transport_config _ _ s1) as [s2 [transport|]] eqn:E; [|done].
  apply load_transport_inv in E as [-> _]. destruct (tc_importers config !! d) as [i|]; [|done].
  intros [= _ <-]. by exists i.
Qed.

(** Services of one transport configuration reach each other.  The relay, an
    exporter without a relay address of its own and the importers that load the
    file at [path]: the exporter submits to the address the relay listens on, and
    the relay delivers the packages of a domain to the address that this domain's
    importer listens on, and no other domain's. *)
Theorem services_connect s1 s2 s3 s1' s2' s3' rs xs is_ d d' domain_config node_url xstore node_url' istore suri :
  load_relay_settings read_to_string (Some path) s1 = (s1', Ok rs) ->
  load_exporter_settings multiaddr_from_str has_p2p read_to_string d domain_config (Some path) node_url None xstore s2
    = (s2', Ok xs) ->
  load_importer_settings multiaddr_from_str has_p2p read_to_string d' node_url' istore (Some path) suri s3
    = (s3', Ok is_) ->
  xs_relay_url xs = str_bytes "http://" ++ rs_listen_addr rs /\
  exists addr, is_listen_addr is_ = Some addr /\
    forall t, importer_base_url (rs_transport rs) t = Ok (str_bytes "http://" ++ addr) <-> t = d'.
Proof.
  intros (-> & -> & Hv)%relay_settings_inv Hx (i & Hi & ->)%importer_settings_inv. split.
  - revert Hx. unfold load_exporter_settings. unfold bind at 1.
    destruct (load_domain_config _ _ _ d _ s2) as [s4 [loaded|]]; [|done]. unfold bind.
    destruct (load_transport_config _ _ s4) as [s5 [transport|]] eqn:E; [|done].
    apply load_transport_inv in E as [-> _]. intros [= _ <-]. done.
  - exists (it_listen_addr i). split; [done|]. intros t. unfold importer_base_url. split; [|intros ->; by rewrite Hi].
    destruct (tc_importers config !! t) as [j|] eqn:Hj; [|done]. simpl. intros [= E].
    by eapply validated_addresses_distinct.
Qed.
End Connected.
