(* ===== verification/ChainSpec.v ===== *)
(** * From a configuration to a chain ([chain/node/src/chain_spec.rs], [command.rs])

    The chain specification of a domain: the keys and accounts derived from the
    configured seeds, the endowed accounts, the genesis of the pallets, and the
    JSON form in which the chain identity reaches the runtime
    ([ChainIdentitySerde] of [crates/common-types]).  The theorem: a configuration
    that validates starts a chain of its domain, to which everything that is proved
    of chains applies, and whose GRANDPA authorities are the ones that the importers
    of the other domains derive from the same configuration.  Deriving keys, the
    JSON files of ready-made specifications and the runtime's WASM are parameters. *)

From S2P Require Import Prelude Types Effects Codec Reference Merkle Config Frame Domain Epochs Transfers TransfersProofs Governance Runtime RuntimeProofs Verify Relay Importer ImporterProofs CrossChain NetworkExample Exporter Services.

(** ** The identity in JSON *)

Record ChainIdentitySerde : Type := mkChainIdentitySerde {
  cis_domain_id : DomainId;
  cis_chain_id : bytes;
  cis_chain_name : bytes;
  cis_token_symbol : bytes;
  cis_token_decimals : Z
}.

Definition serialize_identity (id : ChainIdentity) : result string ChainIdentitySerde :=
  let? chain_id := encode_fixed_utf8 (ci_chain_id id) in
  let? chain_name := encode_fixed_utf8 (ci_chain_name id) in
  let? token_symbol := encode_fixed_utf8 (ci_token_symbol id) in
  Ok (mkChainIdentitySerde (ci_domain_id id) chain_id chain_name token_symbol (ci_token_decimals id)).

(** [decode_fixed_utf8] checks the length, so [fixed_bytes] does not panic. *)
Definition decode_field (N : nat) (value : bytes) : result string bytes :=
  let? field := decode_fixed_utf8 N value in
  let?? field := field else "unreachable"%string in
  Ok field.
Definition deserialize_identity (value : ChainIdentitySerde) : result string ChainIdentity :=
  let? chain_id := decode_field CHAIN_ID_BYTES (cis_chain_id value) in
  let? chain_name := decode_field CHAIN_NAME_BYTES (cis_chain_name value) in
  let? token_symbol := decode_field TOKEN_SYMBOL_BYTES (cis_token_symbol value) in
  Ok {| ci_domain_id := cis_domain_id value; ci_chain_id := chain_id; ci_chain_name := chain_name;
        ci_token_symbol := token_symbol; ci_token_decimals := cis_token_decimals value |}.

(** ** The specification *)

Definition MILLI_SECS_PER_BLOCK : Z := 6000.

(** Keys from seeds: an account's, and one of Aura. *)
Class Seeds `{!Account} := {
  account_of_seed : bytes -> option AccountId;
  aura_of_seed : bytes -> option bytes
}.

(** [SpecPanic]: a seed that [expect] refuses, or a text that does not fit. *)
Inductive SpecError : Type :=
| ConfigFailed (e : LoadError)
| EpochLengthFailed (e : ConfigError)
| SpecPanic
| WasmUnavailable
| DomainRequired
| SpecFileFailed.

Section Spec.
Context `{!Account, !Seeds, !LightClient}.

Record GenesisPatch : Type := mkGenesisPatch {
  gn_balances : list (AccountId * Z);
  gn_aura_authorities : list bytes;
  gn_grandpa_authorities : list (bytes * Z);
  gn_sudo_key : AccountId;
  gn_chain_identity : ChainIdentitySerde;
  gn_epoch_length_blocks : Z;
  gn_importer_account : AccountId;
  gn_protocol_version : Z;
  gn_governance_voters : list AccountId
}.

Definition get_account_id_from_seed (seed : bytes) : result SpecError AccountId :=
  let?? account := account_of_seed seed else SpecPanic in Ok account.

(** [f] of each element, in order, up to the first panic. *)
Fixpoint each {A C} (f : A -> result SpecError C) (l : list A) : result SpecError (list C) :=
  match l with
  | [] => Ok []
  | a :: l => let? c := f a in let? cs := each f l in Ok (c :: cs)
  end.

Definition authority_keys (authority : AuthorityConfig) : result SpecError (bytes * bytes) :=
  let?? aura := aura_of_seed (au_aura_seed authority) else SpecPanic in
  let?? grandpa := get_from_seed (au_grandpa_seed authority) else SpecPanic in
  Ok (aura, grandpa).

Definition genesis_patch (config : DomainConfig) : result SpecError GenesisPatch :=
  let bootstrap := dc_bootstrap config in
  match epoch_length_blocks config MILLI_SECS_PER_BLOCK with
  | Err e => Err (EpochLengthFailed e)
  | Ok epoch_length =>
    let?? identity := build_chain_identity config else SpecPanic in
    let? initial_authorities := each authority_keys (dc_authorities config) in
    let? root_key := get_account_id_from_seed (bs_sudo_account_seed bootstrap) in
    let? importer_account := get_account_id_from_seed (bs_importer_account_seed bootstrap) in
    let? endowed := each get_account_id_from_seed (bs_endowed_accounts bootstrap) in
    let? authority_accounts := each (fun a => get_account_id_from_seed (au_account_seed a)) (dc_authorities config) in
    let endowed_accounts := genesis_endowed_accounts endowed authority_accounts importer_account in
    match serialize_identity identity with
    | Err _ => Err SpecPanic
    | Ok chain_identity =>
      Ok {| gn_balances := endowed_accounts;
            gn_aura_authorities := map fst initial_authorities;
            gn_grandpa_authorities := map (fun k => (snd k, 1)) initial_authorities;
            gn_sudo_key := root_key;
            gn_chain_identity := chain_identity;
            gn_epoch_length_blocks := epoch_length;
            gn_importer_account := importer_account;
            gn_protocol_version := 1;
            gn_governance_voters := map fst endowed_accounts |}
    end
  end.

(** [BuildGenesisConfig] of the runtime: the identity is read from its JSON form. *)
Definition build_genesis {B} (balances_genesis : list (AccountId * Z) -> B) (patch : GenesisPatch) : result string (Chain B) :=
  let? identity := deserialize_identity (gn_chain_identity patch) in
  Ok (mkChain
    (mkWorld 0 (gn_grandpa_authorities patch) (balances_genesis (gn_balances patch)) (domain_genesis identity)
       (transfers_genesis (Some (gn_importer_account patch)))
       (governance_genesis (gn_protocol_version patch) (Some (gn_importer_account patch)) (gn_governance_voters patch)))
    (epochs_genesis (gn_epoch_length_blocks patch))).

(** A specification made here, or one from a file. *)
Record ChainSpec : Type := mkChainSpec {
  cs_name : bytes;
  cs_id : bytes;
  cs_chain_type : DomainChainType;
  cs_token_decimals : Z;
  cs_token_symbol : bytes;
  cs_domain : bytes;
  cs_genesis : GenesisPatch
}.

Context `{!Toml} {Multiaddr : Type} (multiaddr_from_str : bytes -> option Multiaddr) (has_p2p : Multiaddr -> bool).
Context {S : Type} (read_to_string : bytes -> M S LoadError bytes).
Context (wasm_binary : option bytes) {F : Type} (spec_from_json_file : bytes -> M S SpecError F).

Definition load_domain_chain_spec (domain : DomainId) (path_override : option bytes) : M S SpecError ChainSpec :=
  do! loaded := map_err ConfigFailed (load_domain_config multiaddr_from_str has_p2p read_to_string domain path_override) in
  let config := ld_config loaded in
  match wasm_binary with
  | None => fail WasmUnavailable
  | Some _ =>
    do! genesis := lift (genesis_patch config) in
    ret {| cs_name := dc_chain_name config; cs_id := dc_chain_id config; cs_chain_type := dc_chain_type config;
           cs_token_decimals := tok_decimals (dc_token config); cs_token_symbol := tok_symbol (dc_token config);
           cs_domain := domain_text (dc_domain_id config); cs_genesis := genesis |}
  end.

Definition domain_config_for_cli (domain : DomainId) (path_override : option bytes) : M S SpecError LoadedDomainConfig :=
  map_err ConfigFailed (load_domain_config multiaddr_from_str has_p2p read_to_string domain path_override).

(** [SubstrateCli::load_spec], with the arguments [--domain] and [--config]. *)
Definition load_spec (cli_domain : option DomainId) (cli_config : option bytes) (id : string) : M S SpecError (ChainSpec + F) :=
  let from_id :=
    match domain_from_str id with
    | Ok domain => do! spec := load_domain_chain_spec domain None in ret (inl spec)
    | Err _ => do! spec := spec_from_json_file (str_bytes id) in ret (inr spec)
    end in
  match cli_domain with
  | Some domain =>
    if bool_decide (id = ""%string) || bool_decide (id = "dev"%string) || bool_decide (id = "local"%string)
    then do! spec := load_domain_chain_spec domain cli_config in ret (inl spec)
    else from_id
  | None => from_id
  end.

Definition require_domain (cli_domain : option DomainId) : M S SpecError DomainId :=
  match cli_domain with Some domain => ret domain | None => fail DomainRequired end.

(** [run] without a subcommand, up to the node service: [create_runner] loads the
    specification. *)
Definition start_node (cli_domain : option DomainId) (cli_config : option bytes) (id : string)
    : M S SpecError (LoadedDomainConfig * (ChainSpec + F)) :=
  do! domain := require_domain cli_domain in
  do! loaded := domain_config_for_cli domain cli_config in
  do! spec := load_spec cli_domain cli_config id in
  ret (loaded, spec).

(** The domain of the command line decides for the names that Substrate gives the
    chain by default; the name of a domain as [--chain] decides against it. *)
Lemma load_spec_default domain cli_config id :
  id = ""%string \/ id = "dev"%string \/ id = "local"%string ->
  load_spec (Some domain) cli_config id = (do! spec := load_domain_chain_spec domain cli_config in ret (inl spec)).
Proof. by intros [->|[->| ->]]. Qed.
Lemma load_spec_named cli_domain cli_config domain :
  load_spec cli_domain cli_config (domain_as_str domain) = (do! spec := load_domain_chain_spec domain None in ret (inl spec)).
Proof. by destruct cli_domain, domain. Qed.
End Spec.

(** ** The chain of a configuration *)
Section Starts.
Context `{!Codec, !Account, !AccountOk, !Seeds, !LightClient, !Currency B, !CurrencyOk B}.
Context {Multiaddr : Type} (multiaddr_from_str : bytes -> option Multiaddr) (has_p2p : Multiaddr -> bool).

(** A field survives JSON when its text does. *)
Lemma field_roundtrip N value field :
  fixed_bytes N value = Some field -> encode_fixed_utf8 field = Ok value -> decode_field N value = Ok field.
Proof.
  unfold decode_field, decode_fixed_utf8. intros E _. rewrite E. unfold fixed_bytes in E.
  destruct (length value <=? N)%nat eqn:El; [|done]. apply Nat.leb_le in El. by rewrite (proj2 (Nat.ltb_ge _ _)) by lia.
Qed.

(** The texts of a configuration: UTF-8, as every [String], and without zero bytes. *)
Definition texts_ok (config : DomainConfig) : Prop :=
  Forall (fun text => (0 ∉ text) /\ utf8_valid text = true)
    [dc_chain_id config; dc_chain_name config; tok_symbol (dc_token config)].
Definition authority_seeds_ok (a : AuthorityConfig) : Prop :=
  is_Some (account_of_seed (au_account_seed a)) /\ is_Some (aura_of_seed (au_aura_seed a)) /\
  is_Some (get_from_seed (au_grandpa_seed a)).
Definition seeds_ok (config : DomainConfig) : Prop :=
  is_Some (account_of_seed (bs_sudo_account_seed (dc_bootstrap config))) /\
  is_Some (account_of_seed (bs_importer_account_seed (dc_bootstrap config))) /\
  Forall (fun seed => is_Some (account_of_seed seed)) (bs_endowed_accounts (dc_bootstrap config)) /\
  Forall authority_seeds_ok (dc_authorities config).

Lemma identity_roundtrip config identity :
  build_chain_identity config = Some identity -> texts_ok config ->
  exists value, serialize_identity identity = Ok value /\ deserialize_identity value = Ok identity.
Proof.
  unfold build_chain_identity, texts_ok. intros E Ht.
  apply Forall_cons in Ht as [[A1 A2] Ht]. apply Forall_cons in Ht as [[B1 B2] Ht]. apply Forall_cons in Ht as [[C1 C2] _].
  destruct (fixed_bytes CHAIN_ID_BYTES _) as [f1|] eqn:E1; [|done].
  destruct (fixed_bytes CHAIN_NAME_BYTES _) as [f2|] eqn:E2; [|done].
  destruct (fixed_bytes TOKEN_SYMBOL_BYTES _) as [f3|] eqn:E3; [|done]. injection E as <-.
  assert (forall N text f, fixed_bytes N text = Some f -> 0 ∉ text -> utf8_valid text = true ->
    encode_fixed_utf8 f = Ok text) as Hread.
  { intros N text f Ef Hz Hu. unfold fixed_bytes in Ef. destruct (_ <=? _)%nat; [|done]. injection Ef as <-.
    unfold encode_fixed_utf8. by rewrite until_zero_padded, Hu. }
  pose proof (Hread _ _ _ E1 A1 A2) as R1. pose proof (Hread _ _ _ E2 B1 B2) as R2. pose proof (Hread _ _ _ E3 C1 C2) as R3.
  eexists. unfold serialize_identity. simpl. rewrite R1, R2, R3. split; [done|]. unfold deserialize_identity. simpl.
  by rewrite (field_roundtrip _ _ _ E1 R1), (field_roundtrip _ _ _ E2 R2), (field_roundtrip _ _ _ E3 R3).
Qed.

Lemma each_ok {A C} (f : A -> result SpecError C) l :
  Forall (fun a => exists c, f a = Ok c) l -> exists cs, each f l = Ok cs.
Proof. induction 1 as [|a l [c Hc] _ [cs IH]]; simpl; [by eexists|]. rewrite Hc, IH. by eexists. Qed.
Lemma account_ok seed : is_Some (account_of_seed seed) -> exists a, get_account_id_from_seed seed = Ok a.
Proof. intros [a E]. exists a. unfold get_account_id_from_seed. by rewrite E. Qed.

(** The importers derive the same GRANDPA authorities. *)
Lemma same_authorities authorities keys :
  each authority_keys authorities = Ok keys ->
  configured_authorities authorities = Ok (map (fun k => (snd k, 1)) keys).
Proof.
  revert keys. induction authorities as [|a authorities IH]; intros keys; simpl; [by intros [= <-]|].
  unfold authority_keys at 1. destruct (aura_of_seed _) as [aura|]; [|done]. destruct (get_from_seed _) as [key|]; [|done].
  simpl. destruct (each authority_keys authorities) as [rest|]; [|done]. intros [= <-]. by rewrite (IH _ eq_refl).
Qed.

(** C32: a validated configuration starts a chain of its domain.  When the texts
    have no zero bytes, the seeds give keys and the epoch is as long as at least one
    block, [genesis_patch] succeeds, and the genesis that the runtime builds from
    its JSON is the start of a run of the chain of that domain, with the configured
    identity and epoch length, and with the GRANDPA authorities that an importer
    derives from the same configuration to verify packages of this chain. *)
Theorem validated_config_starts_chain config d L (balances_genesis : list (AccountId * Z) -> B) :
  validate_domain_config multiaddr_from_str has_p2p config d = Ok tt -> texts_ok config -> seeds_ok config ->
  0 <= ep_length_seconds (dc_epoch config) -> epoch_length_blocks config MILLI_SECS_PER_BLOCK = Ok L ->
  (forall l a, cur_held (balances_genesis l) a = 0) ->
  exists patch ch, genesis_patch config = Ok patch /\ build_genesis balances_genesis patch = Ok ch /\
    1 <= L <= u32_max /\ chain_run d L [] ch /\
    (exists identity, build_chain_identity config = Some identity /\ ds_chain_identity (w_domain (ch_world ch)) = identity) /\
    configured_authorities (dc_authorities config) = Ok (w_grandpa_authorities (ch_world ch)).
Proof.
  intros Hv Ht (Hsudo & Himp & Hend & Hauth) Hsec HL Hheld.
  destruct (validated_domain_identity multiaddr_from_str has_p2p config d MILLI_SECS_PER_BLOCK L Hv Ht ltac:(done) Hsec)
    as [(identity & Hid & Hd & _) HLb]. destruct (HLb HL) as [HL1 _].
  destruct (identity_roundtrip config identity Hid Ht) as (value & Hser & Hde).
  destruct (account_ok _ Hsudo) as [sudo Es]. destruct (account_ok _ Himp) as [importer Ei].
  destruct (each_ok get_account_id_from_seed _ (Forall_impl _ _ _ Hend account_ok)) as [endowed Ee].
  destruct (each_ok (fun a => get_account_id_from_seed (au_account_seed a)) (dc_authorities config)) as [accounts Ea].
  { eapply Forall_impl; [exact Hauth|]. intros a (Ha & _). by apply account_ok. }
  destruct (each_ok authority_keys (dc_authorities config)) as [keys Ek].
  { eapply Forall_impl; [exact Hauth|]. intros a (_ & [x Ex] & [y Ey]). exists (x, y). unfold authority_keys. by rewrite Ex, Ey. }
  unfold genesis_patch. rewrite HL, Hid, Ek, Es, Ei, Ee, Ea, Hser. eexists. eexists. split; [done|].
  unfold build_genesis. simpl. rewrite Hde. split; [done|]. split; [done|]. split_and!.
  - pose proof (chain_start d L balances_genesis identity endowed accounts (map snd keys) importer Hd Hheld) as Hrun.
    unfold chain_genesis in Hrun. rewrite map_map in Hrun. exact Hrun.
  - by exists identity.
  - simpl. by apply same_authorities.
Qed.
End Starts.

(** ** Witness: the configuration of Earth *)
Section Witness.
#[local] Existing Instance reference_codec.
#[local] Existing Instance reference_account.
#[local] Existing Instance reference_account_ok.
#[local] Existing Instance reference_currency.
#[local] Existing Instance reference_currency_ok.
#[local] Instance first_byte_seeds : Seeds := {| account_of_seed := head; aura_of_seed := Some |}.
#[local] Instance no_justifications : LightClient := flat_light_client_of [].

Lemma validated_config_starts_chain_witness :
  exists patch ch, genesis_patch example_domain_config = Ok patch /\ build_genesis example_balances patch = Ok ch /\
    chain_run Earth 10 [] ch /\ w_grandpa_authorities (ch_world ch) = [([97], 1)].
Proof.
  destruct (validated_config_starts_chain (fun _ => None : option unit) (fun _ => true) example_domain_config Earth 10
              example_balances) as (patch & ch & H1 & H2 & _ & H3 & _ & H4).
  - vm_compute. reflexivity.
  - repeat constructor; vm_compute; first [reflexivity|set_solver].
  - split; [by eexists|]. split; [by eexists|]. split; [|repeat constructor; by eexists].
    apply Forall_singleton. by eexists.
  - vm_compute. congruence.
  - vm_compute. reflexivity.
  - reflexivity.
  - exists patch, ch. split; [exact H1|]. split; [exact H2|]. split; [exact H3|]. by injection H4 as <-.
Defined.
End Witness.
