(* ===== verification/ExporterProofs.v ===== *)
(** * Packaging

    The exporter's packages: they partition the leaves of an epoch by target
    domain, the relay accepts their envelopes, and the importer of the target
    domain gets from each of them exactly the leaves that are addressed to it. *)

From S2P Require Import Prelude Types Effects Codec Merkle Config Verify VerifyProofs Relay Exporter.

(** ** Grouping *)

(** The leaves addressed to a domain. *)
Definition addressed {L} (key : L -> DomainId) (d : DomainId) (leaves : list L) : list L :=
  filter (fun leaf => key leaf = d) leaves.

Definition group_of {A} (l : list A) : option (list A) := match l with [] => None | _ => Some l end.

Lemma group_by_lookup {L} (key : L -> DomainId) leaves d :
  group_by key leaves !! d = group_of (addressed key d leaves).
Proof.
  unfold group_by. induction leaves as [|leaf leaves IH] using rev_ind; [done|].
  rewrite foldl_app. simpl. unfold addressed in *. rewrite filter_app.
  destruct (decide (key leaf = d)) as [<-|Hne].
  - rewrite lookup_partial_alter_eq, IH, filter_cons_True, filter_nil by done.
    by destruct (filter _ leaves).
  - by rewrite lookup_partial_alter_ne, IH, filter_cons_False, filter_nil, app_nil_r by done.
Qed.

Lemma btree_entries_elem {A} (m : gmap DomainId A) d a : (d, a) ∈ btree_entries m <-> m !! d = Some a.
Proof.
  unfold btree_entries. rewrite list_elem_of_omap. split.
  - intros (d' & _ & E). destruct (m !! d') eqn:Hm; simplify_eq/=. done.
  - intros E. exists d. rewrite E. split; [|done]. destruct d; set_solver.
Qed.

Lemma btree_entries_nodup {A} (m : gmap DomainId A) : NoDup (map fst (btree_entries m)).
Proof.
  assert (forall ds : list DomainId, map fst (omap (fun d => (fun a => (d, a)) <$> m !! d) ds)
    `sublist_of` ds) as Hsub.
  { induction ds as [|d ds IH]; [done|]. simpl. destruct (m !! d); simpl; by constructor. }
  eapply sublist_NoDup; [|apply Hsub]. repeat constructor; set_solver.
Qed.

Lemma set_each_lookup {L} (set : list L -> TargetPackageInputs -> TargetPackageInputs) m grouped d :
  set_each set m grouped !! d
  = match m !! d with Some leaves => Some (set leaves (default default_inputs (grouped !! d))) | None => grouped !! d end.
Proof.
  unfold set_each. pose proof (btree_entries_nodup m) as Hnd.
  assert (forall a, (d, a) ∈ btree_entries m <-> m !! d = Some a) as Hel by (intros; apply btree_entries_elem).
  assert (forall entries : list (DomainId * list L), NoDup (map fst entries) -> forall grouped : gmap DomainId TargetPackageInputs,
    foldl (fun grouped '(t, leaves) => partial_alter (fun entry => Some (set leaves (default default_inputs entry))) t grouped)
      grouped entries !! d
    = match (list_to_map entries : gmap DomainId (list L)) !! d with
      | Some leaves => Some (set leaves (default default_inputs (grouped !! d))) | None => grouped !! d end) as Hgen.
  { induction entries as [|[t a] entries IH]; intros Hn g; [done|]. simpl in *. apply NoDup_cons in Hn as [Ht Hn].
    rewrite IH by done. destruct (decide (t = d)) as [->|Hne].
    - rewrite lookup_insert_eq, not_elem_of_list_to_map_1 by done. by rewrite lookup_partial_alter_eq.
    - by rewrite lookup_insert_ne, lookup_partial_alter_ne by done. }
  rewrite Hgen by done. replace ((list_to_map (btree_entries m) : gmap DomainId (list L)) !! d) with (m !! d); [done|].
  destruct (m !! d) as [a|] eqn:E; symmetry.
  - apply elem_of_list_to_map_1; [done|]. by apply Hel.
  - apply not_elem_of_list_to_map_1. intros ([? a] & -> & Ha)%list_elem_of_fmap.
    apply Hel in Ha. simpl in *. congruence.
Qed.

(** The inputs of the package for domain [d]. *)
Definition inputs_for (d : DomainId) (leaves : list ExportLeaf) (imports : list FinalizedImportLeaf)
    (governance : list GovernanceLeaf) : TargetPackageInputs :=
  mkTargetPackageInputs (addressed el_target_domain d leaves) (addressed fl_source_domain d imports)
    (addressed leaf_target_domain d governance).

Definition no_inputs (inputs : TargetPackageInputs) : bool :=
  match inputs with mkTargetPackageInputs [] [] [] => true | _ => false end.

Lemma combine_lookup leaves imports governance d :
  combine_target_inputs (group_exports_by_target leaves) (group_finalized_imports_by_source imports)
    (group_governance_by_target governance) !! d
  = let inputs := inputs_for d leaves imports governance in if no_inputs inputs then None else Some inputs.
Proof.
  unfold combine_target_inputs, group_exports_by_target, group_finalized_imports_by_source, group_governance_by_target.
  rewrite !set_each_lookup, !group_by_lookup, lookup_empty. unfold inputs_for. simpl.
  by destruct (addressed el_target_domain d leaves), (addressed fl_source_domain d imports),
    (addressed leaf_target_domain d governance).
Qed.

Lemma targets_elem leaves imports governance d inputs :
  (d, inputs) ∈ btree_entries (combine_target_inputs (group_exports_by_target leaves)
     (group_finalized_imports_by_source imports) (group_governance_by_target governance))
  <-> inputs = inputs_for d leaves imports governance /\ no_inputs inputs = false.
Proof.
  rewrite btree_entries_elem, combine_lookup. cbv zeta. split.
  - destruct (no_inputs _) eqn:E; [done|]. by intros [= <-].
  - intros [-> ->]. done.
Qed.

(** ** Packages *)

Lemma collect_ok {E A B} (f : A -> result E B) (Q : A -> B -> Prop) l :
  Forall (fun a => exists b, f a = Ok b /\ Q a b) l -> exists bs, collect f l = Ok bs /\ Forall2 Q l bs.
Proof.
  induction 1 as [|a l (b & Hb & HQ) _ (bs & Hbs & HF)]; [by exists []|].
  exists (b :: bs). simpl. rewrite Hb, Hbs. split; [done|by constructor].
Qed.

Lemma Forall2_map_eq {A B} (f : B -> A) l bs : Forall2 (fun a b => f b = a) l bs -> map f bs = l.
Proof. induction 1; [done|]. simpl. by f_equal. Qed.

Lemma addressed_elem {L} (key : L -> DomainId) d leaves leaf :
  leaf ∈ addressed key d leaves <-> key leaf = d /\ leaf ∈ leaves.
Proof. unfold addressed. by rewrite list_elem_of_filter. Qed.

(** A proof for each leaf of a domain, found by a key that identifies the leaf. *)
Lemma proofs_for {E L P K} (target : L -> DomainId) (key : L -> K) (build : K -> option P) (missing : K -> E)
    (proof_leaf : P -> L) (valid : P -> Prop) leaves d :
  NoDup (map key leaves) ->
  (forall leaf, leaf ∈ leaves -> target leaf = d -> exists p, build (key leaf) = Some p /\
     proof_leaf p ∈ leaves /\ key (proof_leaf p) = key leaf /\ (proof_leaf p = leaf -> valid p)) ->
  exists ps, collect (fun leaf => ok_or (build (key leaf)) (missing (key leaf))) (addressed target d leaves) = Ok ps /\
    map proof_leaf ps = addressed target d leaves /\ Forall valid ps.
Proof.
  intros Hnd Hb. edestruct (collect_ok (fun leaf => ok_or (build (key leaf)) (missing (key leaf)))
    (fun leaf p => proof_leaf p = leaf /\ valid p)) as (ps & Hc & H2).
  2:{ exists ps. split_and!; [done| |].
      - apply Forall2_map_eq. eapply Forall2_impl; [done|]. by intros ?? [??].
      - eapply Forall2_Forall_r; [exact H2|]. apply Forall_forall. by intros ? _ ? [_ ?]. }
  apply Forall_forall. intros leaf [Hd Hin]%addressed_elem. destruct (Hb leaf Hin Hd) as (p & Hp & Hpl & Hk & Hv).
  assert (proof_leaf p = leaf) as Elf by (by apply (NoDup_map_key key leaves)).
  exists p. rewrite Hp. by split_and!; [|..|apply Hv].
Qed.

Section Packages.
Context `{!Codec, !CodecOk, !LightClient}.

(** What a governance leaf says of where it was published. *)
Definition published_by (header : EpochSummaryHeader) (leaf : GovernanceLeaf) : Prop :=
  match leaf with
  | ProposalV1 l => gpl_source_domain l = sh_domain_id header /\ gpl_approval_epoch l = sh_epoch_id header
  | AckV1 l => gal_acknowledged_epoch l = sh_epoch_id header
  end.

(** The leaves of an epoch as a chain keeps them, and the header that commits
    to them. *)
Record EpochLeaves (header : EpochSummaryHeader) (leaves : list ExportLeaf) (imports : list FinalizedImportLeaf)
    (governance : list GovernanceLeaf) : Prop := {
  lv_export_root : export_merkle_root (sh_domain_id header) (sh_epoch_id header) (sh_start_block_height header)
    (sh_end_block_height header) leaves = sh_export_root header;
  lv_import_root : import_merkle_root (sh_domain_id header) (sh_epoch_id header) (sh_start_block_height header)
    (sh_end_block_height header) imports = sh_import_root header;
  lv_governance_root : governance_merkle_root (sh_domain_id header) (sh_epoch_id header)
    (sh_start_block_height header) (sh_end_block_height header) governance = sh_governance_root header;
  lv_export : Forall (fun leaf => export_hashed leaf /\ el_source_domain leaf = sh_domain_id header /\
    el_source_epoch_id leaf = sh_epoch_id header) leaves;
  lv_import : Forall (fun leaf => import_hashed leaf /\ fl_target_domain leaf = sh_domain_id header) imports;
  lv_governance : Forall (fun leaf => leaf_hashed leaf /\ published_by header leaf) governance;
  lv_export_nodup : NoDup (map el_export_id leaves);
  lv_import_nodup : NoDup (map fl_export_id imports);
  lv_governance_nodup : NoDup (map leaf_hash governance);
  lv_bounded : Z.of_nat (length leaves) <= u32_max /\ Z.of_nat (length imports) <= u32_max /\
    Z.of_nat (length governance) <= u32_max
}.

(** The canonical order does not change the roots. *)
Lemma epoch_leaves_sorted header leaves imports governance :
  EpochLeaves header leaves imports governance ->
  EpochLeaves header (sort_export_leaves leaves) (sort_finalized_import_leaves imports) (sort_governance_leaves governance).
Proof.
  intros [R1 R2 R3 F1 F2 F3 N1 N2 N3 B].
  split; unfold export_merkle_root, import_merkle_root, governance_merkle_root, sort_export_leaves,
    sort_finalized_import_leaves, sort_governance_leaves in *;
    rewrite ?sort_by_idemp, ?Forall_sort_by, ?length_sort_by; try done; try apply _; by rewrite sort_by_perm.
Qed.

Section Target.
Context (header : EpochSummaryHeader) (leaves : list ExportLeaf) (imports : list FinalizedImportLeaf)
  (governance : list GovernanceLeaf).
Context (Hl : EpochLeaves header leaves imports governance).

Lemma export_proofs_for d :
  exists eps, collect (fun leaf => ok_or (build_export_inclusion_proof leaves (el_export_id leaf))
      (ExportProofMissing (el_export_id leaf))) (addressed el_target_domain d leaves) = Ok eps /\
    map eip_leaf eps = addressed el_target_domain d leaves /\
    Forall (fun p => check_export_proof header d p = Ok tt) eps.
Proof.
  destruct Hl as [R _ _ F _ _ Hnd _ _ (B & _)]. apply proofs_for; [done|]. intros leaf Hin Hd.
  destruct (export_proof_complete (sh_domain_id header) (sh_epoch_id header) (sh_start_block_height header)
    (sh_end_block_height header) leaves (el_export_id leaf)) as (p & Hb & Hp & Hid & Hv);
    [eapply Forall_impl; [done|]; by intros ? (? & _)|by apply list_elem_of_fmap_2|done|].
  exists p. split_and!; [done..|]. intros Elf. rewrite Forall_forall in F. destruct (F leaf Hin) as (Hh & Hs & He).
  unfold check_export_proof. rewrite R in Hv. rewrite Hv, Elf, !bool_decide_eq_true_2, (proj2 (Z.eqb_eq _ _)) by done. done.
Qed.

Lemma import_proofs_for d :
  exists fps, collect (fun leaf => ok_or (build_finalized_import_inclusion_proof imports (fl_export_id leaf))
      (ImportProofMissing (fl_export_id leaf))) (addressed fl_source_domain d imports) = Ok fps /\
    map fip_leaf fps = addressed fl_source_domain d imports /\
    Forall (fun p => check_finalized_import_proof header d p = Ok tt) fps.
Proof.
  destruct Hl as [_ R _ _ F _ _ Hnd _ (_ & B & _)]. apply proofs_for; [done|]. intros leaf Hin Hd.
  destruct (import_proof_complete (sh_domain_id header) (sh_epoch_id header) (sh_start_block_height header)
    (sh_end_block_height header) imports (fl_export_id leaf)) as (p & Hb & Hp & Hid & Hv);
    [eapply Forall_impl; [done|]; by intros ? (? & _)|by apply list_elem_of_fmap_2|done|].
  exists p. split_and!; [done..|]. intros Elf. rewrite Forall_forall in F. destruct (F leaf Hin) as (Hh & Hs).
  unfold check_finalized_import_proof. rewrite R in Hv. rewrite Hv, Elf, !bool_decide_eq_true_2 by done. done.
Qed.

Lemma governance_proofs_for d :
  exists gps, collect (fun leaf => ok_or (build_governance_inclusion_proof governance (leaf_hash leaf))
      (GovernanceProofMissing (leaf_hash leaf))) (addressed leaf_target_domain d governance) = Ok gps /\
    map gip_leaf gps = addressed leaf_target_domain d governance /\
    Forall (fun p => check_governance_proof header d p = Ok tt) gps.
Proof.
  destruct Hl as [_ _ R _ _ F _ _ Hnd (_ & _ & B)]. apply proofs_for; [done|]. intros leaf Hin Hd.
  destruct (governance_proof_complete (sh_domain_id header) (sh_epoch_id header) (sh_start_block_height header)
    (sh_end_block_height header) governance (leaf_hash leaf)) as (p & Hb & Hp & Hid & Hv);
    [eapply Forall_impl; [done|]; by intros ? (? & _)|by apply list_elem_of_fmap_2|done|].
  exists p. split_and!; [done..|]. intros Elf. rewrite Forall_forall in F. destruct (F leaf Hin) as (Hh & Hs).
  unfold check_governance_proof. rewrite R in Hv. rewrite Hv, Elf. destruct leaf; simpl in *.
  - destruct Hs as [Hs1 Hs2]. rewrite !bool_decide_eq_true_2, (proj2 (Z.eqb_eq _ _)) by done. done.
  - rewrite !bool_decide_eq_true_2, (proj2 (Z.eqb_eq _ _)) by done. done.
Qed.

(** The package of a domain: it is built, and the domain's importer gets its
    leaves back. *)
Lemma package_for bundle d :
  no_inputs (inputs_for d leaves imports governance) = false ->
  exists package items,
    target_package header bundle leaves imports governance (inputs_for d leaves imports governance) = Ok package /\
    package = from_bundle_with_mixed_proofs header bundle (vi_export_proofs items) (vi_finalized_import_proofs items)
                (vi_governance_proofs items) /\
    verify_package_flow package d = Ok items /\
    map eip_leaf (vi_export_proofs items) = addressed el_target_domain d leaves /\
    map fip_leaf (vi_finalized_import_proofs items) = addressed fl_source_domain d imports /\
    map gip_leaf (vi_governance_proofs items) = addressed leaf_target_domain d governance.
Proof.
  intros Hne. destruct (export_proofs_for d) as (eps & C1 & M1 & F1), (import_proofs_for d) as (fps & C2 & M2 & F2),
    (governance_proofs_for d) as (gps & C3 & M3 & F3).
  exists (from_bundle_with_mixed_proofs header bundle eps fps gps), (mkVerifiedPackageItems eps fps gps).
  split_and!; try done.
  - unfold target_package. simpl. by rewrite C1, C2, C3.
  - apply honest_package_verifies; try done. unfold inputs_for in Hne. rewrite <-M1, <-M2, <-M3 in Hne.
    destruct eps; [|by left]. destruct fps; [|by right; left]. destruct gps; [done|by right; right].
Qed.
End Target.

(** ** Envelopes *)

(** A proof the relay counts for target [d]. *)
Definition item_for (header : EpochSummaryHeader) (d : DomainId) (proof : InclusionProof) : Prop :=
  match proof with
  | SummaryHeaderStorageV1 _ => False
  | ExportV1 p => el_target_domain (eip_leaf p) = d /\ el_source_domain (eip_leaf p) = sh_domain_id header /\
      el_source_epoch_id (eip_leaf p) = sh_epoch_id header
  | FinalizedImportV1 p => fl_source_domain (fip_leaf p) = d /\ fl_target_domain (fip_leaf p) = sh_domain_id header
  | GovernanceV1 p => leaf_target_domain (gip_leaf p) = d /\ published_by header (gip_leaf p)
  end.

Lemma merge_target_same e d target : target = None \/ target = Some d -> merge_target e target d = Ok d.
Proof. intros [->| ->]; simpl; [done|]. by rewrite bool_decide_eq_false_2 by tauto. Qed.

Lemma scan_item header d b q target n :
  scale_decode b = Some q -> item_for header d q -> target = None \/ target = Some d ->
  scan_proof header false b (target, n) = Ok (Some d, sat_add u32_max n 1).
Proof.
  intros Hq Hi Ht. unfold scan_proof. rewrite Hq. destruct q as [q|q|q|q]; [done|..]; simpl in Hi.
  - destruct Hi as (-> & -> & ->). rewrite merge_target_same, bool_decide_eq_true_2, Z.eqb_refl by done. done.
  - destruct Hi as (-> & ->). rewrite merge_target_same, bool_decide_eq_true_2 by done. done.
  - destruct Hi as (-> & Hp). rewrite merge_target_same by done. destruct (gip_leaf q); simpl in *.
    + destruct Hp as (-> & ->). rewrite bool_decide_eq_true_2, Z.eqb_refl by done. done.
    + rewrite Hp, Z.eqb_refl. done.
Qed.

Lemma scan_items header d proofs : forall target n,
  Forall (fun b => exists q, scale_decode b = Some q /\ item_for header d q) proofs ->
  target = None \/ target = Some d -> n + Z.of_nat (length proofs) <= u32_max ->
  scan_proofs header false proofs (target, n)
  = Ok (match proofs with [] => target | _ => Some d end, n + Z.of_nat (length proofs)).
Proof.
  induction proofs as [|b proofs IH]; intros target n HF Ht Hn; simpl length in *.
  { simpl. by rewrite Z.add_0_r. }
  apply Forall_cons in HF as [(q & Hq & Hi) HF]. cbn [scan_proofs]. rewrite (scan_item _ _ _ _ _ _ Hq Hi Ht).
  rewrite sat_add_exact by lia. rewrite IH by (auto || lia). f_equal. f_equal; [by destruct proofs|lia].
Qed.

(** What passes the flow check of domain [d] is counted for it. *)
Lemma flow_items package d items :
  verify_package_flow package d = Ok items ->
  Forall (fun b => exists q, scale_decode b = Some q /\ item_for (pkg_header package) d q)
    (tail (pkg_inclusion_proofs package)).
Proof.
  intros (_ & Hi & [E1 F1] & [E2 F2] & [E3 F3])%flow_spec. rewrite E1 in F1. rewrite E2 in F2. rewrite E3 in F3.
  rewrite Forall_forall in F1. rewrite Forall_forall in F2. rewrite Forall_forall in F3. rewrite Forall_forall in Hi.
  apply Forall_forall. intros b Hb. specialize (Hi b Hb). unfold is_item in Hi.
  assert (forall {P} (pick : InclusionProof -> option P) q p, scale_decode b = Some q -> pick q = Some p ->
    p ∈ omap (picked pick) (tail (pkg_inclusion_proofs package))) as Hpick.
  { intros P pick q p Hq Hp. apply list_elem_of_omap. exists b. split; [done|]. unfold picked. by rewrite Hq. }
  destruct (scale_decode b) as [q|] eqn:Hq; [|done]. exists q. split; [done|]. destruct q as [q|q|q|q]; [done|..]; simpl.
  - specialize (F1 q (Hpick _ pick_export _ q eq_refl eq_refl)). unfold check_export_proof in F1.
    dispatch_inv F1. bool_to_prop. by split_and!.
  - specialize (F2 q (Hpick _ pick_finalized_import _ q eq_refl eq_refl)). unfold check_finalized_import_proof in F2.
    dispatch_inv F2. bool_to_prop. by split_and!.
  - specialize (F3 q (Hpick _ pick_governance _ q eq_refl eq_refl)). unfold check_governance_proof in F3.
    dispatch_inv F3; bool_to_prop; simpl; by split_and!.
Qed.


(** The relay accepts the envelope of a package that the target's importer would
    accept. *)
Lemma envelope_accepted package d items now envelope proof rest :
  verify_package_flow package d = Ok items ->
  pkg_package_hash package = compute_package_hash package ->
  pkg_inclusion_proofs package = scale_encode (SummaryHeaderStorageV1 proof) :: rest ->
  relay_envelope package d now = Ok envelope ->
  decode_and_validate_envelope (scale_encode envelope) = Ok (envelope, package).
Proof.
  intros Hv Hh Hp He. pose proof (flow_items _ _ _ Hv) as Hi. apply flow_spec in Hv as (Hlen & _).
  unfold relay_envelope in He. dispatch_inv He. bool_to_prop. subst envelope.
  unfold decode_and_validate_envelope. rewrite decode_whole. simpl. rewrite decode_whole.
  rewrite !bool_decide_eq_true_2, Z.eqb_refl by done. unfold derive_target_domain.
  rewrite (proj2 (Nat.leb_le _ _)) by lia. rewrite Hp in *. simpl in *. rewrite decode_whole.
  rewrite (scan_items (pkg_header package) d); [|done|by left|unfold sat_sub in *; lia]. destruct rest as [|b rest]; [simpl in Hlen; lia|].
  rewrite !bool_decide_eq_true_2 by done. unfold sat_sub. rewrite (proj2 (Z.eqb_eq _ _)); [done|].
  simpl length. lia.
Qed.
End Packages.
