(* ===== verification/ExporterSafety.v ===== *)
(** * Runs of the exporter

    The invariant of the exporter's store over synchronisations: what the index
    says of a package is true of the files and of what the relay answered,
    packages are never overwritten, and a package that the saved index calls
    submitted is not submitted again. *)

From S2P Require Import Prelude Types Effects Handlers Codec Merkle Epochs Config Verify VerifyProofs Relay Exporter ExporterProofs.

Definition rkey (r : PackageRecord) : PackageKey := (xr_epoch_id r, xr_target_domain r).
Definition envelope_key (e : RelayPackageEnvelopeV1) : PackageKey := (env_epoch_id e, env_target_domain e).

(** ** The index *)

Lemma same_key_spec e d r : same_key e d r = true <-> rkey r = (e, d).
Proof.
  unfold same_key, rkey. rewrite andb_true_iff, Z.eqb_eq, bool_decide_eq_true. split; [by intros [-> ->]|by intros [= -> ->]].
Qed.

Lemma record_elem index e d r : record index e d = Some r -> r ∈ xi_packages index /\ rkey r = (e, d).
Proof. intros [Hin Hk]%find_some. split; [by apply list_elem_of_In|by apply same_key_spec]. Qed.
Lemma record_none index e d : record index e d = None -> (e, d) ∉ map rkey (xi_packages index).
Proof.
  intros Hn (r & E & Hr)%list_elem_of_fmap. eapply find_none in Hn; [|by apply list_elem_of_In].
  symmetry in E. apply same_key_spec in E. congruence.
Qed.
Lemma record_some index e d : (e, d) ∈ map rkey (xi_packages index) -> exists r, record index e d = Some r.
Proof. intros Hin. destruct (record index e d) eqn:E; [by eexists|]. by apply record_none in E. Qed.

Section UpdateFirst.
Context (e : Z) (d : DomainId) (f : PackageRecord -> PackageRecord) (Hf : forall r, rkey (f r) = rkey r).
Implicit Types (l : list PackageRecord).

Lemma update_first_keys l : map rkey (update_first (same_key e d) f l) = map rkey l.
Proof. induction l as [|r l IH]; [done|]. simpl. destruct (same_key e d r); simpl; f_equal; auto. Qed.

Lemma update_first_forall (P : PackageRecord -> Prop) l :
  Forall P l -> (forall r, r ∈ l -> rkey r = (e, d) -> P r -> P (f r)) -> Forall P (update_first (same_key e d) f l).
Proof.
  induction 1 as [|r l Hr Hl IH]; intros HP; simpl; [constructor|]. destruct (same_key e d r) eqn:E.
  - constructor; [|done]. apply HP; [set_solver|by apply same_key_spec|done].
  - constructor; [done|]. apply IH. intros. apply HP; [set_solver|done..].
Qed.

(** The records after a change: the others, and the changed one. *)
Lemma update_first_elem l r : NoDup (map rkey l) ->
  r ∈ update_first (same_key e d) f l <->
  (r ∈ l /\ rkey r <> (e, d)) \/ (exists r0, r0 ∈ l /\ rkey r0 = (e, d) /\ r = f r0).
Proof.
  induction l as [|x l IH]; simpl; intros Hnd; [set_solver|]. apply NoDup_cons in Hnd as [Hx Hnd].
  destruct (same_key e d x) eqn:E.
  - apply same_key_spec in E. rewrite elem_of_cons. split.
    + intros [->|Hr]; [right; exists x; set_solver|left]. split; [set_solver|]. intros Hk. apply Hx.
      rewrite E, <-Hk. by apply list_elem_of_fmap_2.
    + intros [[[->|Hr]%elem_of_cons Hk]|(r0 & [->|Hr0]%elem_of_cons & Hk & ->)]; [done|by right|by left|].
      destruct Hx. rewrite E, <-Hk. by apply list_elem_of_fmap_2.
  - assert (rkey x <> (e, d)) by (intros Hk%same_key_spec; congruence). rewrite elem_of_cons, (IH Hnd). split.
    + intros [->|[[Hr Hk]|(r0 & Hr0 & Hk & ->)]]; [left; set_solver|left; set_solver|right; exists r0; set_solver].
    + intros [[[->|Hr]%elem_of_cons Hk]|(r0 & [->|Hr0]%elem_of_cons & Hk & ->)]; [by left|right; by left|done|].
      right. right. by exists r0.
Qed.
End UpdateFirst.

Section Runs.
Context `{!Codec, !CodecOk, !HexCodec, !ExporterCodec} {N : Type} `{!ExporterEnv N} (domain : DomainId).
Implicit Types (s : Exporter N) (index : ExporterIndex) (r : PackageRecord).

(** The relay accepted an envelope of the package that is stored for the key. *)
Definition accepted_for s (k : PackageKey) : Prop :=
  exists package now envelope response receipt,
    ex_scale s !! k = Some (scale_encode package) /\ relay_envelope package k.2 now = Ok envelope /\
    (envelope, response) ∈ ex_sent s /\ submission_result response = Ok receipt /\ rr_accepted receipt = true.

(** A certified package is stored, under the key of its record. *)
Definition stored_for s (k : PackageKey) (package_hash : option bytes) : Prop :=
  exists package, ex_scale s !! k = Some (scale_encode package) /\ sh_epoch_id (pkg_header package) = k.1 /\
    package_hash = Some (hex_hash (pkg_package_hash package)) /\ is_Some (ex_manifests s !! k).

Definition RecordOk s r : Prop :=
  (xr_status r = Certified -> stored_for s (rkey r) (xr_package_hash r)) /\
  (xr_relay_submission_state r = Submitted -> xr_status r = Certified /\ accepted_for s (rkey r)).

Definition IndexOk s index : Prop :=
  NoDup (map rkey (xi_packages index)) /\ Forall (RecordOk s) (xi_packages index).

(** Every certified package was sent to the relay. *)
Definition attempted index : Prop :=
  forall r, r ∈ xi_packages index -> xr_status r = Certified -> xr_relay_submission_state r <> NotSubmitted.

Definition SavedOk s : Prop :=
  match ex_index s with
  | None => True
  | Some (CurrentIndex index) => IndexOk s index /\ attempted index /\ xi_domain_id index = domain
  | Some _ => False
  end.

(** The packages an index calls submitted. *)
Definition index_submitted index (k : PackageKey) : Prop :=
  exists r, r ∈ xi_packages index /\ rkey r = k /\ xr_relay_submission_state r = Submitted.
Definition saved_submitted s (k : PackageKey) : Prop :=
  exists index, ex_index s = Some (CurrentIndex index) /\ index_submitted index k.

(** What happens between two writes of the index file: packages are added, and
    nothing is sent for a package that the index file calls submitted. *)
Record quiet s s' : Prop := {
  qt_index : ex_index s' = ex_index s;
  qt_scale : ex_scale s ⊆ ex_scale s';
  qt_manifests : forall k, is_Some (ex_manifests s !! k) -> is_Some (ex_manifests s' !! k);
  qt_sent : exists sent, ex_sent s' = ex_sent s ++ sent /\
    Forall (fun x => ~ saved_submitted s (envelope_key x.1)) sent
}.

Lemma saved_submitted_quiet s s' k : ex_index s' = ex_index s -> saved_submitted s k <-> saved_submitted s' k.
Proof. unfold saved_submitted. by intros ->. Qed.

#[local] Instance quiet_preorder : PreOrder quiet.
Proof.
  split.
  - intros s. split; [done..|]. exists []. by rewrite app_nil_r.
  - intros s1 s2 s3 [I1 S1 M1 (l1 & E1 & F1)] [I2 S2 M2 (l2 & E2 & F2)].
    split; [congruence|by etransitivity|auto|]. exists (l1 ++ l2). rewrite E2, E1, app_assoc. split; [done|].
    apply Forall_app. split; [done|]. eapply Forall_impl; [done|]. intros x Hx. by rewrite (saved_submitted_quiet s1 s2).
Qed.

Lemma accepted_quiet s s' k : quiet s s' -> accepted_for s k -> accepted_for s' k.
Proof.
  intros [_ Hs _ (l & El & _)] (p & t & e & resp & rc & A1 & A2 & A3 & A4 & A5). exists p, t, e, resp, rc.
  split_and!; [by eapply lookup_weaken|done|rewrite El; set_solver|done|done].
Qed.
Lemma record_quiet s s' r : quiet s s' -> RecordOk s r -> RecordOk s' r.
Proof.
  intros Hq [A1 A2]. split.
  - intros Hc. destruct (A1 Hc) as (p & E1 & E2 & E3 & E4). destruct Hq as [_ Hs Hm _].
    exists p. split_and!; [by eapply lookup_weaken|done|done|auto].
  - intros Hc. destruct (A2 Hc). split; [done|]. eapply accepted_quiet; eauto.
Qed.
Lemma index_quiet s s' index : quiet s s' -> IndexOk s index -> IndexOk s' index.
Proof. intros Hq [A1 A2]. split; [done|]. eapply Forall_impl; [done|]. intros r. by apply record_quiet. Qed.

(** The index in memory is true, and says submitted where the index file does. *)
Definition Good s index : Prop :=
  IndexOk s index /\ (forall k, saved_submitted s k -> index_submitted index k).

Lemma good_quiet s s' index : quiet s s' -> Good s index -> Good s' index.
Proof.
  intros Hq [A1 A2]. split; [by eapply index_quiet|]. intros k Hk. apply A2.
  rewrite (saved_submitted_quiet s s'); [done|apply Hq].
Qed.

Lemma good_packages s index index' : xi_packages index = xi_packages index' -> Good s index -> Good s index'.
Proof. unfold Good, IndexOk, index_submitted. by intros ->. Qed.

(** A change of the record of a key that keeps the record true and submitted. *)
Lemma good_record_mut s index e d f :
  Good s index -> (forall r, rkey (f r) = rkey r) ->
  (forall r, r ∈ xi_packages index -> rkey r = (e, d) -> RecordOk s r -> RecordOk s (f r)) ->
  (forall r, r ∈ xi_packages index -> rkey r = (e, d) -> xr_relay_submission_state r = Submitted ->
     xr_relay_submission_state (f r) = Submitted) ->
  Good s (record_mut e d f index).
Proof.
  intros [[Hnd HF] Hsub] Hk Hr Hst. split; [split|]; simpl.
  - by rewrite update_first_keys.
  - apply update_first_forall; [done..|]. auto.
  - intros k Hs. destruct (Hsub k Hs) as (r & Hin & E & Es). destruct (decide (rkey r = (e, d))) as [Hd|Hne].
    + exists (f r). split_and!; [|by rewrite Hk|by apply Hst]. simpl. apply update_first_elem; [done..|]. right. by exists r.
    + exists r. split_and!; [|done|done]. simpl. apply update_first_elem; [done..|]. by left.
Qed.

Lemma good_upsert s index e d sh bn bh ids reason :
  Good s index -> Good s (upsert_pending e d sh bn bh ids reason index).
Proof.
  intros HG. unfold upsert_pending. destruct (record index e d) as [r0|] eqn:E.
  - apply good_record_mut; [done|..]; intros r.
    + by destruct r as [???????[]]; simpl.
    + intros _ _ [A1 A2]. destruct r as [???????[]]; simpl in *; [|by split]. by split.
    + intros Hin _ Hs. destruct HG as [[_ HF] _]. rewrite Forall_forall in HF. destruct (HF r Hin) as [_ Hc].
      destruct (Hc Hs) as [Hst _]. destruct r as [???????[]]; simpl in *; congruence.
  - destruct HG as [[Hnd HF] Hs]. apply record_none in E. split; [split|]; simpl.
    + rewrite map_app. apply NoDup_app. split_and!; [done|set_solver|apply NoDup_singleton].
    + apply Forall_app. split; [done|]. by repeat constructor.
    + intros k (r & Hin & Hk)%Hs. exists r. simpl. set_solver.
Qed.

Lemma good_upsert_targets s index e staged readiness targets :
  Good s index -> Good s (upsert_targets e staged readiness targets index).
Proof.
  unfold upsert_targets. revert index. induction targets as [|[d inputs] targets IH]; intros index HG; [done|].
  simpl. by apply IH, good_upsert.
Qed.

(** ** Handlers between two writes of the index *)

#[local] Abbreviation ensures := (ensures (fun _ => True) quiet).

Lemma quiet_node s s' : s' = s {{ ex_node := ex_node s' }} -> quiet s s'.
Proof. intros ->. split; simpl; [done..|]. exists []. by rewrite app_nil_r. Qed.

Lemma ensures_query {A} s (f : N -> N * result Text A) e : ensures s (call f e) (fun _ _ => True).
Proof. apply ensures_plain. unfold call. destruct (f (ex_node s)) as [n [a|t]]; (split; [by apply quiet_node|done]). Qed.
Lemma ensures_read_storage {T} `{!Scale T} s key : ensures s (load_storage_value (T := T) key) (fun _ _ => True).
Proof.
  eapply ensures_bind; [apply ensures_query|]. intros [v|] s' _ _; [|by apply ensures_ret].
  destruct (hex_decode _) as [raw|]; [|apply ensures_fail].
  destruct (scale_decode raw); [by apply ensures_ret|apply ensures_fail].
Qed.
Lemma ensures_load_each {T} (load : hash -> ExporterM N (option T)) missing ids :
  (forall s id, ensures s (load id) (fun _ _ => True)) ->
  forall s, ensures s (load_each load missing ids) (fun _ _ => True).
Proof.
  intros Hl. induction ids as [|id ids IH]; intros s; [by apply ensures_ret|]. simpl.
  eapply ensures_bind; [apply Hl|]. intros [v|] s' _ _; [|apply ensures_fail].
  eapply ensures_bind; [apply IH|]. intros. by apply ensures_ret.
Qed.

Lemma ensures_summary s e : ensures s (summary_by_epoch e) (fun _ _ => True).
Proof.
  unfold summary_by_epoch. eapply ensures_bind; [apply ensures_read_storage|]. intros header s1 _ _.
  eapply ensures_bind; [apply ensures_read_storage|]. intros slot s2 _ _.
  destruct header, slot as [slot|]; try apply ensures_fail; [|by apply ensures_ret].
  destruct (slot_staged_at_block_number slot); [by apply ensures_ret|apply ensures_fail].
Qed.
Lemma ensures_latest s : ensures s latest_staged_summary (fun _ _ => True).
Proof.
  eapply ensures_bind; [apply ensures_read_storage|]. intros [h|] s' _ _; [apply ensures_summary|by apply ensures_ret].
Qed.
Lemma ensures_ids s key (k : list hash -> ExporterM N (list hash)) :
  ensures s (do! ids := load_storage_value (T := list hash) key in ret (default [] ids)) (fun _ _ => True).
Proof. eapply ensures_bind; [apply ensures_read_storage|]. intros. by apply ensures_ret. Qed.
Lemma ensures_exports s e : ensures s (epoch_exports e) (fun _ _ => True).
Proof.
  eapply ensures_bind; [apply ensures_ids, ret|]. intros ids s' _ _. apply ensures_load_each. intros. apply ensures_read_storage.
Qed.
Lemma ensures_imports s e : ensures s (epoch_finalized_imports e) (fun _ _ => True).
Proof.
  eapply ensures_bind; [apply ensures_ids, ret|]. intros ids s' _ _. apply ensures_load_each. intros. apply ensures_read_storage.
Qed.
Lemma ensures_governance s e : ensures s (epoch_governance_leaves e) (fun _ _ => True).
Proof.
  eapply ensures_bind; [apply ensures_ids, ret|]. intros ids s' _ _. apply ensures_load_each. intros. apply ensures_read_storage.
Qed.

(** ** Storing packages *)

(** A step that touches neither the index file, nor packages, nor the history. *)
Lemma quiet_files s s' :
  ex_index s' = ex_index s -> ex_scale s' = ex_scale s -> ex_manifests s' = ex_manifests s -> ex_sent s' = ex_sent s ->
  quiet s s'.
Proof. intros E1 E2 E3 E4. split; [done|by rewrite E2|by rewrite E3|]. exists []. by rewrite app_nil_r, E4. Qed.

Lemma ensures_archive s e :
  ensures s (archive_phase_2a_package_files_if_needed e) (fun _ s' => ex_scale s' = ex_scale s).
Proof.
  assert (forall s ext, ensures s (archive_phase_2a_file e ext) (fun _ s' => ex_scale s' = ex_scale s)) as Ha.
  { intros s0 ext. apply (ensures_bind _ _ _ (fun _ s' => s' = s0)); [by apply ensures_gets_if|].
    intros legacy s' _ ->. destruct legacy; [|by apply ensures_ret].
    apply ensures_plain. split; [by apply quiet_files|done]. }
  eapply ensures_bind; [apply Ha|]. intros ? s1 ? E1. eapply ensures_mono; [apply Ha|]. intros ? s2 ? E2. simpl in *; congruence.
Qed.

Lemma write_package s k bs manifest :
  ex_scale s !! k = None \/ ex_scale s !! k = Some bs ->
  let s' := s {{ ex_scale ::= <[k := bs]> }} {{ ex_manifests ::= <[k := manifest]> }} in
  quiet s s' /\ ex_scale s' !! k = Some bs /\ is_Some (ex_manifests s' !! k).
Proof.
  intros Hk. simpl. split_and!; [|apply lookup_insert_eq|rewrite lookup_insert_eq; by eexists]. split; simpl; [done|..].
  - destruct Hk as [Hk|Hk]; [by apply insert_subseteq|by rewrite insert_id].
  - intros k' Hk'. destruct (decide (k' = k)) as [->|]; [rewrite lookup_insert_eq; by eexists|by rewrite lookup_insert_ne].
  - exists []. by rewrite app_nil_r.
Qed.

Lemma good_certified s index package d paths1 paths2 bn bh count kinds index' :
  let k := (sh_epoch_id (pkg_header package), d) in
  Good s index -> ex_scale s !! k = Some (scale_encode package) -> is_Some (ex_manifests s !! k) ->
  mark_certified k.1 d (pkg_package_hash package) paths1 paths2 bn bh count kinds index = Ok index' -> Good s index'.
Proof.
  intros k HG Hf Hm Hop. unfold mark_certified in Hop. dispatch_inv Hop. subst index'.
  eapply (good_packages _ (record_mut _ _ _ index)); [reflexivity|]. apply good_record_mut; [done|..]; intros r.
  - by destruct r as [???????[]].
  - intros _ Hk [A1 A2]. assert (stored_for s k (Some (hex_hash (pkg_package_hash package)))) as Hst by (by exists package).
    destruct r as [e0 t0 ?????[]]; unfold rkey in *; simpl in *; simplify_eq; split; simpl; try done.
  - intros Hin _ Es. destruct HG as [[_ HF] _]. rewrite Forall_forall in HF. destruct (HF r Hin) as [_ Hc].
    destruct (Hc Es) as [Hst _]. by destruct r as [???????[]]; simpl in *.
Qed.

Lemma ensures_persist s index d ids package :
  Good s index -> ensures s (persist_package domain index d ids package) (fun index' s' => Good s' index').
Proof.
  intros HG. unfold persist_package. destruct (match record _ _ _ with Some _ => _ | None => _ end); [|apply ensures_fail].
  apply (ensures_bind _ _ _ (fun current s' => s' = s /\ current = ex_scale s !! (sh_epoch_id (pkg_header package), d)));
    [by apply ensures_gets_if|].
  intros current s0 _ [-> Hcur]. set (k := (sh_epoch_id (pkg_header package), d)) in *.
  destruct (match current with Some _ => _ | None => _ end) eqn:Eb; [|apply ensures_fail].
  eapply ensures_bind; [apply ensures_archive|]. intros ? s1 Hq1 E1. simpl in E1.
  apply (ensures_bind _ _ _ (fun _ s' => s' = s1)); [by apply ensures_lift_if|]. intros manifest s2 _ ->.
  assert (ex_scale s1 !! k = None \/ ex_scale s1 !! k = Some (scale_encode package)) as Hs1.
  { rewrite E1, <-Hcur. destruct current; [right|by left]. bool_to_prop. by subst. }
  destruct (write_package s1 k (scale_encode package) manifest Hs1) as (Hq2 & Hk & Hm). simpl in Hq2, Hk, Hm.
  destruct (pkg_certificate package) as [certificate]. apply ensures_plain. unfold bind, modify, lift. simpl.
  split; [exact Hq2|]. destruct (mark_certified _ _ _ _ _ _ _ _ _ _) as [index'|] eqn:Em; [|done].
  eapply (good_certified _ _ package d); [|exact Hk|exact Hm|exact Em].
  eapply good_quiet; [exact Hq2|]. by eapply good_quiet.
Qed.

Lemma ensures_persist_targets header bundle leaves imports governance targets : forall s index,
  Good s index ->
  ensures s (persist_targets domain header bundle leaves imports governance targets index) (fun index' s' => Good s' index').
Proof.
  induction targets as [|[d inputs] targets IH]; intros s index HG; [by apply ensures_ret|]. cbn [persist_targets].
  apply (ensures_bind _ _ _ (fun _ s' => s' = s)); [by apply ensures_lift_if|]. intros package s' _ ->.
  eapply ensures_bind; [by apply ensures_persist|]. intros index1 s1 _ HG1. by apply IH.
Qed.

(** Reading from the node between two steps. *)
Lemma ensures_read {A B} s index (m : ExporterM N A) (k : A -> ExporterM N B) Q :
  Good s index -> ensures s m (fun _ _ => True) ->
  (forall a s', Good s' index -> ensures s' (k a) Q) -> ensures s (bind m k) Q.
Proof. intros HG Hm Hk. eapply ensures_bind; [exact Hm|]. intros a s' Hq _. apply Hk. by eapply good_quiet. Qed.

Lemma ensures_sync_epoch s index e :
  Good s index -> ensures s (sync_epoch domain index e) (fun index' s' => Good s' index').
Proof.
  intros HG. unfold sync_epoch. apply (ensures_read _ index); [done|apply ensures_summary|]. clear s HG. intros [staged|] s HG;
    [|by apply ensures_ret].
  apply (ensures_read _ index); [done|apply ensures_query|]. clear s HG. intros readiness s HG.
  apply (ensures_read _ index); [done|apply ensures_exports|]. clear s HG. intros exports s HG.
  destruct (bool_decide _); [|apply ensures_fail].
  apply (ensures_read _ index); [done|apply ensures_imports|]. clear s HG. intros imports s HG.
  destruct (bool_decide _); [|apply ensures_fail].
  apply (ensures_read _ index); [done|apply ensures_governance|]. clear s HG. intros governance s HG.
  destruct (bool_decide _); [|apply ensures_fail].
  destruct (scr_state readiness); [by apply ensures_ret, good_upsert_targets|].
  by apply ensures_persist_targets, good_upsert_targets.
Qed.

Lemma ensures_sync_epochs epochs : forall s index,
  Good s index -> ensures s (sync_epochs domain epochs index) (fun index' s' => Good s' index').
Proof.
  induction epochs as [|e epochs IH]; intros s index HG; [by apply ensures_ret|]. cbn [sync_epochs].
  eapply ensures_bind; [by apply ensures_sync_epoch|]. intros index1 s1 _ HG1. by apply IH.
Qed.

(** ** Submissions *)

(** A record whose package may be submitted. *)
Definition due index r : Prop :=
  exists r', r' ∈ xi_packages index /\ rkey r' = rkey r /\ xr_status r' = Certified /\
    xr_relay_submission_state r' <> Submitted.

Lemma unique_record index r r' :
  NoDup (map rkey (xi_packages index)) -> r ∈ xi_packages index -> r' ∈ xi_packages index -> rkey r = rkey r' -> r = r'.
Proof. intros. by apply (NoDup_map_key rkey (xi_packages index)). Qed.

(** Another record's change does not concern it. *)
Lemma due_record_mut index e d f r :
  NoDup (map rkey (xi_packages index)) -> (forall r, rkey (f r) = rkey r) ->
  rkey r <> (e, d) -> due index r -> due (record_mut e d f index) r.
Proof.
  intros Hnd Hk Hne (r' & Hin & E & Hc). exists r'. split; [|done]. simpl. apply update_first_elem; [done..|].
  left. split; [done|congruence].
Qed.

Lemma due_unsaved s index r : Good s index -> due index r -> ~ saved_submitted s (rkey r).
Proof.
  intros [[Hnd _] Hs] (r' & Hin & E & _ & Hns) (r2 & Hin2 & E2 & Hs2)%Hs. apply Hns.
  assert (r2 = r') as <- by (apply (unique_record index); congruence). done.
Qed.

Lemma due_stored s index r : Good s index -> due index r ->
  exists package, ex_scale s !! rkey r = Some (scale_encode package) /\ sh_epoch_id (pkg_header package) = xr_epoch_id r.
Proof.
  intros [[_ HF] _] (r' & Hin & E & Hc & _). rewrite Forall_forall in HF. destruct (HF r' Hin) as [Hst _].
  destruct (Hst Hc) as (package & A1 & A2 & _). rewrite E in A1, A2. by exists package.
Qed.

(** Sending the envelope of a due package is quiet. *)
Lemma send_quiet s envelope n response :
  ~ saved_submitted s (envelope_key envelope) ->
  quiet s (s {{ ex_node := n }} {{ ex_sent ::= fun sent => sent ++ [(envelope, response)] }}).
Proof. intros Hn. split; simpl; [done..|]. exists [(envelope, response)]. split; [done|]. by repeat constructor. Qed.

Lemma envelope_fields package d now envelope :
  relay_envelope package d now = Ok envelope ->
  env_target_domain envelope = d /\ env_epoch_id envelope = sh_epoch_id (pkg_header package) /\
  env_package_bytes envelope = scale_encode package /\ env_relay_submitted_at_unix_ms envelope = now /\
  env_package_hash envelope = pkg_package_hash package /\ env_source_domain envelope = sh_domain_id (pkg_header package).
Proof. unfold relay_envelope. intros Hop. dispatch_inv Hop. by subst. Qed.

Lemma good_mark s index r f :
  Good s index -> due index r ->
  (forall r, rkey (f r) = rkey r) -> (forall r, xr_status (f r) = xr_status r) ->
  (forall r, xr_package_hash (f r) = xr_package_hash r) ->
  (forall r', xr_relay_submission_state (f r') = Submitted -> accepted_for s (rkey r)) ->
  Good s (record_mut (xr_epoch_id r) (xr_target_domain r) f index).
Proof.
  intros HG (r0 & Hr0 & Ek & Hc & Hns) K1 K2 K3 Hf. pose proof HG as [[Hnd _] _].
  apply good_record_mut; [done|done|..]; intros r' Hin Hk;
    (assert (r' = r0) as -> by (apply (unique_record index); [done..|by rewrite Ek])); [|done].
  intros [A1 _]. split; rewrite ?K1, ?K2, ?K3; [done|]. intros Es. split; [done|]. rewrite Ek. by eapply Hf.
Qed.

(** What a submission leaves of the other records that are due. *)
Lemma ensures_submission s index r :
  Good s index -> due index r ->
  ensures s (submit_record r index) (fun index' s' => Good s' index' /\
    (forall r2, rkey r2 <> rkey r -> due index r2 -> due index' r2) /\
    (forall r2, r2 ∈ xi_packages index' -> (r2 ∈ xi_packages index /\ rkey r2 <> rkey r) \/
       rkey r2 = rkey r /\ xr_relay_submission_state r2 <> NotSubmitted)).
Proof.
  intros HG Hd. unfold submit_record. eapply ensures_bind; [apply ensures_query|]. intros now s1 Hq1 _.
  apply (good_quiet _ _ _ Hq1) in HG. clear s Hq1. rename s1 into s.
  destruct (due_stored _ _ _ HG Hd) as (package & Hp & He).
  apply (ensures_bind _ _ _ (fun loaded s' => s' = s /\ loaded.2 = package)).
  { unfold load_package, ensures, bind, gets. cbv beta iota. unfold rkey in Hp. rewrite Hp.
    destruct (ex_manifests s !! _); [|split; [reflexivity|done]]. rewrite decode_whole. by split; [reflexivity|]. }
  intros [manifest package'] s1 _ [-> Ep]. simpl in Ep. subst package'.
  apply (ensures_bind _ _ _ (fun envelope s' => s' = s /\ relay_envelope package (xr_target_domain r) now = Ok envelope));
    [by apply ensures_lift_if|].
  intros envelope s1 _ [-> Henv]. destruct (envelope_fields _ _ _ _ Henv) as (F1 & F2 & _).
  assert (envelope_key envelope = rkey r) as Hek by (unfold envelope_key, rkey; congruence).
  apply (ensures_bind _ _ _ (fun answer s' => Good s' index /\ forall receipt, answer = Ok receipt ->
    rr_accepted receipt = true -> accepted_for s' (rkey r))).
  { apply ensures_plain. unfold submit_package. destruct (post_packages _ _) as [n response].
    assert (quiet s (s {{ ex_node := n }} {{ ex_sent ::= fun sent => sent ++ [(envelope, response)] }})) as Hq.
    { apply send_quiet. rewrite Hek. by eapply due_unsaved. }
    split; [exact Hq|]. split; [by eapply good_quiet|]. intros receipt Hr Ha.
    exists package, now, envelope, response, receipt. split_and!; [done|done|simpl; set_solver|done|done]. }
  intros answer s2 _ [HG2 Hacc]. pose proof HG2 as [[Hnd _] _].
  assert (forall f, (forall r, rkey (f r) = rkey r) -> (forall r, xr_relay_submission_state (f r) <> NotSubmitted) ->
    (forall r2, rkey r2 <> rkey r -> due index r2 -> due (record_mut (xr_epoch_id r) (xr_target_domain r) f index) r2) /\
    (forall r2, r2 ∈ xi_packages (record_mut (xr_epoch_id r) (xr_target_domain r) f index) ->
       (r2 ∈ xi_packages index /\ rkey r2 <> rkey r) \/ rkey r2 = rkey r /\ xr_relay_submission_state r2 <> NotSubmitted))
    as Hothers.
  { intros f Hf Hst. split; [intros r2 Hne Hd2; by apply due_record_mut|]. intros r2 Hr2. simpl in Hr2.
    apply update_first_elem in Hr2 as [?|(r0 & _ & Hk & ->)]; [by left|right; rewrite Hf; by split|done..]. }
  destruct answer as [receipt|error].
  - apply (ensures_bind _ _ _ (fun _ s' => s' = s2 /\ rr_accepted receipt = true)).
    { apply ensures_lift_if. unfold ensure_submission_succeeded. intros []. by destruct (rr_accepted receipt). }
    intros [] s3 _ [-> Ha]. apply ensures_ret. split; [|by apply Hothers].
    apply good_mark; try done. intros _ _. by eapply Hacc.
  - apply ensures_ret. split; [|apply Hothers; [done|]; intros r'; simpl; by destruct (se_retryable error)].
    apply good_mark; try done. intros r'. simpl. by destruct (se_retryable error).
Qed.

(** No certified package is left without an attempt. *)
Lemma ensures_submit_records records : forall s index,
  Good s index -> NoDup (map rkey records) -> Forall (due index) records ->
  (forall r, r ∈ xi_packages index -> xr_status r = Certified -> xr_relay_submission_state r = NotSubmitted ->
     rkey r ∈ map rkey records) ->
  ensures s (submit_records records index) (fun index' s' => Good s' index' /\ attempted index').
Proof.
  induction records as [|x records IH]; intros s index HG Hnd HF Hrest.
  { apply ensures_ret. split; [done|]. intros r Hr Hc Hn. specialize (Hrest r Hr Hc Hn). set_solver. }
  cbn [submit_records]. simpl in Hnd. apply NoDup_cons in Hnd as [Hx Hnd]. apply Forall_cons in HF as [Hdx HF].
  eapply ensures_bind; [by apply ensures_submission|]. intros index1 s1 Hq (HG1 & Hdue & Hel). apply IH; [done|done|..].
  - apply Forall_forall. intros r Hr. rewrite Forall_forall in HF. apply Hdue; [|by apply HF].
    intros E. apply Hx. rewrite <-E. by apply list_elem_of_fmap_2.
  - intros r Hr Hc Hn. destruct (Hel r Hr) as [[Hin Hne]|[_ ?]]; [|done].
    specialize (Hrest r Hin Hc Hn). simpl in Hrest. set_solver.
Qed.

Lemma ensures_submissions s index :
  Good s index ->
  ensures s (submit_certified_packages_to_relay index) (fun index' s' => Good s' index' /\ attempted index').
Proof.
  intros HG. pose proof HG as [[Hnd _] _].
  assert (forall r, r ∈ List.filter to_submit (xi_packages index) <-> r ∈ xi_packages index /\
    xr_status r = Certified /\ xr_relay_submission_state r <> Submitted) as Hf.
  { intros r. rewrite !list_elem_of_In, filter_In. unfold to_submit. by rewrite andb_true_iff, !bool_decide_eq_true. }
  apply ensures_submit_records; [done|..].
  - clear -Hnd. induction (xi_packages index) as [|x l IH]; [constructor|]. simpl in *. apply NoDup_cons in Hnd as [Hx Hnd].
    destruct (to_submit x); [|by apply IH]. simpl. constructor; [|by apply IH].
    intros (r & E & Hr)%list_elem_of_fmap. apply Hx. rewrite E. apply list_elem_of_fmap_2.
    apply list_elem_of_In. apply list_elem_of_In in Hr. by apply filter_In in Hr as [? _].
  - apply Forall_forall. intros r (Hin & Hc & Hs)%Hf. by exists r.
  - intros r Hr Hc Hn. apply list_elem_of_fmap_2, Hf. rewrite Hn. done.
Qed.

(** ** Runs *)

Inductive exporter_step : Exporter N -> Exporter N -> Prop :=
| step_sync s : exporter_step s (fst (sync_once domain s))
| step_node s n : exporter_step s (s {{ ex_node := n }}).

(** A store without an index and without packages. *)
Definition exporter_init s : Prop :=
  ex_index s = None /\ ex_scale s = ∅ /\ ex_manifests s = ∅ /\ ex_sent s = [].
Definition exporter_reachable s : Prop := exists s0, exporter_init s0 /\ rtc exporter_step s0 s.

Record later s s' : Prop := {
  la_scale : ex_scale s ⊆ ex_scale s';
  la_submitted : forall k, saved_submitted s k -> saved_submitted s' k;
  la_sent : exists sent, ex_sent s' = ex_sent s ++ sent /\
    Forall (fun x => ~ saved_submitted s (envelope_key x.1)) sent
}.
#[local] Instance later_preorder : PreOrder later.
Proof.
  split.
  - intros s. split; [done..|]. exists []. by rewrite app_nil_r.
  - intros s1 s2 s3 [S1 M1 (l1 & E1 & F1)] [S2 M2 (l2 & E2 & F2)]. split; [by etransitivity|auto|].
    exists (l1 ++ l2). rewrite E2, E1, app_assoc. split; [done|]. apply Forall_app. split; [done|].
    eapply Forall_impl; [done|]. intros x Hx Hs. by apply Hx, M1.
Qed.

Lemma quiet_later s s' : quiet s s' -> SavedOk s -> SavedOk s' /\ later s s'.
Proof.
  intros Hq HS. split.
  - unfold SavedOk in *. rewrite (qt_index _ _ Hq). destruct (ex_index s) as [[]|]; try done.
    destruct HS as (? & ? & ?). split_and!; [by eapply index_quiet|done|done].
  - destruct Hq as [Ei ? ? ?]. split; [done| |done]. intros k. by rewrite (saved_submitted_quiet s s').
Qed.

Lemma ensures_open_index s : SavedOk s -> ensures s (load_index domain) (fun index s' => Good s' index /\ attempted index).
Proof.
  intros HS. unfold load_index. apply (ensures_bind _ _ _ (fun file s' => s' = s /\ file = ex_index s)); [by apply ensures_gets_if|].
  intros file s' _ [-> ->]. unfold SavedOk in HS. destruct (ex_index s) as [[index|?|?|?]|] eqn:E; try done.
  - apply (ensures_bind _ _ _ (fun i s' => s' = s /\ i = index)); [by apply ensures_ret|]. intros ? ? _ [-> ->].
    destruct (bool_decide _); [|apply ensures_fail]. apply ensures_ret. destruct HS as (HI & Ha & _). split; [split; [done|]|done].
    intros k (index' & E' & Hk). rewrite E in E'. by injection E' as <-.
  - apply ensures_ret. split; [split; [split; simpl; constructor|]|intros r; simpl; set_solver].
    intros k (index' & E' & _). congruence.
Qed.

(** Writing an index that is true. *)
Lemma save_spec s index :
  Good s index -> attempted index -> let '(s', res) := save_index domain index s in
  match res with Ok _ => ex_index s' = Some (CurrentIndex index) /\ SavedOk s' /\ later s s' | Err _ => s' = s end.
Proof.
  intros [HI Hs] Ha. unfold save_index. case_bool_decide as Hd; [|done]. unfold modify. simpl. split_and!; [done|done|].
  split; simpl; [done| |exists []; by rewrite app_nil_r]. intros k Hk. exists index. split; [done|]. by apply Hs.
Qed.

(** A synchronisation is quiet up to its last step, the write of the index. *)
Lemma sync_spec s :
  SavedOk s -> let '(s', res) := sync_once domain s in
  SavedOk s' /\ later s s' /\
  match res with Ok _ => exists index, ex_index s' = Some (CurrentIndex index) | Err _ => ex_index s' = ex_index s end.
Proof.
  intros HS. unfold sync_once. unfold bind at 1.
  pose proof (ensures_latest s) as H1'. rewrite ensures_plain in H1'. destruct (latest_staged_summary s) as [s1 [latest|e]];
    destruct H1' as [Hq1 _]; [|destruct (quiet_later _ _ Hq1 HS); split_and!; [done..|apply Hq1]].
  destruct (quiet_later _ _ Hq1 HS) as [HS1 L1]. unfold bind at 1.
  pose proof (ensures_open_index s1 HS1) as H2'. rewrite ensures_plain in H2'.
  destruct (load_index domain s1) as [s2 [index|e]]; destruct H2' as [Hq2 HG'];
    destruct (quiet_later _ _ Hq2 HS1) as [HS2 L2]; [|split_and!; [done|by etransitivity|rewrite (qt_index _ _ Hq2); apply Hq1]].
  assert (later s s2) as L by (by etransitivity). assert (ex_index s2 = ex_index s) as Ei
    by (rewrite (qt_index _ _ Hq2); apply Hq1). clear s1 Hq1 HS1 L1 Hq2 L2.
  set (index' := index {{ xi_latest_staged_epoch := _ }}).
  assert (Good s2 index' /\ attempted index') as [HG Ha] by (destruct HG'; split; [by eapply good_packages|done]).
  clearbody index'. clear index HG'.
  assert (forall s3 i, quiet s2 s3 -> Good s3 i /\ attempted i -> let '(s', res) := save_index domain i s3 in
    SavedOk s' /\ later s s' /\
    match res with Ok _ => exists index, ex_index s' = Some (CurrentIndex index) | Err _ => ex_index s' = ex_index s end) as Hsave.
  { intros s3 i Hq3 [HG3 Ha3]. destruct (quiet_later _ _ Hq3 HS2) as [HS3 L3]. pose proof (save_spec s3 i HG3 Ha3) as Hsv.
    destruct (save_index domain i s3) as [s4 [[]|e]].
    - destruct Hsv as (A1 & A2 & A3). split_and!; [done| |by exists i]. etransitivity; [exact L|]. by etransitivity.
    - subst s4. split_and!; [done|by etransitivity|]. rewrite (qt_index _ _ Hq3). done. }
  destruct latest as [latest|]; [|by apply Hsave].
  assert (ensures s2 (do! i := sync_epochs domain (seqZ 0 (sh_epoch_id (ss_header latest) + 1)) index' in
    submit_certified_packages_to_relay i) (fun i s3 => Good s3 i /\ attempted i)) as Hm.
  { eapply ensures_bind; [by apply ensures_sync_epochs|]. intros i s3 _ HGi. by apply ensures_submissions. }
  rewrite ensures_plain in Hm. unfold bind in Hm |- *. destruct (sync_epochs _ _ _ s2) as [s3 [i|e]].
  - destruct (submit_certified_packages_to_relay i s3) as [s4 [i'|e]]; destruct Hm as [Hq3 HG3]; [by apply Hsave|].
    destruct (quiet_later _ _ Hq3 HS2) as [HS3 L3]. split_and!; [done|by etransitivity|]. by rewrite (qt_index _ _ Hq3).
  - destruct Hm as [Hq3 _]. destruct (quiet_later _ _ Hq3 HS2) as [HS3 L3].
    split_and!; [done|by etransitivity|]. by rewrite (qt_index _ _ Hq3).
Qed.

Lemma exporter_run_ok s s' : rtc exporter_step s s' -> SavedOk s -> SavedOk s' /\ later s s'.
Proof.
  induction 1 as [s|s1 s2 s3 Hs _ IH]; intros HS; [by split|].
  assert (SavedOk s2 /\ later s1 s2) as [HS2 L].
  { destruct Hs as [s|s n].
    - pose proof (sync_spec s HS) as Hsp. destruct (sync_once domain s) as [s' res]. by destruct Hsp as (? & ? & _).
    - apply quiet_later; [by apply quiet_node|done]. }
  destruct (IH HS2). split; [done|by etransitivity].
Qed.

Lemma exporter_reachable_ok s : exporter_reachable s -> SavedOk s.
Proof.
  intros (s0 & (Ei & _) & Hr). apply exporter_run_ok in Hr as [? _]; [done|]. unfold SavedOk. by rewrite Ei.
Qed.

(** C35: the index file tells the truth.  In every state of every run, a record
    that the index file calls certified has its package stored under the record's
    epoch and target, with the package hash of the record, and was sent to the
    relay at least once; and for a record it calls submitted, the relay accepted
    an envelope with exactly the stored package for that target.  No two records
    are about the same epoch and target. *)
Theorem exporter_index_true s index r :
  exporter_reachable s -> ex_index s = Some (CurrentIndex index) -> r ∈ xi_packages index ->
  (xr_status r = Certified -> stored_for s (rkey r) (xr_package_hash r) /\ xr_relay_submission_state r <> NotSubmitted) /\
  (xr_relay_submission_state r = Submitted -> xr_status r = Certified /\ accepted_for s (rkey r)) /\
  (forall r', r' ∈ xi_packages index -> rkey r' = rkey r -> r' = r).
Proof.
  intros HS%exporter_reachable_ok E Hr. unfold SavedOk in HS. rewrite E in HS. destruct HS as ([Hnd HF] & Ha & _).
  rewrite Forall_forall in HF. destruct (HF r Hr) as [A1 A2]. split_and!; [|done|].
  - intros Hc. split; [by apply A1|by apply Ha].
  - intros r' Hr' Ek. by apply (unique_record index).
Qed.

(** C36: packages are final.  Whatever the node and the relay answer, a stored
    package is never overwritten or removed; and once the index file calls a
    package submitted it does so for ever, and no envelope is sent for its epoch
    and target again. *)
Theorem exporter_packages_final s s' k :
  exporter_reachable s -> rtc exporter_step s s' ->
  (forall bs, ex_scale s !! k = Some bs -> ex_scale s' !! k = Some bs) /\
  (saved_submitted s k -> saved_submitted s' k /\ exists sent, ex_sent s' = ex_sent s ++ sent /\
     Forall (fun x => envelope_key x.1 <> k) sent).
Proof.
  intros HS%exporter_reachable_ok Hr. destruct (exporter_run_ok _ _ Hr HS) as [_ [Hs Hm (sent & E & HF)]].
  split; [intros bs Hb; by eapply lookup_weaken|]. intros Hk. split; [by apply Hm|]. exists sent. split; [done|].
  eapply Forall_impl; [done|]. by intros x Hx <-.
Qed.

(** ** The [expect] of [mark_certified] *)

(** A handler does not panic, and its result satisfies [P]. *)
Definition returns {A} (m : ExporterM N A) (P : A -> Prop) : Prop :=
  forall s, match snd (m s) with Ok a => P a | Err e => e <> PendingRecordMissing end.

Lemma returns_ret {A} (a : A) (P : A -> Prop) : P a -> returns (ret a) P.
Proof. by intros HP s. Qed.
Lemma returns_fail {A} e (P : A -> Prop) : e <> PendingRecordMissing -> returns (fail e) P.
Proof. by intros He s. Qed.
Lemma returns_gets {A} (f : Exporter N -> A) : returns (gets f) (fun _ => True).
Proof. by intros s. Qed.
Lemma returns_modify f : returns (modify f) (fun _ => True).
Proof. by intros s. Qed.
Lemma returns_lift {A} (res : result ExporterError A) (P : A -> Prop) :
  match res with Ok a => P a | Err e => e <> PendingRecordMissing end -> returns (lift res) P.
Proof. by intros Hres s. Qed.
Lemma returns_bind {A B} (m : ExporterM N A) (k : A -> ExporterM N B) P Q :
  returns m P -> (forall a, P a -> returns (k a) Q) -> returns (bind m k) Q.
Proof.
  intros Hm Hk s. unfold bind. specialize (Hm s). destruct (m s) as [s' [a|e]]; [|done]. by apply Hk.
Qed.
Lemma returns_mono {A} (m : ExporterM N A) (P Q : A -> Prop) : returns m P -> (forall a, P a -> Q a) -> returns m Q.
Proof. intros Hm HQ s. specialize (Hm s). destruct (snd (m s)); auto. Qed.
Lemma returns_call {A} (f : N -> N * result Text A) e :
  (forall t, e t <> PendingRecordMissing) -> returns (call f e) (fun _ => True).
Proof. intros He s. unfold call. destruct (f (ex_node s)) as [n [a|t]]; simpl; [done|apply He]. Qed.
Lemma returns_storage {T} `{!Scale T} key : returns (load_storage_value (T := T) key) (fun _ => True).
Proof.
  eapply returns_bind; [by apply returns_call|]. intros [v|] _; [|by apply returns_ret].
  destruct (hex_decode _) as [raw|]; [|by apply returns_fail].
  destruct (scale_decode raw); [by apply returns_ret|by apply returns_fail].
Qed.
Lemma returns_load_each {T} (load : hash -> ExporterM N (option T)) missing ids :
  (forall id, returns (load id) (fun _ => True)) -> (forall id, missing id <> PendingRecordMissing) ->
  returns (load_each load missing ids) (fun _ => True).
Proof.
  intros Hl Hm. induction ids as [|id ids IH]; [by apply returns_ret|]. simpl.
  eapply returns_bind; [apply Hl|]. intros [v|] _; [|by apply returns_fail].
  eapply returns_bind; [apply IH|]. intros. by apply returns_ret.
Qed.

(** The node keeps every header under the key of its own epoch. *)
Definition headers_keyed : Prop := forall n n' e value raw header,
  state_getStorage ([48; 120] ++ hex_encode (summary_header_storage_key e)) n = (n', Ok (Some value)) ->
  hex_decode (strip_0x value) = Some raw -> scale_decode raw = Some header -> sh_epoch_id header = e.

Lemma returns_summary e :
  headers_keyed -> returns (summary_by_epoch e)
    (fun staged => match staged with Some staged => sh_epoch_id (ss_header staged) = e | None => True end).
Proof.
  intros Hk. unfold summary_by_epoch.
  apply (returns_bind _ _ (fun h => match h with Some h => sh_epoch_id h = e | None => True end)).
  { intros s. unfold load_storage_value, bind, call. destruct (state_getStorage _ _) as [n [[value|]|t]] eqn:Es; simpl; [|done..].
    destruct (hex_decode (strip_0x value)) as [raw|] eqn:Er; [|done]. destruct (scale_decode raw) as [h|] eqn:Eh; [|done].
    simpl. by eapply Hk. }
  intros header Hh. eapply returns_bind; [apply returns_storage|]. intros slot _.
  destruct header, slot as [slot|]; try (by apply returns_fail); [|by apply returns_ret].
  destruct (slot_staged_at_block_number slot); [by apply returns_ret|by apply returns_fail].
Qed.

Definition keys index : list PackageKey := map rkey (xi_packages index).

Lemma keys_record_mut e d f index : (forall r, rkey (f r) = rkey r) -> keys (record_mut e d f index) = keys index.
Proof. intros Hf. by apply update_first_keys. Qed.
Lemma keys_upsert e d sh bn bh ids reason index :
  (e, d) ∈ keys (upsert_pending e d sh bn bh ids reason index) /\
  keys index ⊆ keys (upsert_pending e d sh bn bh ids reason index).
Proof.
  unfold upsert_pending. destruct (record index e d) as [r0|] eqn:E.
  - rewrite keys_record_mut by (intros r; by destruct r as [???????[]]). apply record_elem in E as [Hin Hk].
    split; [|done]. rewrite <-Hk. by apply list_elem_of_fmap_2.
  - unfold keys. simpl. rewrite map_app. set_solver.
Qed.
Lemma keys_upsert_targets e staged readiness targets : forall index,
  keys index ⊆ keys (upsert_targets e staged readiness targets index) /\
  Forall (fun x => (e, x.1) ∈ keys (upsert_targets e staged readiness targets index)) targets.
Proof.
  unfold upsert_targets. induction targets as [|[d inputs] targets IH]; intros index; [done|]. simpl.
  set (index1 := upsert_pending _ _ _ _ _ _ _ _). destruct (IH index1) as [K1 F1].
  destruct (keys_upsert e d (sh_summary_hash (ss_header staged)) (ss_staged_at_block_number staged)
    (scr_staged_at_block_hash readiness) (collect_target_export_ids inputs)
    (match scr_state readiness with Pending reason => Some reason | Ready _ => None end) index) as [K2 K3].
  fold index1 in K2, K3. split; [by etransitivity|]. constructor; [by apply K1|done].
Qed.

Lemma decode_item_kinds_err bs e : decode_item_kinds bs = Err e -> e <> PendingRecordMissing.
Proof.
  induction bs as [|b bs IH]; intros Hop; simpl in Hop; [done|].
  destruct (scale_decode b) as [[]|]; destruct (decode_item_kinds bs); simplify_eq; try done; by apply IH.
Qed.
Lemma build_manifest_err package d ids path e :
  build_manifest domain package d ids path = Err e -> e <> PendingRecordMissing.
Proof.
  unfold build_manifest, decode_summary_header_storage_proof, decode_proof_kinds. destruct (pkg_certificate package).
  destruct (head _) as [first|]; [|by intros [= <-]]. destruct (scale_decode first) as [[]|]; try by intros [= <-].
  destruct (decode_item_kinds _) eqn:E; [done|]. intros [= <-]. by eapply decode_item_kinds_err.
Qed.

Lemma returns_persist index d ids package :
  (sh_epoch_id (pkg_header package), d) ∈ keys index ->
  returns (persist_package domain index d ids package) (fun index' => keys index' = keys index).
Proof.
  intros Hk. unfold persist_package. destruct (match record _ _ _ with Some _ => _ | None => _ end); [|by apply returns_fail].
  eapply returns_bind; [apply returns_gets|]. intros current _.
  destruct (match current with Some _ => _ | None => _ end); [|by apply returns_fail].
  apply (returns_bind _ _ (fun _ => True)).
  { assert (forall ext, returns (archive_phase_2a_file (N := N) (sh_epoch_id (pkg_header package)) ext) (fun _ => True)) as Ha.
    { intros ext. eapply returns_bind; [apply returns_gets|]. intros [c|] _; [apply returns_modify|by apply returns_ret]. }
    eapply returns_bind; [apply Ha|]. intros. apply Ha. }
  intros _ _. apply (returns_bind _ _ (fun _ => True)).
  { apply returns_lift. destruct (build_manifest _ _ _ _ _) eqn:E; [done|]. by eapply build_manifest_err. }
  intros manifest _. eapply returns_bind; [apply returns_modify|]. intros _ _.
  eapply returns_bind; [apply returns_modify|]. intros _ _. destruct (pkg_certificate package) as [certificate].
  apply returns_lift. unfold mark_certified. destruct (record_some _ _ _ Hk) as [r ->].
  unfold keys. simpl. apply update_first_keys. intros r'. by destruct r' as [???????[]].
Qed.

Lemma target_package_err header bundle leaves imports governance inputs e :
  target_package header bundle leaves imports governance inputs = Err e -> e <> PendingRecordMissing.
Proof.
  assert (forall {A B} (f : A -> result ExporterError B) l e, (forall a e, f a = Err e -> e <> PendingRecordMissing) ->
    collect f l = Err e -> e <> PendingRecordMissing) as Hc.
  { intros A B f l e0 Hf. induction l as [|a l IH]; simpl; intros Hop; [done|].
    destruct (f a) eqn:Ef; [|injection Hop as <-; by eapply Hf]. dispatch_inv Hop. subst. by apply IH. }
  unfold target_package. destruct (collect _ (ti_export_leaves _)) eqn:E1.
  2:{ intros [= <-]. eapply Hc; [|exact E1]. intros ? ?. simpl. by destruct (build_export_inclusion_proof _ _); simpl; intros [= <-]. }
  destruct (collect _ (ti_finalized_import_leaves _)) eqn:E2.
  2:{ intros [= <-]. eapply Hc; [|exact E2]. intros ? ?. simpl. by destruct (build_finalized_import_inclusion_proof _ _); simpl; intros [= <-]. }
  destruct (collect _ (ti_governance_leaves _)) eqn:E3.
  2:{ intros [= <-]. eapply Hc; [|exact E3]. intros ? ?. simpl. by destruct (build_governance_inclusion_proof _ _); simpl; intros [= <-]. }
  simpl. done.
Qed.

Lemma target_package_header header bundle leaves imports governance inputs package :
  target_package header bundle leaves imports governance inputs = Ok package -> pkg_header package = header.
Proof. unfold target_package. intros Hop. dispatch_inv Hop. by subst. Qed.

Lemma returns_persist_targets header bundle leaves imports governance targets : forall index,
  Forall (fun x => (sh_epoch_id header, x.1) ∈ keys index) targets ->
  returns (persist_targets domain header bundle leaves imports governance targets index) (fun _ => True).
Proof.
  induction targets as [|[d inputs] targets IH]; intros index HF; [by apply returns_ret|]. cbn [persist_targets].
  apply Forall_cons in HF as [Hd HF].
  apply (returns_bind _ _ (fun package => pkg_header package = header)).
  { apply returns_lift. destruct (target_package _ _ _ _ _ _) eqn:E; [by eapply target_package_header|by eapply target_package_err]. }
  intros package Hp. eapply returns_bind; [apply returns_persist; by rewrite Hp|]. intros index1 Hk1. apply IH. by rewrite Hk1.
Qed.

Lemma returns_sync_epoch index e : headers_keyed -> returns (sync_epoch domain index e) (fun _ => True).
Proof.
  intros Hk. unfold sync_epoch. eapply returns_bind; [by apply returns_summary|]. intros [staged|] Hs; [|by apply returns_ret].
  assert (forall key, returns (do! ids := load_storage_value (T := list hash) key in ret (default [] ids)) (fun _ => True)) as Hids.
  { intros key. eapply returns_bind; [apply returns_storage|]. intros. by apply returns_ret. }
  assert (forall {T} `{!Scale T} key missing key2, (forall id, missing id <> PendingRecordMissing) ->
    returns (do! ids := (do! ids := load_storage_value (T := list hash) key in ret (default [] ids)) in
            load_each (fun id => load_storage_value (T := T) (key2 id)) missing ids) (fun _ => True)) as Hload.
  { intros T ? key missing key2 Hm. eapply returns_bind; [apply Hids|]. intros. apply returns_load_each; [|done].
    intros. apply returns_storage. }
  eapply returns_bind; [by apply returns_call|]. intros readiness _.
  eapply returns_bind; [by apply (Hload ExportRecord)|]. intros exports _.
  destruct (bool_decide _); [|by apply returns_fail].
  eapply returns_bind; [by apply (Hload ObservedImportRecord)|]. intros imports _.
  destruct (bool_decide _); [|by apply returns_fail].
  eapply returns_bind; [by apply (Hload GovernanceLeaf)|]. intros governance _.
  destruct (bool_decide _); [|by apply returns_fail].
  destruct (scr_state readiness); [by apply returns_ret|]. apply returns_persist_targets. rewrite Hs. apply keys_upsert_targets.
Qed.

Lemma returns_submit r index : returns (submit_record (N := N) r index) (fun _ => True).
Proof.
  eapply returns_bind; [by apply returns_call|]. intros now _. apply (returns_bind _ _ (fun _ => True)).
  { eapply returns_bind; [apply returns_gets|]. intros manifest _. eapply returns_bind; [apply returns_gets|]. intros bs _.
    destruct manifest, bs as [bs|]; try by apply returns_fail. destruct (scale_decode bs); [by apply returns_ret|by apply returns_fail]. }
  intros [manifest package] _. apply (returns_bind _ _ (fun _ => True)).
  { apply returns_lift. unfold relay_envelope. by destruct (_ <=? _). }
  intros envelope _. apply (returns_bind _ _ (fun _ => True)).
  { intros s. unfold submit_package. by destruct (post_packages _ _). }
  intros [receipt|error] _; [|by apply returns_ret]. apply (returns_bind _ _ (fun _ => True)); [|intros; by apply returns_ret].
  apply returns_lift. unfold ensure_submission_succeeded. by destruct (rr_accepted receipt).
Qed.

(** The exporter does not panic.  When the node keeps every summary header under
    the key of its own epoch, no synchronisation, from any state of the store and
    whatever else the node and the relay answer, reaches the [expect] of
    [mark_certified] with no record to certify. *)
Theorem exporter_never_panics s : headers_keyed -> snd (sync_once domain s) <> Err PendingRecordMissing.
Proof.
  intros Hk. assert (returns (sync_once domain) (fun _ => True)) as Hy.
  2:{ specialize (Hy s). destruct (snd (sync_once domain s)); [done|]. by intros [= ->]. }
  assert (forall index, returns (save_index (N := N) domain index) (fun _ => True)) as Hsave.
  { intros index. unfold save_index. destruct (bool_decide _); [apply returns_modify|by apply returns_fail]. }
  assert (forall epochs index, returns (sync_epochs domain epochs index) (fun _ => True)) as Hep.
  { induction epochs as [|e epochs IH]; intros index; [by apply returns_ret|]. eapply returns_bind; [by apply returns_sync_epoch|].
    intros. apply IH. }
  assert (forall records index, returns (submit_records (N := N) records index) (fun _ => True)) as Hsub.
  { induction records as [|r records IH]; intros index; [by apply returns_ret|]. eapply returns_bind; [by apply returns_submit|].
    intros. apply IH. }
  apply (returns_bind _ _ (fun _ => True)).
  { eapply returns_bind; [apply returns_storage|]. intros [h|] _; [|by apply returns_ret].
    eapply returns_mono; [by apply returns_summary|done]. }
  intros latest _. apply (returns_bind _ _ (fun _ => True)).
  { eapply returns_bind; [apply returns_gets|]. intros [file|] _; [|by apply returns_ret]. apply (returns_bind _ _ (fun _ => True)).
    - destruct file as [index|legacy|v [d|] l|v]; try (by apply returns_ret); try (by apply returns_fail);
        repeat (eapply returns_bind; [first [apply returns_modify|by apply (returns_ret _ (fun _ => True))]|intros _ _]); by apply returns_ret.
    - intros index _. destruct (bool_decide _); [by apply returns_ret|by apply returns_fail]. }
  intros index _. destruct latest; [|apply Hsave]. eapply returns_bind; [apply Hep|]. intros index1 _.
  eapply returns_bind; [apply Hsub|]. intros. apply Hsave.
Qed.
End Runs.
