(* ===== verification/ExporterChain.v ===== *)
(** * The exporter of a chain

    A node that serves the state of a chain: what the exporter packages from it is
    complete and passes every check behind it.  Every closed epoch that the node
    can certify is synchronised without an error, and leaves for every domain that
    something is addressed to one package with exactly those leaves, which the
    relay accepts and whose items the domain's importer verifies. *)

From S2P Require Import Prelude Types Effects Handlers Codec Merkle Frame Epochs Transfers TransfersProofs Governance GovernanceProofs PublicationProofs GovernanceOrigins Runtime RuntimeProofs Config Verify VerifyProofs Relay Exporter ExporterProofs ExporterSafety.

(** ** The leaves of a closed epoch *)
Section Leaves.
Context `{!Codec, !CodecOk, !CodecSep, !Account, !AccountOk, !Currency B, !CurrencyOk B}.
Context (d : DomainId) (L : Z) (HL : 1 <= L).
Context (export_ids_distinct : forall s s',
  0 <= s < u64_max -> 0 <= s' < u64_max -> export_id d s = export_id d s' -> s = s').
Context (proposal_ids_distinct : forall d1 d2 s1 s2,
  0 <= s1 < u64_max -> 0 <= s2 < u64_max ->
  governance_proposal_id d1 s1 = governance_proposal_id d2 s2 -> d1 = d2 /\ s1 = s2).

(** What a chain keeps for an epoch. *)
Definition epoch_exports_of (ch : Chain B) (e : Z) : list ExportLeaf :=
  canonical_epoch_exports (w_transfers (ch_world ch)) e.
Definition epoch_imports_of (ch : Chain B) (e : Z) : list FinalizedImportLeaf :=
  canonical_epoch_finalized_imports (w_transfers (ch_world ch)) e.
Definition epoch_governance_of (ch : Chain B) (e : Z) : list GovernanceLeaf :=
  canonical_epoch_governance_leaves (w_governance (ch_world ch)) e.

(** Fewer than [2^32] leaves. *)
Definition epoch_bounded (ch : Chain B) (e : Z) : Prop :=
  Z.of_nat (length (epoch_exports_of ch e) + length (epoch_imports_of ch e) + length (epoch_governance_of ch e)) <= u32_max.

Lemma nodup_length_size `{Countable K} {A} (m : gmap K A) (ids : list K) :
  NoDup ids -> (forall id, id ∈ ids -> is_Some (m !! id)) -> (length ids <= size m)%nat.
Proof.
  intros Hnd Hin. rewrite <-size_dom, <-(size_list_to_set (C := gset K)) by done. apply subseteq_size.
  intros id Hid%elem_of_list_to_set. apply elem_of_dom. auto.
Qed.

(** A chain with fewer than [2^32] records. *)
Lemma bounded_by_size hist ch e :
  chain_run d L hist ch ->
  Z.of_nat (size (ts_exports_by_id (w_transfers (ch_world ch))) + size (ts_observed_imports_by_id (w_transfers (ch_world ch)))
            + size (gs_leaves_by_id (w_governance (ch_world ch)))) <= u32_max ->
  epoch_bounded ch e.
Proof.
  intros Hrun Hb. destruct (chain_run_ok d L HL export_ids_distinct proposal_ids_distinct _ _ Hrun) as [_ [_ Ht Hg _]].
  destruct (transfers_reachable_inv d export_ids_distinct _ Ht) as [HX HI].
  pose proof (gov_reachable_leaves d proposal_ids_distinct _ Hg) as HG. pose proof (gov_reachable_pub d proposal_ids_distinct _ Hg) as HP.
  unfold epoch_bounded, epoch_exports_of, epoch_imports_of, epoch_governance_of, canonical_epoch_exports,
    canonical_epoch_finalized_imports, canonical_epoch_governance_leaves, sort_export_leaves, sort_finalized_import_leaves,
    sort_governance_leaves. rewrite !length_sort_by.
  pose proof (omap_length_le (fun id => er_leaf <$> ts_exports_by_id (w_transfers (ch_world ch)) !! id)
    (Transfers.epoch_export_ids (w_transfers (ch_world ch)) e)) as O1.
  pose proof (omap_length_le (fun id => ts_observed_imports_by_id (w_transfers (ch_world ch)) !! id ≫= finalized_leaf)
    (Transfers.epoch_finalized_import_ids (w_transfers (ch_world ch)) e)) as O2.
  pose proof (omap_length_le (fun id => gs_leaves_by_id (w_governance (ch_world ch)) !! id)
    (gs_epoch_leaf_ids (w_governance (ch_world ch)) !!! e)) as O3.
  pose proof (nodup_length_size _ _ (inv_export_nodup _ _ HX e)
    (fun id Hid => let 'ex_intro _ r (conj Hr _) := proj1 (inv_export_ids _ _ HX e id) Hid in mk_is_Some _ _ Hr)) as S1.
  pose proof (nodup_length_size _ _ (inv_finalized_nodup _ _ HI e)
    (fun id Hid => let 'ex_intro _ r (conj Hr _) := proj1 (inv_finalized_ids _ _ HI id) (ex_intro _ e Hid) in mk_is_Some _ _ Hr)) as S2.
  pose proof (nodup_length_size _ _ (pub_nodup _ _ HP e) (lf_ids _ HG e)) as S3.
  simpl in *. lia.
Qed.

Lemma chain_headers hist ch e h :
  chain_run d L hist ch -> es_summary_headers (ch_epochs ch) !! e = Some h ->
  sh_domain_id h = d /\ sh_epoch_id h = e /\ 0 <= e < current_epoch ch /\
  exists slot staged, es_summary_slots (ch_epochs ch) !! e = Some slot /\ slot_staged_at_block_number slot = Some staged /\ 0 <= staged.
Proof.
  intros Hrun Hh. destruct (chain_run_ok d L HL export_ids_distinct proposal_ids_distinct _ _ Hrun) as [He _].
  destruct (epochs_run_state d L HL export_ids_distinct _ _ He) as [[_ E]|[_ HI]]; simpl in *; [by rewrite E in Hh|].
  destruct (decide (0 <= e < es_current_epoch (ch_epochs ch))) as [Hlt|Hn];
    [|rewrite (inv_no_headers _ _ _ _ HI e Hn) in Hh; done].
  destruct (inv_headers _ _ _ _ HI e Hlt) as (h' & Hh' & _ & _ & Hd & Hep & _). rewrite Hh in Hh'. injection Hh' as <-.
  destruct (inv_staged _ _ _ _ HI e Hlt) as (slot & Hs & _ & _ & Hst). split_and!; [done|done|unfold current_epoch; lia..|].
  exists slot, ((e + 1) * L + 1). split_and!; [done|done|nia].
Qed.

Lemma omap_key_nodup {A K} (key : A -> K) (f : K -> option A) (ids : list K) :
  (forall id a, id ∈ ids -> f id = Some a -> key a = id) -> NoDup ids -> NoDup (map key (omap f ids)).
Proof.
  intros Hk. induction ids as [|id ids IH]; intros Hnd; simpl; [constructor|]. apply NoDup_cons in Hnd as [Hid Hnd].
  specialize (IH (fun i a Hi => Hk i a (list_elem_of_further _ _ _ Hi)) Hnd).
  destruct (f id) as [a|] eqn:E; [|done]. simpl. constructor; [|done]. rewrite (Hk id a) by (set_solver || done).
  intros (a' & -> & (id' & Hin & E')%list_elem_of_omap)%list_elem_of_fmap. apply Hid.
  by rewrite (Hk id' a') by (set_solver || done).
Qed.

(** The governance leaves of an epoch are the ones it may publish. *)
Lemma chain_epoch_published hist ch e :
  chain_run d L hist ch -> plain_proposals (w_governance (ch_world ch)) ->
  Forall (fun l => publishable d (w_governance (ch_world ch)) e l) (epoch_governance_of ch e) \/ collision blake2_256.
Proof.
  intros Hrun Hpl. destruct (chain_run_ok d L HL export_ids_distinct proposal_ids_distinct _ _ Hrun) as [_ [_ _ Hg _]].
  assert (forall ls, (forall l, l ∈ ls -> l ∈ epoch_governance_of ch e) ->
    Forall (fun l => publishable d (w_governance (ch_world ch)) e l) ls \/ collision blake2_256) as Hall; [|by apply Hall].
  induction ls as [|l ls IH]; intros Hin; [by left|]. destruct IH as [IH|?]; [set_solver| |by right].
  destruct (epoch_leaf_published d proposal_ids_distinct (gov_conf ch) e l Hg Hpl) as [?|?]; [apply Hin; set_solver| |by right].
  left. by constructor.
Qed.

Lemma chain_epoch_leaves hist ch e h :
  chain_run d L hist ch -> es_summary_headers (ch_epochs ch) !! e = Some h ->
  plain_proposals (w_governance (ch_world ch)) -> epoch_bounded ch e ->
  EpochLeaves h (epoch_exports_of ch e) (epoch_imports_of ch e) (epoch_governance_of ch e) \/ collision blake2_256.
Proof.
  intros Hrun Hh Hpl Hb. destruct (chain_headers _ _ _ _ Hrun Hh) as (Hd & Hep & _).
  destruct (chain_run_ok d L HL export_ids_distinct proposal_ids_distinct _ _ Hrun) as [_ [_ Ht Hg Hr]].
  destruct (Hr e h Hh) as [_ (R1 & R2 & R3)]. destruct (R3 Hpl) as [R3'|?]; [clear R3|by right].
  destruct (transfers_reachable_inv d export_ids_distinct _ Ht) as [HX HI].
  destruct (chain_epoch_published hist ch e Hrun Hpl) as [HG|?]; [left|by right].
  split; rewrite ?Hd, ?Hep; try done.
  - apply Forall_forall. intros leaf (x & Hx & <- & Ee)%(canonical_exports_elem d (transfers_conf ch)); [|done].
    destruct (inv_export_ok _ _ HX _ _ Hx) as (_ & Hhash & Hs & _). by split_and!.
  - apply Forall_forall. intros leaf (_ & r & Hrr & Hl)%(canonical_imports_elem d (transfers_conf ch)); [|done].
    split; [by eapply finalized_leaf_hashed|]. destruct (inv_observed _ _ HI _ _ Hrr) as [_ Ht'].
    unfold finalized_leaf in Hl. destruct (bool_decide _); [done|]. injection Hl as <-. done.
  - eapply Forall_impl; [exact HG|]. intros l [Hok [_ Hl]]. split; [apply Hok|]. destruct l as [q|a]; simpl.
    + destruct Hl as (? & ? & _). split; congruence.
    + destruct Hl as [_ ?]. congruence.
  - unfold epoch_exports_of, canonical_epoch_exports, sort_export_leaves. rewrite sort_by_perm. apply omap_key_nodup.
    + intros id leaf Hid Hl. destruct (ts_exports_by_id _ !! id) as [x|] eqn:Ex; [|done]. injection Hl as <-.
      by destruct (inv_export_ok _ _ HX _ _ Ex) as (? & _).
    + apply (inv_export_nodup _ _ HX).
  - unfold epoch_imports_of, canonical_epoch_finalized_imports, sort_finalized_import_leaves. rewrite sort_by_perm.
    apply omap_key_nodup; [|apply (inv_finalized_nodup _ _ HI)]. intros id leaf Hid Hl.
    destruct (ts_observed_imports_by_id _ !! id) as [r|] eqn:Er; [|done]. simpl in Hl.
    destruct (inv_observed _ _ HI _ _ Er) as [<- _]. unfold finalized_leaf in Hl. destruct (bool_decide _); [done|].
    by injection Hl as <-.
  - apply (epoch_leaves_nodup d proposal_ids_distinct (gov_conf ch)). done.
  - unfold epoch_bounded in Hb. lia.
Qed.
End Leaves.

(** ** Records after a change *)

Lemma find_update_other {A} (p q : A -> bool) (f : A -> A) l :
  (forall x, p x = true -> q x = true -> False) -> (forall x, p (f x) = p x) -> find p (update_first q f l) = find p l.
Proof.
  intros Hpq Hf. induction l as [|x l IH]; [done|]. simpl. destruct (q x) eqn:E; simpl; [|by rewrite IH].
  rewrite Hf. destruct (p x) eqn:Ep; [by destruct (Hpq x)|done].
Qed.
Lemma find_update_same {A} (p : A -> bool) (f : A -> A) l x :
  (forall x, p (f x) = p x) -> find p l = Some x -> find p (update_first p f l) = Some (f x).
Proof.
  intros Hf. induction l as [|y l IH]; [done|]. simpl. destruct (p y) eqn:E; simpl.
  - intros [= ->]. by rewrite Hf, E.
  - rewrite E. apply IH.
Qed.

Lemma find_push {A} (p : A -> bool) l x :
  find p (l ++ [x]) = match find p l with Some y => Some y | None => if p x then Some x else None end.
Proof. induction l as [|y l IH]; [done|]. simpl. by destruct (p y). Qed.

(** ** A node that serves a chain *)
Section Serving.
Context `{!Codec, !CodecOk, !HexCodec, !HexCodecOk, !ExporterCodec, !Account, !Currency B} {N : Type} `{!ExporterEnv N}.

Class ExporterCodecOk : Prop := {
  slot_ok :: ScaleOk SummarySlotRecord;
  hashes_ok :: ScaleOk (list hash);
  stored_export_ok :: ScaleOk ExportRecord;
  stored_import_ok :: ScaleOk ObservedImportRecord;
  stored_leaf_ok :: ScaleOk GovernanceLeaf
}.
Context `{!ExporterCodecOk}.

(** The storage of a chain, at the keys the exporter reads. *)
Record stores (ch : Chain B) (store : bytes -> option bytes) : Prop := {
  so_latest : store latest_summary_header_storage_key = scale_encode <$> es_latest_summary_header (ch_epochs ch);
  so_header : forall e, store (summary_header_storage_key e) = scale_encode <$> es_summary_headers (ch_epochs ch) !! e;
  so_slot : forall e, store (summary_slot_storage_key e) = scale_encode <$> es_summary_slots (ch_epochs ch) !! e;
  so_export_ids : forall e, store (epoch_export_ids_storage_key e)
    = scale_encode <$> ts_epoch_export_ids (w_transfers (ch_world ch)) !! e;
  so_export : forall id, store (export_record_storage_key id)
    = scale_encode <$> ts_exports_by_id (w_transfers (ch_world ch)) !! id;
  so_import_ids : forall e, store (epoch_finalized_import_ids_storage_key e)
    = scale_encode <$> ts_epoch_finalized_import_ids (w_transfers (ch_world ch)) !! e;
  so_import : forall id, store (observed_import_storage_key id)
    = scale_encode <$> ts_observed_imports_by_id (w_transfers (ch_world ch)) !! id;
  so_leaf_ids : forall e, store (epoch_governance_leaf_ids_storage_key e)
    = scale_encode <$> gs_epoch_leaf_ids (w_governance (ch_world ch)) !! e;
  so_leaf : forall h, store (governance_leaf_storage_key h)
    = scale_encode <$> gs_leaves_by_id (w_governance (ch_world ch)) !! h
}.

(** The node answers from a storage, and with the readiness of each epoch, in every
    state that its answers lead to. *)
Record Serves (I : N -> Prop) (store : bytes -> option bytes) (ready : Z -> SummaryCertificationReadiness) : Prop := {
  sv_storage : forall n key, I n -> exists n', I n' /\
    state_getStorage ([48; 120] ++ hex_encode key) n = (n', Ok ((fun v => [48; 120] ++ hex_encode v) <$> store key));
  sv_ready : forall n e, I n -> exists n', I n' /\ ialp_summary_certificationReadiness e n = (n', Ok (ready e))
}.

Context (I : N -> Prop) (store : bytes -> option bytes) (ready : Z -> SummaryCertificationReadiness).
Context (Hserve : Serves I store ready) (ch : Chain B) (Hst : stores ch store).

(** A handler that only reads from the node, and gives [a]. *)
Definition reads {A} (m : ExporterM N A) (a : A) : Prop :=
  forall s, I (ex_node s) -> exists n, I n /\ m s = (s {{ ex_node := n }}, Ok a).

Lemma reads_ret {A} (a : A) : reads (ret a) a.
Proof. intros s Hs. exists (ex_node s). split; [done|]. by destruct s. Qed.
Lemma reads_bind {A B'} (m : ExporterM N A) (k : A -> ExporterM N B') a b :
  reads m a -> reads (k a) b -> reads (bind m k) b.
Proof.
  intros Hm Hk s Hs. destruct (Hm s Hs) as (n & Hn & E).
  match type of E with _ = (?s1, _) => destruct (Hk s1 Hn) as (n' & Hn' & E') end.
  exists n'. split; [done|]. unfold bind. by rewrite E, E'.
Qed.
Lemma reads_storage {T} `{!Scale T, !ScaleOk T} key (o : option T) :
  store key = scale_encode <$> o -> reads (load_storage_value key) o.
Proof.
  intros Hk s Hs. destruct (sv_storage _ _ _ Hserve (ex_node s) key Hs) as (n & Hn & E). exists n. split; [done|].
  unfold load_storage_value, bind, call. rewrite E, Hk. destruct o as [v|]; simpl; [|done].
  by rewrite hex_decode_encode, decode_whole.
Qed.
Lemma reads_each {T} (load : hash -> ExporterM N (option T)) missing (f : hash -> option T) ids :
  (forall id, reads (load id) (f id)) -> (forall id, id ∈ ids -> is_Some (f id)) ->
  reads (load_each load missing ids) (omap f ids).
Proof.
  intros Hl. induction ids as [|id ids IH]; intros Hf; [apply reads_ret|]. simpl.
  destruct (Hf id) as [v Hv]; [by left|]. rewrite Hv. eapply reads_bind; [apply Hl|]. rewrite Hv.
  eapply reads_bind; [apply IH; intros id' Hid'; apply Hf; by right|]. apply reads_ret.
Qed.

Lemma reads_summary e h slot staged :
  es_summary_headers (ch_epochs ch) !! e = Some h -> es_summary_slots (ch_epochs ch) !! e = Some slot ->
  slot_staged_at_block_number slot = Some staged -> reads (summary_by_epoch e) (Some (mkStagedSummaryView h staged)).
Proof.
  intros Hh Hs Hb. eapply reads_bind; [apply reads_storage, Hst|]. eapply reads_bind; [apply reads_storage, Hst|].
  rewrite Hh, Hs, Hb. apply reads_ret.
Qed.
Lemma reads_ids key (m : gmap Z (list hash)) e :
  store key = scale_encode <$> m !! e ->
  reads (do! ids := load_storage_value (T := list hash) key in ret (default [] ids)) (m !!! e).
Proof.
  intros Hk. eapply reads_bind; [by apply reads_storage|]. rewrite lookup_total_alt. apply reads_ret.
Qed.
End Serving.

(** ** Storing the packages of an epoch *)
Section Storing.
Context `{!Codec, !CodecOk, !HexCodec} {N : Type} (domain : DomainId).
Implicit Types (s : Exporter N) (index : ExporterIndex).

Lemma decode_kinds_items rest : Forall is_item rest -> exists kinds, decode_item_kinds rest = Ok kinds.
Proof.
  induction 1 as [|b rest Hb _ (kinds & IH)]; [by exists []|]. unfold is_item in Hb. simpl.
  destruct (scale_decode b) as [[]|]; try done; rewrite IH; by eexists.
Qed.

Lemma archive_runs s e : exists s', archive_phase_2a_package_files_if_needed e s = (s', Ok tt) /\
  ex_index s' = ex_index s /\ ex_scale s' = ex_scale s /\ ex_sent s' = ex_sent s /\ ex_node s' = ex_node s.
Proof.
  unfold archive_phase_2a_package_files_if_needed, archive_phase_2a_file, bind, gets, modify.
  destruct (ex_phase_2a s !! (e, ScaleFile)); simpl; (destruct (_ !! (e, JsonFile)); simpl; eexists; by split_and!).
Qed.

(** A package for a record with the header's summary hash, where its file is free. *)
Lemma persist_runs s index d ids package proof rest r :
  let k : PackageKey := (sh_epoch_id (pkg_header package), d) in
  record index k.1 d = Some r -> xr_summary_hash r = hex_hash (sh_summary_hash (pkg_header package)) ->
  pkg_inclusion_proofs package = scale_encode (SummaryHeaderStorageV1 proof) :: rest -> Forall is_item rest ->
  ex_scale s !! k = None \/ ex_scale s !! k = Some (scale_encode package) ->
  exists s' index', persist_package domain index d ids package s = (s', Ok index') /\
    ex_scale s' = <[k := scale_encode package]> (ex_scale s) /\ ex_node s' = ex_node s /\
    (forall e' d', (e', d') <> k -> record index' e' d' = record index e' d') /\
    exists r', record index' k.1 d = Some r' /\ xr_status r' = Certified /\ xr_summary_hash r' = xr_summary_hash r /\
      xr_package_hash r' = Some (hex_hash (pkg_package_hash package)).
Proof.
  intros k Hr Hh Hp Hi Hf. unfold persist_package. simpl in Hr. rewrite Hr, Hh, bool_decide_eq_true_2 by done.
  unfold bind at 1, gets. cbv zeta. fold k.
  assert (match ex_scale s !! k with Some current => bool_decide (current = scale_encode package) | None => true end = true) as ->
    by (destruct Hf as [->| ->]; [done|by apply bool_decide_eq_true_2]).
  unfold bind at 1. destruct (archive_runs s (sh_epoch_id (pkg_header package))) as (s1 & -> & E1 & E2 & E3 & E4).
  unfold bind at 1, lift. unfold build_manifest. rewrite Hp. destruct (pkg_certificate package) as [certificate].
  change (head (scale_encode (SummaryHeaderStorageV1 proof) :: rest)) with (Some (scale_encode (SummaryHeaderStorageV1 proof))).
  cbv iota beta. change (tail (scale_encode (SummaryHeaderStorageV1 proof) :: rest)) with rest.
  unfold decode_summary_header_storage_proof. rewrite decode_whole. unfold decode_proof_kinds.
  destruct (decode_kinds_items rest Hi) as [kinds ->]. unfold bind, modify. simpl. unfold mark_certified. rewrite Hr.
  eexists _, _. split; [reflexivity|]. split_and!; [simpl; by rewrite E2|done|..].
  - intros e' d' Hne. unfold record. simpl. apply find_update_other; [|intros r0; by destruct r0 as [???????[]]].
    intros r0 K1 K2. apply same_key_spec in K1, K2. apply Hne. unfold k. congruence.
  - unfold record in *. simpl. eexists. split; [apply find_update_same; [|exact Hr]; intros r0; by destruct r0 as [???????[]]|].
    by destruct r as [???????[]].
Qed.

Lemma upsert_record e d sh bn bh ids reason index :
  exists r, record (upsert_pending e d sh bn bh ids reason index) e d = Some r /\ xr_summary_hash r = hex_hash sh.
Proof.
  unfold upsert_pending. destruct (record index e d) as [r|] eqn:E; unfold record in *; simpl.
  - eexists. split; [apply find_update_same; [|exact E]; intros r0; by destruct r0 as [???????[]]|].
    by destruct r as [???????[]].
  - rewrite find_push, E. simpl. unfold same_key. simpl. rewrite Z.eqb_refl, bool_decide_eq_true_2 by done. by eexists.
Qed.
Lemma upsert_record_other e d sh bn bh ids reason index e' d' :
  (e', d') <> (e, d) -> record (upsert_pending e d sh bn bh ids reason index) e' d' = record index e' d'.
Proof.
  intros Hne. unfold upsert_pending. destruct (record index e d) as [r|]; unfold record; simpl.
  - apply find_update_other; [|intros r0; by destruct r0 as [???????[]]].
    intros r0 K1 K2. apply same_key_spec in K1, K2. congruence.
  - rewrite find_push. destruct (find _ _); [done|]. simpl. unfold same_key. simpl.
    destruct (e =? e') eqn:Ee; [|done]. apply Z.eqb_eq in Ee. rewrite bool_decide_eq_false_2; [done|congruence].
Qed.
Lemma upsert_targets_record e staged readiness targets d : forall index,
  d ∈ map fst targets ->
  exists r, record (upsert_targets e staged readiness targets index) e d = Some r /\
    xr_summary_hash r = hex_hash (sh_summary_hash (ss_header staged)).
Proof.
  unfold upsert_targets. induction targets as [|[d0 inputs] targets IH] using rev_ind; intros index Hd; [set_solver|].
  rewrite foldl_app. simpl. destruct (decide (d = d0)) as [->|Hne]; [apply upsert_record|].
  rewrite upsert_record_other by congruence. apply IH. rewrite map_app in Hd. simpl in Hd. set_solver.
Qed.

(** A target whose package can be stored. *)
Definition storable s index (header : EpochSummaryHeader) (d : DomainId) (package : CertifiedSummaryPackage) : Prop :=
  let k : PackageKey := (sh_epoch_id header, d) in
  pkg_header package = header /\
  (exists proof rest, pkg_inclusion_proofs package = scale_encode (SummaryHeaderStorageV1 proof) :: rest /\ Forall is_item rest) /\
  (exists r, record index k.1 d = Some r /\ xr_summary_hash r = hex_hash (sh_summary_hash header)) /\
  (ex_scale s !! k = None \/ ex_scale s !! k = Some (scale_encode package)).

(** A package is in its file and its record is certified. *)
Definition packaged s index (e : Z) (d : DomainId) (package : CertifiedSummaryPackage) : Prop :=
  let k : PackageKey := (e, d) in
  ex_scale s !! k = Some (scale_encode package) /\
  exists r, record index e d = Some r /\ xr_status r = Certified /\
    xr_package_hash r = Some (hex_hash (pkg_package_hash package)).

Lemma persist_targets_runs header bundle leaves imports governance targets : forall s index,
  NoDup (map fst targets) ->
  (forall d inputs, (d, inputs) ∈ targets -> exists package,
     target_package header bundle leaves imports governance inputs = Ok package /\ storable s index header d package) ->
  exists s' index', persist_targets domain header bundle leaves imports governance targets index s = (s', Ok index') /\
    ex_node s' = ex_node s /\
    (forall d inputs package, (d, inputs) ∈ targets ->
       target_package header bundle leaves imports governance inputs = Ok package ->
       packaged s' index' (sh_epoch_id header) d package) /\
    (forall k, (k.1 <> sh_epoch_id header \/ k.2 ∉ map fst targets) ->
       ex_scale s' !! k = ex_scale s !! k /\ record index' k.1 k.2 = record index k.1 k.2).
Proof.
  induction targets as [|[d inputs] targets IH]; intros s index Hnd Hok.
  { exists s, index. split_and!; [done|done|set_solver|done]. }
  simpl in Hnd. apply NoDup_cons in Hnd as [Hd Hnd]. cbn [persist_targets].
  destruct (Hok d inputs) as (package & Hp & Hh & (proof & rest & Hl & Hi) & (r & Hr & Hrh) & Hf); [set_solver|].
  unfold bind at 1, lift. rewrite Hp. rewrite <-Hh in Hr, Hrh, Hf.
  destruct (persist_runs s index d (collect_target_export_ids inputs) package proof rest r Hr Hrh Hl Hi Hf)
    as (s1 & index1 & Hs1 & Esc & En & Hoth & (r1 & Hr1 & Hc1 & _ & Hph1)).
  unfold bind at 1. rewrite Hs1. rewrite Hh in *.
  assert (forall d' inputs', (d', inputs') ∈ targets -> d' <> d) as Hdiff.
  { intros d' inputs' Hin ->. apply Hd. apply list_elem_of_fmap. by exists (d, inputs'). }
  destruct (IH s1 index1 Hnd) as (s' & index' & Hs' & En' & Hpk & Hrest).
  { intros d' inputs' Hin. destruct (Hok d' inputs') as (package' & Hp' & Hh' & Hl' & (r' & Hr' & Hrh') & Hf'); [set_solver|].
    exists package'. split; [done|]. pose proof (Hdiff _ _ Hin) as Hne. split_and!; [done|done|..].
    - exists r'. split; [|done]. rewrite Hoth; [done|congruence].
    - simpl. rewrite Esc, lookup_insert_ne by congruence. done. }
  exists s', index'. split_and!; [done|congruence|..].
  - intros d' inputs' package' [[= -> ->]|Hin]%elem_of_cons Hp'; [|by eapply Hpk].
    rewrite Hp in Hp'. injection Hp' as <-. destruct (Hrest (sh_epoch_id header, d)) as [A1 A2]; [by right|]. simpl in A2.
    unfold packaged. cbv zeta. split; [etransitivity; [exact A1|]; rewrite Esc; apply lookup_insert_eq|]. exists r1. by rewrite A2.
  - intros k Hk. simpl in Hk. destruct (Hrest k) as [A1 A2]; [set_solver|]. rewrite A1, A2, Esc. split.
    + apply lookup_insert_ne. intros <-. simpl in Hk. set_solver.
    + apply Hoth. destruct k as [e' d']. simpl in *. set_solver.
Qed.
End Storing.

(** ** Synchronising an epoch *)
Section Epoch.
Context `{!Codec, !CodecOk, !CodecSep, !HexCodec, !HexCodecOk, !ExporterCodec, !ExporterCodecOk}.
Context `{!Account, !AccountOk, !Currency B, !CurrencyOk B} {N : Type} `{!ExporterEnv N}.
Context (d : DomainId) (L : Z) (HL : 1 <= L).
Context (export_ids_distinct : forall s s',
  0 <= s < u64_max -> 0 <= s' < u64_max -> export_id d s = export_id d s' -> s = s').
Context (proposal_ids_distinct : forall d1 d2 s1 s2,
  0 <= s1 < u64_max -> 0 <= s2 < u64_max ->
  governance_proposal_id d1 s1 = governance_proposal_id d2 s2 -> d1 = d2 /\ s1 = s2).
Context (I : N -> Prop) (store : bytes -> option bytes) (ready : Z -> SummaryCertificationReadiness).

Lemma omap_omap {A B' C} (f : A -> option B') (g : B' -> option C) (l : list A) :
  omap g (omap f l) = omap (fun a => f a ≫= g) l.
Proof. induction l as [|a l IH]; [done|]. csimpl. destruct (f a) as [b|]; csimpl; [|done]. destruct (g b); by rewrite IH. Qed.
Lemma map_omap {A B' C} (f : A -> option B') (g : B' -> C) (l : list A) : map g (omap f l) = omap (fun a => g <$> f a) l.
Proof. induction l as [|a l IH]; [done|]. csimpl. destruct (f a); csimpl; by rewrite IH. Qed.

(** The package for domain [d'] that the exporter builds from the chain's leaves. *)
Definition package_of (ch : Chain B) (e : Z) (h : EpochSummaryHeader) (bundle : SummaryCertificationBundle)
    (d' : DomainId) : result ExporterError CertifiedSummaryPackage :=
  target_package h bundle (epoch_exports_of ch e) (epoch_imports_of ch e) (epoch_governance_of ch e)
    (inputs_for d' (epoch_exports_of ch e) (epoch_imports_of ch e) (epoch_governance_of ch e)).

(** Something of epoch [e] is addressed to domain [d']. *)
Definition addressed_to (ch : Chain B) (e : Z) (d' : DomainId) : Prop :=
  no_inputs (inputs_for d' (epoch_exports_of ch e) (epoch_imports_of ch e) (epoch_governance_of ch e)) = false.

(** A package that carries exactly what is addressed to a domain and passes the
    relay and the domain's importer. *)
Definition delivers (ch : Chain B) (e : Z) (d' : DomainId) (package : CertifiedSummaryPackage) : Prop :=
  (exists items, verify_package_flow package d' = Ok items /\
     map eip_leaf (vi_export_proofs items) = addressed el_target_domain d' (epoch_exports_of ch e) /\
     map fip_leaf (vi_finalized_import_proofs items) = addressed fl_source_domain d' (epoch_imports_of ch e) /\
     map gip_leaf (vi_governance_proofs items) = addressed leaf_target_domain d' (epoch_governance_of ch e)) /\
  forall now, exists envelope, relay_envelope package d' now = Ok envelope /\
    decode_and_validate_envelope (scale_encode envelope) = Ok (envelope, package).

Lemma package_delivers ch e h bundle d' :
  EpochLeaves h (epoch_exports_of ch e) (epoch_imports_of ch e) (epoch_governance_of ch e) -> epoch_bounded ch e ->
  addressed_to ch e d' ->
  exists package, package_of ch e h bundle d' = Ok package /\ pkg_header package = h /\ delivers ch e d' package /\
    exists proof rest, pkg_inclusion_proofs package = scale_encode (SummaryHeaderStorageV1 proof) :: rest /\ Forall is_item rest.
Proof.
  intros HL' Hb Ha. destruct (package_for h _ _ _ HL' bundle d' Ha) as (package & items & Hp & E & Hv & M1 & M2 & M3).
  exists package. split; [done|]. split; [by rewrite E|].
  assert (exists proof rest, pkg_inclusion_proofs package = scale_encode (SummaryHeaderStorageV1 proof) :: rest /\
    Forall is_item rest /\ length rest = (length (vi_export_proofs items) + length (vi_finalized_import_proofs items)
      + length (vi_governance_proofs items))%nat) as (proof & rest & Hl & Hi & Hn).
  { subst package. eexists _, _. split; [reflexivity|]. split; [by apply (bundle_items h bundle)|].
    rewrite !length_app, !length_map. lia. }
  split; [|by exists proof, rest]. split; [by exists items|]. intros now.
  assert (exists envelope, relay_envelope package d' now = Ok envelope) as [envelope He].
  { unfold relay_envelope. rewrite (proj2 (Z.leb_le _ _)); [by eexists|]. rewrite Hl. unfold sat_sub. simpl length. rewrite Hn.
    rewrite <-(length_map eip_leaf), <-(length_map fip_leaf), <-(length_map gip_leaf), M1, M2, M3.
    unfold addressed, epoch_bounded in *.
    pose proof (length_filter (fun l => el_target_domain l = d') (epoch_exports_of ch e)).
    pose proof (length_filter (fun l => fl_source_domain l = d') (epoch_imports_of ch e)).
    pose proof (length_filter (fun l => leaf_target_domain l = d') (epoch_governance_of ch e)). lia. }
  exists envelope. split; [done|]. eapply envelope_accepted; [exact Hv| |exact Hl|exact He].
  by rewrite E.
Qed.

(** What the exporter reads of an epoch. *)
Section Reads.
Context (Hserve : Serves I store ready) (ch : Chain B) (Hst : stores ch store) (hist : list System).
Context (Hrun : chain_run d L hist ch).

Lemma reads_epoch_exports e : exists records, reads I (epoch_exports e) records /\
  sort_export_leaves (map er_leaf records) = epoch_exports_of ch e.
Proof.
  destruct (chain_run_ok d L HL export_ids_distinct proposal_ids_distinct _ _ Hrun) as [_ [_ Ht _ _]].
  destruct (transfers_reachable_inv d export_ids_distinct _ Ht) as [HX _].
  exists (omap (fun id => ts_exports_by_id (w_transfers (ch_world ch)) !! id)
            (Transfers.epoch_export_ids (w_transfers (ch_world ch)) e)). split.
  - eapply reads_bind; [apply (reads_ids I store ready Hserve), Hst|].
    apply reads_each with (f := fun id => ts_exports_by_id (w_transfers (ch_world ch)) !! id).
    + intros id. apply (reads_storage I store ready Hserve), Hst.
    + intros id Hid. apply (inv_export_ids _ _ HX) in Hid as (r & Hr & _). by exists r.
  - unfold epoch_exports_of, canonical_epoch_exports. by rewrite map_omap.
Qed.
Lemma reads_epoch_imports e : exists records, reads I (epoch_finalized_imports e) records /\
  sort_finalized_import_leaves (omap finalized_leaf records) = epoch_imports_of ch e.
Proof.
  destruct (chain_run_ok d L HL export_ids_distinct proposal_ids_distinct _ _ Hrun) as [_ [_ Ht _ _]].
  destruct (transfers_reachable_inv d export_ids_distinct _ Ht) as [_ HI].
  exists (omap (fun id => ts_observed_imports_by_id (w_transfers (ch_world ch)) !! id)
            (Transfers.epoch_finalized_import_ids (w_transfers (ch_world ch)) e)). split.
  - eapply reads_bind; [apply (reads_ids I store ready Hserve), Hst|].
    apply reads_each with (f := fun id => ts_observed_imports_by_id (w_transfers (ch_world ch)) !! id).
    + intros id. apply (reads_storage I store ready Hserve), Hst.
    + intros id Hid. destruct (proj1 (inv_finalized_ids _ _ HI id)) as (r & Hr & _); [by exists e|]. by exists r.
  - unfold epoch_imports_of, canonical_epoch_finalized_imports. by rewrite omap_omap.
Qed.
Lemma reads_epoch_governance e : exists leaves, reads I (epoch_governance_leaves e) leaves /\
  sort_governance_leaves leaves = epoch_governance_of ch e.
Proof.
  destruct (chain_run_ok d L HL export_ids_distinct proposal_ids_distinct _ _ Hrun) as [_ [_ _ Hg _]].
  pose proof (gov_reachable_leaves d proposal_ids_distinct _ Hg) as HG.
  exists (omap (fun h => gs_leaves_by_id (w_governance (ch_world ch)) !! h) (gs_epoch_leaf_ids (w_governance (ch_world ch)) !!! e)).
  split; [|done]. eapply reads_bind; [apply (reads_ids I store ready Hserve), Hst|].
  apply reads_each with (f := fun h => gs_leaves_by_id (w_governance (ch_world ch)) !! h).
  - intros h. apply (reads_storage I store ready Hserve), Hst.
  - intros h Hh. by eapply lf_ids.
Qed.
End Reads.

(** The roots that the exporter compares do not depend on the order. *)
Lemma roots_of_sorted h leaves imports governance :
  EpochLeaves h (sort_export_leaves leaves) (sort_finalized_import_leaves imports) (sort_governance_leaves governance) ->
  export_merkle_root (sh_domain_id h) (sh_epoch_id h) (sh_start_block_height h) (sh_end_block_height h) leaves = sh_export_root h /\
  import_merkle_root (sh_domain_id h) (sh_epoch_id h) (sh_start_block_height h) (sh_end_block_height h) imports = sh_import_root h /\
  governance_merkle_root (sh_domain_id h) (sh_epoch_id h) (sh_start_block_height h) (sh_end_block_height h) governance
  = sh_governance_root h.
Proof.
  intros [R1 R2 R3 _ _ _ _ _ _ _]. rewrite <-R1, <-R2, <-R3. unfold export_merkle_root, import_merkle_root,
    governance_merkle_root, sort_export_leaves, sort_finalized_import_leaves, sort_governance_leaves.
  by rewrite !sort_by_idemp by apply _.
Qed.

(** A run of a handler from states in which the node serves the chain. *)
Lemma reads_then {A A'} (m : ExporterM N A) (k : A -> ExporterM N A') a s (Q : Exporter N * result ExporterError A' -> Prop) :
  reads I m a -> I (ex_node s) -> (forall n, I n -> Q (k a (s {{ ex_node := n }}))) -> Q (bind m k s).
Proof. intros Hm Hs HQ. destruct (Hm s Hs) as (n & Hn & E). unfold bind. rewrite E. by apply HQ. Qed.

Lemma epoch_synchronised hist ch e h s index :
  chain_run d L hist ch -> es_summary_headers (ch_epochs ch) !! e = Some h ->
  plain_proposals (w_governance (ch_world ch)) -> epoch_bounded ch e ->
  stores ch store -> Serves I store ready -> I (ex_node s) ->
  (forall bundle d' package bs, scr_state (ready e) = Ready bundle -> package_of ch e h bundle d' = Ok package -> ex_scale s !! ((e, d') : PackageKey) = Some bs ->
     bs = scale_encode package) ->
  (exists s' index', sync_epoch d index e s = (s', Ok index') /\ I (ex_node s') /\
     (forall bundle d', scr_state (ready e) = Ready bundle -> addressed_to ch e d' -> exists package, package_of ch e h bundle d' = Ok package /\
        packaged s' index' e d' package /\ delivers ch e d' package) /\
     (forall k, k.1 <> e \/ ~ addressed_to ch e k.2 -> ex_scale s' !! k = ex_scale s !! k)) \/
  collision blake2_256.
Proof.
  intros Hrun Hh Hpl Hb Hst Hserve Hs Hfree.
  destruct (chain_epoch_leaves d L HL export_ids_distinct proposal_ids_distinct hist ch e h Hrun Hh Hpl Hb) as [Hlv|?]; [left|by right].
  destruct (chain_headers d L HL export_ids_distinct proposal_ids_distinct hist ch e h Hrun Hh) as (Hd & He & _ & slot & staged & Hslot & Hsb & _).
  destruct (reads_epoch_exports Hserve ch Hst hist Hrun e) as (records & Rx & Ex).
  destruct (reads_epoch_imports Hserve ch Hst hist Hrun e) as (imports & Ri & Ei).
  destruct (reads_epoch_governance Hserve ch Hst hist Hrun e) as (governance & Rg & Eg).
  destruct (roots_of_sorted h (map er_leaf records) (omap finalized_leaf imports) governance) as (R1 & R2 & R3);
    [by rewrite Ex, Ei, Eg|].
  unfold sync_epoch.
  apply (reads_then _ _ (Some (mkStagedSummaryView h staged))); [by eapply reads_summary|done|]. clear Hs. intros n1 Hn1.
  apply (reads_then _ _ (ready e)); [|done|].
  { intros s0 Hs0. destruct (sv_ready _ _ _ Hserve (ex_node s0) e Hs0) as (n & Hn & En). exists n. split; [done|].
    unfold certification_readiness, call. by rewrite En. }
  intros n2 Hn2. apply (reads_then _ _ records); [done|done|]. intros n3 Hn3. cbn [ss_header].
  rewrite (bool_decide_eq_true_2 _ R1). apply (reads_then _ _ imports); [done|done|]. intros n4 Hn4.
  rewrite (bool_decide_eq_true_2 _ R2). apply (reads_then _ _ governance); [done|done|]. intros n5 Hn5.
  rewrite (bool_decide_eq_true_2 _ R3), Ex, Ei, Eg. destruct (scr_state (ready e)) as [reason|bundle] eqn:Hready.
  { eexists _, _. split; [reflexivity|]. by split_and!. }
  match goal with |- exists s' index', persist_targets _ _ _ _ _ _ ?t ?i ?st = _ /\ _ =>
    set (targets := t); set (index1 := i); assert (ex_scale st = ex_scale s) as Esc by done;
    assert (I (ex_node st)) as Hn by done; generalize dependent st end.
  intros s5 Esc Hn.
  assert (forall d', d' ∈ map fst targets <-> addressed_to ch e d') as Htargets.
  { intros d'. rewrite list_elem_of_fmap. unfold addressed_to. split.
    - intros ([? inputs] & -> & Hin). by apply targets_elem in Hin as [-> ?].
    - intros Ha. eexists (d', _). split; [done|]. by apply targets_elem. }
  destruct (persist_targets_runs d h bundle (epoch_exports_of ch e) (epoch_imports_of ch e) (epoch_governance_of ch e)
    targets s5 index1) as (s' & index' & Hp & Hn' & Hpk & Hrest).
  - apply btree_entries_nodup.
  - intros d' inputs Hin. assert (addressed_to ch e d') as Ha by (apply Htargets, list_elem_of_fmap; by exists (d', inputs)).
    apply targets_elem in Hin as [-> _]. destruct (package_delivers ch e h bundle d' Hlv Hb Ha) as (package & Hpo & Hph & _ & Hl).
    exists package. split; [exact Hpo|]. split_and!; [done|done|..].
    + rewrite He. apply (upsert_targets_record e (mkStagedSummaryView h staged)). by apply Htargets.
    + rewrite He, Esc. destruct (ex_scale s !! _) as [bs|] eqn:Eb; [right|by left]. f_equal. by eapply (Hfree bundle).
  - exists s', index'. split_and!; [exact Hp|by rewrite Hn'|..].
    + intros ? d' [= <-] Ha. destruct (package_delivers ch e h bundle d' Hlv Hb Ha) as (package & Hpo & _ & Hdl & _).
      exists package. split_and!; [done| |done]. rewrite <-He. eapply Hpk; [|exact Hpo]. by apply targets_elem.
    + intros k Hk. rewrite <-Esc. apply Hrest. rewrite He, Htargets. done.
Qed.

(** ** Synchronising a chain *)

(** The packages in the store are what the chain and the node's certificates give. *)
Definition store_agrees (ch : Chain B) (s : Exporter N) : Prop := forall e h bundle d' package bs,
  es_summary_headers (ch_epochs ch) !! e = Some h -> scr_state (ready e) = Ready bundle ->
  package_of ch e h bundle d' = Ok package -> ex_scale s !! ((e, d') : PackageKey) = Some bs -> bs = scale_encode package.

(** Epoch [e] is packaged in state [s]. *)
Definition epoch_packaged (ch : Chain B) (s : Exporter N) (e : Z) : Prop := forall h bundle d',
  es_summary_headers (ch_epochs ch) !! e = Some h -> scr_state (ready e) = Ready bundle -> addressed_to ch e d' ->
  exists package, package_of ch e h bundle d' = Ok package /\ ex_scale s !! ((e, d') : PackageKey) = Some (scale_encode package) /\
    delivers ch e d' package.

Lemma epoch_packaged_mono ch s s' e :
  (forall k bs, ex_scale s !! k = Some bs -> ex_scale s' !! k = Some bs) -> epoch_packaged ch s e -> epoch_packaged ch s' e.
Proof.
  intros Hs Hp h bundle d' Hh Hr Ha. destruct (Hp h bundle d' Hh Hr Ha) as (package & A1 & A2 & A3).
  exists package. split_and!; [done|by apply Hs|done].
Qed.

Section Synchronised.
Context (hist : list System) (ch : Chain B) (Hrun : chain_run d L hist ch).
Context (Hpl : plain_proposals (w_governance (ch_world ch))) (Hb : forall e, epoch_bounded ch e).
Context (Hst : stores ch store) (Hserve : Serves I store ready).

Lemma epochs_synchronised epochs : forall s index,
  NoDup epochs -> (forall e, e ∈ epochs -> is_Some (es_summary_headers (ch_epochs ch) !! e)) ->
  store_agrees ch s -> I (ex_node s) ->
  (exists s' index', sync_epochs d epochs index s = (s', Ok index') /\ I (ex_node s') /\
     (forall e, e ∈ epochs -> epoch_packaged ch s' e) /\
     (forall k, k.1 ∉ epochs -> ex_scale s' !! k = ex_scale s !! k)) \/
  collision blake2_256.
Proof.
  induction epochs as [|e epochs IH]; intros s index Hnd Hh Hag Hs.
  { left. exists s, index. split_and!; [done|done|set_solver|done]. }
  apply NoDup_cons in Hnd as [He Hnd]. destruct (Hh e) as [h Heh]; [by left|].
  destruct (epoch_synchronised hist ch e h s index Hrun Heh Hpl (Hb e) Hst Hserve Hs) as
    [(s1 & index1 & E1 & Hn1 & Hp1 & Hk1)|?]; [| |by right].
  { intros bundle d' package bs Hr Hp Hbs. by eapply Hag. }
  assert (epoch_packaged ch s1 e) as Hpe.
  { intros h' bundle d' Hh' Hr Ha. assert (h' = h) as -> by congruence.
    destruct (Hp1 bundle d' Hr Ha) as (package & A1 & [A2 _] & A3). by exists package. }
  destruct (IH s1 index1 Hnd) as [(s' & index' & E' & Hn' & Hp' & Hk')|?]; [|..|by right].
  - intros e' He'. apply Hh. by right.
  - intros e' h' bundle d' package bs Hh' Hr Hp Hbs. destruct (decide (e' = e)) as [->|Hne].
    + assert (h' = h) as -> by congruence. destruct (no_inputs (inputs_for d' (epoch_exports_of ch e) (epoch_imports_of ch e)
        (epoch_governance_of ch e))) eqn:En.
      * rewrite Hk1 in Hbs by (right; unfold addressed_to; cbn [snd]; by rewrite En). by eapply Hag.
      * destruct (Hpe h bundle d' Heh Hr En) as (package' & A1 & A2 & _). congruence.
    + rewrite Hk1 in Hbs by (by left). by eapply Hag.
  - done.
  - left. exists s', index'. cbn [sync_epochs]. unfold bind. rewrite E1. split_and!; [done|done|..].
    + intros e' [->|He']%elem_of_cons; [|by apply Hp']. intros h' bundle d' Hh' Hr Ha.
      destruct (Hpe h' bundle d' Hh' Hr Ha) as (package & A1 & A2 & A3). exists package. split_and!; [done| |done].
      rewrite Hk'; [done|]. simpl. done.
    + intros k Hk. rewrite Hk' by set_solver. apply Hk1. left. set_solver.
Qed.

(** The latest summary of the chain. *)
Lemma reads_latest :
  (es_latest_summary_header (ch_epochs ch) = None /\ (forall e, es_summary_headers (ch_epochs ch) !! e = None) /\
   reads I latest_staged_summary None) \/
  (exists staged, reads I latest_staged_summary (Some staged) /\
   forall e, is_Some (es_summary_headers (ch_epochs ch) !! e) <-> 0 <= e < sh_epoch_id (ss_header staged) + 1).
Proof.
  destruct (chain_run_ok d L HL export_ids_distinct proposal_ids_distinct _ _ Hrun) as [He _].
  assert (reads I (load_storage_value latest_summary_header_storage_key) (es_latest_summary_header (ch_epochs ch))) as Hl
    by apply (reads_storage I store ready Hserve), Hst.
  destruct (epochs_run_state d L HL export_ids_distinct _ _ He) as [[_ E]|[_ HI]]; simpl in *.
  - left. rewrite E in *. split_and!; [done|intros e; apply lookup_empty|]. eapply reads_bind; [exact Hl|]. apply reads_ret.
  - destruct (es_latest_summary_header (ch_epochs ch)) as [h|] eqn:Eh; rewrite (inv_latest_header _ _ _ _ HI) in Eh.
    + right. destruct (chain_headers d L HL export_ids_distinct proposal_ids_distinct _ _ _ _ Hrun Eh)
        as (_ & Hep & Hlt & slot & staged & Hs & Hsb & _). exists (mkStagedSummaryView h staged). simpl. split.
      * eapply reads_bind; [exact Hl|]. cbv beta iota. rewrite Hep. by eapply reads_summary.
      * intros e. rewrite Hep. replace (_ - 1 + 1) with (es_current_epoch (ch_epochs ch)) by lia. split.
        -- intros [h' Hh']. destruct (decide (0 <= e < es_current_epoch (ch_epochs ch))); [done|].
           rewrite (inv_no_headers _ _ _ _ HI e) in Hh'; done.
        -- intros Hb'. destruct (inv_headers _ _ _ _ HI e Hb') as (h' & -> & _). by eexists.
    + left. split_and!; [done| |eapply reads_bind; [exact Hl|]; apply reads_ret].
      intros e. apply (inv_no_headers _ _ _ _ HI). intros Hb'.
      destruct (inv_headers _ _ _ _ HI (es_current_epoch (ch_epochs ch) - 1)) as (h' & E & _); [lia|]. congruence.
Qed.

Lemma load_index_runs s : SavedOk d s -> exists index, load_index d s = (s, Ok index) /\ Good s index.
Proof.
  intros HS. pose proof (ensures_open_index d s HS) as Hen. rewrite ensures_plain in Hen. unfold SavedOk in HS.
  assert (exists index, load_index d s = (s, Ok index)) as [index E].
  { unfold load_index, bind, gets. destruct (ex_index s) as [[index|?|?|?]|]; try done; [|by eexists].
    destruct HS as (_ & _ & Hd). unfold ret. rewrite bool_decide_eq_true_2 by done. by eexists. }
  rewrite E in Hen. exists index. by destruct Hen as [_ [? _]].
Qed.

Lemma sync_once_packages s :
  exporter_reachable d s -> I (ex_node s) -> store_agrees ch s ->
  (forall e, epoch_packaged ch (fst (sync_once d s)) e) \/ collision blake2_256.
Proof.
  intros HS%exporter_reachable_ok Hs Hag. unfold sync_once.
  assert (forall s' e, es_summary_headers (ch_epochs ch) !! e = None -> epoch_packaged ch s' e) as Hnone.
  { intros s' e En h bundle d' Hh. congruence. }
  destruct reads_latest as [(_ & Hno & Hl)|(staged & Hl & Hepochs)]; [left; intros e; by apply Hnone|].
  apply (reads_then _ _ (Some staged) s (fun r => (forall e, epoch_packaged ch r.1 e) \/ collision blake2_256)); [done|done|].
  intros n Hn. match goal with |- (forall e, epoch_packaged _ (fst (_ ?st)) _) \/ _ =>
    assert (quiet s st) as Hq by (by apply quiet_node); assert (store_agrees ch st) as Hag1 by done;
    assert (I (ex_node st)) as Hs1 by done; generalize dependent st end.
  clear n Hn. intros s1 Hq Hag1 Hs1. destruct (quiet_later d _ _ Hq HS) as [HS1 _].
  destruct (load_index_runs s1 HS1) as (index & Ei & HG). unfold bind at 1. rewrite Ei.
  set (index' := index {{ xi_latest_staged_epoch := _ }}). assert (Good s1 index') as HG' by (by eapply good_packages).
  clearbody index'. pose proof (ensures_sync_epochs d (seqZ 0 (sh_epoch_id (ss_header staged) + 1)) s1 index' HG') as Hen.
  destruct (epochs_synchronised (seqZ 0 (sh_epoch_id (ss_header staged) + 1)) s1 index')
    as [(s2 & index2 & E2 & _ & Hp2 & _)|?]; [apply NoDup_seqZ| |done|done|left|by right].
  { intros e He%elem_of_seqZ. apply Hepochs. lia. }
  assert (forall e, epoch_packaged ch s2 e) as Hall.
  { intros e. destruct (es_summary_headers (ch_epochs ch) !! e) eqn:Eh; [|by apply Hnone]. apply Hp2, elem_of_seqZ.
    assert (is_Some (es_summary_headers (ch_epochs ch) !! e)) as Hsm by (by eexists). apply Hepochs in Hsm. lia. }
  unfold bind at 1. rewrite E2. rewrite ensures_plain in Hen. rewrite E2 in Hen. destruct Hen as [_ HG2].
  pose proof (ensures_submissions s2 index2 HG2) as Hen. rewrite ensures_plain in Hen. unfold bind.
  destruct (submit_certified_packages_to_relay index2 s2) as [s3 [index3|err]]; destruct Hen as [Hq3 _].
  - intros e. apply (epoch_packaged_mono ch s2); [|done]. intros k bs Hk. unfold save_index. destruct (bool_decide _);
      simpl; by eapply lookup_weaken, Hq3.
  - intros e. apply (epoch_packaged_mono ch s2); [|done]. intros k bs Hk. simpl. by eapply lookup_weaken, Hq3.
Qed.
(** A synchronisation misses nothing.  When the node serves the state of a
    chain, one synchronisation of the chain's exporter, from any state that its
    runs reach and whatever the relay answers, leaves in the store, for every
    closed epoch whose certificate is ready and every domain that a leaf of the
    epoch is addressed to, one package with exactly those leaves; the relay
    accepts its envelope at any time, and the domain's importer verifies all its
    items; or [blake2_256] collides. *)
Theorem exporter_sync_complete s :
  exporter_reachable d s -> I (ex_node s) -> store_agrees ch s ->
  (forall e, epoch_packaged ch (fst (sync_once d s)) e) \/ collision blake2_256.
Proof. exact (sync_once_packages s). Qed.
End Synchronised.
End Epoch.
