(* ===== verification/ExporterRelay.v ===== *)
(** * The exporter and the relay

    What the exporter reads from the relay's answers.  A first submission is marked
    submitted exactly when the relay stored it.  A second submission of the same
    package carries a new time, which the relay takes for another envelope: it is
    refused for ever, and the exporter, which never learns that the package is
    with the relay, submits it again in every synchronisation. *)

From S2P Require Import Prelude Types Effects Codec Merkle Config Verify VerifyProofs Relay RelayProofs RelaySafety Exporter Services ExporterProofs ExporterSafety.

Section Answers.
Context `{!Codec, !CodecOk, !HexCodec, !HexCodecOk} {N : Type} `{!ExporterEnv N}.
(** The encoding of receipts as JSON, and the texts of errors. *)
Context (receipt_to_vec : RelaySubmitReceipt -> bytes) (error_text : RelayError -> bytes).
Context (receipt_decodes : forall receipt, receipt_from_slice (receipt_to_vec receipt) = Some receipt).

(** The response to a submission: the end of the handler [submit_package]. *)
Definition submit_response (res : result RelayError (RelayPackageRecord * bool)) : PostResponse :=
  match res with
  | Ok (record, idempotent) =>
    let status := if idempotent then 200 else 202 in
    Responded status (Ok (receipt_to_vec (mkRelaySubmitReceipt true idempotent (relay_state_name (rp_state record)))))
  | Err error =>
    let status := match error with DifferentPayloadBytes => 409 | _ => 400 end in
    Responded status (Ok (error_text error))
  end.

(** The exporter's reading of a response. *)
Lemma submission_read res :
  match submission_result (submit_response res) with
  | Ok receipt => ensure_submission_succeeded receipt = Ok tt /\ exists x known, res = Ok (x, known)
  | Err error => se_retryable error = false /\ exists e, res = Err e
  end.
Proof.
  destruct res as [[record []]|e]; simpl; [rewrite receipt_decodes; split; [done|by eexists _, _]..|].
  destruct e; simpl; (split; [done|by eexists]).
Qed.

(** A later envelope of the same package. *)
Lemma envelope_again package d now1 now2 e1 pkg :
  Exporter.relay_envelope package d now1 = Ok e1 -> decode_and_validate_envelope (scale_encode e1) = Ok (e1, pkg) ->
  exists e2, Exporter.relay_envelope package d now2 = Ok e2 /\ decode_and_validate_envelope (scale_encode e2) = Ok (e2, pkg) /\
    env_key e2 = env_key e1 /\ (now1 <> now2 -> e2 <> e1).
Proof.
  unfold Exporter.relay_envelope. intros Hop. dispatch_inv Hop. subst e1. unfold decode_and_validate_envelope.
  rewrite !decode_whole. simpl. rewrite decode_whole. intros Hv. eexists. split; [done|]. split_and!; [|done|].
  - rewrite decode_whole. simpl. rewrite decode_whole.
    repeat (match type of Hv with context [if ?b then _ else _] => destruct b; [|done] end).
    destruct (derive_target_domain package) as [[target count]|]; [|done].
    repeat (match type of Hv with context [if ?b then _ else _] => destruct b; [|done] end).
    by injection Hv as <-.
  - intros Hne Eq. apply Hne. by injection Eq.
Qed.

Context (in_range : Z -> bool) (settings : TransportConfig) (Hlinks : links_unsigned settings).
Context (length_blake2_256 : forall b, length (blake2_256 b) = 32%nat).

(** C37: a lost receipt is never recovered.  After the relay has stored the envelope
    that the exporter made of a package at time [now1], then in every later state
    of the relay it refuses the envelope that the exporter makes of the same
    package at any other time, and changes nothing; the exporter reads the answer
    as a permanent failure, never as a submission. *)
Theorem lost_receipt_not_recovered r t k p package d now1 now2 e1 pkg r1 x known s' now' time :
  relay_reachable in_range settings (mkRelaySys r t k p) -> t <= time ->
  Exporter.relay_envelope package d now1 = Ok e1 -> decode_and_validate_envelope (scale_encode e1) = Ok (e1, pkg) ->
  Relay.submit_package (scale_encode e1) time r = (r1, Ok (x, known)) ->
  rtc (relay_step in_range settings) (mkRelaySys r1 time k p) s' -> now1 <> now2 ->
  exists e2 error, Exporter.relay_envelope package d now2 = Ok e2 /\
    Relay.submit_package (scale_encode e2) now' (rs_relay s') = (rs_relay s', Err DifferentPayloadBytes) /\
    submission_result (submit_response (Err DifferentPayloadBytes)) = Err error /\ se_retryable error = false.
Proof.
  intros Hr Ht He Hv Hsub Hrun Hne. destruct (envelope_again package d now1 now2 e1 pkg He Hv) as (e2 & He2 & Hv2 & Hk & Hd).
  destruct (submission_kept in_range settings Hlinks length_blake2_256 r t k p (scale_encode e1) e1 pkg time r1 x known s'
    (scale_encode e2) e2 pkg now' Hr Ht Hv Hsub Hrun Hv2 Hk) as (y & _ & _ & Hop).
  rewrite bool_decide_eq_false_2 in Hop by auto. eexists e2, _. split_and!; [done|done|reflexivity|done].
Qed.
End Answers.
