(* ===== verification/ExporterWitnesses.v ===== *)
(** * A run of the exporter

    The exporter of Earth against a node that serves the chain of
    [RuntimeProofs.v]: epoch 0 has an export to Mars and a completion for Moon; the
    synchronisation stores a package for each and the relay accepts both. *)

From S2P Require Import Prelude Types Effects Codec Reference Merkle Frame Domain Epochs Transfers TransfersProofs Governance GovernanceProofs PublicationProofs GovernanceOrigins Runtime RuntimeProofs Config Verify VerifyProofs Relay RelayProofs RelaySafety RelayWitnesses Exporter ExporterProofs ExporterSafety ExporterChain ExporterRelay.

(** ** The storage of a chain, by the prefixes of its keys *)
Section Store.
Context `{!Codec, !CodecOk, !ExporterCodec, !Account, !Currency B}.

Definition prefix_is (key : bytes) (pallet storage : string) : bool :=
  bool_decide (take 32 key = storage_value_key (str_bytes pallet) (str_bytes storage)).
(** The argument of a map key. *)
Definition key_of {A} `{!Scale A} (key : bytes) : option A := scale_decode (drop 48 key).

Definition chain_store (ch : Chain B) (key : bytes) : option bytes :=
  let transfers := w_transfers (ch_world ch) in
  let governance := w_governance (ch_world ch) in
  if prefix_is key "Epochs" "LatestSummaryHeader" then scale_encode <$> es_latest_summary_header (ch_epochs ch)
  else if prefix_is key "Epochs" "SummaryHeaders" then
    (key_of key : option Z) ≫= fun e => scale_encode <$> es_summary_headers (ch_epochs ch) !! e
  else if prefix_is key "Epochs" "SummarySlots" then
    (key_of key : option Z) ≫= fun e => scale_encode <$> es_summary_slots (ch_epochs ch) !! e
  else if prefix_is key "Transfers" "EpochExportIds" then
    (key_of key : option Z) ≫= fun e => scale_encode <$> ts_epoch_export_ids transfers !! e
  else if prefix_is key "Transfers" "ExportsById" then
    (key_of key : option hash) ≫= fun id => scale_encode <$> ts_exports_by_id transfers !! id
  else if prefix_is key "Transfers" "EpochFinalizedImportIds" then
    (key_of key : option Z) ≫= fun e => scale_encode <$> ts_epoch_finalized_import_ids transfers !! e
  else if prefix_is key "Transfers" "ObservedImportsById" then
    (key_of key : option hash) ≫= fun id => scale_encode <$> ts_observed_imports_by_id transfers !! id
  else if prefix_is key "Governance" "EpochGovernanceLeafIds" then
    (key_of key : option Z) ≫= fun e => scale_encode <$> gs_epoch_leaf_ids governance !! e
  else if prefix_is key "Governance" "GovernanceLeavesById" then
    (key_of key : option hash) ≫= fun h => scale_encode <$> gs_leaves_by_id governance !! h
  else None.

Lemma prefix_map pallet storage p s k :
  prefix_is (storage_map_key (str_bytes p) (str_bytes s) k) pallet storage
  = bool_decide (storage_value_key (str_bytes p) (str_bytes s) = storage_value_key (str_bytes pallet) (str_bytes storage)).
Proof.
  unfold prefix_is, storage_map_key. rewrite take_app_length'; [done|].
  unfold storage_value_key. by rewrite length_app, !length_twox_128.
Qed.
Lemma key_map `{!Scale A, !ScaleOk A} p s (a : A) : key_of (storage_map_key p s (scale_encode a)) = Some a.
Proof.
  unfold key_of, storage_map_key. rewrite app_assoc, drop_app_length'; [apply decode_whole|].
  unfold storage_value_key. by rewrite !length_app, !length_twox_128, length_blake2_128.
Qed.
End Store.

#[local] Existing Instance reference_codec.
#[local] Existing Instance reference_account.
#[local] Existing Instance reference_account_ok.
#[local] Existing Instance reference_currency.
#[local] Existing Instance reference_currency_ok.

#[local] Instance SummarySlotStatus_flat : Flat SummarySlotStatus :=
  flat_iso (fun r => match r with Reserved => 0 | Staged => 1 end) (fun n => match n with 0 => Reserved | _ => Staged end).
#[local] Instance SummarySlotStatus_flat_ok : FlatOk SummarySlotStatus.
Proof. apply flat_iso_ok. by intros []. Qed.
#[local] Instance EpochAccumulators_flat : Flat EpochAccumulators :=
  flat_iso (fun r => (acc_state_root r, acc_block_root r, acc_tx_root r, acc_event_root r, acc_blocks_observed r,
                      acc_last_observed_block r))
    (fun '(a, b, c, d, e, f) => mkEpochAccumulators a b c d e f).
#[local] Instance EpochAccumulators_flat_ok : FlatOk EpochAccumulators.
Proof. apply flat_iso_ok. by intros []. Qed.
#[local] Instance SummarySlotRecord_flat : Flat SummarySlotRecord :=
  flat_iso (fun r => (slot_epoch_id r, slot_start_height r, slot_end_height r, slot_reserved_at_block r,
                      slot_staged_at_block_number r, slot_last_touched_block r, slot_header r, slot_status r,
                      slot_accumulators r))
    (fun '(a, b, c, d, e, f, g, h, i) => mkSummarySlotRecord a b c d e f g h i).
#[local] Instance SummarySlotRecord_flat_ok : FlatOk SummarySlotRecord.
Proof. apply flat_iso_ok. by intros []. Qed.

#[export] Instance flat_exporter_codec : ExporterCodec := {|
  scale_slot := tagged 40 _;
  scale_hashes := tagged 41 _;
  scale_stored_export := tagged 42 _;
  scale_stored_import := tagged 43 _;
  scale_stored_leaf := tagged 44 _
|}.
#[export] Instance flat_exporter_codec_ok : ExporterCodecOk.
Proof. split; apply tagged_ok, _. Qed.

Lemma slot_key e :
  summary_slot_storage_key e = storage_map_key (str_bytes "Epochs") (str_bytes "SummarySlots") (scale_encode e).
Proof. unfold summary_slot_storage_key, storage_map_key, storage_value_key. by rewrite <-app_assoc. Qed.

Lemma chain_store_stores (ch : Chain Ledger) : stores ch (chain_store ch).
Proof.
  split; [done|..]; intros; rewrite ?slot_key; unfold chain_store, summary_header_storage_key, epoch_export_ids_storage_key,
    export_record_storage_key, epoch_finalized_import_ids_storage_key, observed_import_storage_key,
    epoch_governance_leaf_ids_storage_key, governance_leaf_storage_key; by rewrite !prefix_map, key_map.
Qed.

(** ** The node *)

Definition ready_bundle (e : Z) : SummaryCertificationBundle := example_bundle.
Definition all_ready (e : Z) : SummaryCertificationReadiness :=
  mkSummaryCertificationReadiness e ((e + 1) * 2 + 1) [9] 9 [9] (Ready (ready_bundle e)).
Definition accepted_body : bytes := [1].

#[local] Instance earth_env : ExporterEnv Z := {|
  state_getStorage key n := (n, Ok ((fun v => [48; 120] ++ hex_encode v) <$> chain_store chain3 (strip_0x key)));
  ialp_summary_certificationReadiness e n := (n, Ok (all_ready e));
  post_packages body n := (n, Responded 202 (Ok accepted_body));
  receipt_from_slice body := if bool_decide (body = accepted_body) then Some (mkRelaySubmitReceipt true false "queued") else None;
  unix_now_millis n := (n + 1, Ok n)
|}.

Lemma earth_serves : Serves (fun _ : Z => True) (chain_store chain3) all_ready.
Proof. split; intros n x _; exists n; (split; [exact I|reflexivity]). Qed.

(** ** The run *)

Definition exporter_0 : Exporter Z := mkExporter None ∅ ∅ ∅ ∅ ∅ [] 1000.
Definition exporter_1 : Exporter Z := fst (sync_once Earth exporter_0).
Definition exporter_2 : Exporter Z := fst (sync_once Earth exporter_1).

Lemma exporter_0_reachable : exporter_reachable Earth exporter_0.
Proof. exists exporter_0. split; [done|apply rtc_refl]. Qed.
Lemma exporter_1_reachable : exporter_reachable Earth exporter_1.
Proof. exists exporter_0. split; [done|]. apply rtc_once, step_sync. Qed.
Lemma exporter_2_next : rtc (exporter_step Earth) exporter_1 exporter_2.
Proof. apply rtc_once, step_sync. Qed.

Example exporter_1_stored : map fst (map_to_list (ex_scale exporter_1)) = [(0, Mars); (0, Moon)]
  \/ map fst (map_to_list (ex_scale exporter_1)) = [(0, Moon); (0, Mars)].
Proof. vm_compute. auto. Qed.

(** ** Witnesses *)

Definition index_1 : ExporterIndex :=
  match ex_index exporter_1 with Some (CurrentIndex index) => index | _ => Exporter.new_index Earth end.
Definition record_1 : option PackageRecord := head (xi_packages index_1).

Lemma exporter_1_index : ex_index exporter_1 = Some (CurrentIndex index_1).
Proof. vm_compute. reflexivity. Qed.
Lemma is_some_with {A} (o : option A) (P : A -> Prop) :
  match o with Some a => P a | None => False end -> exists a, o = Some a /\ P a.
Proof. destruct o as [a|]; [by exists a|done]. Qed.
Lemma record_1_certified :
  exists r, record_1 = Some r /\ rkey r = (0, Moon) /\ xr_status r = Certified /\ xr_relay_submission_state r = Submitted.
Proof. apply is_some_with. vm_compute. auto. Qed.
Lemma record_1_in r : record_1 = Some r -> r ∈ xi_packages index_1.
Proof. unfold record_1. destruct (xi_packages index_1); [done|]. intros [= ->]. by left. Qed.

#[local] Opaque exporter_1 exporter_2 index_1 record_1 chain3 chain_store scheduled_relay accepted_relay.

Lemma exporter_1_submitted : saved_submitted exporter_1 (0, Moon).
Proof.
  exists index_1. split; [exact exporter_1_index|].
  destruct record_1_certified as (r & E & Hk & Hc & Hs). exists r. auto using record_1_in.
Qed.

Lemma exporter_index_true_witness :
  exists r, r ∈ xi_packages index_1 /\ rkey r = (0, Moon) /\
    stored_for exporter_1 (rkey r) (xr_package_hash r) /\ accepted_for exporter_1 (rkey r).
Proof.
  destruct record_1_certified as (r & E & Hk & Hc & Hs).
  destruct (exporter_index_true Earth exporter_1 index_1 r exporter_1_reachable exporter_1_index (record_1_in r E))
    as (H1 & H2 & _).
  exists r. split; [exact (record_1_in r E)|]. split; [exact Hk|]. split; [exact (proj1 (H1 Hc))|exact (proj2 (H2 Hs))].
Defined.

(** The second synchronisation sends nothing for Moon. *)
Lemma exporter_packages_final_witness :
  saved_submitted exporter_2 (0, Moon) /\
  exists sent, ex_sent exporter_2 = ex_sent exporter_1 ++ sent /\ Forall (fun x => envelope_key x.1 <> (0, Moon)) sent.
Proof.
  exact (proj2 (exporter_packages_final Earth exporter_1 exporter_2 (0, Moon) exporter_1_reachable exporter_2_next)
    exporter_1_submitted).
Defined.

Lemma strip_prefix_0x b : strip_0x ([48; 120] ++ b) = b.
Proof. reflexivity. Qed.
Lemma earth_header e n :
  state_getStorage ([48; 120] ++ hex_encode (summary_header_storage_key e)) n
  = (n, Ok ((fun h => [48; 120] ++ hex_encode (scale_encode h)) <$> es_summary_headers (ch_epochs chain3) !! e)).
Proof.
  cbn [state_getStorage earth_env]. rewrite strip_prefix_0x.
  change (hex_encode (summary_header_storage_key e)) with (summary_header_storage_key e).
  by rewrite (so_header _ _ (chain_store_stores chain3)), <-option_fmap_compose.
Qed.

Lemma earth_headers_keyed : headers_keyed.
Proof.
  intros n n' e value raw header Hv Hr Hd. rewrite earth_header in Hv.
  destruct (es_summary_headers (ch_epochs chain3) !! e) as [h|] eqn:Eh; [|discriminate]. cbn [fmap option_fmap option_map] in Hv.
  injection Hv as _ <-. change (Some (scale_encode h) = Some raw) in Hr. apply (inj Some) in Hr as <-. rewrite decode_whole in Hd. injection Hd as <-.
  by destruct (chain_headers Earth 2 ltac:(lia) reference_export_ids reference_proposal_ids _ _ _ _ example_chain3 Eh)
    as (_ & ? & _).
Qed.

Lemma exporter_never_panics_witness : snd (sync_once Earth exporter_0) <> Err PendingRecordMissing.
Proof. exact (exporter_never_panics Earth exporter_0 earth_headers_keyed). Defined.

Lemma earth_bounded e : epoch_bounded chain3 e.
Proof.
  eapply (bounded_by_size Earth 2); [lia|exact reference_export_ids|exact reference_proposal_ids|exact example_chain3|].
  vm_compute. discriminate.
Qed.

Lemma exporter_sync_complete_witness :
  (forall e, epoch_packaged all_ready chain3 exporter_1 e) \/ collision blake2_256.
Proof.
  refine (exporter_sync_complete Earth 2 _ reference_export_ids reference_proposal_ids (fun _ => True) (chain_store chain3)
    all_ready _ chain3 example_chain3 example_plain earth_bounded (chain_store_stores chain3) earth_serves exporter_0
    exporter_0_reachable I _).
  - lia.
  - intros e h bundle d' package bs _ _ _ Hb. assert (ex_scale exporter_0 = ∅) as E by reflexivity.
    rewrite E, lookup_empty in Hb. discriminate.
Defined.

(** Both packages of epoch 0 are covered by it. *)
Example earth_addressed : addressed_to chain3 0 Mars /\ addressed_to chain3 0 Moon /\ ~ addressed_to chain3 0 Earth.
Proof. split; [|split]; vm_compute; done. Qed.

(** The relay of [RelayWitnesses.v] has Mars's envelope of time 900; the exporter
    of Mars, which did not get the receipt, tries again at time 7000. *)
Lemma lost_receipt_not_recovered_witness :
  exists e2 error, Exporter.relay_envelope (H := short_codec) (relay_package Earth) Earth 7000 = Ok e2 /\
    Relay.submit_package (H := short_codec) (@scale_encode _ (@scale_envelope short_codec) e2) 7001 scheduled_relay
    = (scheduled_relay, Err DifferentPayloadBytes) /\
    submission_result (submit_response (fun _ => accepted_body) (fun _ => []) (Err DifferentPayloadBytes)) = Err error /\
    se_retryable error = false.
Proof.
  assert (Exporter.relay_envelope (H := short_codec) (relay_package Earth) Earth 900
    = Ok (RelayWitnesses.relay_envelope Earth)) as H1 by (vm_compute; reflexivity).
  assert (decode_and_validate_envelope (H := short_codec) (@scale_encode _ (@scale_envelope short_codec)
    (RelayWitnesses.relay_envelope Earth)) = Ok (RelayWitnesses.relay_envelope Earth, relay_package Earth)) as H2
    by (vm_compute; reflexivity).
  assert (Relay.submit_package (H := short_codec) (@scale_encode _ (@scale_envelope short_codec)
    (RelayWitnesses.relay_envelope Earth)) 1000 empty_relay
    = (accepted_relay Earth, Ok (accepted_record (RelayWitnesses.relay_envelope Earth) 1000, false))) as H3
    by (vm_compute; reflexivity).
  exact (lost_receipt_not_recovered (H := short_codec) (fun _ => accepted_body) (fun _ => []) anytime example_transport
    example_links_unsigned length_first_32 empty_relay 0 0 None _ _ _ 7000 _ _ _ _ _
    (mkRelaySys scheduled_relay 1500 0 None) 7001 1000 (ex_intro _ 0 (rtc_refl _ _)) ltac:(lia) H1 H2 H3
    (rtc_once _ _ scheduled_step) ltac:(discriminate)).
Defined.
