(* ===== verification/LiveNode.v ===== *)
(** * A node that answers

    A node for [ImporterLiveness.v], on the reference codec: it keeps the importer's
    calls in a pool, and at the next query of its storage it makes a block of them.
    It is responsive, and the importer of Mars settles on it the package of
    [NetworkExample.v]. *)

From S2P Require Import Prelude Types Effects Codec Reference Merkle Frame Domain Epochs Transfers TransfersProofs Governance Runtime RuntimeProofs Config Verify VerifyProofs Relay RelayWitnesses ExporterWitnesses Importer ImporterProofs ImporterSafety CrossChain NetworkExample ChainProgress ImporterLiveness.

#[local] Existing Instance reference_codec.
#[local] Existing Instance reference_account.
#[local] Existing Instance reference_account_ok.
#[local] Existing Instance reference_currency.
#[local] Existing Instance reference_currency_ok.
#[local] Existing Instance flat_light_client.

(** ** The node *)

#[export] Instance live_storage_codec : StorageCodec := {|
  scale_account := tagged 30 Z;
  scale_observed_import := tagged 31 _;
  scale_export_record := tagged 32 _;
  scale_governance_proposal := tagged 33 _;
  scale_governance_ack_record := tagged 34 _
|}.
#[export] Instance live_storage_codec_ok : StorageCodecOk.
Proof. split; apply tagged_ok, _. Qed.
#[export] Instance live_keys : Keys := {|
  Pair := Z;
  Signature := unit;
  pair_from_string := head;
  pair_account p := acct p;
  pair_sign _ _ := tt
|}.

Definition live_pair : Pair := 7.

Record Live : Type := mkLive {
  lv_state : list System * Chain Ledger;
  lv_pool : list RuntimeCall;
  lv_nonce : Z;
  lv_clock : Z
}.
#[export] Instance Live_settable : Settable Live := fun r => mkLive (lv_state r) (lv_pool r) (lv_nonce r) (lv_clock r).
Definition live_chain (n : Live) : Chain Ledger := snd (lv_state n).

(** The storage the importer reads. *)
Definition live_store (ch : Chain Ledger) (key : bytes) : option bytes :=
  let transfers := w_transfers (ch_world ch) in
  let governance := w_governance (ch_world ch) in
  if bool_decide (key = importer_account_storage_key) then scale_encode <$> ts_importer_account transfers
  else if bool_decide (key = governance_importer_account_storage_key) then scale_encode <$> gs_importer_account governance
  else if prefix_is key "Transfers" "ObservedImportsById" then
    (key_of key : option hash) ≫= fun id => scale_encode <$> ts_observed_imports_by_id transfers !! id
  else if prefix_is key "Transfers" "ExportsById" then
    (key_of key : option hash) ≫= fun id => scale_encode <$> ts_exports_by_id transfers !! id
  else if prefix_is key "Governance" "ProposalsById" then
    (key_of key : option hash) ≫= fun id => scale_encode <$> gs_proposals_by_id governance !! id
  else if prefix_is key "Governance" "AckRecordsByKey" then
    (key_of key : option (hash * DomainId)) ≫= fun k => scale_encode <$> gs_ack_records_by_key governance !! k
  else None.

(** A block of the calls in the pool. *)
Definition produce (n : Live) : Live :=
  match lv_pool n with
  | [] => n
  | pool => n {{ lv_state := next (map (plain_xt 7) pool) (lv_state n) }} {{ lv_pool := [] }}
  end.

#[export] Instance live_rpc : NodeRpc Live := {|
  unix_now_millis n := (n {{ lv_clock := lv_clock n + 1 }}, lv_clock n);
  rpc_connect n := (n, Ok tt);
  state_getRuntimeVersion n := (n, Ok (mkRuntimeVersionView 1 1));
  chain_getBlockHash _ n := (n, Ok [0]);
  state_getStorage key n := (produce n, Ok (hex_hash <$> live_store (live_chain (produce n)) (strip_0x key)));
  system_accountNextIndex _ n := (n, Ok (lv_nonce n));
  author_submitExtrinsic x n :=
    if sx_nonce x =? lv_nonce n
    then (n {{ lv_pool := lv_pool n ++ [sx_call x] }} {{ lv_nonce := lv_nonce n + 1 }}, Ok "0x00"%string)
    else (n, Err "invalid nonce"%string)
|}.

(** ** It is responsive *)
Section Responsive.
Context (d : DomainId) (items : list Item).
Context (Hamounts : forall leaf, ItemExport leaf ∈ items -> 0 <= el_amount leaf).

Lemma live_store_spec ch : importer_store ch (live_store ch).
Proof.
  assert (forall p s k key, length key = 32%nat -> storage_map_key p s k <> key) as Hmap.
  { intros p s k key Hl E. apply (f_equal length) in E. unfold storage_map_key, storage_value_key in E.
    rewrite !length_app, !length_twox_128, length_blake2_128, Hl in E. lia. }
  split; [done|done|..]; intros; unfold live_store, observed_import_storage_key, export_record_storage_key,
    governance_proposal_storage_key, governance_ack_record_storage_key;
    rewrite !bool_decide_eq_false_2 by (by apply Hmap); by rewrite !prefix_map, key_map.
Qed.

(** There is a nonce for every block. *)
Definition live (n : Live) : Prop :=
  chain_run d 2 (fst (lv_state n)) (live_chain n) /\
  Z.of_nat (length (fst (lv_state n))) + (if decide (lv_pool n = []) then 0 else 1) <= lv_nonce n <= u32_max /\
  Forall importer_call (lv_pool n).
Abbreviation live_passes := (passes d 2 live_pair live_chain lv_pool items).
Abbreviation live_moves := (moves d 2 live_pair live_chain lv_pool lv_nonce items live).

Lemma passes_stay n n' calls : lv_state n' = lv_state n -> lv_pool n' = calls -> live_passes n n' calls.
Proof. intros E <-. exists []. split; [done|]. unfold live_chain. rewrite E. constructor. Qed.
Lemma moves_same n : live n -> live_moves n n.
Proof. intros Hn. split_and!; [done|done|]. by apply passes_stay. Qed.

Lemma live_admissible calls : Forall importer_call calls -> Forall always_admissible calls.
Proof. intros Hc. eapply Forall_impl; [exact Hc|]. intros [] Hk ch; simpl in *; done. Qed.
Lemma live_credits sys xts : forall i ch, credits_all (acct 7) items sys i xts ch.
Proof.
  induction xts as [|xt xts IH]; intros i ch; simpl; [done|]. split; [|apply IH].
  intros _ leaf recipient Hin _. apply Hamounts in Hin. simpl. rewrite (proj2 (Z.leb_le _ _)) by lia. by eexists.
Qed.
Lemma live_calls calls : omap (signed_call (acct 7)) (map (plain_xt 7) calls) = calls.
Proof. induction calls as [|c calls IH]; [done|]. exact (f_equal (cons c) IH). Qed.

Lemma produce_moves n : live n -> live_moves n (produce n) /\ lv_pool (produce n) = [].
Proof.
  intros Hn. unfold produce. destruct (lv_pool n) as [|c pool] eqn:Ep; [split; [by apply moves_same|done]|].
  destruct Hn as (Hrun & Hl & Hc). rewrite Ep in *. simpl in Hl.
  pose proof (importer_admissible (c :: pool) (bl_sys (example_block (Z.of_nat (length (fst (lv_state n))) + 1)
    (map (plain_xt 7) (c :: pool)))) 0 (enter_block (example_block (Z.of_nat (length (fst (lv_state n))) + 1)
    (map (plain_xt 7) (c :: pool))) (live_chain n)) (live_admissible _ Hc)) as Hadm.
  split; [|done]. split_and!; [|done|].
  - split_and!; [apply (chain_block d 2 _ _ _ Hrun); [done|simpl; lia|exact Hadm]|simpl; rewrite length_app; simpl; lia|simpl; lia|constructor].
  - exists (c :: pool). split; [simpl; by rewrite app_nil_r|].
    rewrite <-(live_calls (c :: pool)) at 1. rewrite <-(app_nil_r (omap _ _)).
    eapply (grows_block d 2 (acct 7) items _ (example_block _ _)); [exact Hrun|done|simpl; lia|exact Hadm|apply live_credits|constructor].
Qed.

Lemma live_drained k : forall n, live n -> lv_pool n = [] -> drained lv_pool k n.
Proof.
  induction k as [|k IH]; intros n Hn Ep; [done|]. simpl. intros _.
  destruct (produce_moves n Hn) as [[Hn' _] Ep']. by apply IH.
Qed.

Lemma live_responsive : Responsive d 2 live_pair (mkRuntimeVersionView 1 1) [0] live_chain lv_pool lv_nonce items live.
Proof.
  split.
  - intros n Hn. split_and!; [exact Hn|done|]. by apply passes_stay.
  - intros n Hn. exists n, tt. split_and!; [done|by apply moves_same|done].
  - intros n Hn. eexists n, _. split_and!; [done|by apply moves_same|done].
  - intros n Hn. eexists n, _. split_and!; [done|by apply moves_same|done].
  - intros key n Hn. exists (produce n), (hex_hash <$> live_store (live_chain (produce n)) key).
    split_and!; [done|by apply produce_moves|]. eexists. split; [apply live_store_spec|done].
  - intros n Hn. eexists n, _. split_and!; [done|by apply moves_same|done].
  - intros c n (Hrun & Hl & Hc) Hk Hnonce. eexists _, _. split; [simpl; rewrite Z.eqb_refl; reflexivity|].
    split_and!; [|done|by apply passes_stay]. split_and!; [done|simpl..|].
    + rewrite decide_False by (by destruct (lv_pool n)). destruct (decide (lv_pool n = [])); lia.
    + lia.
    + by apply Forall_app_2; [|apply Forall_singleton].
  - intros n Hn. assert (forall k, drained lv_pool (S k) n) as Hd; [|exact (Hd 59%nat)]. intros k key.
    destruct (produce_moves n Hn) as [[Hn' _] Ep]. exact (live_drained k _ Hn' Ep).
Qed.
End Responsive.

(** ** One export, on a chain that has not seen it *)

Definition export_leaf_ok (leaf : ExportLeaf) : bool :=
  bool_decide (is_Some (account_from_bytes (el_recipient leaf))) && (0 <=? el_amount leaf).

Lemma one_amount leaf leaf' : export_leaf_ok leaf = true -> ItemExport leaf' ∈ [ItemExport leaf] -> 0 <= el_amount leaf'.
Proof. intros [_ Ha]%andb_prop Hin. apply list_elem_of_singleton in Hin as [= ->]. by apply Z.leb_le. Qed.

(** A node of domain [d] at its genesis. *)
Definition live_genesis (d : DomainId) : Live := mkLive ([], network_genesis d) [] 0 1000.
Lemma live_genesis_live d : live d (live_genesis d).
Proof. split_and!; [by apply chain_start|by vm_compute|by vm_compute|constructor]. Qed.

Lemma one_item leaf i : i ∈ [ItemExport leaf] -> i = ItemExport leaf.
Proof. apply list_elem_of_singleton. Qed.
Lemma one_sound d leaf : export_leaf_ok leaf = true -> sound_items d [ItemExport leaf].
Proof.
  intros [Hr%bool_decide_eq_true_1 _]%andb_prop. split; [by apply Forall_singleton|]. intros l l' [=]%one_item.
Qed.
Lemma one_deliverable d index leaf :
  ii_imports index = [] -> deliverable live_pair live_chain lv_pool lv_nonce (live_genesis d) index [ItemExport leaf].
Proof.
  intros Hi. split; [|done|by apply Forall_singleton|..|done|done].
  - intros l l' _ [=]%one_item.
  - intros l _. unfold record. rewrite Hi. by intros [].
  - intros l [=]%one_item.
Qed.

(** ** Witness *)

Definition waiting_record : PackageRecord :=
  build_package_record Earth Mars 0 (sh_summary_hash (pkg_header earth_package)) (pkg_package_hash earth_package) 1 900.
Definition waiting_index : ImporterIndex := (new_index Mars) {{ ii_packages := [waiting_record] }}.
(** The importer of Mars, with Earth's package in its store. *)
Definition waiting : Importer Live :=
  mkImporter waiting_index (Some (CurrentIndex waiting_index)) ∅ ∅
    {[ pr_payload_path waiting_record := scale_encode earth_package ]} (live_genesis Mars).

Lemma waiting_item : exists leaf, package_items (mkVerifiedPackageItems export_proofs [] []) = [ItemExport leaf] /\
  el_export_id leaf = transfer_id /\ export_leaf_ok leaf = true.
Proof.
  assert (match export_proofs with [p] => bool_decide (el_export_id (eip_leaf p) = transfer_id) && export_leaf_ok (eip_leaf p) | _ => false end = true)
    as Hp by (vm_compute; reflexivity).
  destruct export_proofs as [|p []]; [done| |done]. exists (eip_leaf p).
  apply andb_prop in Hp as [E%bool_decide_eq_true_1 Hok]. done.
Qed.
#[local] Opaque earth_package export_proofs.

Lemma importer_settles_package_witness :
  exists s' r, process_package_by_identity Mars (Some [7]) network_config (mkRuntimeVersionView 1 1) Earth Mars 0
      (pkg_package_hash earth_package) waiting = (s', Ok tt) /\
    imports_of (live_chain (im_node s')) !! transfer_id = Some r /\ oir_status r = ImportRemoteFinalized.
Proof.
  destruct waiting_item as (leaf & Ei & Eid & Hok).
  destruct (importer_settles_package Mars 2 ltac:(lia) (network_export_ids Mars) reference_proposal_ids live_pair (mkRuntimeVersionView 1 1) [0]
    live_chain lv_pool lv_nonce (live Mars) [7] network_config earth_package (mkVerifiedPackageItems export_proofs [] [])
    waiting waiting_index Earth Mars 0 (pkg_package_hash earth_package) waiting_record (scale_encode earth_package))
    as (s' & index' & r' & Hop & _ & _ & _ & Hdone).
  - apply live_responsive. intros leaf'. rewrite Ei. apply one_amount. exact Hok.
  - exact (live_genesis_live Mars).
  - rewrite Ei. apply one_sound. exact Hok.
  - rewrite Ei. apply one_deliverable. reflexivity.
  - reflexivity.
  - reflexivity.
  - unfold package, waiting_index, same_package, waiting_record. simpl. rewrite bool_decide_eq_true_2 by done. reflexivity.
  - reflexivity.
  - apply lookup_singleton_eq.
  - apply decode_whole.
  - exact earth_package_verified.
  - rewrite Ei in Hdone. destruct (Hdone (ItemExport leaf)) as (r & Hr & Hs); [by apply list_elem_of_singleton|].
    simpl in Hr. rewrite Eid in Hr. exists s', r. split; [exact Hop|]. split; [exact Hr|exact Hs].
Defined.
