(* ===== verification/Readiness.v ===== *)
(** * Certification readiness ([chain/node/src/rpc.rs])

    The node's answer to [ialp_summary_certificationReadiness]: whether the
    summary of an epoch can be certified yet, and the certificate and storage
    proof when it can.  [NodeClient] holds what one request reads from
    Substrate: the client, the justifications in the backend and the GRANDPA
    authority set. *)

From S2P Require Import Prelude Types Codec Merkle Frame Epochs Verify.

(** [sp_blockchain::Error], as far as the code tells its variants apart. *)
Inductive BlockchainError : Type :=
| UnknownBlock (text : string)
| InvalidState
| StateDatabase (text : string)
| MissingHeader (text : string)
| Blockchain (inner : BlockchainError)
| OtherError (text : string).

(** The errors of the RPC. *)
Inductive RpcError : Type :=
| NoStagedSlot (epoch_id : Z)
| NotStagedYet (epoch_id : Z) (status : SummarySlotStatus)
| StagedBlockNumberMissing (epoch_id : Z)
| ClientError (error : BlockchainError)
| ValueUndecodable
| CanonicalHashMissing (block_number : Z)
| CanonicalHeaderMissing (block_number : Z).

(** The JSON-RPC code of an error: [ErrorCode::InvalidParams] or
    [ErrorCode::InternalError]. *)
Definition rpc_error_code (error : RpcError) : Z :=
  match error with NoStagedSlot _ | NotStagedYet _ _ => -32602 | _ => -32603 end.

Record ResolvedProof : Type := mkResolvedProof {
  rv_proof_block_number : Z;
  rv_proof_block_hash : hash;
  rv_justification : bytes;
  rv_ancestry_headers : list bytes
}.

Definition on_err {E E' A} (f : E -> E') (r : result E A) : result E' A :=
  match r with Ok a => Ok a | Err e => Err (f e) end.

Definition GRANDPA_ENGINE_ID : bytes := str_bytes "FRNK".

Section Readiness.
Context `{!Codec, !LightClient, !Scale SummarySlotRecord}.

Record NodeClient : Type := mkNodeClient {
  best_hash : hash;
  finalized_hash : hash;
  finalized_number : Z;
  (** The canonical hash at a height. *)
  block_hash : Z -> result BlockchainError (option hash);
  block_header : hash -> result BlockchainError (option Header);
  state_storage : hash -> bytes -> result BlockchainError (option bytes);
  read_proof : hash -> bytes -> result BlockchainError (list bytes);
  (** Engine and justification. *)
  justifications : hash -> result BlockchainError (option (list (bytes * bytes)));
  authority_set_id : Z;
  (** [authority_set_changes().iter_from(0)]: a set and its last block. *)
  authority_set_changes : option (list (Z * Z))
}.

Implicit Types client : NodeClient.

Fixpoint is_historical_state_unavailable (error : BlockchainError) : bool :=
  match error with
  | UnknownBlock _ | InvalidState | StateDatabase _ | MissingHeader _ => true
  | Blockchain inner => is_historical_state_unavailable inner
  | OtherError _ => false
  end.

Definition proof_pending_reason (error : BlockchainError) : CertificationPendingReason :=
  if is_historical_state_unavailable error then HistoricalStateUnavailable else StorageProofConstructionFailed.

Fixpoint resolve_grandpa_set_id (current_set_id : Z) (changes : list (Z * Z)) (block_number : Z) : Z :=
  match changes with
  | [] => current_set_id
  | (set_id, last_block_for_set) :: changes =>
    if block_number <=? last_block_for_set then set_id else resolve_grandpa_set_id current_set_id changes block_number
  end.

Definition grandpa_set_id_for_block client (block_number : Z) : Z :=
  resolve_grandpa_set_id (authority_set_id client) (default [] (authority_set_changes client)) block_number.

Definition summary_slot_storage_key (epoch_id : Z) : bytes :=
  storage_map_key (str_bytes "Epochs") (str_bytes "SummarySlots") (scale_encode epoch_id).

(** [into_justification]: the first justification of the engine. *)
Definition extract_grandpa_justification (justifications : list (bytes * bytes)) : option bytes :=
  snd <$> head (filter (fun j => j.1 = GRANDPA_ENGINE_ID) justifications).

Definition decode_storage_value {T} `{!Scale T} client (at_block : hash) (key : bytes) : result RpcError (option T) :=
  let? value := on_err ClientError (state_storage client at_block key) in
  match value with
  | None => Ok None
  | Some raw => let?? value := scale_decode raw else ValueUndecodable in Ok (Some value)
  end.

Definition load_storage_bytes client (at_block : hash) (key : bytes) : result BlockchainError (option bytes) :=
  state_storage client at_block key.

Definition grandpa_justification client (block : hash) : result RpcError (option bytes) :=
  let? justifications := on_err ClientError (justifications client block) in
  match justifications with
  | None => Ok None
  | Some justifications => Ok (extract_grandpa_justification justifications)
  end.

(** The loop over [target_block_number..=finalized_number]. *)
Fixpoint earliest_justified client (block_numbers : list Z) : result RpcError (option (Z * hash * bytes)) :=
  match block_numbers with
  | [] => Ok None
  | block_number :: block_numbers =>
    let? block := on_err ClientError (block_hash client block_number) in
    match block with
    | None => earliest_justified client block_numbers
    | Some block =>
      let? justification := grandpa_justification client block in
      match justification with
      | None => earliest_justified client block_numbers
      | Some justification => Ok (Some (block_number, block, justification))
      end
    end
  end.
Definition find_earliest_justified_descendant client (target_block_number finalized_number : Z)
    : result RpcError (option (Z * hash * bytes)) :=
  earliest_justified client (seqZ target_block_number (finalized_number + 1 - target_block_number)).

(** The loop over [(target_block_number + 1)..=proof_block_number]. *)
Fixpoint encoded_headers client (block_numbers : list Z) : result RpcError (list bytes) :=
  match block_numbers with
  | [] => Ok []
  | block_number :: block_numbers =>
    let? block := on_err ClientError (block_hash client block_number) in
    let?? block := block else CanonicalHashMissing block_number in
    let? header := on_err ClientError (block_header client block) in
    let?? header := header else CanonicalHeaderMissing block_number in
    let? headers := encoded_headers client block_numbers in
    Ok (header_encode header :: headers)
  end.
Definition ancestry_headers client (target_block_number proof_block_number : Z) : result RpcError (list bytes) :=
  let first := as_u32 (target_block_number + 1) in
  encoded_headers client (seqZ first (proof_block_number + 1 - first)).

Definition verify_summary_header_storage_proof_bytes (proof_block_header_bytes : bytes) (proof_block_hash : hash)
    (storage_key : bytes) (trie_nodes : list bytes) (expected_value : bytes) : result CertificationPendingReason unit :=
  let?? decoded_header := header_decode proof_block_header_bytes else StorageProofConstructionFailed in
  ensure! bool_decide (header_hash decoded_header = proof_block_hash) else StorageProofConstructionFailed in
  let?? verified := read_proof_check (header_state_root decoded_header) trie_nodes storage_key
    else StorageProofConstructionFailed in
  match verified with
  | Some value => ensure! bool_decide (value = expected_value) else StorageProofConstructionFailed in Ok tt
  | None => Err StorageProofConstructionFailed
  end.

Definition build_summary_certification_bundle client (epoch_id : Z) (best : hash) (target_block_number : Z)
    (target_block_hash : hash) (resolved : ResolvedProof) (grandpa_set_id : Z)
    : result CertificationPendingReason SummaryCertificationBundle :=
  let storage_key := summary_header_storage_key epoch_id in
  let? best_state_value := on_err proof_pending_reason (load_storage_bytes client best storage_key) in
  let?? best_state_value := best_state_value else StorageProofConstructionFailed in
  let? proof_state_value := on_err proof_pending_reason
    (load_storage_bytes client (rv_proof_block_hash resolved) storage_key) in
  let?? proof_state_value := proof_state_value else StorageProofConstructionFailed in
  ensure! bool_decide (proof_state_value = best_state_value) else StorageProofConstructionFailed in
  let? trie_nodes := on_err proof_pending_reason (read_proof client (rv_proof_block_hash resolved) storage_key) in
  let? proof_block_header := on_err proof_pending_reason (block_header client (rv_proof_block_hash resolved)) in
  let?? proof_block_header := proof_block_header else StorageProofConstructionFailed in
  let proof_block_header_bytes := header_encode proof_block_header in
  let? _ := verify_summary_header_storage_proof_bytes proof_block_header_bytes (rv_proof_block_hash resolved)
              storage_key trie_nodes best_state_value in
  Ok {| scb_certificate := GrandpaV1 {|
          gfc_version := GRANDPA_FINALITY_CERTIFICATE_VERSION;
          gfc_grandpa_set_id := grandpa_set_id;
          gfc_target_block_number := target_block_number;
          gfc_target_block_hash := target_block_hash;
          gfc_proof_block_number := rv_proof_block_number resolved;
          gfc_proof_block_hash := rv_proof_block_hash resolved;
          gfc_justification := rv_justification resolved;
          gfc_ancestry_headers := rv_ancestry_headers resolved |};
        scb_summary_header_storage_proof := {|
          shp_version := SUMMARY_HEADER_STORAGE_PROOF_VERSION;
          shp_proof_block_number := rv_proof_block_number resolved;
          shp_proof_block_hash := rv_proof_block_hash resolved;
          shp_proof_block_header := proof_block_header_bytes;
          shp_storage_key := storage_key;
          shp_trie_nodes := trie_nodes |} |}.

Definition build_certification_readiness (epoch_id staged_at_block_number : Z) (staged_at_block_hash : hash)
    (latest_finalized_block_number : Z) (latest_finalized_block_hash : hash) (state : SummaryCertificationState)
    : SummaryCertificationReadiness :=
  {| scr_epoch_id := epoch_id;
     scr_staged_at_block_number := staged_at_block_number;
     scr_staged_at_block_hash := staged_at_block_hash;
     scr_latest_finalized_block_number := latest_finalized_block_number;
     scr_latest_finalized_block_hash := latest_finalized_block_hash;
     scr_state := state |}.

Definition certification_readiness client (epoch_id : Z) : result RpcError SummaryCertificationReadiness :=
  let best := best_hash client in
  let finalized := finalized_number client in
  let? slot := decode_storage_value (T := SummarySlotRecord) client best (summary_slot_storage_key epoch_id) in
  let?? slot := slot else NoStagedSlot epoch_id in
  ensure! bool_decide (slot_status slot = Staged) else NotStagedYet epoch_id (slot_status slot) in
  let?? staged_at_block_number := slot_staged_at_block_number slot else StagedBlockNumberMissing epoch_id in
  let? target := on_err ClientError (block_hash client staged_at_block_number) in
  match target with
  | None =>
    Ok (build_certification_readiness epoch_id staged_at_block_number EMPTY_HASH finalized (finalized_hash client)
          (Pending MissingTargetBlockHash))
  | Some target_block_hash =>
    let? state :=
      (if finalized <? staged_at_block_number then Ok (Pending TargetBlockNotFinalized)
       else
         let? found := find_earliest_justified_descendant client staged_at_block_number finalized in
         match found with
         | Some (proof_block_number, proof_block_hash, justification) =>
           let? ancestry := ancestry_headers client staged_at_block_number proof_block_number in
           let resolved := mkResolvedProof proof_block_number proof_block_hash justification ancestry in
           let grandpa_set_id := grandpa_set_id_for_block client proof_block_number in
           match build_summary_certification_bundle client epoch_id best staged_at_block_number target_block_hash
                   resolved grandpa_set_id with
           | Ok bundle => Ok (Ready bundle)
           | Err reason => Ok (Pending reason)
           end
         | None => Ok (Pending NoJustifiedDescendantYet)
         end) in
    Ok (build_certification_readiness epoch_id staged_at_block_number target_block_hash finalized
          (finalized_hash client) state)
  end.
End Readiness.
