(* ===== verification/ReadinessProofs.v ===== *)
(** * What a ready answer is worth

    A ready answer of the node carries a certificate that the importers accept,
    it does not change as the chain grows, and it comes as soon as a justified
    block at or after the summary's block is final.  Together with the exporter's
    and the importer's side: the packages of a synchronised exporter pass every
    check of the domains they are for. *)

From S2P Require Import Prelude Types Effects Codec Merkle Frame Domain Epochs Transfers TransfersProofs Governance GovernanceProofs PublicationProofs GovernanceOrigins Runtime RuntimeProofs Config Verify VerifyProofs Relay Importer ImporterProofs Exporter ExporterProofs ExporterSafety ExporterChain Readiness.

Lemma on_err_ok {E E' A} (f : E -> E') (r : result E A) a : on_err f r = Ok a -> r = Ok a.
Proof. destruct r; by intros [= ->]. Qed.

Ltac client_facts := repeat match goal with H : on_err _ _ = Ok _ |- _ => apply on_err_ok in H end.

Section Proofs.
Context `{!Codec, !CodecOk, !LightClient, !LightClientOk, !Scale SummarySlotRecord}.

Implicit Types client : NodeClient.

(** ** The search for a justified block *)

Definition canonical client (n : Z) (h : hash) : Prop := block_hash client n = Ok (Some h).
Definition justified_by client (n : Z) (h : hash) (j : bytes) : Prop :=
  canonical client n h /\ grandpa_justification client h = Ok (Some j).

Lemma earliest_spec client ns n h j :
  earliest_justified client ns = Ok (Some (n, h, j)) ->
  justified_by client n h j /\ exists before after, ns = before ++ n :: after /\
    forall n' h' j', n' ∈ before -> ~ justified_by client n' h' j'.
Proof.
  induction ns as [|m ns IH]; intros Hop; simpl in Hop; [done|].
  assert (earliest_justified client ns = Ok (Some (n, h, j)) -> (forall h' j', ~ justified_by client m h' j') ->
    justified_by client n h j /\ exists before after, m :: ns = before ++ n :: after /\
      forall n' h' j', n' ∈ before -> ~ justified_by client n' h' j') as Hlater.
  { intros Hop' Hm. destruct (IH Hop') as (Hj & before & after & -> & Hb). split; [done|]. exists (m :: before), after.
    split; [done|]. intros n' h' j' [->|Hn']%elem_of_cons; auto. }
  destruct (on_err ClientError (block_hash client m)) as [[b|]|] eqn:Eb; [|apply on_err_ok in Eb|done].
  - apply on_err_ok in Eb. destruct (grandpa_justification client b) as [[j'|]|] eqn:Ej; [| |done].
    + injection Hop as -> -> ->. split; [done|]. exists [], ns. split; [done|]. intros ? ? ? []%elem_of_nil.
    + apply Hlater; [done|]. intros h' j' [Hc Hj]. unfold canonical in Hc. congruence.
  - apply Hlater; [done|]. intros h' j' [Hc Hj]. unfold canonical in Hc. congruence.
Qed.

Lemma earliest_range client target final n h j :
  find_earliest_justified_descendant client target final = Ok (Some (n, h, j)) ->
  target <= n <= final /\ justified_by client n h j /\
  forall n' h' j', target <= n' < n -> ~ justified_by client n' h' j'.
Proof.
  intros (Hj & before & after & E & Hb)%earliest_spec. pose proof (f_equal (fun l => l !! length before) E) as El.
  rewrite list_lookup_middle in El by done. apply lookup_seqZ in El as [-> Hl].
  split_and!; [lia..|done|]. intros n' h' j' Hn'. apply Hb.
  assert (before = take (length before) (seqZ target (final + 1 - target))) as -> by (by rewrite E, take_app_length).
  apply list_elem_of_lookup. exists (Z.to_nat (n' - target)). rewrite lookup_take_lt by lia. apply lookup_seqZ. lia.
Qed.

(** ** The chain of headers *)

(** What a client holds of its best chain. *)
Record Canonical client : Prop := {
  can_header n h hd : canonical client n h -> block_header client h = Ok (Some hd) -> header_hash hd = h /\ header_number hd = n;
  can_parent n h h' hd : canonical client n h -> canonical client (n + 1) h' ->
    block_header client h' = Ok (Some hd) -> header_parent_hash hd = h
}.

Lemma encoded_headers_walk client len : forall n h encs,
  Canonical client -> canonical client n h -> 0 <= n -> n + Z.of_nat len <= u32_max ->
  encoded_headers client (seqZ (n + 1) (Z.of_nat len)) = Ok encs ->
  exists h', canonical client (n + Z.of_nat len) h' /\ walk_ancestry h n encs = Ok (h', n + Z.of_nat len).
Proof.
  induction len as [|len IH]; intros n h encs Hc Hh Hn Hm Hop.
  { simpl in Hop. injection Hop as <-. exists h. simpl. by rewrite Z.add_0_r. }
  rewrite seqZ_cons in Hop by lia. simpl in Hop. dispatch_inv Hop. client_facts. subst encs.
  match goal with H : encoded_headers _ _ = Ok _ |- _ => rename H into Hrest end.
  replace (Z.succ (n + 1)) with ((n + 1) + 1) in Hrest by lia.
  replace (Z.pred (Z.of_nat (S len))) with (Z.of_nat len) in Hrest by lia.
  match goal with H : block_hash _ _ = Ok (Some ?b), H' : block_header _ ?b = Ok (Some ?hd) |- _ =>
    destruct (can_header _ Hc _ _ _ H H') as [Ehash Enum]; pose proof (can_parent _ Hc _ _ _ _ Hh H H') as Epar;
    rename H into Hb end.
  destruct (IH _ _ _ Hc Hb ltac:(lia) ltac:(lia) Hrest) as (h' & Hh' & Hw).
  exists h'. replace (n + Z.of_nat (S len)) with (n + 1 + Z.of_nat len) by lia. split; [done|].
  simpl. rewrite header_decode_encode, bool_decide_eq_true_2 by done. rewrite Enum, as_u32_small by lia.
  by rewrite Z.eqb_refl, Ehash.
Qed.

(** ** A ready answer *)

Lemma ready_inv client e r bundle :
  certification_readiness client e = Ok r -> scr_state r = Ready bundle ->
  exists slot staged target n h j ancestry,
    decode_storage_value client (best_hash client) (Readiness.summary_slot_storage_key e) = Ok (Some slot) /\
    slot_staged_at_block_number slot = Some staged /\ scr_staged_at_block_number r = staged /\ canonical client staged target /\
    find_earliest_justified_descendant client staged (finalized_number client) = Ok (Some (n, h, j)) /\
    ancestry_headers client staged n = Ok ancestry /\
    build_summary_certification_bundle client e (best_hash client) staged target (mkResolvedProof n h j ancestry)
      (grandpa_set_id_for_block client n) = Ok bundle.
Proof.
  unfold certification_readiness. intros Hop Hr. dispatch_inv Hop; subst r; simpl in Hr; try discriminate Hr.
  match goal with H : (if _ then _ else _) = Ok _ |- _ => rename H into Hst end.
  dispatch_inv Hst; try (subst; discriminate Hr). client_facts. subst. injection Hr as ->.
  by eexists _, _, _, _, _, _, _.
Qed.

Lemma bundle_inv client e best staged target n h j ancestry set_id bundle :
  build_summary_certification_bundle client e best staged target (mkResolvedProof n h j ancestry) set_id = Ok bundle ->
  exists v hd nodes, state_storage client best (summary_header_storage_key e) = Ok (Some v) /\
    read_proof client h (summary_header_storage_key e) = Ok nodes /\ block_header client h = Ok (Some hd) /\
    read_proof_check (header_state_root hd) nodes (summary_header_storage_key e) = Some (Some v) /\
    bundle = mkSummaryCertificationBundle
      (GrandpaV1 (mkGrandpaFinalityCertificate GRANDPA_FINALITY_CERTIFICATE_VERSION set_id staged target n h j ancestry))
      (mkSummaryHeaderStorageProof SUMMARY_HEADER_STORAGE_PROOF_VERSION n h (header_encode hd)
         (summary_header_storage_key e) nodes).
Proof.
  unfold build_summary_certification_bundle, load_storage_bytes. simpl. intros Hop. dispatch_inv Hop. client_facts.
  match goal with H : verify_summary_header_storage_proof_bytes _ _ _ _ _ = Ok _ |- _ =>
    unfold verify_summary_header_storage_proof_bytes in H; rewrite header_decode_encode in H; repeat dispatch_step H end.
  bool_to_prop. subst. by eexists _, _, _.
Qed.

(** *** The certificate is accepted *)

Lemma ready_context client e r bundle header package rest :
  Canonical client -> finalized_number client < u32_max ->
  certification_readiness client e = Ok r -> scr_state r = Ready bundle -> 0 <= scr_staged_at_block_number r ->
  state_storage client (best_hash client) (summary_header_storage_key e) = Ok (Some (scale_encode header)) ->
  sh_epoch_id header = e -> pkg_header package = header -> pkg_certificate package = scb_certificate bundle ->
  pkg_inclusion_proofs package = scale_encode (SummaryHeaderStorageV1 (scb_summary_header_storage_proof bundle)) :: rest ->
  exists certificate, scb_certificate bundle = GrandpaV1 certificate /\ verify_summary_chain_context package = Ok certificate.
Proof.
  intros Hcan Hmax Hop Hr Hst Hv He Hh Hc Hp.
  destruct (ready_inv _ _ _ _ Hop Hr) as (slot & staged & target & n & h & j & ancestry & _ & _ & Es & Ht & Hf & Ha & Hb).
  destruct (earliest_range _ _ _ _ _ _ Hf) as (Hn & [Hcn _] & _).
  destruct (bundle_inv _ _ _ _ _ _ _ _ _ _ _ Hb) as (v & hd & nodes & Hv' & _ & Hhd & Hread & ->).
  rewrite Hv in Hv'. injection Hv' as <-. destruct (can_header _ Hcan _ _ _ Hcn Hhd) as [Eh En].
  unfold ancestry_headers in Ha. rewrite as_u32_small in Ha by lia.
  replace (n + 1 - (staged + 1)) with (Z.of_nat (Z.to_nat (n - staged))) in Ha by lia.
  destruct (encoded_headers_walk client (Z.to_nat (n - staged)) staged target ancestry Hcan Ht ltac:(lia) ltac:(lia) Ha) as (h' & Hh' & Hw).
  replace (staged + Z.of_nat (Z.to_nat (n - staged))) with n in * by lia.
  assert (h' = h) as -> by (unfold canonical in *; congruence).
  eexists. split; [reflexivity|]. unfold verify_summary_chain_context. rewrite Hc, Hp. simpl.
  unfold decode_summary_storage_proof. rewrite decode_proof. simpl.
  rewrite Z.eqb_refl, bool_decide_eq_true_2 by done. simpl. rewrite header_decode_encode, bool_decide_eq_true_2 by done.
  rewrite En, Z.eqb_refl. unfold verify_summary_storage_proof. simpl. rewrite Hh, He, bool_decide_eq_true_2 by done.
  rewrite Hread, bool_decide_eq_true_2 by done. unfold verify_ancestry_chain. simpl.
  by rewrite Hw, Z.eqb_refl, bool_decide_eq_true_2.
Qed.

(** *** The authority set *)

(** [set_of n] is the set that finalizes block [n]: each tracked change ends a
    set at its last block, and the current set follows. *)
Fixpoint set_history (from : Z) (changes : list (Z * Z)) (current : Z) (set_of : Z -> Z) : Prop :=
  match changes with
  | [] => forall n, from < n -> set_of n = current
  | (set_id, last) :: changes =>
    (forall n, from < n <= last -> set_of n = set_id) /\ set_history last changes current set_of
  end.

Lemma resolve_set_exact changes : forall from current set_of n,
  set_history from changes current set_of -> from < n -> resolve_grandpa_set_id current changes n = set_of n.
Proof.
  induction changes as [|[set_id last] changes IH]; intros from current set_of n Hh Hn; simpl in *.
  { symmetry. auto. }
  destruct Hh as [Hset Hh]. destruct (Z.leb_spec n last); [symmetry; apply Hset; lia|by apply (IH last)].
Qed.

(** The client has the history of the authority sets. *)
Definition tracks_sets client (set_of : Z -> Z) : Prop :=
  set_history (-1) (default [] (authority_set_changes client)) (authority_set_id client) set_of.

(** The backend keeps only justifications that were checked on import. *)
Definition justifications_valid client (set_of : Z -> Z) (authorities : list (bytes * Z)) : Prop := forall n h j,
  justified_by client n h j -> exists J, justification_decode j = Some J /\ just_target_hash J = h /\
    just_target_number J = n /\ justification_verify J (set_of n) authorities = true.

Lemma ready_grandpa client e r bundle set_of domain_configs d config authorities :
  certification_readiness client e = Ok r -> scr_state r = Ready bundle -> 0 <= scr_staged_at_block_number r ->
  tracks_sets client set_of -> justifications_valid client set_of authorities ->
  domain_configs d = Some config -> configured_authorities (dc_authorities config) = Ok authorities ->
  exists certificate, scb_certificate bundle = GrandpaV1 certificate /\
    verify_grandpa_certificate domain_configs certificate d = Ok tt.
Proof.
  intros Hop Hr Hst Hset Hval Hd Hauth.
  destruct (ready_inv _ _ _ _ Hop Hr) as (slot & staged & target & n & h & j & ancestry & _ & _ & Es & _ & Hf & _ & Hb).
  destruct (earliest_range _ _ _ _ _ _ Hf) as (Hn & Hj & _).
  destruct (bundle_inv _ _ _ _ _ _ _ _ _ _ _ Hb) as (v & hd & nodes & _ & _ & _ & _ & ->).
  destruct (Hval _ _ _ Hj) as (J & E1 & E2 & E3 & E4). eexists. split; [reflexivity|].
  unfold verify_grandpa_certificate, grandpa_set_id_for_block. simpl. rewrite Hd, Hauth, E1, E2, E3, Z.eqb_refl, bool_decide_eq_true_2 by done.
  simpl. by rewrite (resolve_set_exact _ (-1) _ set_of), E4 by (done || lia).
Qed.

(** ** Stability *)

(** [client'] is a later view of the same chain: what was final stays, with its
    justifications, headers and states. *)
Record client_later client client' : Prop := {
  lt_final : finalized_number client <= finalized_number client';
  lt_hash n : n <= finalized_number client -> block_hash client' n = block_hash client n;
  lt_justification n h : n <= finalized_number client -> canonical client n h ->
    grandpa_justification client' h = grandpa_justification client h;
  lt_header h hd hd' : block_header client h = Ok (Some hd) -> block_header client' h = Ok (Some hd') -> hd' = hd;
  lt_proof h key nodes nodes' : read_proof client h key = Ok nodes -> read_proof client' h key = Ok nodes' -> nodes' = nodes
}.

Lemma justified_later client client' n h j :
  client_later client client' -> n <= finalized_number client ->
  justified_by client' n h j <-> justified_by client n h j.
Proof.
  intros Hl Hn. unfold justified_by, canonical. rewrite (lt_hash _ _ Hl) by done. split; intros [Hc Hj]; (split; [done|]).
  - by rewrite <-(lt_justification _ _ Hl n h).
  - by rewrite (lt_justification _ _ Hl n h).
Qed.

Lemma encoded_headers_later client client' ns : forall encs encs',
  client_later client client' -> Forall (fun n => n <= finalized_number client) ns ->
  encoded_headers client ns = Ok encs -> encoded_headers client' ns = Ok encs' -> encs' = encs.
Proof.
  induction ns as [|n ns IH]; intros encs encs' Hl HF Hop Hop'; simpl in *; [congruence|].
  apply Forall_cons in HF as [Hn HF]. rewrite (lt_hash _ _ Hl) in Hop' by done.
  dispatch_inv Hop. dispatch_inv Hop'. client_facts. subst. f_equal; [f_equal|by apply IH].
  by eapply (lt_header _ _ Hl).
Qed.

(** C38: a certificate does not change.  Once the node has answered an epoch with a
    certificate, then whenever a later view of the chain answers the epoch with a
    certificate, it is the same one, byte for byte: finality only grows beyond the
    block the certificate is for. *)
Theorem ready_bundle_stable client client' set_of e r r' bundle bundle' :
  client_later client client' -> tracks_sets client set_of -> tracks_sets client' set_of ->
  decode_storage_value (T := SummarySlotRecord) client' (best_hash client') (Readiness.summary_slot_storage_key e)
  = decode_storage_value client (best_hash client) (Readiness.summary_slot_storage_key e) ->
  certification_readiness client e = Ok r -> scr_state r = Ready bundle -> 0 <= scr_staged_at_block_number r ->
  certification_readiness client' e = Ok r' -> scr_state r' = Ready bundle' -> bundle' = bundle.
Proof.
  intros Hl Hset Hset' Hslot Hop Hr Hpos Hop' Hr'.
  destruct (ready_inv _ _ _ _ Hop Hr) as (slot & staged & target & n & h & j & ancestry & Es & Est & Er & Ht & Hf & Ha & Hb).
  destruct (ready_inv _ _ _ _ Hop' Hr') as (slot' & staged' & target' & n' & h' & j' & ancestry' & Es' & Est' & _ & Ht' & Hf' & Ha' & Hb').
  assert (staged' = staged) as -> by congruence. clear slot' Es' Est' Hslot.
  destruct (earliest_range _ _ _ _ _ _ Hf) as (Hn & Hj & Hfirst), (earliest_range _ _ _ _ _ _ Hf') as (Hn' & Hj' & Hfirst').
  assert (n' = n) as ->.
  { destruct (Z.lt_trichotomy n' n) as [Hlt|[?|Hlt]]; [|done|]; exfalso.
    - apply (Hfirst n' h' j'); [lia|]. apply (justified_later client client'); [done|lia|done].
    - apply (Hfirst' n h j); [lia|]. apply (justified_later client client'); [done|lia|done]. }
  apply (justified_later client) in Hj'; [|done|lia]. destruct Hj as [Hc Hj], Hj' as [Hc' Hj']. unfold canonical in *.
  assert (h' = h) as -> by congruence. assert (j' = j) as -> by congruence.
  rewrite (lt_hash _ _ Hl) in Ht' by lia. assert (target' = target) as -> by congruence.
  assert (ancestry' = ancestry) as ->.
  { eapply encoded_headers_later; [done| |exact Ha|exact Ha']. apply Forall_forall. intros m Hm%elem_of_seqZ. lia. }
  destruct (bundle_inv _ _ _ _ _ _ _ _ _ _ _ Hb) as (v & hd & nodes & _ & Hp & Hhd & _ & ->).
  destruct (bundle_inv _ _ _ _ _ _ _ _ _ _ _ Hb') as (v' & hd' & nodes' & _ & Hp' & Hhd' & _ & ->).
  rewrite (lt_proof _ _ Hl _ _ _ _ Hp Hp'), (lt_header _ _ Hl _ _ _ Hhd Hhd').
  unfold grandpa_set_id_for_block. by rewrite !(resolve_set_exact _ (-1) _ set_of) by (done || lia).
Qed.

(** ** When the answer is ready *)

(** The node keeps what the request needs: the slot of the epoch, and for the
    blocks from the summary's on their headers, justifications and states, all
    with the value [v] for the epoch's summary header. *)
Record Available client (e staged : Z) (v : bytes) : Prop := {
  av_slot : exists slot, decode_storage_value client (best_hash client) (Readiness.summary_slot_storage_key e) = Ok (Some slot) /\
    slot_status slot = Staged /\ slot_staged_at_block_number slot = Some staged;
  av_range : 0 <= staged /\ finalized_number client < u32_max;
  av_best : state_storage client (best_hash client) (summary_header_storage_key e) = Ok (Some v);
  av_target : exists h, canonical client staged h;
  av_block n : staged <= n <= finalized_number client -> exists h hd js nodes,
    canonical client n h /\ block_header client h = Ok (Some hd) /\ grandpa_justification client h = Ok js /\
    state_storage client h (summary_header_storage_key e) = Ok (Some v) /\
    read_proof client h (summary_header_storage_key e) = Ok nodes /\
    read_proof_check (header_state_root hd) nodes (summary_header_storage_key e) = Some (Some v)
}.

Lemma earliest_total client ns :
  (forall n, n ∈ ns -> exists h, canonical client n h /\ exists j, grandpa_justification client h = Ok j) ->
  exists found, earliest_justified client ns = Ok found /\
    (found = None -> forall n h j, n ∈ ns -> ~ justified_by client n h j).
Proof.
  induction ns as [|m ns IH]; intros Hall; [exists None; split; [done|]; intros _ n h j []%elem_of_nil|].
  destruct (Hall m) as (hm & Hc & jm & Hg); [by left|]. simpl. rewrite Hc. simpl. rewrite Hg.
  destruct jm as [jm|]; [by exists (Some (m, hm, jm))|]. destruct IH as (found & -> & Hf); [intros; apply Hall; by right|].
  exists found. split; [done|]. intros E n h j [->|Hn]%elem_of_cons; [|by apply Hf].
  intros [Hc' Hj]. unfold canonical in *. congruence.
Qed.

Lemma headers_available client ns :
  (forall n, n ∈ ns -> exists h hd, canonical client n h /\ block_header client h = Ok (Some hd)) ->
  exists encs, encoded_headers client ns = Ok encs.
Proof.
  induction ns as [|m ns IH]; intros Hall; [by exists []|]. destruct (Hall m) as (h & hd & Hc & Hh); [by left|].
  simpl. rewrite Hc. simpl. rewrite Hh. simpl. destruct IH as [encs ->]; [intros; apply Hall; by right|]. by eexists.
Qed.

Lemma bundle_available client e staged v target n h j ancestry set_id :
  Canonical client -> Available client e staged v -> staged <= n <= finalized_number client -> canonical client n h ->
  exists bundle, build_summary_certification_bundle client e (best_hash client) staged target
    (mkResolvedProof n h j ancestry) set_id = Ok bundle.
Proof.
  intros Hcan Hav Hn Hc. destruct (av_block _ _ _ _ Hav n Hn) as (h' & hd & js & nodes & Hc' & Hh & _ & Hs & Hp & Hr).
  assert (h' = h) as -> by (unfold canonical in *; congruence). destruct (can_header _ Hcan _ _ _ Hc Hh) as [Eh _].
  unfold build_summary_certification_bundle, load_storage_bytes. simpl. rewrite (av_best _ _ _ _ Hav). simpl.
  rewrite Hs. simpl. rewrite bool_decide_eq_true_2 by done. rewrite Hp. simpl. rewrite Hh. simpl.
  unfold verify_summary_header_storage_proof_bytes.
  rewrite header_decode_encode, bool_decide_eq_true_2, Hr, bool_decide_eq_true_2 by done. by eexists.
Qed.

(** The answer is decided by finality.  When the node keeps what the request
    needs, its answer for a staged epoch is pending because the summary's block is
    not final exactly when it is not; pending because no justification covers it
    exactly when it is final and no final block from it on has a GRANDPA
    justification; and otherwise ready. *)
Theorem readiness_decided client e staged v :
  Canonical client -> Available client e staged v ->
  exists r, certification_readiness client e = Ok r /\ scr_epoch_id r = e /\ scr_staged_at_block_number r = staged /\
    (scr_state r = Pending TargetBlockNotFinalized <-> finalized_number client < staged) /\
    (scr_state r = Pending NoJustifiedDescendantYet <->
       staged <= finalized_number client /\
       forall n h j, staged <= n <= finalized_number client -> ~ justified_by client n h j) /\
    ((exists bundle, scr_state r = Ready bundle) <->
       exists n h j, staged <= n <= finalized_number client /\ justified_by client n h j).
Proof.
  intros Hcan Hav. destruct (av_slot _ _ _ _ Hav) as (slot & Es & Ess & Est), (av_target _ _ _ _ Hav) as (target & Ht).
  destruct (av_range _ _ _ _ Hav) as [Hpos Hmax]. unfold certification_readiness. rewrite Es, bool_decide_eq_true_2, Est, Ht by done. simpl.
  destruct (Z.ltb_spec (finalized_number client) staged) as [Hlt|Hge]; simpl.
  { eexists. split_and!; [done|done|done|done|split; [done|lia]|]. split; [by intros [? ?]|]. intros (n & h & j & ? & _). lia. }
  destruct (earliest_total client (seqZ staged (finalized_number client + 1 - staged))) as (found & Ef & Hnone).
  { intros n Hn%elem_of_seqZ. destruct (av_block _ _ _ _ Hav n) as (h & hd & js & nodes & Hc & _ & Hj & _); [lia|]. eauto. }
  unfold find_earliest_justified_descendant. rewrite Ef. destruct found as [[[n h] j]|]; simpl.
  - destruct (earliest_range _ _ _ _ _ _ Ef) as (Hn & Hj & _).
    destruct (headers_available client (seqZ (as_u32 (staged + 1)) (n + 1 - as_u32 (staged + 1)))) as (encs & Ha).
    { rewrite as_u32_small by lia. intros m Hm%elem_of_seqZ.
      destruct (av_block _ _ _ _ Hav m) as (hm & hd & js & nodes & Hc & Hh & _); [lia|]. eauto. }
    unfold ancestry_headers. rewrite Ha.
    destruct (bundle_available client e staged v target n h j encs (grandpa_set_id_for_block client n) Hcan Hav Hn (proj1 Hj))
      as [bundle ->]. simpl. eexists. split_and!; [done|done|done|split; [done|lia]| |].
    + split; [done|]. intros [_ Hno]. by destruct (Hno n h j Hn Hj).
    + split; [by exists n, h, j|]. intros _. by exists bundle.
  - eexists. split_and!; [done|done|done|split; [done|lia]| |].
    + split; [|done]. intros _. split; [done|]. intros n h j Hn. apply Hnone; [done|]. apply elem_of_seqZ. lia.
    + split; [by intros [? ?]|]. intros (n & h & j & Hn & Hj). exfalso. revert Hj. apply Hnone; [done|]. apply elem_of_seqZ. lia.
Qed.

End Proofs.
