(* ===== verification/Pipeline.v ===== *)
(** * From a closed epoch to a verified package

    The node, the exporter and the importer together: the packages that a
    synchronisation leaves in the store pass every check of the importers they
    are for, the GRANDPA certificate included. *)

From S2P Require Import Prelude Types Effects Codec Merkle Frame Domain Epochs Transfers TransfersProofs Governance GovernanceProofs PublicationProofs GovernanceOrigins Runtime RuntimeProofs Config Verify VerifyProofs Relay Importer ImporterProofs CrossChain Exporter ExporterProofs ExporterSafety ExporterChain Readiness ReadinessProofs.

Section Pipeline.
Context `{!Codec, !CodecOk, !CodecSep, !HexCodec, !HexCodecOk, !ExporterCodec, !ExporterCodecOk, !LightClient, !LightClientOk}.
Context `{!Account, !AccountOk, !Currency B, !CurrencyOk B} {N : Type} `{!ExporterEnv N}.
Context (d : DomainId) (L : Z) (HL : 1 <= L).
Context (export_ids_distinct : forall s s',
  0 <= s < u64_max -> 0 <= s' < u64_max -> export_id d s = export_id d s' -> s = s').
Context (proposal_ids_distinct : forall d1 d2 s1 s2,
  0 <= s1 < u64_max -> 0 <= s2 < u64_max ->
  governance_proposal_id d1 s1 = governance_proposal_id d2 s2 -> d1 = d2 /\ s1 = s2).

(** The chain, and the node that serves it. *)
Context (I : N -> Prop) (store : bytes -> option bytes) (ready : Z -> SummaryCertificationReadiness).
Context (hist : list System) (ch : Chain B) (Hrun : chain_run d L hist ch).
Context (Hpl : plain_proposals (w_governance (ch_world ch))) (Hb : forall e, epoch_bounded ch e).
Context (Hst : stores ch store) (Hserve : Serves I store ready).

(** The node's view: its best block has the chain's state, and it answers the
    readiness of the chain's summaries. *)
Context (client : NodeClient) (Hcan : Canonical client) (Hmax : finalized_number client < u32_max).
Context (Hbest : forall key, state_storage client (best_hash client) key = Ok (store key)).
Context (Hready : forall e, is_Some (es_summary_headers (ch_epochs ch) !! e) ->
  Readiness.certification_readiness client e = Ok (ready e)).

(** The importers' configuration of the domain names the authorities whose
    justifications the node keeps. *)
Context (set_of : Z -> Z) (Hset : tracks_sets client set_of).
Context (domain_configs : DomainId -> option DomainConfig) (config : DomainConfig) (authorities : list (bytes * Z)).
Context (Hconfig : domain_configs d = Some config) (Hauth : configured_authorities (dc_authorities config) = Ok authorities).
Context (Hval : justifications_valid client set_of authorities).

Lemma slot_key_agrees e : Readiness.summary_slot_storage_key e = Exporter.summary_slot_storage_key e.
Proof.
  unfold Readiness.summary_slot_storage_key, Exporter.summary_slot_storage_key, storage_map_key, storage_value_key.
  by rewrite <-app_assoc.
Qed.

(** The items are the leaves of epoch [e] that are addressed to domain [d']. *)
Definition yields_leaves (e : Z) (d' : DomainId) (items : VerifiedPackageItems) : Prop :=
  map eip_leaf (vi_export_proofs items) = addressed el_target_domain d' (epoch_exports_of ch e) /\
  map fip_leaf (vi_finalized_import_proofs items) = addressed fl_source_domain d' (epoch_imports_of ch e) /\
  map gip_leaf (vi_governance_proofs items) = addressed leaf_target_domain d' (epoch_governance_of ch e).

(** The store has a package of the epoch for domain [d'] that passes all its checks,
    and before them the relay's. *)
Definition stored_verified (s : Exporter N) (e : Z) (d' : DomainId) : Prop := exists package items,
  ex_scale s !! ((e, d') : PackageKey) = Some (scale_encode package) /\
  sh_domain_id (pkg_header package) = d /\ sh_epoch_id (pkg_header package) = e /\
  verified_items d' domain_configs package items /\ yields_leaves e d' items /\
  forall now, exists envelope, relay_envelope package d' now = Ok envelope /\
    decode_and_validate_envelope (scale_encode envelope) = Ok (envelope, package).

(** The answer for a closed epoch names a block of the chain. *)
Lemma ready_staged e h bundle :
  es_summary_headers (ch_epochs ch) !! e = Some h -> scr_state (ready e) = Ready bundle ->
  0 <= scr_staged_at_block_number (ready e).
Proof.
  intros Hh Hr. destruct (ready_inv client e (ready e) bundle) as (slot & staged & _ & _ & _ & _ & _ & Es & Est & -> & _);
    [apply Hready; by eexists|done|].
  destruct (chain_headers d L HL export_ids_distinct proposal_ids_distinct hist ch e h Hrun Hh)
    as (_ & _ & _ & slot' & staged' & Hs & Hsb & Hpos).
  unfold decode_storage_value in Es. rewrite Hbest, slot_key_agrees, (so_slot _ _ Hst), Hs in Es. simpl in Es.
  rewrite decode_whole in Es. congruence.
Qed.

Lemma package_verifies e h bundle d' package :
  es_summary_headers (ch_epochs ch) !! e = Some h -> scr_state (ready e) = Ready bundle -> addressed_to ch e d' ->
  package_of ch e h bundle d' = Ok package ->
  (sh_domain_id (pkg_header package) = d /\ sh_epoch_id (pkg_header package) = e /\
   exists items, verified_items d' domain_configs package items /\ yields_leaves e d' items) \/
  collision blake2_256.
Proof.
  intros Hh Hr Ha Hp. pose proof (ready_staged _ _ _ Hh Hr) as Hpos. assert (Hop : certification_readiness client e = Ok (ready e)).
  { apply Hready. by eexists. }
  destruct (chain_epoch_leaves d L HL export_ids_distinct proposal_ids_distinct hist ch e h Hrun Hh Hpl (Hb e)) as [Hlv|?];
    [left|by right].
  destruct (chain_headers d L HL export_ids_distinct proposal_ids_distinct hist ch e h Hrun Hh) as (Hd & He & _).
  destruct (package_for h _ _ _ Hlv bundle d' Ha) as (package' & items & Hp' & E & Hv & M1 & M2 & M3).
  unfold package_of in Hp. rewrite Hp' in Hp. injection Hp as ->.
  split; [by rewrite E|]. split; [by rewrite E|]. exists items. split; [|done].
  destruct (ready_grandpa client e (ready e) bundle set_of domain_configs d config authorities) as (certificate & Ec & Hg); [done..|].
  destruct (ready_context client e (ready e) bundle h package
    (drop 1 (pkg_inclusion_proofs package))) as (certificate' & Ec' & Hc); try done; [by rewrite Hbest, (so_header _ _ Hst), Hh| |..].
  1-3: by rewrite E.
  assert (certificate' = certificate) as -> by congruence. exists certificate. rewrite E in *. split_and!; [|done| |done].
  - unfold verify_package_hash. by rewrite bool_decide_eq_true_2 by apply from_fields_hashed.
  - simpl. by rewrite Hd.
Qed.

(** What a synchronisation leaves in the store. *)
Lemma sync_verified s :
  exporter_reachable d s -> I (ex_node s) -> store_agrees ready ch s ->
  (forall e h bundle d', es_summary_headers (ch_epochs ch) !! e = Some h -> scr_state (ready e) = Ready bundle ->
     addressed_to ch e d' ->
     stored_verified (fst (sync_once d s)) e d') \/
  collision blake2_256.
Proof.
  intros HS Hs Hag.
  destruct (sync_once_packages d L HL export_ids_distinct proposal_ids_distinct I store ready hist ch Hrun Hpl Hb Hst Hserve s HS Hs Hag)
    as [Hall|?]; [|by right].
  destruct (map_forall_or (fun e _ => forall d' bundle, scr_state (ready e) = Ready bundle -> addressed_to ch e d' ->
    stored_verified (fst (sync_once d s)) e d') (collision blake2_256) (es_summary_headers (ch_epochs ch))) as [HP|?];
    [|left; intros e h bundle d' Hh Hr Ha; exact (HP e h Hh d' bundle Hr Ha)|by right].
  intros e h Hh. apply domain_forall_or. intros d'. destruct (scr_state (ready e)) as [reason|bundle] eqn:Hr; [by left|].
  destruct (no_inputs (inputs_for d' (epoch_exports_of ch e) (epoch_imports_of ch e) (epoch_governance_of ch e))) eqn:Ha.
  { left. unfold addressed_to. intros ? _ Ha'. congruence. }
  destruct (Hall e h bundle d' Hh Hr Ha) as (package & Hp & Hs' & [_ Henv]).
  destruct (package_verifies e h bundle d' package Hh Hr Ha Hp) as [(Hd & He & items & Hv & Hm)|?]; [|by right].
  left. intros ? _ _. by exists package, items.
Qed.

(** C5: the pipeline is complete.  When the node serves the state of the chain and
    answers with its readiness, then after one synchronisation of the exporter
    every closed epoch that the node can certify has, for every domain that
    something of the epoch is addressed to, a package in the store that passes the
    relay's checks in an envelope of any time, passes all checks of that domain's
    importer (package hash, storage proof, ancestry, GRANDPA justification, items)
    and yields exactly the exports, completions and governance leaves of the epoch
    that are addressed to the domain; or [blake2_256] collides. *)
Theorem pipeline_complete s :
  exporter_reachable d s -> I (ex_node s) -> store_agrees ready ch s ->
  (forall e h bundle d', es_summary_headers (ch_epochs ch) !! e = Some h -> scr_state (ready e) = Ready bundle ->
     addressed_to ch e d' ->
     stored_verified (fst (sync_once d s)) e d') \/
  collision blake2_256.
Proof. exact (sync_verified s). Qed.
End Pipeline.
