(* ===== verification/Delivery.v ===== *)
(** * From a closed epoch to its effects

    The exporter, the relay's checks, the importer and the destination's chain
    together.  [pipeline_complete] ends with a package in the exporter's store;
    [importer_settles_package] begins with a package in the importer's store.  Here
    they are joined: what a closed epoch says to a domain happens there. *)

From S2P Require Import Prelude Types Effects Handlers Codec Merkle Frame Domain Epochs Transfers TransfersProofs Governance GovernanceProofs PublicationProofs GovernanceOrigins Runtime RuntimeProofs Config Verify VerifyProofs Relay RelayProofs Importer ImporterProofs ImporterSafety ChainProgress ImporterLiveness CrossChain Exporter ExporterProofs ExporterSafety ExporterChain Readiness ReadinessProofs Pipeline.

Section Delivery.
Context `{!Codec, !CodecOk, !CodecSep, !HexCodec, !HexCodecOk, !ExporterCodec, !ExporterCodecOk, !LightClient, !LightClientOk}.
Context `{!Account, !AccountOk, !StorageCodec, !StorageCodecOk, !Keys, !Currency B, !CurrencyOk B}.
Context {N : Type} `{!ExporterEnv N} {N' : Type} `{!NodeRpc N'}.
Context (proposal_ids_distinct : forall d1 d2 s1 s2,
  0 <= s1 < u64_max -> 0 <= s2 < u64_max ->
  governance_proposal_id d1 s1 = governance_proposal_id d2 s2 -> d1 = d2 /\ s1 = s2).
Context (export_ids_distinct : forall d s s',
  0 <= s < u64_max -> 0 <= s' < u64_max -> export_id d s = export_id d s' -> s = s').

(** The source: its chain, and the node that serves and certifies it. *)
Context (d : DomainId) (L : Z) (HL : 1 <= L).
Context (I : N -> Prop) (store : bytes -> option bytes) (ready : Z -> SummaryCertificationReadiness).
Context (hist : list System) (ch : Chain B) (Hrun : chain_run d L hist ch).
Context (Hpl : plain_proposals (w_governance (ch_world ch))) (Hb : forall e, epoch_bounded ch e).
Context (Hst : stores ch store) (Hserve : Serves I store ready).
Context (client : NodeClient) (Hcan : Canonical client) (Hmax : finalized_number client < u32_max).
Context (Hbest : forall key, state_storage client (best_hash client) key = Ok (store key)).
Context (Hready : forall e, is_Some (es_summary_headers (ch_epochs ch) !! e) ->
  Readiness.certification_readiness client e = Ok (ready e)).
Context (set_of : Z -> Z) (Hset : tracks_sets client set_of).

(** The destination: what its importer is configured with, its chain, and the node
    the importer talks to. *)
Context (d' : DomainId) (L' : Z) (HL' : 1 <= L') (Hother : d <> d').
Context (domain_configs : DomainId -> option DomainConfig) (config : DomainConfig) (authorities : list (bytes * Z)).
Context (Hconfig : domain_configs d = Some config) (Hauth : configured_authorities (dc_authorities config) = Ok authorities).
Context (Hval : justifications_valid client set_of authorities).
Context (suri : bytes) (pair : Pair) (Hpair : pair_from_string suri = Some pair).
Context (local_version : RuntimeVersionView) (genesis : hash).
Context (chain_at : N' -> Chain B) (pool : N' -> list RuntimeCall) (nonce : N' -> Z).

(** What epoch [e] of the source says to the destination. *)
Definition epoch_items (e : Z) : list Item :=
  map ItemExport (addressed el_target_domain d' (epoch_exports_of ch e))
  ++ map ItemCompletion (addressed fl_source_domain d' (epoch_imports_of ch e))
  ++ map gov_item (addressed leaf_target_domain d' (epoch_governance_of ch e)).

Lemma epoch_items_package e vi : yields_leaves ch e d' vi -> package_items vi = epoch_items e.
Proof. intros (M1 & M2 & M3). unfold package_items, epoch_items. by rewrite <-M1, <-M2, <-M3, !map_map. Qed.

(** The exports name accounts of the destination. *)
Definition recipients_exist (e : Z) : Prop :=
  Forall (fun leaf => is_Some (account_from_bytes (el_recipient leaf))) (addressed el_target_domain d' (epoch_exports_of ch e)).

Lemma governance_item_sound e l :
  publishable d (w_governance (ch_world ch)) e l -> leaf_target_domain l = d' -> sound_item d' (gov_item l).
Proof.
  intros (_ & Hfit & Hl) <-. destruct l as [q|a]; simpl in *.
  - destruct Hfit as [Hin Hph], Hl as (Es & _ & p & Hp & Hd & _). split_and!; [congruence|done|done|].
    destruct (chain_run_ok d L HL (export_ids_distinct d) proposal_ids_distinct _ _ Hrun) as [_ [_ _ Hg _]].
    destruct (gov_reachable_act d proposal_ids_distinct _ Hg) as [_ HI].
    destruct (id_assigned _ _ HI _ _ Hp) as (seq & Hseq & Hid & _). exists seq. split; [done|]. congruence.
  - destruct Hl as [Ea _]. rewrite Ea. by split.
Qed.

(** What an epoch publishes is sound. *)
Lemma epoch_items_sound e : recipients_exist e -> sound_items d' (epoch_items e) \/ collision blake2_256.
Proof.
  intros Hr. destruct (chain_epoch_published d L HL (export_ids_distinct d) proposal_ids_distinct hist ch e Hrun Hpl) as [HG|?];
    [left|by right]. rewrite Forall_forall in HG.
  assert (forall l, l ∈ addressed leaf_target_domain d' (epoch_governance_of ch e) ->
    publishable d (w_governance (ch_world ch)) e l /\ leaf_target_domain l = d') as Hpub.
  { intros l [Ht Hl]%list_elem_of_filter. split; [by apply HG|done]. }
  split.
  - unfold epoch_items. rewrite !Forall_app, !Forall_fmap. split_and!; [done|by apply Forall_forall|].
    apply Forall_forall. intros l [Hp Ht]%Hpub. by apply (governance_item_sound e).
  - assert (forall leaf, ItemProposal leaf ∈ epoch_items e -> publishable d (w_governance (ch_world ch)) e (ProposalV1 leaf)) as Hq.
    { intros leaf. unfold epoch_items. rewrite !elem_of_app, !list_elem_of_fmap. intros [(? & ? & _)|[(? & ? & _)|(l & E & Hl)]]; [done..|].
      destruct l; [|done]. injection E as ->. by apply Hpub. }
    intros leaf leaf' (_ & _ & S1 & _ & p & Hp & A1 & A2 & A3 & A4 & A5 & A6)%Hq
      (_ & _ & S2 & _ & p' & Hp' & B1 & B2 & B3 & B4 & B5 & B6)%Hq E.
    rewrite E in Hp'. assert (p' = p) as -> by congruence. split_and!; congruence.
Qed.

(** The importer has nothing of epoch [e] yet. *)
Definition not_seen (t : Importer N') (e : Z) : Prop := forall ph,
  Importer.package (im_memory t) d d' e ph = None /\ im_payloads t !! (d, d', e, ph) = None.

(** C4: what an epoch says, happens.  The source's node serves and certifies a closed
    epoch of which something is addressed to the destination, and whose exports to it
    name accounts; the exporter synchronises; the envelope of the package it stored
    passes the relay's checks and comes to the destination's importer, which talks to
    a responsive node.  Then the importer accepts it, processing it returns, and on
    the destination's chain every export of the epoch that is addressed to the
    destination is finalized, every completion has resolved its export, every
    proposal is held and every acknowledgement is recorded; or [blake2_256]
    collides. *)
Theorem epoch_arrives I' s e h bundle now (t : Importer N') :
  exporter_reachable d s -> I (ex_node s) -> store_agrees ready ch s ->
  es_summary_headers (ch_epochs ch) !! e = Some h -> scr_state (ready e) = Ready bundle -> addressed_to ch e d' ->
  Responsive d' L' pair local_version genesis chain_at pool nonce (epoch_items e) I' -> I' (im_node t) ->
  recipients_exist e -> deliverable pair chain_at pool nonce (im_node t) (im_memory t) (epoch_items e) ->
  ii_domain_id (im_memory t) = d' -> Forall names_payload (ii_packages (im_memory t)) -> not_seen t e ->
  (exists package envelope known r t1 t2,
     ex_scale (fst (sync_once d s)) !! ((e, d') : PackageKey) = Some (scale_encode package) /\
     relay_envelope package d' now = Ok envelope /\
     decode_and_validate_envelope (scale_encode envelope) = Ok (envelope, package) /\
     receive_package d' (scale_encode envelope) t = (t1, Ok (known, r)) /\
     process_package_by_identity d' (Some suri) domain_configs local_version d d' e (pkg_package_hash package) t1 = (t2, Ok tt) /\
     forall i, i ∈ epoch_items e -> chain_done (chain_at (im_node t2)) (item_effect i)) \/
  collision blake2_256.
Proof.
  intros HS Hs Hag Hh Hr Ha Hnode Hi Hrec Hd Hdom Hnp Hnew.
  destruct (epoch_items_sound e Hrec) as [Hsound|?]; [|by right].
  destruct (sync_verified d L HL (export_ids_distinct d) proposal_ids_distinct I store ready hist ch Hrun Hpl Hb Hst Hserve
    client Hcan Hmax Hbest Hready set_of Hset domain_configs config authorities Hconfig Hauth Hval s HS Hs Hag) as [Hall|?];
    [left|by right].
  destruct (Hall e h bundle d' Hh Hr Ha) as (package & vi & Hsc & Ed & Ee & Hv & Hy & Henv).
  destruct (Henv now) as (env & Hop & Hvalid). rewrite <-(epoch_items_package e vi Hy) in *.
  assert (env_source_domain env = d /\ env_target_domain env = d' /\ env_epoch_id env = e /\
    env_package_hash env = pkg_package_hash package /\ env_package_bytes env = scale_encode package) as (E1 & E2 & E3 & E4 & E5).
  { unfold relay_envelope in Hop. dispatch_inv Hop. subst. done. }
  destruct (Hnew (pkg_package_hash package)) as [Hnone Hpay].
  pose proof (deliverable_starts pair chain_at pool nonce I' vi t (im_memory t) Hi Hd) as Hstarts.
  destruct (receive_starts d' L' HL' (export_ids_distinct d') proposal_ids_distinct pair local_version genesis chain_at pool nonce
    I' domain_configs package vi Hv Hnode Hsound (im_node t) t env (scale_encode env))
    as (t1 & known & r & index & r1 & Hop1 & Hst1 & Ei & Hl & Hr1 & Ht & Hp1); rewrite ?E1, ?E3, ?E4; try done.
  rewrite E1, E3, E4 in Hr1. rewrite E5 in Hp1.
  destruct (package_settles d' L' HL' (export_ids_distinct d') proposal_ids_distinct pair local_version genesis chain_at pool nonce
    I' domain_configs suri Hpair package vi Hv Hnode Hsound (im_node t) t1 index (im_memory t) d d' e (pkg_package_hash package) r1
    (scale_encode package)) as (t2 & _ & _ & Hproc & _ & _ & _ & Hdone); try done; [by rewrite decode_whole|].
  exists package, env, known, r, t1, t2. by split_and!.
Qed.
End Delivery.
