(* ===== verification/PipelineWitnesses.v ===== *)
(** * A node that certifies

    The node of Earth after the chain of [RuntimeProofs.v]: the summary of epoch
    0 is in block 3, GRANDPA has justified block 4, in the second authority set.
    The theorems on readiness and on the pipeline are applied to it. *)

From S2P Require Import Prelude Types Effects Codec Reference Merkle Frame Domain Epochs Transfers TransfersProofs Governance GovernanceProofs PublicationProofs GovernanceOrigins Runtime RuntimeProofs Config Verify VerifyProofs Relay RelayWitnesses Importer ImporterProofs Exporter ExporterProofs ExporterSafety ExporterChain ExporterWitnesses Readiness ReadinessProofs Pipeline.

#[local] Existing Instance reference_codec.
#[local] Existing Instance reference_account.
#[local] Existing Instance reference_account_ok.
#[local] Existing Instance reference_currency.
#[local] Existing Instance reference_currency_ok.

(** ** The light client

    A header is its number, its parent's hash and its state root; the root of a
    state is the hash of the one value that is proved of it. *)
Definition NodeHeader : Type := Z * list Z * list Z.
Definition one_value_proof (root : hash) (nodes : list bytes) (key : bytes) : option (option bytes) :=
  match nodes with
  | [value] => if bool_decide (root = blake2_256 value) then Some (Some value) else None
  | _ => None
  end.
#[export] Instance node_light_client : LightClient := {|
  Header := NodeHeader;
  header_encode h := flat (A := NodeHeader) h;
  header_decode b := fst <$> unflat (A := NodeHeader) b;
  header_hash h := blake2_256 (flat (A := NodeHeader) h);
  header_number h := h.1.1;
  header_parent_hash h := h.1.2;
  header_state_root h := h.2;
  read_proof_check := one_value_proof;
  Justification := list Z * Z;
  justification_decode b := fst <$> unflat (A := list Z * Z) b;
  just_target_hash j := j.1;
  just_target_number j := j.2;
  justification_verify j set_id authorities := (set_id =? 1) && bool_decide (authorities = [([7], 1)]);
  get_from_seed seed := Some seed
|}.
#[export] Instance node_light_client_ok : LightClientOk.
Proof.
  split; [|done]. intros h. pose proof (unflat_flat (A := NodeHeader) h []) as E.
  rewrite app_nil_r in E. exact (f_equal (fmap fst) E).
Qed.

(** ** The node's view when block [F] is final *)

Definition header_value : bytes := default [] (chain_store chain3 (summary_header_storage_key 0)).
Definition block_3 : NodeHeader := (3, [3], blake2_256 header_value).
Definition hash_3 : hash := blake2_256 (flat (A := NodeHeader) block_3).
Definition block_4 : NodeHeader := (4, hash_3, blake2_256 header_value).
Definition hash_4 : hash := blake2_256 (flat (A := NodeHeader) block_4).
Definition block_5 : NodeHeader := (5, hash_4, blake2_256 header_value).
Definition hash_5 : hash := blake2_256 (flat (A := NodeHeader) block_5).
Definition justification_of (h : hash) (n : Z) : bytes := flat (A := list Z * Z) (h, n).

Definition earth_client (F : Z) : NodeClient := {|
  best_hash := hash_4;
  finalized_hash := hash_4;
  finalized_number := F;
  block_hash n := Ok (if n =? 3 then Some hash_3 else if n =? 4 then Some hash_4 else if n =? 5 then Some hash_5 else None);
  block_header h := Ok (if bool_decide (h = hash_3) then Some block_3 else if bool_decide (h = hash_4) then Some block_4
                        else if bool_decide (h = hash_5) then Some block_5 else None);
  state_storage h key := Ok (chain_store chain3 key);
  read_proof h key := Ok [default [] (chain_store chain3 key)];
  justifications h := Ok (if bool_decide (h = hash_4) then Some [(GRANDPA_ENGINE_ID, justification_of h 4)]
                          else if bool_decide (h = hash_5) then Some [(GRANDPA_ENGINE_ID, justification_of h 5)] else None);
  authority_set_id := 1;
  authority_set_changes := Some [(0, 3)]
|}.
Definition earth_set (n : Z) : Z := if n <=? 3 then 0 else 1.

Definition answer (F e : Z) : SummaryCertificationReadiness :=
  match Readiness.certification_readiness (earth_client F) e with
  | Ok r => r
  | Err _ => mkSummaryCertificationReadiness e 0 [] 0 [] (Pending MissingTargetBlockHash)
  end.
Definition answered (F : Z) : bool :=
  match Readiness.certification_readiness (earth_client F) 0 with
  | Ok r => match scr_state r with Ready _ => true | _ => false end && (scr_staged_at_block_number r =? 3)
  | Err _ => false
  end.

Lemma earth_answers : answered 4 = true /\ answered 5 = true.
Proof. split; vm_compute; reflexivity. Qed.

Lemma hashes_differ : hash_3 <> hash_4 /\ hash_3 <> hash_5 /\ hash_4 <> hash_5.
Proof. split_and!; apply (bool_decide_eq_false_1 _); vm_compute; reflexivity. Qed.

Definition node_block (n : Z) (h : hash) (hd : NodeHeader) : Prop :=
  (n = 3 /\ h = hash_3 /\ hd = block_3) \/ (n = 4 /\ h = hash_4 /\ hd = block_4) \/ (n = 5 /\ h = hash_5 /\ hd = block_5).

Lemma node_block_facts n h hd : node_block n h hd -> header_hash hd = h /\ header_number hd = n.
Proof. intros [(-> & -> & ->)|[(-> & -> & ->)|(-> & -> & ->)]]; (split; reflexivity). Qed.
Lemma node_block_parent n h hd h' hd' : node_block n h hd -> node_block (n + 1) h' hd' -> header_parent_hash hd' = h.
Proof.
  intros [(-> & -> & ->)|[(-> & -> & ->)|(-> & -> & ->)]] [(E & -> & ->)|[(E & -> & ->)|(E & -> & ->)]]; try lia; reflexivity.
Qed.

#[local] Opaque block_3 block_4 block_5 hash_3 hash_4 hash_5 chain3 chain_store header_value.

Lemma earth_canonical F n h : canonical (earth_client F) n h -> exists hd, node_block n h hd.
Proof.
  unfold canonical, node_block. simpl. intros [= Hn]. destruct (Z.eqb_spec n 3); [injection Hn as <-; exists block_3; auto|].
  destruct (Z.eqb_spec n 4); [injection Hn as <-; exists block_4; auto|].
  destruct (Z.eqb_spec n 5); [injection Hn as <-; exists block_5; auto 6|done].
Qed.
Lemma earth_header_at F n h hd : node_block n h hd -> block_header (earth_client F) h = Ok (Some hd).
Proof.
  pose proof hashes_differ as (D1 & D2 & D3). simpl.
  intros [(-> & -> & ->)|[(-> & -> & ->)|(-> & -> & ->)]]; repeat case_bool_decide; congruence.
Qed.

Lemma earth_client_canonical F : Canonical (earth_client F).
Proof.
  split.
  - intros n h hd Hc Hh. destruct (earth_canonical F n h Hc) as [hd' Hb]. rewrite (earth_header_at F _ _ _ Hb) in Hh.
    injection Hh as <-. by apply node_block_facts.
  - intros n h h' hd Hc Hc' Hh. destruct (earth_canonical F n h Hc) as [hd0 Hb], (earth_canonical F (n + 1) h' Hc') as [hd' Hb'].
    rewrite (earth_header_at F _ _ _ Hb') in Hh. injection Hh as <-. by eapply node_block_parent.
Qed.

Lemma earth_justified F n h j :
  justified_by (earth_client F) n h j -> (n = 4 \/ n = 5) /\ j = justification_of h n.
Proof.
  intros [Hc Hj]. destruct (earth_canonical F n h Hc) as [hd Hb]. pose proof hashes_differ as (D1 & D2 & D3).
  unfold grandpa_justification in Hj. simpl in Hj.
  destruct Hb as [(-> & -> & ->)|[(-> & -> & ->)|(-> & -> & ->)]]; repeat case_bool_decide; try congruence; simpl in Hj;
    unfold extract_grandpa_justification in Hj; simpl in Hj; injection Hj as <-; auto.
Qed.

Lemma earth_justified_4 : justified_by (earth_client 4) 4 hash_4 (justification_of hash_4 4).
Proof.
  split; [reflexivity|]. unfold grandpa_justification. simpl. rewrite bool_decide_eq_true_2 by done. reflexivity.
Qed.

Lemma earth_tracks F : tracks_sets (earth_client F) earth_set.
Proof.
  unfold tracks_sets, earth_set. simpl. split; intros n Hn; [by rewrite (proj2 (Z.leb_le _ _)) by lia|by rewrite (proj2 (Z.leb_gt _ _)) by lia].
Qed.

Lemma earth_justifications_valid F : justifications_valid (earth_client F) earth_set [([7], 1)].
Proof.
  intros n h j (Hn & ->)%earth_justified. exists (h, n). split_and!; [|done|done|].
  - unfold justification_of. simpl justification_decode. pose proof (unflat_flat (A := list Z * Z) (h, n) []) as E.
    rewrite app_nil_r in E. exact (f_equal (fmap fst) E).
  - unfold earth_set. simpl. by destruct Hn as [-> | ->].
Qed.

Lemma earth_later : client_later (earth_client 4) (earth_client 5).
Proof. split; simpl; [lia|done|done| |]; intros; congruence. Qed.

Lemma earth_answer F : answered F = true ->
  Readiness.certification_readiness (earth_client F) 0 = Ok (answer F 0) /\
  (exists bundle, scr_state (answer F 0) = Ready bundle) /\ scr_staged_at_block_number (answer F 0) = 3.
Proof.
  unfold answered, answer. destruct (Readiness.certification_readiness _ _) as [r|]; [|done].
  destruct (scr_state r); [done|]. intros Hst%Z.eqb_eq. eauto.
Qed.

(** ** The exporter on this node *)

#[local] Instance node_env : ExporterEnv Z := {|
  state_getStorage key n := (n, Ok ((fun v => [48; 120] ++ hex_encode v) <$> chain_store chain3 (strip_0x key)));
  ialp_summary_certificationReadiness e n := (n, Ok (answer 4 e));
  post_packages body n := (n, Responded 202 (Ok accepted_body));
  receipt_from_slice body := if bool_decide (body = accepted_body) then Some (mkRelaySubmitReceipt true false "queued") else None;
  unix_now_millis n := (n + 1, Ok n)
|}.

Lemma node_serves : Serves (fun _ : Z => True) (chain_store chain3) (answer 4).
Proof. split; intros n x _; exists n; (split; [exact I|reflexivity]). Qed.

Definition earth_config (d : DomainId) : option DomainConfig :=
  Some {| dc_domain_id := d; dc_chain_name := []; dc_chain_id := []; dc_chain_type := Local;
          dc_token := mkTokenConfig [] 12; dc_network := mkNetworkConfig 0 0 0 [];
          dc_epoch := mkEpochConfig 12; dc_authorities := [mkAuthorityConfig [] [] [] [7]];
          dc_bootstrap := mkBootstrapConfig [] [] [] |}.

Lemma node_0_reachable : exporter_reachable Earth exporter_0.
Proof. exists exporter_0. split; [done|apply rtc_refl]. Qed.

Lemma node_answers e :
  is_Some (es_summary_headers (ch_epochs chain3) !! e) ->
  Readiness.certification_readiness (earth_client 4) e = Ok (answer 4 e).
Proof.
  intros [h Hh]. destruct (chain_headers Earth 2 ltac:(lia) reference_export_ids reference_proposal_ids _ _ _ _ example_chain3 Hh)
    as (_ & _ & He & _).
  assert (current_epoch chain3 = 1) as Ec by (vm_compute; reflexivity). assert (e = 0) as -> by lia.
  exact (proj1 (earth_answer 4 (proj1 earth_answers))).
Qed.

Definition slot_of_0 : option SummarySlotRecord :=
  match decode_storage_value (earth_client 4) (best_hash (earth_client 4)) (Readiness.summary_slot_storage_key 0) with
  | Ok slot => slot
  | Err _ => None
  end.
Definition slot_staged : bool :=
  match slot_of_0 with
  | Some slot => bool_decide (slot_status slot = Staged) && bool_decide (slot_staged_at_block_number slot = Some 3)
  | None => false
  end.
Lemma slot_staged_true : slot_staged = true.
Proof. vm_compute. reflexivity. Qed.
Lemma header_stored : chain_store chain3 (summary_header_storage_key 0) = Some header_value.
Proof.
  assert (is_Some (chain_store chain3 (summary_header_storage_key 0))) as [v Hv] by (apply (bool_decide_unpack _); vm_compute; exact I).
  Transparent header_value. unfold header_value. rewrite Hv. reflexivity.
Qed.
#[local] Opaque header_value.
Lemma node_block_root n h hd : node_block n h hd -> header_state_root hd = blake2_256 header_value.
Proof. intros [(-> & -> & ->)|[(-> & -> & ->)|(-> & -> & ->)]]; reflexivity. Qed.

Lemma earth_available : Available (earth_client 4) 0 3 header_value.
Proof.
  split.
  - pose proof slot_staged_true as Hs. unfold slot_staged, slot_of_0 in Hs.
    destruct (decode_storage_value _ _ _) as [[slot|]|]; [|discriminate..]. exists slot.
    apply andb_true_iff in Hs as [H1%bool_decide_eq_true_1 H2%bool_decide_eq_true_1]. auto.
  - split; [lia|vm_compute; reflexivity].
  - exact (f_equal Ok header_stored).
  - exists hash_3. reflexivity.
  - change (finalized_number (earth_client 4)) with 4. intros n Hn.
    assert (exists h hd, canonical (earth_client 4) n h /\ node_block n h hd) as (h & hd & Hc & Hb).
    { unfold node_block. assert (n = 3 \/ n = 4) as [-> | ->] by lia; [exists hash_3, block_3|exists hash_4, block_4];
        (split; [reflexivity|auto]). }
    destruct (grandpa_justification (earth_client 4) h) as [js|] eqn:Ej;
      [|unfold grandpa_justification in Ej; simpl in Ej; by repeat case_bool_decide].
    exists h, hd, js, [header_value]. split_and!; [done|by apply (earth_header_at 4 n)|done|exact (f_equal Ok header_stored)| |].
    + simpl. by rewrite header_stored.
    + rewrite (node_block_root _ _ _ Hb). simpl. unfold one_value_proof. by rewrite bool_decide_eq_true_2.
Qed.

#[local] Opaque answer earth_client.

(** ** Witnesses *)

Lemma ready_bundle_stable_witness :
  exists bundle, scr_state (answer 4 0) = Ready bundle /\ scr_state (answer 5 0) = Ready bundle.
Proof.
  destruct (earth_answer 4 (proj1 earth_answers)) as (H1 & [bundle Hb] & Hs), (earth_answer 5 (proj2 earth_answers)) as (H1' & [bundle' Hb'] & _).
  exists bundle. split; [exact Hb|]. rewrite Hb'. f_equal.
  refine (ready_bundle_stable (earth_client 4) (earth_client 5) earth_set 0 (answer 4 0) (answer 5 0) bundle bundle'
    earth_later (earth_tracks 4) (earth_tracks 5) _ H1 Hb _ H1' Hb').
  - reflexivity.
  - rewrite Hs. lia.
Defined.

Lemma pipeline_complete_witness :
  (forall e h bundle d', es_summary_headers (ch_epochs chain3) !! e = Some h -> scr_state (answer 4 e) = Ready bundle ->
     addressed_to chain3 e d' -> stored_verified Earth chain3 earth_config (fst (sync_once Earth exporter_0)) e d') \/
  collision blake2_256.
Proof.
  refine (pipeline_complete Earth 2 _ reference_export_ids reference_proposal_ids (fun _ => True) (chain_store chain3)
    (answer 4) _ chain3 example_chain3 example_plain earth_bounded (chain_store_stores chain3) node_serves
    (earth_client 4) (earth_client_canonical 4) _ _ node_answers earth_set (earth_tracks 4) earth_config _ [([7], 1)]
    eq_refl eq_refl (earth_justifications_valid 4) exporter_0 node_0_reachable Logic.I _).
  - lia.
  - vm_compute. reflexivity.
  - reflexivity.
  - intros e h bundle d' package bs _ _ _ Hb. assert (ex_scale exporter_0 = ∅) as E by reflexivity.
    rewrite E, lookup_empty in Hb. discriminate.
Defined.

Lemma readiness_decided_witness :
  exists r bundle, Readiness.certification_readiness (earth_client 4) 0 = Ok r /\ scr_state r = Ready bundle.
Proof.
  destruct (readiness_decided (earth_client 4) 0 3 header_value (earth_client_canonical 4) earth_available)
    as (r & Hop & _ & _ & _ & _ & [_ Hready]).
  destruct Hready as [bundle Hb].
  - exists 4, hash_4, (justification_of hash_4 4). split; [vm_compute; intuition discriminate|]. exact earth_justified_4.
  - exists r, bundle. split; [exact Hop|exact Hb].
Defined.
