(* ===== verification/DeliveryWitnesses.v ===== *)
(** * An export arrives

    The chain of Earth of [PipelineWitnesses.v], whose epoch 0 has an export to Mars,
    and a node of Mars as in [LiveNode.v]. *)

From S2P Require Import Prelude Types Effects Codec Reference Merkle Frame Domain Epochs Transfers TransfersProofs Governance GovernanceProofs PublicationProofs GovernanceOrigins Runtime RuntimeProofs Config Verify VerifyProofs Relay RelayWitnesses Importer ImporterProofs ImporterSafety ChainProgress ImporterLiveness NetworkExample LiveNode Exporter ExporterProofs ExporterSafety ExporterChain ExporterWitnesses Readiness ReadinessProofs Pipeline PipelineWitnesses Delivery.

#[local] Existing Instance reference_codec.
#[local] Existing Instance reference_account.
#[local] Existing Instance reference_account_ok.
#[local] Existing Instance reference_currency.
#[local] Existing Instance reference_currency_ok.
#[local] Existing Instance node_light_client.
#[local] Existing Instance node_env.

(** The importer of Mars before anything has come. *)
Definition expecting : Importer Live := mkImporter (Importer.new_index Mars) None ∅ ∅ ∅ (live_genesis Mars).

Definition arriving (items : list Item) : bool :=
  match items with
  | [ItemExport leaf] => bool_decide (el_export_id leaf = export_id Earth 0) && export_leaf_ok leaf && (el_amount leaf =? 30)
  | _ => false
  end.
Lemma arriving_items : arriving (epoch_items chain3 Mars 0) = true.
Proof. vm_compute. reflexivity. Qed.
Lemma arriving_export : exists leaf, epoch_items chain3 Mars 0 = [ItemExport leaf] /\ el_export_id leaf = export_id Earth 0 /\
  export_leaf_ok leaf = true /\ el_amount leaf = 30.
Proof.
  pose proof arriving_items as Ha. destruct (epoch_items chain3 Mars 0) as [|[leaf| | |] []]; try discriminate Ha.
  exists leaf. apply andb_prop in Ha as [[E%bool_decide_eq_true_1 Hok]%andb_prop Hz%Z.eqb_eq]. by split_and!.
Qed.
Lemma recipients_ok : recipients_exist chain3 Mars 0.
Proof. apply (bool_decide_unpack _). vm_compute. exact I. Qed.
Lemma epoch_0_closed : is_Some (es_summary_headers (ch_epochs chain3) !! 0).
Proof. apply (bool_decide_unpack _). vm_compute. exact I. Qed.
Lemma epoch_0_addressed : addressed_to chain3 0 Mars.
Proof. vm_compute. reflexivity. Qed.
#[local] Opaque answer earth_client chain3 chain_store.

Lemma epoch_arrives_witness :
  exists package envelope known r t1 t2 record,
    relay_envelope package Mars 900 = Ok envelope /\
    receive_package Mars (scale_encode envelope) expecting = (t1, Ok (known, r)) /\
    process_package_by_identity Mars (Some [7]) earth_config (mkRuntimeVersionView 1 1) Earth Mars 0
      (pkg_package_hash package) t1 = (t2, Ok tt) /\
    imports_of (live_chain (im_node t2)) !! export_id Earth 0 = Some record /\ oir_status record = ImportRemoteFinalized.
Proof.
  destruct arriving_export as (leaf & Ei & Eid & Hok & _), epoch_0_closed as [h Hh].
  destruct (earth_answer 4 (proj1 earth_answers)) as (_ & [bundle Hb] & _).
  destruct (epoch_arrives reference_proposal_ids network_export_ids Earth 2 ltac:(lia) (fun _ => True) (chain_store chain3)
    (answer 4) _ chain3 example_chain3 example_plain earth_bounded (chain_store_stores chain3) node_serves
    (earth_client 4) (earth_client_canonical 4) ltac:(vm_compute; reflexivity) ltac:(reflexivity) node_answers
    earth_set (earth_tracks 4) Mars 2 ltac:(lia) ltac:(discriminate) earth_config _ [([7], 1)]
    eq_refl eq_refl (earth_justifications_valid 4) [7] live_pair eq_refl (mkRuntimeVersionView 1 1) [0]
    live_chain lv_pool lv_nonce (live Mars) exporter_0 0 h bundle 900 expecting node_0_reachable Logic.I)
    as [(package & envelope & known & r & t1 & t2 & _ & Henv & _ & Hrec & Hproc & Hdone)|Hc].
  - intros e h' bundle' d' package bs _ _ _ Hs. assert (ex_scale exporter_0 = ∅) as E by reflexivity.
    rewrite E, lookup_empty in Hs. discriminate.
  - exact Hh.
  - exact Hb.
  - exact epoch_0_addressed.
  - apply live_responsive. intros leaf'. rewrite Ei. apply one_amount. exact Hok.
  - exact (live_genesis_live Mars).
  - exact recipients_ok.
  - rewrite Ei. apply one_deliverable. reflexivity.
  - reflexivity.
  - constructor.
  - intros ph. split; reflexivity.
  - rewrite Ei in Hdone. destruct (Hdone (ItemExport leaf)) as (record & Hr & Hs); [by apply list_elem_of_singleton|].
    simpl in Hr. rewrite Eid in Hr. exists package, envelope, known, r, t1, t2, record.
    split; [exact Henv|]. split; [exact Hrec|]. split; [exact Hproc|]. split; [exact Hr|exact Hs].
  - destruct (no_collision Hc).
Defined.
