(* ===== verification/Agreement.v ===== *)
(** * Governance across chains

    The chains of the network agree on proposals: a proposal that a chain has
    imported is one that its source chain approved, with the same terms, and a
    chain activates a proposal only when every other target domain has it too.
    As for transfers ([CrossChain.v]), the argument follows a record back to the
    call of the importer that wrote it, from there to a verified package, and
    from its Merkle root to the state of the chain that published it. *)

From S2P Require Import Prelude Types Effects Codec Reference Merkle Frame Domain Epochs Transfers TransfersProofs Governance GovernanceProofs PublicationProofs GovernanceOrigins Runtime RuntimeProofs Config Verify VerifyProofs Relay Importer ImporterProofs CrossChain.

(** ** What the helpers leave alone *)
Section Frame.
Context `{!Codec, !Account}.
Implicit Types st : GovernanceState.

Definition same_acks st st' : Prop :=
  gs_importer_account st' = gs_importer_account st /\ gs_ack_records_by_key st' = gs_ack_records_by_key st.

#[export] Instance same_acks_preorder : PreOrder same_acks.
Proof. split; [by intros st|]. intros st1 st2 st3 [A1 A2] [B1 B2]. split; congruence. Qed.

Lemma foldl_same_acks {A} (f : GovernanceState -> A -> GovernanceState) xs :
  (forall st x, same_acks st (f st x)) -> forall st, same_acks st (foldl f st xs).
Proof. intros Hf. induction xs as [|x xs IH]; intros st; simpl; [done|]. etransitivity; [apply Hf|apply IH]. Qed.

Lemma schedule_same_acks id e st : same_acks st (maybe_schedule_activation id e st).
Proof. unfold maybe_schedule_activation. repeat case_match; done. Qed.
Lemma note_known_same_acks id x e st : same_acks st (note_known_ack_domain id x e st).
Proof.
  unfold note_known_ack_domain. cbv zeta. etransitivity; [|apply schedule_same_acks]. repeat case_match; done.
Qed.
Lemma outbound_same_acks p e st : same_acks st (insert_outbound_proposal_leaves p e st).
Proof. apply foldl_same_acks. by intros. Qed.
Lemma try_activate_same_acks id e h st : same_acks st (try_activate_proposal id e h st).2.
Proof. unfold try_activate_proposal. cbv zeta. repeat case_match; done. Qed.
Lemma activate_all_same_acks ids e h : forall st, same_acks st (activate_all ids e h st).2.
Proof.
  induction ids as [|id ids IH]; intros st; simpl; [done|]. pose proof (try_activate_same_acks id e h st) as H1.
  destruct (try_activate_proposal _ _ _ _) as [done1 st1]. specialize (IH st1).
  destruct (activate_all _ _ _ _) as [rem st2]. simpl in *. by etransitivity.
Qed.
Lemma on_initialize_same_acks sys e st : same_acks st (governance_on_initialize sys e st).
Proof.
  unfold governance_on_initialize. destruct (_ =? 0); [done|]. unfold activate_ready_queue, activate_epoch_bucket.
  set (st1 := foldl _ _ _). assert (same_acks st st1) as H1 by (apply foldl_same_acks; intros; apply try_activate_same_acks).
  pose proof (activate_all_same_acks (gs_ready_activation_ids st1) e (saturated_into_u32 (sys_block_number sys)) st1) as H2.
  destruct (activate_all _ _ _ _) as [rem st2]. by etransitivity; [|exact H2].
Qed.
End Frame.

(** ** Who wrote the records *)
Section Origins.
Context `{!Codec, !CodecOk, !CodecSep, !Account, !AccountOk}.
Context (d : DomainId).
Context (proposal_ids_distinct : forall d1 d2 s1 s2,
  0 <= s1 < u64_max -> 0 <= s2 < u64_max ->
  governance_proposal_id d1 s1 = governance_proposal_id d2 s2 -> d1 = d2 /\ s1 = s2).
Context (importer : AccountId) (signs : RuntimeCall -> Prop).
Implicit Types st : GovernanceState.

(** A proposal has the terms of a leaf. *)
Definition has_terms (leaf : GovernanceProposalLeaf) (p : GovernanceProposal) : Prop :=
  gp_source_domain p = gpl_source_domain leaf /\ gp_target_domains p = gpl_target_domains leaf /\
  gp_payload_hash p = gpl_payload_hash leaf /\ protocol_version (gp_payload p) = gpl_new_protocol_version leaf /\
  gp_activation_epoch p = gpl_activation_epoch leaf.

(** Every proposal of another domain was imported, and every acknowledgement of
    another domain recorded, in a call that the importer signed. *)
Record GovOrigins st : Prop := {
  go_importer : gs_importer_account st = Some importer;
  go_proposal : forall id p, gs_proposals_by_id st !! id = Some p -> gp_source_domain p <> d ->
    exists claim, signs (ImportVerifiedGovernanceProposal claim) /\ gpl_proposal_id (igp_leaf claim) = id /\
      has_terms (igp_leaf claim) p;
  go_ack : forall id x r, gs_ack_records_by_key st !! (id, x) = Some r -> x <> d ->
    exists claim p, signs (ImportVerifiedGovernanceAck claim) /\ gal_proposal_id (iga_leaf claim) = id /\
      gal_acknowledging_domain (iga_leaf claim) = x /\
      gs_proposals_by_id st !! id = Some p /\ gp_target_domains p = gal_target_domains (iga_leaf claim)
}.

Lemma terms_forward leaf p p' : has_terms leaf p -> gp_status p <> Voting -> forward p p' -> has_terms leaf p'.
Proof.
  intros (T1 & T2 & T3 & T4 & T5) Hv ((_ & F2 & F3 & F4 & F5 & _ & _ & F8) & _). unfold has_terms.
  rewrite F2, F3, F4, F5, (F8 Hv). by split_and!.
Qed.

(** A step that records no acknowledgement of another domain and no new
    proposal of another domain. *)
Lemma origins_frame st st' :
  PubInv d st -> moves st st' -> gs_importer_account st' = gs_importer_account st ->
  (forall id x, x <> d -> gs_ack_records_by_key st' !! (id, x) = gs_ack_records_by_key st !! (id, x)) ->
  (forall id p', gs_proposals_by_id st' !! id = Some p' -> gp_source_domain p' <> d ->
     (exists p, gs_proposals_by_id st !! id = Some p) \/
     exists claim, signs (ImportVerifiedGovernanceProposal claim) /\ gpl_proposal_id (igp_leaf claim) = id /\
       has_terms (igp_leaf claim) p') ->
  GovOrigins st -> GovOrigins st'.
Proof.
  intros HP Hm Ei Ea Hnew [O1 O2 O3]. split; [congruence|..].
  - intros id p' Hp' Hs. destruct (Hnew _ _ Hp' Hs) as [[p Hp]|?]; [|done]. destruct (Hm _ _ Hp) as (p2 & Hp2 & Hf).
    rewrite Hp' in Hp2. injection Hp2 as <-. assert (gp_source_domain p <> d) as Hs'.
    { destruct Hf as ((_ & F2 & _) & _). congruence. }
    destruct (O2 _ _ Hp Hs') as (claim & Hc & Hid & Ht). exists claim. split_and!; [done|done|].
    eapply terms_forward; [done| |done]. intros Hv. apply Hs'. by destruct (pub_local _ _ HP _ _ Hp Hv).
  - intros id x r. intros Hr Hx. rewrite Ea in Hr by done. destruct (O3 _ _ _ Hr Hx) as (claim & p & Hc & Hid & Hk & Hp & Ht).
    destruct (Hm _ _ Hp) as (p' & Hp' & ((_ & _ & F3 & _) & _)). exists claim, p'. split_and!; congruence.
Qed.

Lemma origins_import e sys origin claim st st' :
  GovOrigins st -> PubInv d st -> ActInv (mkGov st e) -> IdInv d st -> moves st st' ->
  (exists seq, 0 <= seq < u64_max /\ gpl_proposal_id (igp_leaf claim) = governance_proposal_id (gpl_source_domain (igp_leaf claim)) seq) ->
  (origin = Signed importer -> signs (ImportVerifiedGovernanceProposal claim)) ->
  import_verified_governance_proposal d e sys origin claim st = Ok st' -> GovOrigins st'.
Proof.
  intros HO HP HA HI Hm (seq & Hseq & Hid) Hs Hop.
  assert (signs (ImportVerifiedGovernanceProposal claim)) as Hsig.
  { unfold import_verified_governance_proposal in Hop. dispatch_inv Hop. bool_to_prop. destruct origin; simplify_eq/=.
    apply Hs. f_equal. pose proof (go_importer _ HO). congruence. }
  apply import_proposal_inv in Hop. cbv zeta in Hop. destruct Hop as (_ & Hsrc & Hnone & _ & _ & ->).
  set (leaf := igp_leaf claim) in *. destruct (import_base_inv d st e sys leaf seq HA HI Hseq Hid Hsrc Hnone) as [HA1 _].
  destruct (schedule_same_acks (gpl_proposal_id leaf) e (import_base d e sys leaf st)) as [E1 E2].
  assert (gs_importer_account (import_base d e sys leaf st) = gs_importer_account st) as E3.
  { unfold import_base, record_local_ack_and_fanout. cbv zeta. cbn [gs_importer_account deposit_governance_event].
    refine (eq_trans (proj1 (foldl_same_acks _ _ _ _)) eq_refl). by intros. }
  destruct (import_base_spec d e sys leaf st) as (r & ack & _ & _ & (Ep & _ & Eack & _) & _).
  set (ib := import_base d e sys leaf st) in *. clearbody ib. simpl in Ep, Eack.
  apply (origins_frame st); [done|done|simpl; congruence| |..|done].
  - intros id x Hx. simpl. rewrite E2, Eack. apply lookup_insert_ne. congruence.
  - intros id p' Hp' Hd. pose proof (schedule_proposals (gpl_proposal_id leaf) e _ id (proj1 HA1)) as Hsch. cbn [g_st] in Hsch.
    change (gs_proposals_by_id (maybe_schedule_activation (gpl_proposal_id leaf) e ib) !! id = Some p') in Hp'.
    rewrite Hp', Ep in Hsch. destruct (decide (id = gpl_proposal_id leaf)) as [->|Hne].
    + right. rewrite lookup_insert_eq in Hsch. exists claim. split_and!; [done|done|]. by destruct Hsch as [->|[_ ->]].
    + left. rewrite lookup_insert_ne in Hsch by done. destruct (gs_proposals_by_id st !! id) as [p|]; [by exists p|done].
Qed.

Lemma origins_import_ack e sys origin claim st st' :
  GovOrigins st -> PubInv d st -> ActInv (mkGov st e) -> moves st st' ->
  (origin = Signed importer -> signs (ImportVerifiedGovernanceAck claim)) ->
  import_verified_governance_ack d e sys origin claim st = Ok st' -> GovOrigins st'.
Proof.
  intros HO HP HA Hm Hs Hop. assert (signs (ImportVerifiedGovernanceAck claim)) as Hsig.
  { unfold import_verified_governance_ack in Hop. dispatch_inv Hop. bool_to_prop. destruct origin; simplify_eq/=.
    apply Hs. f_equal. pose proof (go_importer _ HO). congruence. }
  apply import_ack_inv in Hop. cbv zeta in Hop. destruct Hop as (ack & p & _ & _ & _ & _ & Hp & Et & _ & ->).
  set (leaf := iga_leaf claim) in *. set (k := (gal_proposal_id leaf, gal_acknowledging_domain leaf)) in *.
  destruct (ack_written st e (gal_proposal_id leaf) (gal_acknowledging_domain leaf) ack HA) as [HB Hack].
  set (st0 := st {{ gs_ack_records_by_key ::= <[k := ack]> }}) in *.
  assert (PubInv d st0) as HP0 by (by apply (pub_same d st)).
  assert (GovOrigins st0) as HO0.
  { destruct HO as [O1 O2 O3]. split; [done|done|]. intros id x r. simpl. rewrite lookup_insert_Some.
    intros [[E <-]|[_ Hr]]; [|by apply (O3 id x r)]. injection E as <- <-. intros _. by exists claim, p. }
  destruct (note_known_same_acks (gal_proposal_id leaf) (gal_acknowledging_domain leaf) e st0) as [E1 E2].
  apply (origins_frame st0); [done|done|exact E1|intros; by rewrite <-E2| |done].
  intros id p' Hp' _. left. pose proof (note_known_proposals (gal_proposal_id leaf) (gal_acknowledging_domain leaf) e st0 id HB Hack) as Hn.
  change (gs_proposals_by_id (note_known_ack_domain (gal_proposal_id leaf) (gal_acknowledging_domain leaf) e st0) !! id = Some p') in Hp'.
  rewrite Hp' in Hn. destruct (gs_proposals_by_id st0 !! id) as [p0|]; [by exists p0|done].
Qed.
End Origins.

(** ** The chains *)
Section Chains.
Context `{!Codec, !CodecOk, !CodecSep, !Account, !AccountOk, !Currency B, !CurrencyOk B}.
Context (d : DomainId) (L : Z) (HL : 1 <= L).
Context (export_ids_distinct : forall s s',
  0 <= s < u64_max -> 0 <= s' < u64_max -> export_id d s = export_id d s' -> s = s').
Context (proposal_ids_distinct : forall d1 d2 s1 s2,
  0 <= s1 < u64_max -> 0 <= s2 < u64_max ->
  governance_proposal_id d1 s1 = governance_proposal_id d2 s2 -> d1 = d2 /\ s1 = s2).
Context (importer : AccountId) (signs : RuntimeCall -> Prop).

#[local] Abbreviation Origins := (GovOrigins d importer signs).

Lemma old_proposal st st' :
  (forall id p', gs_proposals_by_id st' !! id = Some p' -> gp_source_domain p' = d \/ is_Some (gs_proposals_by_id st !! id)) ->
  forall id p', gs_proposals_by_id st' !! id = Some p' -> gp_source_domain p' <> d ->
  (exists p, gs_proposals_by_id st !! id = Some p) \/
  exists claim, signs (ImportVerifiedGovernanceProposal claim) /\ gpl_proposal_id (igp_leaf claim) = id /\
    has_terms (igp_leaf claim) p'.
Proof. intros Hold id p' Hp' Hd. destruct (Hold id p' Hp') as [?|?]; [done|by left]. Qed.

Lemma dispatch_gov_origins sys origin call (ch ch' : Chain B) :
  ChainOk d ch -> call_admissible ch call -> (origin = Signed importer -> signs call) ->
  dispatch sys origin call ch = Ok ch' ->
  Origins (w_governance (ch_world ch)) -> Origins (w_governance (ch_world ch')).
Proof.
  intros Hok Hc Hs Hop HO. pose proof (co_governance _ _ Hok) as Hg.
  destruct (gov_reachable_act d proposal_ids_distinct _ Hg) as [HA HI].
  pose proof (gov_reachable_pub d proposal_ids_distinct _ Hg) as HP. unfold gov_conf in HA, HI, HP. cbn [g_st] in HI, HP.
  assert (forall st', gov_step d (gov_conf ch) (mkGov st' (current_epoch ch)) -> moves (w_governance (ch_world ch)) st') as Hm.
  { intros st' Hstep id p Hp. exact (gov_step_forward d proposal_ids_distinct _ _ id p HA HI Hstep Hp). }
  unfold gov_conf in Hm. set (st := w_governance (ch_world ch)) in *. set (e := current_epoch ch) in *.
  unfold dispatch in Hop. rewrite (co_domain _ _ Hok) in Hop. destruct call; simpl in Hc; cbv zeta in Hop;
    match type of Hop with
    | with_transfers _ ?r = _ => destruct r as [[b st']|err] eqn:E; [|done]
    | with_governance _ ?r = _ => destruct r as [st'|err] eqn:E; [|done]
    end; injection Hop as <-; simpl; try done; fold st in E; fold e in E.
  - destruct Hc as [Hc1 Hc2].
    assert (moves st st') as Hmv by (apply Hm; eapply gov_create; [done|apply cur_balance_nonneg|done|exact E]).
    apply create_proposal_inv in E as (who & targets' & total & power & _ & _ & _ & _ & _ & ->).
    apply (origins_frame d importer signs st); [done..| |done]. apply old_proposal. intros id p'. simpl. rewrite lookup_insert_Some.
    intros [[_ <-]|[_ Hp]]; [by left|right; by eexists].
  - assert (moves st st') as Hmv by (apply Hm; by eapply gov_vote).
    apply cast_vote_inv in E as (who & p & power & vote & -> & _ & Hp & _).
    apply (origins_frame d importer signs st); [done..| |done]. apply old_proposal. intros id p'. simpl. rewrite lookup_insert_Some.
    intros [[<- _]|[_ Hp']]; right; by eexists.
  - assert (moves st st') as Hmv by (apply Hm; by eapply gov_close).
    apply close_proposal_inv in E as (p & Hp & _ & _ & Hcase). destruct (_ && _); subst st'.
    + destruct (outbound_same_acks (accepted e p) e (store_activation_record (accepted e p) [] None st)) as [E1 E2].
      destruct (insert_outbound_same (accepted e p) e (store_activation_record (accepted e p) [] None st)) as (Ep & _).
      apply (origins_frame d importer signs st); [done|done|exact E1|intros; simpl; by rewrite E2| |done].
      apply old_proposal. intros id p'. simpl. rewrite Ep, lookup_insert_Some. intros [[<- _]|[_ Hp']]; right; by eexists.
    + apply (origins_frame d importer signs st); [done..| |done]. apply old_proposal. intros id p'. simpl. rewrite lookup_insert_Some.
      intros [[<- _]|[_ Hp']]; right; by eexists.
  - destruct Hc as (seq & Hseq & Hid). eapply (origins_import d importer signs e); [done..| |by exists seq|exact Hs|exact E].
    apply Hm. by eapply gov_import.
  - eapply (origins_import_ack d importer signs e); [done..| |exact Hs|exact E]. apply Hm. by eapply gov_import_ack.
Qed.

Lemma apply_extrinsics_gov_origins sys xts : forall i (ch : Chain B),
  ChainOk d ch -> admissible_all sys i xts ch -> Forall (authored importer signs) xts ->
  Origins (w_governance (ch_world ch)) -> Origins (w_governance (ch_world (apply_extrinsics sys i xts ch))).
Proof.
  induction xts as [|xt xts IH]; intros i ch Hok Hadm Ha Ho; simpl; [done|].
  destruct Hadm as [Hx Hadm]. apply Forall_cons in Ha as [Hax Ha].
  apply IH; [by eapply apply_extrinsic_ok|done|done|].
  assert (ChainOk d (charge xt ch)) as Hok1.
  { apply (chain_transfers_step d export_ids_distinct ch (xt_balances xt (w_balances (ch_world ch))) (w_transfers (ch_world ch)) Hok).
    apply step_balances. intros a. apply Hx. }
  unfold apply_extrinsic. cbv zeta. destruct (xt_call xt) as [call|] eqn:Ec; [|done].
  destruct (dispatch _ _ call (charge xt ch)) as [ch'|] eqn:E; [|done].
  exact (dispatch_gov_origins _ _ call (charge xt ch) ch' Hok1 (proj2 Hx call Ec) (fun E' => Hax call E' Ec) E Ho).
Qed.

(** Entering a block runs the governance hook, in this epoch or the next. *)
Lemma enter_block_governance hist bl (ch : Chain B) :
  epochs_run d L hist (ch_world ch, ch_epochs ch) ->
  sys_block_number (bl_sys bl) = Z.of_nat (length hist) + 1 -> sys_block_number (bl_sys bl) <= u32_max ->
  exists e, (e = current_epoch ch \/ e = current_epoch ch + 1) /\
    w_governance (ch_world (enter_block bl ch)) = governance_on_initialize (bl_sys bl) e (w_governance (ch_world ch)).
Proof.
  intros Hrun Hn Hmax. pose proof (epochs_run_state d L HL export_ids_distinct _ _ Hrun) as Hst. rewrite enter_block_unfold. cbv zeta.
  destruct (epochs_on_initialize _ _) as [w2 es2] eqn:E. cbn [fst snd].
  apply (epochs_init_cases d L hist) in E as [(-> & Ec & _)|Hc]; [| |done|done|done]; exists (es_current_epoch es2).
  - split; [by left|done].
  - unfold closes in Hc. cbn [commit_epoch_exports_hook commit_epoch_imports_hook commit_epoch_governance_hook
      runtime_providers] in Hc. destruct (commit_epoch_exports _ _ _ _ _) as [root ts]. cbn [fst snd] in Hc.
    destruct Hc as (-> & Ec & _). split; [by right|done].
Qed.

Lemma hook_gov_origins sys e st :
  PubInv d st -> sys_block_number sys <> 0 -> ActCore e st -> Origins st -> Origins (governance_on_initialize sys e st).
Proof.
  intros HP Hn HA HO. destruct (on_initialize_same_acks sys e st) as [E1 E2].
  destruct (on_initialize_spec sys e st Hn HA) as (st1 & rem & Hr & E & _).
  apply (origins_frame d importer signs st); [done| |done|intros; by rewrite E2| |done].
  - intros id p Hp. pose proof (act_rtc_proposals _ _ _ _ id Hr) as Hm. rewrite Hp in Hm. rewrite E. by apply activated_forward.
  - apply old_proposal. intros id p'. rewrite E. simpl. intros Hp'. right. pose proof (act_rtc_proposals _ _ _ _ id Hr) as Hm.
    rewrite Hp' in Hm. destruct (gs_proposals_by_id st !! id); [by eexists|done].
Qed.

Lemma chain_state_gov_origins s : chain_state d L importer signs s -> Origins (w_governance (ch_world s.2)).
Proof.
  revert s. apply chain_state_ind.
  - intros s [bg identity endowed authorities keys Hd Hh]. split; simpl; [done|..]; intros *; by rewrite lookup_empty.
  - intros s s' Hs IH Hstep.
    destruct (chain_state_ok d L HL export_ids_distinct proposal_ids_distinct importer signs s Hs) as [Hrun Hok].
    destruct Hstep as [hist ch bl Hn Hmax Hadm Ha]. simpl in *.
    apply apply_extrinsics_gov_origins; [by eapply enter_block_ok|done|done|].
    destruct (enter_block_governance hist bl ch Hrun Hn Hmax) as (e & He & ->).
    destruct (gov_reachable_act d proposal_ids_distinct _ (co_governance _ _ Hok)) as [[HA _] _]. simpl in HA.
    apply hook_gov_origins; [exact (gov_reachable_pub d proposal_ids_distinct _ (co_governance _ _ Hok))|lia| |done].
    eapply act_core_mono; [|exact HA]. destruct He; lia.
Qed.
End Chains.

(** ** The network *)
Section Network.
Context `{!Codec, !CodecOk, !CodecSep, !Account, !AccountOk, !Currency B, !CurrencyOk B}.
Context `{!LightClient, !LightClientOk}.
Context (len : DomainId -> Z) (importers : DomainId -> AccountId).
Context (domain_configs : DomainId -> option DomainConfig).
Context (trie_root : gmap bytes bytes -> hash).
Context (now : DomainId -> list System * Chain B).
Context (Hlen : forall d, 1 <= len d).
Context (export_ids_distinct : forall d s s',
  0 <= s < u64_max -> 0 <= s' < u64_max -> export_id d s = export_id d s' -> s = s').
Context (proposal_ids_distinct : forall d1 d2 s1 s2,
  0 <= s1 < u64_max -> 0 <= s2 < u64_max ->
  governance_proposal_id d1 s1 = governance_proposal_id d2 s2 -> d1 = d2 /\ s1 = s2).
Context (Hread : read_proof_sound trie_root).
Context (Hfinal : grandpa_finality domain_configs (block_of len importers domain_configs trie_root now)).
Context (Hnow : forall d, chain_state d (len d) (importers d) (signs_certified domain_configs d) (now d)).

Definition governance_of (d : DomainId) : GovernanceState := w_governance (ch_world (now d).2).
Definition proposals_of (d : DomainId) : gmap hash GovernanceProposal := gs_proposals_by_id (governance_of d).

Context (Hplain : forall d, plain_proposals (governance_of d)).

Lemma now_governance d : gov_reachable d (gov_conf (now d).2).
Proof. exact (co_governance _ _ (now_ok len importers domain_configs now Hlen export_ids_distinct proposal_ids_distinct Hnow d)). Qed.
Lemma now_gov_origins d : GovOrigins d (importers d) (signs_certified domain_configs d) (governance_of d).
Proof. exact (chain_state_gov_origins d (len d) (Hlen d) (export_ids_distinct d) proposal_ids_distinct _ _ _ (Hnow d)). Qed.

(** A leaf that a verified package proves is one its source chain published. *)
Lemma proved_leaf d pkg items p :
  verified_items d domain_configs pkg items -> p ∈ vi_governance_proofs items -> leaf_plain (gip_leaf p) ->
  publishable (sh_domain_id (pkg_header pkg)) (governance_of (sh_domain_id (pkg_header pkg))) (sh_epoch_id (pkg_header pkg))
    (gip_leaf p) \/ collision blake2_256.
Proof.
  intros Hv Hp Hpl.
  destruct (verified_header len importers domain_configs trie_root now Hlen export_ids_distinct proposal_ids_distinct
    Hread Hfinal _ _ _ Hv) as [Hh|?]; [|by right].
  destruct Hv as (_ & _ & _ & _ & (_ & _ & _ & _ & [_ F])%flow_spec). rewrite Forall_forall in F. specialize (F p Hp).
  set (dom := sh_domain_id (pkg_header pkg)) in *.
  pose proof (now_ok len importers domain_configs now Hlen export_ids_distinct proposal_ids_distinct Hnow dom) as Hok.
  destruct (co_roots _ _ Hok _ _ Hh) as [_ (_ & _ & Hx)]. destruct (Hx (Hplain dom)) as [Hroot|?]; [|by right].
  assert (verify_governance_inclusion_proof (sh_governance_root (pkg_header pkg)) p = true) as V.
  { unfold check_governance_proof in F. by destruct (verify_governance_inclusion_proof _ _). }
  rewrite Hroot in V. pose proof (gov_reachable_leaves dom proposal_ids_distinct _ (now_governance dom)) as HLv.
  assert (forall l, l ∈ canonical_epoch_governance_leaves (governance_of dom) (sh_epoch_id (pkg_header pkg)) ->
    leaf_ok (governance_of dom) l) as Hlok.
  { intros l (h & _ & Hl)%canonical_leaves_elem. exact (proj2 (lf_leaf _ HLv _ _ Hl)). }
  apply governance_proof_sound in V as [Hin|?]; [|by right|..|done].
  - exact (epoch_leaf_published dom proposal_ids_distinct _ _ _ (now_governance dom) (Hplain dom) Hin).
  - apply Forall_forall. intros l Hl. by apply Hlok.
  - apply Forall_forall. intros l Hl. eapply leaf_ok_plain; [apply Hplain|by apply Hlok].
Qed.

(** The same proposal, on two chains. *)
Definition same_proposal (p p' : GovernanceProposal) : Prop :=
  gp_source_domain p' = gp_source_domain p /\ gp_target_domains p' = gp_target_domains p /\
  gp_payload_hash p' = gp_payload_hash p /\ protocol_version (gp_payload p') = protocol_version (gp_payload p) /\
  gp_activation_epoch p' = gp_activation_epoch p.

#[export] Instance same_proposal_equiv : Equivalence same_proposal.
Proof. unfold same_proposal. split; [done|..]; intros ?; naive_solver congruence. Qed.

(** An imported proposal is approved on its source chain. *)
Definition approved_at_source (id : hash) (p : GovernanceProposal) : Prop :=
  exists p0, proposals_of (gp_source_domain p) !! id = Some p0 /\ same_proposal p0 p /\ finalized_status (gp_status p0).

Lemma imported_approved d id p :
  proposals_of d !! id = Some p -> (gp_source_domain p <> d -> approved_at_source id p) \/ collision blake2_256.
Proof.
  intros Hp. destruct (decide (gp_source_domain p = d)) as [|Hs]; [by left|].
  destruct (go_proposal _ _ _ _ (now_gov_origins d) _ _ Hp Hs) as (claim & (pkg & items & Hv & Hc) & Hid & (T1 & T2 & T3 & T4 & T5)).
  inversion Hc as [| | |q leaf Hq El Ec|]; subst claim. simpl in *.
  destruct (proved_leaf _ _ _ _ Hv Hq) as [Hpub|?]; [|left|by right].
  { rewrite El. simpl. rewrite <-T2. by eapply Hplain. }
  rewrite El in Hpub. destruct Hpub as (_ & _ & Esrc & _ & p0 & Hp0 & (A1 & A2 & A3 & A4 & A5 & A6)). intros _. exists p0.
  rewrite Hid, <-Esrc, <-T1 in Hp0. split; [done|]. split; [|done]. unfold same_proposal. split_and!; congruence.
Qed.

(** A domain whose acknowledgement is recorded has the proposal. *)
Lemma acknowledged_known d id x :
  is_Some (gs_ack_records_by_key (governance_of d) !! (id, x)) -> x <> d ->
  is_Some (proposals_of x !! id) \/ collision blake2_256.
Proof.
  intros [r Hr] Hx. destruct (go_ack _ _ _ _ (now_gov_origins d) _ _ _ Hr Hx)
    as (claim & p & (pkg & items & Hv & Hc) & Hid & Hk & Hp & Ht).
  inversion Hc as [| | | |q leaf Hq El Ec]; subst claim. simpl in *.
  destruct (proved_leaf _ _ _ _ Hv Hq) as [Hpub|?]; [|left|by right].
  { rewrite El. simpl. rewrite <-Ht. by eapply Hplain. }
  rewrite El in Hpub. destruct Hpub as [(_ & _ & p' & Hp' & _) (_ & Eack & _)]. simpl in Hp'. exists p'.
  rewrite Hk in Eack. rewrite Eack, <-Hid. exact Hp'.
Qed.

(** Two chains that have a proposal agree on it. *)
Lemma known_agree d t id p p' :
  proposals_of d !! id = Some p -> proposals_of t !! id = Some p' -> same_proposal p p' \/ collision blake2_256.
Proof.
  intros Hp Hp'. destruct (gov_reachable_act d proposal_ids_distinct _ (now_governance d)) as [_ [_ I1]].
  destruct (gov_reachable_act t proposal_ids_distinct _ (now_governance t)) as [_ [_ I2]].
  destruct (I1 _ _ Hp) as (s & Hs & Ei & _), (I2 _ _ Hp') as (s' & Hs' & Ei' & _).
  assert (gp_source_domain p' = gp_source_domain p) as Esrc by (rewrite Ei in Ei'; by apply proposal_ids_distinct in Ei' as [-> _]).
  assert (forall x q, proposals_of x !! id = Some q -> gp_source_domain q = gp_source_domain p ->
    (exists p0, proposals_of (gp_source_domain p) !! id = Some p0 /\ same_proposal p0 q) \/ collision blake2_256) as Hsrc.
  { intros x q Hq Eq. destruct (decide (gp_source_domain q = x)) as [Ex|Hne].
    - left. exists q. by rewrite <-Eq, Ex.
    - destruct (imported_approved _ _ _ Hq) as [Ha|?]; [left|by right]. destruct (Ha Hne) as (p0 & Hp0 & Hsm & _).
      rewrite Eq in Hp0. by exists p0. }
  destruct (Hsrc d p Hp eq_refl) as [(p0 & Hp0 & S0)|?]; [|by right]. destruct (Hsrc t p' Hp' Esrc) as [(p1 & Hp1 & S1)|?]; [left|by right].
  assert (p1 = p0) as -> by congruence. by rewrite <-S0.
Qed.

(** C3: the chains agree on governance.  A proposal that a chain holds from another
    domain was approved by the voters of that domain's chain, with the same
    targets, payload and activation epoch; and when a chain has activated a
    proposal, every other target domain of the proposal holds it too, with the
    same terms; or [blake2_256] collides. *)
Theorem governance_agreement d id p :
  proposals_of d !! id = Some p ->
  ((gp_source_domain p <> d -> approved_at_source id p) /\
   (gp_status p = Activated -> forall t, t ∈ gp_target_domains p -> t <> d ->
      exists p', proposals_of t !! id = Some p' /\ same_proposal p p')) \/
  collision blake2_256.
Proof.
  intros Hp. destruct (imported_approved d id p Hp) as [Ha|?]; [|by right].
  destruct (decide (gp_status p = Activated)) as [Hact|]; [|by left].
  destruct (activated_acked d proposal_ids_distinct _ _ _ (now_governance d) Hp Hact) as (_ & _ & _ & _ & _ & Hacks).
  destruct (domain_forall_or (fun t => t ∈ gp_target_domains p -> t <> d ->
    exists p', proposals_of t !! id = Some p' /\ same_proposal p p') (collision blake2_256)) as [Ht|?]; [|by left|by right].
  intros t. destruct (decide (t ∈ gp_target_domains p /\ t <> d)) as [[Hin Hne]|Hn]; [|left; tauto].
  destruct (acknowledged_known d id t (Hacks t Hin) Hne) as [[p' Hp']|?]; [|by right].
  destruct (known_agree _ _ _ _ _ Hp Hp') as [Hsm|?]; [left|by right]. intros _ _. by exists p'.
Qed.
End Network.
