(* ===== verification/AgreementWitnesses.v ===== *)
(** * A proposal of Earth, activated

    Earth's voters approve a proposal for Mars; a package from the epoch of its
    approval lets the importer of Mars record it; a package with the
    acknowledgement of Mars lets Earth schedule and, four epochs later, activate
    it.  The theorem of [Agreement.v] is applied to the two chains. *)

From S2P Require Import Prelude Types Codec Reference Merkle Frame Domain Epochs Transfers TransfersProofs Governance GovernanceProofs PublicationProofs GovernanceWitnesses Runtime RuntimeProofs Config Verify VerifyProofs Effects Relay Importer ImporterProofs CrossChain NetworkExample Agreement.

#[local] Existing Instance reference_codec.
#[local] Existing Instance reference_account.
#[local] Existing Instance reference_account_ok.
#[local] Existing Instance reference_currency.
#[local] Existing Instance reference_currency_ok.

(** ** The chains *)

Definition target_block (n : Z) : FlatHeader := (n - 1, [n - 2], [n - 1]).
Definition proof_block (n : Z) (ch : Chain Ledger) : FlatHeader :=
  (n, flat_header_hash (target_block n), flat_trie_root (header_store ch)).

(** The certificate for epoch [e] that the justified block [n] gives. *)
Definition certificate_at (d : DomainId) (e n : Z) (ch : Chain Ledger) : SummaryCertificationBundle :=
  let hd := proof_block n ch in
  {| scb_certificate := GrandpaV1
       {| gfc_version := 1; gfc_grandpa_set_id := 0;
          gfc_target_block_number := n - 1; gfc_target_block_hash := flat_header_hash (target_block n);
          gfc_proof_block_number := n; gfc_proof_block_hash := flat_header_hash hd;
          gfc_justification := flat (A := list Z * list Z * Z) (validator d, flat_header_hash hd, n);
          gfc_ancestry_headers := [flat (A := Z * list Z * list Z) hd] |};
     scb_summary_header_storage_proof :=
       {| shp_version := 1; shp_proof_block_number := n; shp_proof_block_hash := flat_header_hash hd;
          shp_proof_block_header := flat (A := Z * list Z * list Z) hd; shp_storage_key := summary_header_storage_key e;
          shp_trie_nodes := [flat_trie_root (header_store ch)] |} |}.

(** The package with all governance leaves of an epoch. *)
Definition leaf_proofs (e : Z) (ch : Chain Ledger) : list GovernanceInclusionProof :=
  let leaves := canonical_epoch_governance_leaves (w_governance (ch_world ch)) e in
  omap (fun l => build_governance_inclusion_proof leaves (leaf_hash l)) leaves.
Definition governance_package (d : DomainId) (e n : Z) (ch : Chain Ledger) : CertifiedSummaryPackage :=
  from_bundle_with_mixed_proofs (default no_header (es_summary_headers (ch_epochs ch) !! e)) (certificate_at d e n ch) [] []
    (leaf_proofs e ch).
(** The calls that the importer makes of it. *)
Definition governance_call (pkg : CertifiedSummaryPackage) (p : GovernanceInclusionProof) : RuntimeCall :=
  match gip_leaf p with
  | ProposalV1 leaf => ImportVerifiedGovernanceProposal
      (mkImportedGovernanceProposalClaim (gpl_version leaf) leaf (sh_summary_hash (pkg_header pkg)) (pkg_package_hash pkg))
  | AckV1 leaf => ImportVerifiedGovernanceAck
      (mkImportedGovernanceAckClaim (gal_version leaf) leaf (sh_summary_hash (pkg_header pkg)) (pkg_package_hash pkg))
  end.

Definition proposal_id : hash := governance_proposal_id Earth 0.
Definition gearth_0 : list System * Chain Ledger := ([], network_genesis Earth).
Definition gearth_1 := next [plain_xt 1 (CreateProposal [Mars] 2); plain_xt 1 (CastVote proposal_id Yes);
                             plain_xt 2 (CastVote proposal_id Yes)] gearth_0.
Definition gearth_3 := next [plain_xt 1 (CloseProposal proposal_id)] (next [] gearth_1).
Definition gearth_6 := next [] (next [] (next [] gearth_3)).
Definition approval_package : CertifiedSummaryPackage := governance_package Earth 1 6 gearth_6.2.

Definition gmars_0 : list System * Chain Ledger := ([], network_genesis Mars).
Definition gmars_calls : list RuntimeCall := map (governance_call approval_package) (leaf_proofs 1 gearth_6.2).
Definition gmars_4 := next [] (next [] (next [] (next (map (plain_xt 7) gmars_calls) gmars_0))).
Definition ack_package : CertifiedSummaryPackage := governance_package Mars 0 4 gmars_4.2.

Definition gearth_calls : list RuntimeCall := map (governance_call ack_package) (leaf_proofs 0 gmars_4.2).
Definition gearth_7 := next (map (plain_xt 7) gearth_calls) gearth_6.
Definition gearth_11 := next [] (next [] (next [] (next [] gearth_7))).

Definition gjustified : list FlatJustification :=
  [(validator Earth, flat_header_hash (proof_block 6 gearth_6.2), 6);
   (validator Mars, flat_header_hash (proof_block 4 gmars_4.2), 4)].
Definition gnetwork (d : DomainId) : list System * Chain Ledger :=
  match d with Earth => gearth_11 | Moon => ([], network_genesis Moon) | Mars => gmars_4 end.

#[local] Instance governance_light_client : LightClient := some_network_client gjustified.

Example earth_activated :
  gp_status <$> proposals_of gnetwork Earth !! proposal_id = Some Activated /\
  gp_status <$> proposals_of gnetwork Mars !! proposal_id = Some Scheduled.
Proof. split; vm_compute; reflexivity. Qed.

(** ** They are a network *)

#[local] Abbreviation signed := (signed_by_importer gjustified).
#[local] Abbreviation state d := (chain_state d 2 (acct 7) (signed d)).

Lemma package_verified d d' e n ch :
  passes gjustified d' (governance_package d e n ch) = true ->
  verified_items d' network_config (governance_package d e n ch) (mkVerifiedPackageItems [] [] (leaf_proofs e ch)).
Proof. exact (passes_verified gjustified d' _ _ [] [] _). Qed.

Lemma approval_passes : passes gjustified Mars approval_package = true.
Proof. vm_compute. reflexivity. Qed.
Lemma ack_passes : passes gjustified Earth ack_package = true.
Proof. vm_compute. reflexivity. Qed.
Lemma approval_verified :
  verified_items Mars network_config approval_package (mkVerifiedPackageItems [] [] (leaf_proofs 1 gearth_6.2)).
Proof. exact (package_verified Earth Mars 1 6 gearth_6.2 approval_passes). Qed.
Lemma ack_verified :
  verified_items Earth network_config ack_package (mkVerifiedPackageItems [] [] (leaf_proofs 0 gmars_4.2)).
Proof. exact (package_verified Mars Earth 0 4 gmars_4.2 ack_passes). Qed.

Lemma governance_calls_certified d pkg proofs :
  verified_items d network_config pkg (mkVerifiedPackageItems [] [] proofs) ->
  Forall (signed d) (map (governance_call pkg) proofs).
Proof.
  intros Hv. apply Forall_map_in. intros p Hp. exists pkg, (mkVerifiedPackageItems [] [] proofs). split; [exact Hv|].
  unfold governance_call. destruct (gip_leaf p) as [leaf|leaf] eqn:El.
  - by eapply (cert_proposal pkg (mkVerifiedPackageItems [] [] proofs)).
  - by eapply (cert_ack pkg (mkVerifiedPackageItems [] [] proofs)).
Qed.

(** The imported proposals carry identifiers of their domain. *)
Definition numbered (c : RuntimeCall) : bool :=
  match c with
  | ImportVerifiedGovernanceProposal claim =>
    bool_decide (gpl_proposal_id (igp_leaf claim) = governance_proposal_id (gpl_source_domain (igp_leaf claim)) 0)
  | ImportVerifiedGovernanceAck _ => true
  | _ => false
  end.
Lemma numbered_admissible calls : forallb numbered calls = true -> Forall always_admissible calls.
Proof.
  intros Hn. apply Forall_forall. intros c Hc ch. rewrite forallb_forall in Hn. specialize (Hn c (proj1 (list_elem_of_In _ _) Hc)).
  destruct c as [| | | | | | |claim|claim]; try discriminate Hn; [|exact I]. apply bool_decide_eq_true in Hn.
  exists 0. split; [split; [lia|reflexivity]|exact Hn].
Qed.

Lemma user_authored signs who call : bool_decide (acct who = acct 7) = false -> authored (acct 7) signs (plain_xt who call).
Proof. intros Hw c E. apply bool_decide_eq_false in Hw. injection E as E. by destruct Hw. Qed.

Lemma gearth_1_state : state Earth gearth_1.
Proof.
  apply (chain_state_next _ _ gearth_0); [apply genesis_network|]. apply next_step; [vm_compute; discriminate| |].
  - split; [apply plain_admissible; split; vm_compute; reflexivity|].
    split; [apply plain_admissible; exact I|]. split; [apply plain_admissible; exact I|exact I].
  - repeat (constructor; [by apply user_authored|]). constructor.
Qed.
Lemma gearth_3_state : state Earth gearth_3.
Proof.
  apply (chain_state_next _ _ (next [] gearth_1)).
  - apply (chain_state_next _ _ gearth_1); [exact gearth_1_state|]. apply empty_block. vm_compute. discriminate.
  - apply next_step; [vm_compute; discriminate|split; [apply plain_admissible; exact I|exact I]|]. constructor; [by apply user_authored|constructor].
Qed.
Lemma gearth_6_state : state Earth gearth_6.
Proof.
  do 3 (eapply chain_state_next; [|apply empty_block; vm_compute; discriminate]). exact gearth_3_state.
Qed.
Lemma gmars_4_state : state Mars gmars_4.
Proof.
  do 3 (eapply chain_state_next; [|apply empty_block; vm_compute; discriminate]).
  eapply chain_state_next; [apply genesis_network|]. apply importer_block; [vm_compute; discriminate| |].
  - apply governance_calls_certified, approval_verified.
  - apply numbered_admissible. vm_compute. reflexivity.
Qed.
Lemma gearth_7_step : network_step gjustified Earth gearth_6 gearth_7.
Proof.
  apply importer_block; [vm_compute; discriminate| |].
  - apply governance_calls_certified, ack_verified.
  - apply numbered_admissible. vm_compute. reflexivity.
Qed.
Lemma gearth_11_steps : rtc (network_step gjustified Earth) gearth_6 gearth_11.
Proof.
  do 4 (eapply rtc_r; [|apply empty_block; vm_compute; discriminate]). apply rtc_once, gearth_7_step.
Qed.
Lemma gnetwork_state d : state d (gnetwork d).
Proof.
  destruct d; [|apply genesis_network|apply gmars_4_state]. destruct gearth_6_state as (s0 & Hg & Hr). exists s0.
  split; [exact Hg|]. etransitivity; [exact Hr|exact gearth_11_steps].
Qed.

#[local] Opaque gearth_6 gearth_11 gmars_4.

Definition gblock : DomainId -> Header -> gmap bytes bytes -> Prop :=
  block_of (fun _ => 2) (fun _ => acct 7) network_config flat_trie_root gnetwork.

Lemma gearth_block_6 : gblock Earth (proof_block 6 gearth_6.2) (header_store gearth_6.2).
Proof.
  split; [reflexivity|]. exists gearth_6. split; [exact gearth_6_state|]. split; [exact gearth_11_steps|apply header_store_spec].
Qed.
Lemma gmars_block_4 : gblock Mars (proof_block 4 gmars_4.2) (header_store gmars_4.2).
Proof.
  split; [reflexivity|]. exists gmars_4. split; [exact gmars_4_state|]. split; [exact (rtc_refl _ gmars_4)|apply header_store_spec].
Qed.

Lemma gnetwork_finality : grandpa_finality network_config gblock.
Proof.
  intros d config authorities j set_id [= <-] [= <-] Hj. apply andb_prop in Hj as [Ha Hj].
  apply bool_decide_eq_true in Ha, Hj. injection Ha as Ha.
  apply elem_of_cons in Hj as [->|Hj]; [|apply list_elem_of_singleton in Hj as ->]; simpl in Ha.
  - exists (proof_block 6 gearth_6.2), (header_store gearth_6.2). split; [|reflexivity].
    assert (d = Earth) as -> by (by destruct d). exact gearth_block_6.
  - exists (proof_block 4 gmars_4.2), (header_store gmars_4.2). split; [|reflexivity].
    assert (d = Mars) as -> by (by destruct d). exact gmars_block_4.
Qed.

Lemma gnetwork_plain d : plain_proposals (governance_of gnetwork d).
Proof. apply plain_b_spec. destruct d; vm_compute; reflexivity. Qed.

Lemma activated_at_earth : exists p, proposals_of gnetwork Earth !! proposal_id = Some p /\ gp_status p = Activated /\
  Mars ∈ gp_target_domains p.
Proof.
  assert (match proposals_of gnetwork Earth !! proposal_id with
          | Some p => gp_status p = Activated /\ bool_decide (Mars ∈ gp_target_domains p) = true
          | None => False
          end) as Hp by (vm_compute; auto).
  destruct (proposals_of gnetwork Earth !! proposal_id) as [p|]; [|destruct Hp]. exists p.
  destruct Hp as [Hs Ht%bool_decide_eq_true]. auto.
Qed.

(** Mars holds what Earth has activated. *)
Lemma governance_agreement_witness :
  exists p p', proposals_of gnetwork Earth !! proposal_id = Some p /\ gp_status p = Activated /\
    proposals_of gnetwork Mars !! proposal_id = Some p' /\ same_proposal p p'.
Proof.
  destruct activated_at_earth as (p & Hp & Hs & Ht).
  destruct (governance_agreement (fun _ => 2) (fun _ => acct 7) network_config flat_trie_root gnetwork ltac:(lia)
    network_export_ids reference_proposal_ids (flat_read_proof_sound gjustified) gnetwork_finality gnetwork_state gnetwork_plain
    Earth proposal_id p Hp) as [[_ Hall]|Hc]; [|destruct (no_collision Hc)].
  destruct (Hall Hs Mars Ht ltac:(discriminate)) as (p' & Hp' & Hsame). exists p, p'. auto.
Defined.
