(* ===== verification/Harness.v ===== *)
(** * The scenario harness ([tests/scenario-harness/src/lib.rs])

    The harness starts a source and a target chain with their services, makes a
    transfer or a governance proposal on the source, and follows it through both
    chains and back; every step is a stage with a timeout.  Its verdict is the
    summary it writes.

    [HarnessEnv] holds what it calls: clocks, processes, files, and the RPC
    methods of nodes by their URL.  The stores of the services are read with the
    functions of [Exporter.v], [Relay.v] and [Importer.v] from the files found at
    that moment.  Left out: the [details] of a stage and the paths in the summary,
    which are for the reader, and the rebuilding of the binaries with cargo
    ([prepare_binaries]). *)

From S2P Require Import Prelude Types Effects Codec Merkle Config Frame Runtime Verify Relay Importer Exporter Services.

Definition Text : Type := string.

Inductive ScenarioKind : Type :=
| EarthToMoonSuccess
| EarthToMarsDelay
| EarthToMarsBlackout
| EarthToMoonRelayRestart
| EarthToMoonGovernanceActivation.
#[export] Instance ScenarioKind_eq_dec : EqDecision ScenarioKind.
Proof. solve_decision. Defined.

(** ** Scenarios *)

Definition scenario_name (k : ScenarioKind) : bytes :=
  str_bytes match k with
  | EarthToMoonSuccess => "earth-to-moon-success"
  | EarthToMarsDelay => "earth-to-mars-delay"
  | EarthToMarsBlackout => "earth-to-mars-blackout"
  | EarthToMoonRelayRestart => "earth-to-moon-relay-restart"
  | EarthToMoonGovernanceActivation => "earth-to-moon-governance-activation"
  end.
Definition source_domain (k : ScenarioKind) : DomainId := Earth.
Definition target_domain (k : ScenarioKind) : DomainId :=
  match k with
  | EarthToMoonSuccess | EarthToMoonRelayRestart | EarthToMoonGovernanceActivation => Moon
  | EarthToMarsDelay | EarthToMarsBlackout => Mars
  end.
Definition has_source_follower (k : ScenarioKind) : bool := bool_decide (k = EarthToMoonSuccess).
Definition link_delay_seconds (k : ScenarioKind) : Z :=
  match k with
  | EarthToMoonSuccess => 2
  | EarthToMarsDelay => 20
  | EarthToMarsBlackout => 2
  | EarthToMoonRelayRestart => 15
  | EarthToMoonGovernanceActivation => 2
  end.
Definition blackout_window_seconds (k : ScenarioKind) : option Z :=
  if bool_decide (k = EarthToMarsBlackout) then Some 30 else None.
Definition blackout_start_offset_seconds (k : ScenarioKind) : option Z :=
  if bool_decide (k = EarthToMarsBlackout) then Some 35 else None.

(** In seconds. *)
Record StageTimeouts : Type := mkStageTimeouts {
  st_node_readiness : Z;
  st_chain_finality_ready : Z;
  st_follower_sync_ready : option Z;
  st_transfer_included : Z;
  st_export_record_visible : Z;
  st_epoch_closed_and_summary_staged : Z;
  st_exporter_certified_and_submitted : Z;
  st_relay_scheduled : Z;
  st_relay_delivery_and_importer_ack : Z;
  st_destination_remote_observed : Z;
  st_completion_exporter_certified_and_submitted : Z;
  st_completion_relay_scheduled : Z;
  st_completion_relay_delivery_and_importer_ack : Z;
  st_source_remote_finalized : Z
}.
Definition stage_timeouts (k : ScenarioKind) : StageTimeouts := {|
  st_node_readiness := 60;
  st_chain_finality_ready := 45;
  st_follower_sync_ready := if bool_decide (k = EarthToMoonSuccess) then Some 60 else None;
  st_transfer_included := 30;
  st_export_record_visible := 20;
  st_epoch_closed_and_summary_staged := 90;
  st_exporter_certified_and_submitted := 90;
  st_relay_scheduled := 20;
  st_relay_delivery_and_importer_ack :=
    match k with
    | EarthToMoonSuccess => 60
    | EarthToMoonRelayRestart => 120
    | EarthToMarsDelay => 150
    | EarthToMarsBlackout => 180
    | EarthToMoonGovernanceActivation => 60
    end;
  st_destination_remote_observed := 30;
  st_completion_exporter_certified_and_submitted := 90;
  st_completion_relay_scheduled := 20;
  st_completion_relay_delivery_and_importer_ack := 90;
  st_source_remote_finalized := 60
|}.

Definition SERVICE_READINESS_TIMEOUT_SECS : Z := 20.
Definition POLL_INTERVAL_MILLIS : Z := 1000.
Definition nanos_per_second : Z := 1000000000.

(** ** Data *)

Record BinaryPaths : Type := mkBinaryPaths {
  bp_ialp_node : bytes;
  bp_exporter : bytes;
  bp_relay : bytes;
  bp_importer : bytes
}.

Record ArtifactLayout : Type := mkArtifactLayout {
  al_root : bytes;
  al_configs_dir : bytes;
  al_chains_dir : bytes;
  al_stores_dir : bytes;
  al_logs_dir : bytes
}.
Definition artifact_layout (root : bytes) : ArtifactLayout :=
  mkArtifactLayout root (join root (str_bytes "configs")) (join root (str_bytes "chains"))
    (join root (str_bytes "stores")) (join root (str_bytes "logs")).

Record NodePorts : Type := mkNodePorts { np_rpc_port : Z; np_p2p_port : Z; np_prometheus_port : Z }.

Record DomainRunConfig : Type := mkDomainRunConfig {
  dr_domain : DomainId;
  dr_config_path : bytes;
  dr_rpc_port : Z;
  dr_p2p_port : Z;
  dr_prometheus_port : Z;
  dr_base_path : bytes
}.
Definition rpc_socket_addr (c : DomainRunConfig) : bytes := str_bytes "127.0.0.1:" ++ decimal (dr_rpc_port c).
Definition rpc_url (c : DomainRunConfig) : bytes := str_bytes "ws://127.0.0.1:" ++ decimal (dr_rpc_port c).

Record ServicePorts : Type := mkServicePorts { sp_relay_port : Z; sp_importer_ports : DomainId -> Z }.

Record TransferOutcome : Type := mkTransferOutcome {
  to_extrinsic_hash : hash;
  to_export_id : hash;
  to_source_epoch_id : Z;
  to_recipient : bytes;
  to_amount : Z
}.
Record GovernanceProposalOutcome : Type := mkGovernanceProposalOutcome {
  go_proposal_id : hash;
  go_approval_epoch : Z;
  go_activation_epoch : Z
}.
Record IncludedExtrinsic : Type := mkIncludedExtrinsic { ie_block_number : Z; ie_block_hash : hash }.
Record RuntimeMetadata : Type := mkRuntimeMetadata {
  rm_spec_version : Z;
  rm_transaction_version : Z;
  rm_genesis_hash : hash
}.

(** [RuntimeHoldReason], of which only the transfers pallet's matters here. *)
Inductive RuntimeHoldReason : Type := TransfersHold | OtherHold (index : Z).
#[export] Instance RuntimeHoldReason_eq_dec : EqDecision RuntimeHoldReason.
Proof. solve_decision. Defined.
Record IdAmount : Type := mkIdAmount { ia_id : RuntimeHoldReason; ia_amount : Z }.
(** What is read of [frame_system::AccountInfo]. *)
Record AccountInfo : Type := mkAccountInfo { ai_nonce : Z; ai_free : Z }.

Record DestinationObservationEvidence : Type := mkDestinationObservationEvidence {
  de_export_id : bytes;
  de_source_domain : DomainId;
  de_target_domain : DomainId;
  de_source_epoch_id : Z;
  de_amount : Z;
  de_recipient : bytes;
  de_summary_hash : bytes;
  de_package_hash : bytes;
  de_observed_at_local_block_height : Z;
  de_observer_account : bytes;
  de_finalized_at_local_block_height : option Z;
  de_finalizer_account : option bytes;
  de_recipient_free_balance : bytes;
  de_status : ImportObservationStatus
}.

Record StageResult : Type := mkStageResult {
  sr_stage : string;
  sr_success : bool;
  sr_timed_out : bool;
  sr_duration_ms : Z;
  sr_timeout_seconds : option Z
}.

Inductive HarnessError : Type :=
| Outside (t : Text)
| ConfigNotLoaded (e : LoadError)
| ConfigInvalid (e : ConfigError)
| StoreUnreadable
| HexUndecodable
| NumberUndecodable
| ValueUndecodable
| Missing (what : string)
| SeedInvalid (seed : bytes)
| BinaryNotFound (path : bytes)
| BootnodeUnparsable
| ExtrinsicHashDiffers
| StageFailed (stage : string) (e : HarnessError)
| StageTimedOut (stage : string) (seconds : Z)
| AssertionFailed (stage : string)
| ScenariosFailed (failures : list ScenarioKind)
| Panicked (what : string)
| OutOfFuel.

Record ScenarioSummary : Type := mkScenarioSummary {
  ss_scenario : ScenarioKind;
  ss_success : bool;
  ss_started_at_unix_ms : Z;
  ss_ended_at_unix_ms : option Z;
  ss_failed_stage : option string;
  ss_failure_message : option HarnessError;
  ss_source_domain : DomainId;
  ss_target_domain : DomainId;
  ss_source_epoch_id : option Z;
  ss_extrinsic_hash : option bytes;
  ss_export_ids : list bytes;
  ss_proposal_id : option bytes;
  ss_activation_epoch : option Z;
  ss_summary_hash : option bytes;
  ss_package_hash : option bytes;
  ss_completion_package_hash : option bytes;
  ss_final_relay_state : option string;
  ss_final_importer_package_state : option ImporterPackageState;
  ss_destination_observation : option DestinationObservationEvidence;
  ss_source_protocol_version_before : option Z;
  ss_target_protocol_version_before : option Z;
  ss_source_protocol_version_after : option Z;
  ss_target_protocol_version_after : option Z;
  ss_stage_results : list StageResult
}.
#[export] Instance ScenarioSummary_settable : Settable ScenarioSummary :=
  fun r => mkScenarioSummary (ss_scenario r) (ss_success r) (ss_started_at_unix_ms r) (ss_ended_at_unix_ms r)
    (ss_failed_stage r) (ss_failure_message r) (ss_source_domain r) (ss_target_domain r) (ss_source_epoch_id r)
    (ss_extrinsic_hash r) (ss_export_ids r) (ss_proposal_id r) (ss_activation_epoch r) (ss_summary_hash r)
    (ss_package_hash r) (ss_completion_package_hash r) (ss_final_relay_state r)
    (ss_final_importer_package_state r) (ss_destination_observation r) (ss_source_protocol_version_before r)
    (ss_target_protocol_version_before r) (ss_source_protocol_version_after r)
    (ss_target_protocol_version_after r) (ss_stage_results r).

(** The runner and the world around it.  [rn_children]: the processes started
    under each name, and whether they still run.  [rn_close_submitted] is the flag
    that the polls of [originate_governance_proposal] share. *)
Record Runner (N : Type) : Type := mkRunner {
  rn_scenario : ScenarioKind;
  rn_binaries : BinaryPaths;
  rn_layout : ArtifactLayout;
  rn_children : gmap bytes bool;
  rn_summary : ScenarioSummary;
  rn_node_configs : gmap DomainId DomainRunConfig;
  rn_source_follower : option DomainRunConfig;
  rn_transport_config_path : option bytes;
  rn_transport_config : option TransportConfig;
  rn_close_submitted : bool;
  rn_world : N
}.
Arguments mkRunner {N}.
Arguments rn_scenario {N}.
Arguments rn_binaries {N}.
Arguments rn_layout {N}.
Arguments rn_children {N}.
Arguments rn_summary {N}.
Arguments rn_node_configs {N}.
Arguments rn_source_follower {N}.
Arguments rn_transport_config_path {N}.
Arguments rn_transport_config {N}.
Arguments rn_close_submitted {N}.
Arguments rn_world {N}.
#[export] Instance Runner_settable {N} : Settable (Runner N) :=
  fun r => mkRunner (rn_scenario r) (rn_binaries r) (rn_layout r) (rn_children r) (rn_summary r) (rn_node_configs r)
    (rn_source_follower r) (rn_transport_config_path r) (rn_transport_config r)
    (rn_close_submitted r) (rn_world r).

Definition HarnessM (N : Type) : Type -> Type := M (Runner N) HarnessError.

(** ** The environment *)

(** Values in the storage of a node that only the harness reads, and the encoding
    of an extrinsic. *)
Class HarnessCodec `{!Account, !Keys} := {
  hashes_decode : bytes -> option (list hash);
  holds_decode : bytes -> option (list IdAmount);
  account_info_decode : bytes -> option AccountInfo;
  u32_decode : bytes -> option Z;
  extrinsic_encode : SignedExtrinsic -> bytes
}.

(** Clocks in nanoseconds and milliseconds, processes, files, the stores of the
    services as found at their paths, and the RPC methods of the node at a URL. *)
Class HarnessEnv `{!Account} (N : Type) := {
  instant_now : N -> N * Z;
  unix_now_millis : N -> N * result Text Z;
  utc_now : N -> N * Z;
  sleep_millis : Z -> N -> N;
  prepare_binaries : BinaryPaths -> N -> N * result Text unit;
  path_exists : bytes -> N -> N * bool;
  create_dir_all : bytes -> N -> N * result Text unit;
  read_file : bytes -> N -> N * result Text bytes;
  write_file : bytes -> bytes -> N -> N * result Text unit;
  write_summary : bytes -> ScenarioSummary -> N -> N * result Text unit;
  spawn_process : bytes -> bytes -> list bytes -> bytes -> N -> N * result Text unit;
  kill_process : bytes -> N -> N;
  reserve_port : N -> N * result Text Z;
  tcp_ready : bytes -> N -> N * bool;
  exporter_store : bytes -> N -> N * result Text (Exporter unit);
  relay_store : bytes -> N -> N * result Text Relay;
  relay_payload : PackagePath -> N -> N * option bytes;
  relay_entry_exists : PackagePath -> N -> N * bool;
  importer_store : bytes -> N -> N * result Text (Importer unit);
  post_body : bytes -> bytes -> N -> N * result Text Z;
  rpc_connect : bytes -> N -> N * result Text unit;
  chain_getFinalizedHead : bytes -> N -> N * result Text bytes;
  chain_getHeader : bytes -> bytes -> N -> N * result Text (option bytes);
  chain_getBlockHash : bytes -> Z -> N -> N * result Text (option bytes);
  chain_getBlock : bytes -> bytes -> N -> N * result Text (option (list bytes));
  state_getRuntimeVersion : bytes -> N -> N * result Text RuntimeVersionView;
  state_getStorage : bytes -> bytes -> N -> N * result Text (option bytes);
  system_accountNextIndex : bytes -> AccountId -> N -> N * result Text Z;
  author_submitExtrinsic : bytes -> bytes -> N -> N * result Text bytes;
  system_localPeerId : bytes -> N -> N * result Text bytes;
  system_localListenAddresses : bytes -> N -> N * result Text (list bytes)
}.

(** ** Texts *)

(** [from_str_radix] of an unsigned type with maximum [max]. *)
Definition digit_value (radix b : Z) : option Z :=
  let v := if (48 <=? b) && (b <=? 57) then b - 48
           else if (97 <=? b) && (b <=? 122) then b - 87
           else if (65 <=? b) && (b <=? 90) then b - 55
           else radix in
  if v <? radix then Some v else None.
Fixpoint parse_digits (radix max acc : Z) (s : bytes) : option Z :=
  match s with
  | [] => Some acc
  | b :: s =>
    d ← digit_value radix b;
    let acc := acc * radix + d in
    if acc <=? max then parse_digits radix max acc s else None
  end.
Definition from_str_radix (radix max : Z) (s : bytes) : option Z :=
  let digits := match s with 43 :: rest => rest | _ => s end in
  match digits with [] => None | _ => parse_digits radix max 0 digits end.

(** What follows the last colon: [rsplit_once(':')]. *)
Fixpoint after_last_colon (s : bytes) : option bytes :=
  match s with
  | [] => None
  | b :: s =>
    match after_last_colon s with
    | Some port => Some port
    | None => if b =? 58 then Some s else None
    end
  end.

Definition port_from_listen_addr (addr : bytes) : result HarnessError Z :=
  let?? port := after_last_colon addr else NumberUndecodable in
  let?? port := from_str_radix 10 u16_max port else NumberUndecodable in
  Ok port.

Definition starts_with (needle s : bytes) : bool := bool_decide (take (length needle) s = needle).
Fixpoint contains (needle s : bytes) : bool :=
  starts_with needle s || match s with [] => false | _ :: s => contains needle s end.
(** [str::replace] of a non-empty text; as much fuel as the text is long. *)
Fixpoint replace (fuel : nat) (from to s : bytes) : bytes :=
  match fuel, s with
  | O, _ | _, [] => s
  | S fuel, b :: rest =>
    if starts_with from s then to ++ replace fuel from to (drop (length from) s)
    else b :: replace fuel from to rest
  end.

Definition seed_flag (seed : bytes) : result HarnessError bytes :=
  if bool_decide (seed = str_bytes "//Alice") then Ok (str_bytes "--alice")
  else if bool_decide (seed = str_bytes "//Bob") then Ok (str_bytes "--bob")
  else if bool_decide (seed = str_bytes "//Charlie") then Ok (str_bytes "--charlie")
  else if bool_decide (seed = str_bytes "//Dave") then Ok (str_bytes "--dave")
  else Err (Panicked "unsupported dev seed flag").

Definition binary_name (name : string) : bytes := str_bytes name.

Section Texts.
Context `{!HexCodec} {Multiaddr : Type} (multiaddr_from_str : bytes -> option Multiaddr).

Definition decode_hex_bytes (value : bytes) : result HarnessError bytes :=
  let?? bs := hex_decode (strip_0x value) else HexUndecodable in Ok bs.
(** [H256::from_slice] panics on another length. *)
Definition parse_h256 (value : bytes) : result HarnessError hash :=
  let? bs := decode_hex_bytes value in
  ensure! (length bs =? 32)%nat else Panicked "H256::from_slice" in
  Ok bs.
Definition parse_hex_u32 (value : bytes) : result HarnessError Z :=
  let?? n := from_str_radix 16 u32_max (strip_0x value) else NumberUndecodable in Ok n.

Definition canonical_bootnode (peer_id : bytes) (addresses : list bytes) : result HarnessError bytes :=
  let find_ip ip := find (contains (str_bytes ip)) addresses in
  let?? address := match find_ip "/ip4/127.0.0.1/tcp/" with
    | Some address => Some address
    | None => match find_ip "/ip4/0.0.0.0/tcp/" with Some address => Some address | None => head addresses end
    end else Missing "authority reported no local listen addresses" in
  let candidate := replace (length address) (str_bytes "/ip4/0.0.0.0/") (str_bytes "/ip4/127.0.0.1/") address in
  let candidate := if contains (str_bytes "/p2p/") candidate then candidate
                   else candidate ++ str_bytes "/p2p/" ++ peer_id in
  ensure! bool_decide (is_Some (multiaddr_from_str candidate)) else BootnodeUnparsable in
  Ok candidate.
End Texts.

(** ** Configurations of a scenario *)

(** The link of the scenario gets its delay and its blackout; no other link has
    blackouts.  [now] in nanoseconds. *)
Definition scenario_link (k : ScenarioKind) (now : Z) (link : LinkProfileConfig) : LinkProfileConfig :=
  let set delay windows :=
    mkLinkProfileConfig (lk_source_domain link) (lk_target_domain link) delay
      (lk_initial_retry_delay_seconds link) (lk_max_retry_delay_seconds link) (lk_max_attempts link) windows in
  if bool_decide (lk_source_domain link = source_domain k) && bool_decide (lk_target_domain link = target_domain k) then
    set (link_delay_seconds k)
      match blackout_window_seconds k with
      | Some window_secs =>
        let start := now + default 0 (blackout_start_offset_seconds k) * nanos_per_second in
        [mkBlackoutWindowConfig start (start + window_secs * nanos_per_second)]
      | None => []
      end
  else set (lk_base_one_way_delay_seconds link) [].

Definition local_addr (port : Z) : bytes := str_bytes "127.0.0.1:" ++ decimal port.

(** The body of [build_transport_config_with_ports] after the base is loaded. *)
Definition scenario_transport (k : ScenarioKind) (layout : ArtifactLayout) (now : Z) (ports : ServicePorts)
    (base : TransportConfig) : result ConfigError TransportConfig :=
  let relay := tc_relay base in
  let importer d := mkImporterTransportConfig (local_addr (sp_importer_ports ports d)) in
  let config := mkTransportConfig
    (mkRelayTransportConfig (local_addr (sp_relay_port ports)) (join (al_stores_dir layout) (str_bytes "relay"))
       (rt_scheduler_tick_millis relay) (rt_ack_poll_millis relay))
    (<[Mars := importer Mars]> (<[Moon := importer Moon]> (<[Earth := importer Earth]> (tc_importers base))))
    (map (scenario_link k now) (tc_links base)) in
  let? _ := validate_transport_config config in
  Ok config.

(** The change of [write_domain_config] to the base configuration. *)
Definition scenario_domain_config (ports : NodePorts) (config : DomainConfig) : DomainConfig :=
  mkDomainConfig (dc_domain_id config) (dc_chain_name config) (dc_chain_id config) Live (dc_token config)
    (mkNetworkConfig (np_p2p_port ports) (np_rpc_port ports) (np_prometheus_port ports)
       (net_bootnodes (dc_network config)))
    (mkEpochConfig 24) (dc_authorities config) (dc_bootstrap config).

(** ** Stages *)

Inductive StagePoll (T : Type) : Type := PollReady (value : T) | PollPending.
Arguments PollReady {T}.
Arguments PollPending {T}.

(** [StagePoll::ready] when there is a value, [StagePoll::pending] otherwise. *)
Definition poll_when {N T} (o : option T) : HarnessM N (StagePoll T) :=
  ret match o with Some v => PollReady v | None => PollPending end.

(** A panic is not caught by [Err]. *)
Definition is_panic (e : HarnessError) : bool := match e with Panicked _ => true | _ => false end.

Section Stages.
Context `{!Account} {N : Type} `{!HarnessEnv N}.

Definition call {A} (f : N -> N * result Text A) : HarnessM N A :=
  fun s => let '(n, res) := f (rn_world s) in
    (s {{ rn_world := n }}, match res with Ok a => Ok a | Err t => Err (Outside t) end).
Definition ask {A} (f : N -> N * A) : HarnessM N A :=
  fun s => let '(n, a) := f (rn_world s) in (s {{ rn_world := n }}, Ok a).
Definition act (f : N -> N) : HarnessM N unit := fun s => (s {{ rn_world := f (rn_world s) }}, Ok tt).
Definition require {A} (o : option A) (what : string) : HarnessM N A :=
  match o with Some a => ret a | None => fail (Missing what) end.
Definition note (f : ScenarioSummary -> ScenarioSummary) : HarnessM N unit :=
  modify (fun s => s {{ rn_summary ::= f }}).

Definition elapsed (start : Z) : HarnessM N Z :=
  do! now := ask instant_now in ret (now - start).
Definition elapsed_millis (start : Z) : HarnessM N Z :=
  do! d := elapsed start in ret (Z.min (d / 1000000) u64_max).

Definition record_stage_success_with_duration (stage_name : string) (duration_ms : Z) : HarnessM N unit :=
  note (fun summary => summary {{ ss_stage_results ::= fun l =>
    l ++ [mkStageResult stage_name true false duration_ms None] }}).
Definition record_stage_success (stage_name : string) : HarnessM N unit :=
  record_stage_success_with_duration stage_name 0.

Definition record_stage_failure (stage_name : string) (timed_out : bool) (duration_ms : Z) (timeout_seconds : option Z)
    : HarnessM N unit :=
  note (fun summary => summary
    {{ ss_failed_stage ::= fun failed => match failed with Some stage => Some stage | None => Some stage_name end }}
    {{ ss_stage_results ::= fun l => l ++ [mkStageResult stage_name false timed_out duration_ms timeout_seconds] }}).

Fixpoint stage_loop {T} (fuel : nat) (stage_name : string) (timeout start : Z) (poll : HarnessM N (StagePoll T))
    : HarnessM N T :=
  match fuel with
  | O => fail OutOfFuel
  | S fuel =>
    do! answer := try poll in
    match answer with
    | Ok (PollReady value) =>
      do! duration_ms := elapsed_millis start in
      do! _ := record_stage_success_with_duration stage_name duration_ms in
      ret value
    | Err error =>
      if is_panic error then fail error else
      do! duration_ms := elapsed_millis start in
      do! _ := record_stage_failure stage_name false duration_ms None in
      fail (StageFailed stage_name error)
    | Ok PollPending =>
      do! d := elapsed start in
      if timeout * nanos_per_second <=? d then
        do! duration_ms := elapsed_millis start in
        do! _ := record_stage_failure stage_name true duration_ms (Some timeout) in
        fail (StageTimedOut stage_name timeout)
      else
        do! _ := act (sleep_millis POLL_INTERVAL_MILLIS) in
        stage_loop fuel stage_name timeout start poll
    end
  end.

(** At most one poll per second of the timeout, and one more. *)
Definition wait_for_stage {T} (stage_name : string) (timeout : Z) (poll : HarnessM N (StagePoll T)) : HarnessM N T :=
  do! start := ask instant_now in
  stage_loop (S (Z.to_nat timeout)) stage_name timeout start poll.

(** The assertions outside of a stage. *)
Definition assert_stage (stage_name : string) (holds : bool) : HarnessM N unit :=
  if holds then record_stage_success stage_name
  else do! _ := record_stage_failure stage_name false 0 None in fail (AssertionFailed stage_name).

(** *** Processes *)
Definition spawn (name binary : bytes) (args : list bytes) (log_path : bytes) : HarnessM N unit :=
  do! _ := call (spawn_process name binary args log_path) in
  modify (fun s => s {{ rn_children ::= <[name := true]> }}).
Definition stop (name : bytes) : HarnessM N unit :=
  do! running := gets (fun s => rn_children s !! name) in
  match running with
  | Some true =>
    do! _ := act (kill_process name) in
    modify (fun s => s {{ rn_children ::= <[name := false]> }})
  | _ => ret tt
  end.
Fixpoint stop_each (names : list bytes) : HarnessM N unit :=
  match names with [] => ret tt | name :: names => do! _ := stop name in stop_each names end.
Definition shutdown_all : HarnessM N unit :=
  do! names := gets (fun s => sort_by bytes_cmp (map fst (map_to_list (rn_children s)))) in
  stop_each names.
End Stages.

(** ** The RPC client

    The client of a connection is the URL it is connected to. *)
Section Client.
Context `{!Codec, !HexCodec, !Account, !StorageCodec, !Keys, !HarnessCodec} {N : Type} `{!HarnessEnv N}.

Definition connect (url : bytes) : HarnessM N bytes := do! _ := call (rpc_connect url) in ret url.

Definition finalized_head_hash (rpc : bytes) : HarnessM N hash :=
  do! text := call (chain_getFinalizedHead rpc) in lift (parse_h256 text).
Definition header_number (rpc : bytes) (h : hash) : HarnessM N Z :=
  do! header := call (chain_getHeader rpc (hex_hash h)) in
  do! number := require header "header missing" in
  lift (parse_hex_u32 number).
Definition finalized_number (rpc : bytes) : HarnessM N Z :=
  do! h := finalized_head_hash rpc in header_number rpc h.
Definition finalized_view (rpc : bytes) : HarnessM N (Z * bytes) :=
  do! h := finalized_head_hash rpc in
  do! number := header_number rpc h in
  ret (number, hex_hash h).
Definition block_hash (rpc : bytes) (number : Z) : HarnessM N (option hash) :=
  do! text := call (chain_getBlockHash rpc number) in
  match text with None => ret None | Some text => do! h := lift (parse_h256 text) in ret (Some h) end.
Definition block (rpc : bytes) (h : hash) : HarnessM N (option (list bytes)) := call (chain_getBlock rpc (hex_hash h)).
Definition runtime_metadata (rpc : bytes) : HarnessM N RuntimeMetadata :=
  do! version := call (state_getRuntimeVersion rpc) in
  do! genesis := block_hash rpc 0 in
  do! genesis_hash := require genesis "missing genesis block hash" in
  ret (mkRuntimeMetadata (rv_spec_version version) (rv_transaction_version version) genesis_hash).
Definition account_next_index (rpc : bytes) (account : AccountId) : HarnessM N Z :=
  call (system_accountNextIndex rpc account).
Definition submit_extrinsic (rpc : bytes) (extrinsic : bytes) : HarnessM N hash :=
  do! text := call (author_submitExtrinsic rpc (hex_hash extrinsic)) in lift (parse_h256 text).

Definition load_storage_value {T} (decode : bytes -> option T) (rpc key : bytes) : HarnessM N (option T) :=
  do! response := call (state_getStorage rpc (hex_hash key)) in
  match response with
  | None => ret None
  | Some value =>
    do! raw := lift (decode_hex_bytes value) in
    match decode raw with Some v => ret (Some v) | None => fail ValueUndecodable end
  end.

Definition current_epoch (rpc : bytes) : HarnessM N (option Z) :=
  load_storage_value scale_decode rpc (storage_value_key (str_bytes "Epochs") (str_bytes "CurrentEpoch")).
Definition summary_header (rpc : bytes) (epoch_id : Z) : HarnessM N (option EpochSummaryHeader) :=
  load_storage_value scale_decode rpc (summary_header_storage_key epoch_id).
Definition export_record (rpc : bytes) (export_id : hash) : HarnessM N (option ExportRecord) :=
  load_storage_value scale_decode rpc (export_record_storage_key export_id).
Definition epoch_export_ids (rpc : bytes) (epoch_id : Z) : HarnessM N (option (list hash)) :=
  load_storage_value hashes_decode rpc (epoch_export_ids_storage_key epoch_id).
Definition observed_import (rpc : bytes) (export_id : hash) : HarnessM N (option ObservedImportRecord) :=
  load_storage_value scale_decode rpc (observed_import_storage_key export_id).
Definition governance_protocol_version (rpc : bytes) : HarnessM N (option Z) :=
  load_storage_value u32_decode rpc governance_protocol_version_storage_key.
Definition governance_proposal (rpc : bytes) (proposal_id : hash) : HarnessM N (option GovernanceProposal) :=
  load_storage_value scale_decode rpc (governance_proposal_storage_key proposal_id).
Definition governance_ack_record (rpc : bytes) (proposal_id : hash) (acknowledging_domain : DomainId)
    : HarnessM N (option GovernanceAckRecord) :=
  load_storage_value scale_decode rpc (governance_ack_record_storage_key proposal_id acknowledging_domain).
Definition balance_holds (rpc : bytes) (account : AccountId) : HarnessM N (option (list IdAmount)) :=
  load_storage_value holds_decode rpc
    (storage_map_key (str_bytes "Balances") (str_bytes "Holds") (scale_encode account)).
Definition free_balance (rpc : bytes) (account : AccountId) : HarnessM N (option Z) :=
  do! info := load_storage_value account_info_decode rpc
    (storage_map_key (str_bytes "System") (str_bytes "Account") (scale_encode account)) in
  ret (ai_free <$> info).

(** The search of [find_finalized_extrinsic] in the blocks [numbers]. *)
Fixpoint find_in_blocks (rpc : bytes) (extrinsic_hash : hash) (numbers : list Z) : HarnessM N (option IncludedExtrinsic) :=
  match numbers with
  | [] => ret None
  | number :: numbers =>
    do! h := block_hash rpc number in
    match h with
    | None => find_in_blocks rpc extrinsic_hash numbers
    | Some h =>
      do! extrinsics := block rpc h in
      match extrinsics with
      | None => find_in_blocks rpc extrinsic_hash numbers
      | Some extrinsics =>
        if existsb (fun encoded =>
             match decode_hex_bytes encoded with
             | Ok raw => bool_decide (blake2_256 raw = extrinsic_hash)
             | Err _ => false
             end) extrinsics
        then ret (Some (mkIncludedExtrinsic number h))
        else find_in_blocks rpc extrinsic_hash numbers
      end
    end
  end.
Definition find_finalized_extrinsic (rpc : bytes) (extrinsic_hash : hash) (extrinsic : bytes)
    : HarnessM N (option IncludedExtrinsic) :=
  do! finalized := finalized_number rpc in
  check! bool_decide (blake2_256 extrinsic = extrinsic_hash) else ExtrinsicHashDiffers in
  find_in_blocks rpc extrinsic_hash (seqZ 1 finalized).

(** *** Keys *)
Definition pair_of_seed (seed : bytes) : HarnessM N Pair :=
  match pair_from_string seed with Some keypair => ret keypair | None => fail (SeedInvalid seed) end.
Definition account_id_from_seed (seed : bytes) : HarnessM N AccountId :=
  do! keypair := pair_of_seed seed in ret (pair_account keypair).
(** The bytes of the public key, which are those of its account. *)
Definition account_id_bytes_from_seed (seed : bytes) : HarnessM N bytes :=
  do! account := account_id_from_seed seed in ret (account_to_bytes account).

(** A call of [keypair], signed and encoded. *)
Definition signed_call (keypair : Pair) (runtime : RuntimeMetadata) (nonce : Z) (c : RuntimeCall) : bytes :=
  extrinsic_encode (build_signed_extrinsic keypair (pair_account keypair) (rm_spec_version runtime)
    (rm_transaction_version runtime) (rm_genesis_hash runtime) nonce c).
Definition build_transfer_extrinsic keypair runtime nonce (target : DomainId) (recipient : bytes) (amount : Z) : bytes :=
  signed_call keypair runtime nonce (CreateCrossDomainTransfer target recipient amount).
Definition build_governance_create_proposal_extrinsic keypair runtime nonce (targets : list DomainId) (version : Z) : bytes :=
  signed_call keypair runtime nonce (CreateProposal targets version).
Definition build_governance_cast_vote_extrinsic keypair runtime nonce (proposal_id : hash) (choice : GovernanceVoteChoice) : bytes :=
  signed_call keypair runtime nonce (CastVote proposal_id choice).
Definition build_governance_close_proposal_extrinsic keypair runtime nonce (proposal_id : hash) : bytes :=
  signed_call keypair runtime nonce (CloseProposal proposal_id).
End Client.

(** ** The runner *)
Section Run.
Context `{!Codec, !HexCodec, !Account, !StorageCodec, !Keys, !HarnessCodec, !Toml} {N : Type} `{!HarnessEnv N}.
Context {Multiaddr : Type} (multiaddr_from_str : bytes -> option Multiaddr) (has_p2p : Multiaddr -> bool).
Context (workspace_root : bytes).

(** *** Reading what the runner knows *)
Definition scenario : HarnessM N ScenarioKind := gets rn_scenario.
Definition layout : HarnessM N ArtifactLayout := gets rn_layout.
(** [self.node_configs[&domain]]. *)
Definition node_config (domain : DomainId) : HarnessM N DomainRunConfig :=
  do! config := gets (fun s => rn_node_configs s !! domain) in
  match config with Some config => ret config | None => fail (Panicked "node_configs") end.
Definition node_url (domain : DomainId) : HarnessM N bytes := do! config := node_config domain in ret (rpc_url config).
Definition connect_domain (domain : DomainId) : HarnessM N bytes := do! url := node_url domain in connect url.

Definition read_config (path : bytes) : M (Runner N) LoadError bytes :=
  fun s => let '(n, res) := read_file path (rn_world s) in
    (s {{ rn_world := n }}, match res with Ok contents => Ok contents | Err _ => Err (ReadFailed path) end).
Definition load_domain (domain : DomainId) (path : bytes) : HarnessM N DomainConfig :=
  do! loaded := map_err ConfigNotLoaded (load_domain_config multiaddr_from_str has_p2p read_config domain (Some path)) in
  ret (ld_config loaded).
Definition load_transport (path : bytes) : HarnessM N TransportConfig :=
  do! loaded := map_err ConfigNotLoaded (load_transport_config read_config (Some path)) in
  ret (lt_config loaded).

(** The indexes of the services' stores, as saved. *)
Definition exporter_index (domain : DomainId) : HarnessM N ExporterIndex :=
  do! l := layout in
  do! store := call (exporter_store (join (join (al_stores_dir l) (str_bytes "exporter")) (domain_text domain))) in
  match snd (Exporter.load_index domain store) with Ok index => ret index | Err _ => fail StoreUnreadable end.
Definition relay_index : HarnessM N RelayIndex :=
  do! l := layout in
  do! store := call (relay_store (join (al_stores_dir l) (str_bytes "relay"))) in
  match Relay.load_index store with Ok index => ret index | Err _ => fail StoreUnreadable end.
Definition importer_index (domain : DomainId) : HarnessM N ImporterIndex :=
  do! l := layout in
  do! store := call (importer_store (join (join (al_stores_dir l) (str_bytes "importer")) (domain_text domain))) in
  match snd (Importer.load_index domain store) with Ok index => ret index | Err _ => fail StoreUnreadable end.

(** *** Domains *)
Definition reserve_node_ports : HarnessM N NodePorts :=
  do! rpc_port := call reserve_port in
  do! p2p_port := call reserve_port in
  do! prometheus_port := call reserve_port in
  ret (mkNodePorts rpc_port p2p_port prometheus_port).
Fixpoint allocate_node_ports (names : list bytes) : HarnessM N (gmap bytes NodePorts) :=
  match names with
  | [] => ret ∅
  | name :: names =>
    do! ports := reserve_node_ports in
    do! rest := allocate_node_ports names in
    ret (<[name := ports]> rest)
  end.
Definition node_names (with_follower : bool) : list bytes :=
  [str_bytes "earth-authority"] ++ (if with_follower then [str_bytes "earth-follower"] else [])
  ++ [str_bytes "moon-authority"; str_bytes "mars-authority"].
Definition authority_name (domain : DomainId) : bytes := domain_text domain ++ str_bytes "-authority".

Definition write_domain_config (domain : DomainId) (ports : NodePorts) : HarnessM N DomainRunConfig :=
  do! l := layout in
  let file := domain_text domain ++ str_bytes ".toml" in
  do! base := load_domain domain (join (join (join workspace_root (str_bytes "config")) (str_bytes "domains")) file) in
  let config := scenario_domain_config ports base in
  let domain_dir := join (al_configs_dir l) (str_bytes "domains") in
  do! _ := call (create_dir_all domain_dir) in
  let config_path := join domain_dir file in
  do! _ := call (write_file config_path (domain_to_toml config)) in
  let base_path := join (al_chains_dir l) (authority_name domain) in
  do! _ := call (create_dir_all base_path) in
  ret {| dr_domain := domain; dr_config_path := config_path; dr_rpc_port := np_rpc_port ports;
         dr_p2p_port := np_p2p_port ports; dr_prometheus_port := np_prometheus_port ports; dr_base_path := base_path |}.

Definition add_domain (domain : DomainId) (reservations : gmap bytes NodePorts) : HarnessM N unit :=
  do! ports := require (reservations !! authority_name domain) "missing port allocation" in
  do! config := write_domain_config domain ports in
  modify (fun s => s {{ rn_node_configs ::= <[domain := config]> }}).

Definition prepare_domain_configs : HarnessM N unit :=
  do! k := scenario in
  do! l := layout in
  do! reservations := allocate_node_ports (node_names (has_source_follower k)) in
  do! _ := add_domain (source_domain k) reservations in
  do! _ := add_domain (target_domain k) reservations in
  if has_source_follower k then
    do! ports := require (reservations !! str_bytes "earth-follower") "missing earth-follower port allocation" in
    let follower_dir := join (al_chains_dir l) (str_bytes "earth-follower") in
    do! _ := call (create_dir_all follower_dir) in
    do! earth := node_config Earth in
    modify (fun s => s {{ rn_source_follower := Some {|
      dr_domain := Earth; dr_config_path := dr_config_path earth; dr_rpc_port := np_rpc_port ports;
      dr_p2p_port := np_p2p_port ports; dr_prometheus_port := np_prometheus_port ports;
      dr_base_path := follower_dir |} }})
  else ret tt.

Definition start_authority_process (process_name : bytes) (config : DomainRunConfig) (dev_seed : bytes) : HarnessM N unit :=
  do! flag := lift (seed_flag dev_seed) in
  do! node := gets (fun s => bp_ialp_node (rn_binaries s)) in
  do! l := layout in
  spawn process_name node
    [str_bytes "--domain"; domain_text (dr_domain config); str_bytes "--config"; dr_config_path config;
     str_bytes "--base-path"; dr_base_path config; str_bytes "--name"; process_name; str_bytes "--validator";
     str_bytes "--force-authoring"; str_bytes "--unsafe-force-node-key-generation";
     str_bytes "--rpc-port"; decimal (dr_rpc_port config); str_bytes "--port"; decimal (dr_p2p_port config);
     str_bytes "--prometheus-port"; decimal (dr_prometheus_port config); flag]
    (join (al_logs_dir l) (process_name ++ str_bytes ".log")).

Definition start_authority_nodes : HarnessM N unit :=
  do! k := scenario in
  do! earth := gets (fun s => rn_node_configs s !! Earth) in
  do! earth := require earth "earth config missing" in
  do! _ := start_authority_process (str_bytes "earth-authority") earth (str_bytes "//Alice") in
  do! target := gets (fun s => rn_node_configs s !! target_domain k) in
  do! target := require target "target config missing" in
  let seed := match target_domain k with Moon => "//Bob" | Mars => "//Charlie" | Earth => "//Alice" end%string in
  start_authority_process (authority_name (target_domain k)) target (str_bytes seed).

Definition wait_for_node_readiness : HarnessM N unit :=
  do! k := scenario in
  do! earth := node_config Earth in
  do! target := node_config (target_domain k) in
  wait_for_stage "node_readiness" (st_node_readiness (stage_timeouts k)) (
    do! earth_ready := ask (tcp_ready (rpc_socket_addr earth)) in
    do! target_ready := ask (tcp_ready (rpc_socket_addr target)) in
    poll_when (if earth_ready && target_ready then Some tt else None)).

Definition wait_for_chain_finality : HarnessM N unit :=
  do! k := scenario in
  do! earth_url := node_url Earth in
  do! target_url := node_url (target_domain k) in
  wait_for_stage "chain_finality_ready" (st_chain_finality_ready (stage_timeouts k)) (
    do! earth_rpc := connect earth_url in
    do! earth_finalized := finalized_number earth_rpc in
    do! target_rpc := connect target_url in
    do! target_finalized := finalized_number target_rpc in
    poll_when (if (2 <=? earth_finalized) && (2 <=? target_finalized) then Some tt else None)).

(** *** The follower *)
Definition start_source_follower : HarnessM N unit :=
  do! authority_rpc := connect_domain Earth in
  do! peer_id := call (system_localPeerId authority_rpc) in
  do! addresses := call (system_localListenAddresses authority_rpc) in
  do! bootnode := lift (canonical_bootnode multiaddr_from_str peer_id addresses) in
  do! follower := gets rn_source_follower in
  do! follower := require follower "source follower config missing" in
  do! earth := node_config Earth in
  do! node := gets (fun s => bp_ialp_node (rn_binaries s)) in
  do! l := layout in
  spawn (str_bytes "earth-follower") node
    [str_bytes "--domain"; str_bytes "earth"; str_bytes "--config"; dr_config_path earth;
     str_bytes "--base-path"; dr_base_path follower; str_bytes "--name"; str_bytes "earth-follower";
     str_bytes "--unsafe-force-node-key-generation";
     str_bytes "--rpc-port"; decimal (dr_rpc_port follower); str_bytes "--port"; decimal (dr_p2p_port follower);
     str_bytes "--prometheus-port"; decimal (dr_prometheus_port follower); str_bytes "--bootnodes"; bootnode]
    (join (al_logs_dir l) (str_bytes "earth-follower.log")).

Definition wait_for_source_follower_convergence_inner (stage_name : string) (timeout : Z) : HarnessM N unit :=
  do! earth_url := node_url Earth in
  do! follower := gets rn_source_follower in
  do! follower := require follower "source follower config missing" in
  wait_for_stage stage_name timeout (
    do! authority_rpc := try (connect earth_url) in
    match authority_rpc with
    | Err _ => ret PollPending
    | Ok authority_rpc =>
      do! follower_rpc := try (connect (rpc_url follower)) in
      match follower_rpc with
      | Err _ => ret PollPending
      | Ok follower_rpc =>
        do! authority := finalized_view authority_rpc in
        do! follower := finalized_view follower_rpc in
        poll_when (if bool_decide (snd authority = snd follower) && (fst authority =? fst follower) then Some tt else None)
      end
    end).
Definition wait_for_follower_sync (stage_name : string) : HarnessM N unit :=
  do! k := scenario in
  wait_for_source_follower_convergence_inner stage_name (default 60 (st_follower_sync_ready (stage_timeouts k))).
Definition wait_for_source_follower_convergence (stage_name : string) : HarnessM N unit :=
  wait_for_source_follower_convergence_inner stage_name 60.

(** *** Services *)
Definition allocate_service_ports : HarnessM N ServicePorts :=
  do! relay_port := call reserve_port in
  do! earth := call reserve_port in
  do! moon := call reserve_port in
  do! mars := call reserve_port in
  ret (mkServicePorts relay_port (fun d => match d with Earth => earth | Moon => moon | Mars => mars end)).

Definition build_transport_config_with_ports (now : Z) (ports : ServicePorts) : HarnessM N TransportConfig :=
  do! k := scenario in
  do! l := layout in
  do! base := load_transport
    (join (join (join workspace_root (str_bytes "config")) (str_bytes "transport")) (str_bytes "local.toml")) in
  map_err ConfigInvalid (lift (scenario_transport k l now ports base)).
Definition build_transport_config (now : Z) : HarnessM N TransportConfig :=
  do! ports := allocate_service_ports in
  build_transport_config_with_ports now ports.

Definition prepare_transport_config : HarnessM N unit :=
  do! now := ask utc_now in
  do! transport := build_transport_config now in
  do! l := layout in
  let transport_dir := join (al_configs_dir l) (str_bytes "transport") in
  do! _ := call (create_dir_all transport_dir) in
  let path := join transport_dir (str_bytes "local.toml") in
  do! _ := call (write_file path (transport_to_toml transport)) in
  modify (fun s => s {{ rn_transport_config := Some transport }} {{ rn_transport_config_path := Some path }}).

Definition transport_path : HarnessM N bytes :=
  do! path := gets rn_transport_config_path in require path "transport config missing".
Definition start_relay (log : string) : HarnessM N unit :=
  do! path := transport_path in
  do! relay := gets (fun s => bp_relay (rn_binaries s)) in
  do! l := layout in
  spawn (str_bytes "relay") relay [str_bytes "run"; str_bytes "--transport-config"; path]
    (join (al_logs_dir l) (str_bytes log)).

Definition start_importer (domain : DomainId) : HarnessM N unit :=
  do! path := transport_path in
  do! importer := gets (fun s => bp_importer (rn_binaries s)) in
  do! l := layout in
  do! config := node_config domain in
  do! loaded := load_domain domain (dr_config_path config) in
  let name := domain_text domain ++ str_bytes "-importer" in
  spawn name importer
    [str_bytes "run"; str_bytes "--domain"; domain_text domain; str_bytes "--node-url"; rpc_url config;
     str_bytes "--submitter-suri"; bs_importer_account_seed (dc_bootstrap loaded);
     str_bytes "--transport-config"; path;
     str_bytes "--store-dir"; join (join (al_stores_dir l) (str_bytes "importer")) (domain_text domain)]
    (join (al_logs_dir l) (name ++ str_bytes ".log")).

Definition start_exporter (domain : DomainId) : HarnessM N unit :=
  do! path := transport_path in
  do! exporter := gets (fun s => bp_exporter (rn_binaries s)) in
  do! l := layout in
  do! config := node_config domain in
  do! transport := gets rn_transport_config in
  match transport with
  | None => fail (Panicked "transport exists")
  | Some transport =>
    let name := domain_text domain ++ str_bytes "-exporter" in
    spawn name exporter
      [str_bytes "run"; str_bytes "--domain"; domain_text domain; str_bytes "--config"; dr_config_path config;
       str_bytes "--node-url"; rpc_url config;
       str_bytes "--relay-url"; str_bytes "http://" ++ rt_listen_addr (tc_relay transport);
       str_bytes "--transport-config"; path;
       str_bytes "--store-dir"; join (join (al_stores_dir l) (str_bytes "exporter")) (domain_text domain)]
      (join (al_logs_dir l) (name ++ str_bytes ".log"))
  end.

Definition start_services : HarnessM N unit :=
  do! k := scenario in
  do! _ := start_relay "relay.log" in
  do! _ := start_importer (source_domain k) in
  do! _ := start_importer (target_domain k) in
  do! _ := start_exporter (source_domain k) in
  start_exporter (target_domain k).

Definition socket_of_listen_addr (addr : bytes) : HarnessM N bytes :=
  do! port := lift (port_from_listen_addr addr) in ret (local_addr port).
Definition importer_socket (transport : TransportConfig) (domain : DomainId) : HarnessM N bytes :=
  do! importer := require (tc_importers transport !! domain) "missing importer listen addr" in
  socket_of_listen_addr (it_listen_addr importer).

Definition wait_for_services : HarnessM N unit :=
  do! k := scenario in
  do! transport := gets rn_transport_config in
  match transport with
  | None => fail (Panicked "transport exists")
  | Some transport =>
    do! relay_socket := socket_of_listen_addr (rt_listen_addr (tc_relay transport)) in
    do! source_importer_socket := importer_socket transport (source_domain k) in
    do! target_importer_socket := importer_socket transport (target_domain k) in
    wait_for_stage "service_readiness" SERVICE_READINESS_TIMEOUT_SECS (
      do! relay_ready := ask (tcp_ready relay_socket) in
      do! source_importer_ready := ask (tcp_ready source_importer_socket) in
      do! target_importer_ready := ask (tcp_ready target_importer_socket) in
      poll_when (if relay_ready && source_importer_ready && target_importer_ready then Some tt else None))
  end.

(** *** The transfer *)
Definition transfer_amount : Z := 1000000000000.

(** The export of the transfer, in the epochs [epochs] of the source chain. *)
Fixpoint match_export (rpc : bytes) (matched : ExportRecord -> bool) (ids : list hash)
    : HarnessM N (option (hash * ExportRecord)) :=
  match ids with
  | [] => ret None
  | id :: ids =>
    do! r := export_record rpc id in
    match r with
    | Some r => if matched r then ret (Some (id, r)) else match_export rpc matched ids
    | None => match_export rpc matched ids
    end
  end.
Fixpoint scan_epochs (rpc : bytes) (matched : ExportRecord -> bool) (epochs : list Z)
    : HarnessM N (option (hash * ExportRecord)) :=
  match epochs with
  | [] => ret None
  | epoch_id :: epochs =>
    do! ids := epoch_export_ids rpc epoch_id in
    do! found := match_export rpc matched (default [] ids) in
    match found with
    | Some found => ret (Some found)
    | None => scan_epochs rpc matched epochs
    end
  end.

Definition is_transfer (block_number : Z) (target : DomainId) (recipient : bytes) (r : ExportRecord) : bool :=
  (el_source_block_height (er_leaf r) =? block_number)
  && bool_decide (el_target_domain (er_leaf r) = target)
  && (el_amount (er_leaf r) =? transfer_amount)
  && bool_decide (el_recipient (er_leaf r) = recipient).

Definition has_hold (holds : option (list IdAmount)) (amount : Z) : bool :=
  existsb (fun entry => bool_decide (ia_id entry = TransfersHold) && (ia_amount entry =? amount)) (default [] holds).

Definition assert_sender_hold (rpc : bytes) (account : AccountId) (amount : Z) : HarnessM N unit :=
  do! holds := balance_holds rpc account in
  assert_stage "source_hold_exists" (has_hold holds amount).

Definition originate_transfer : HarnessM N TransferOutcome :=
  do! k := scenario in
  let timeouts := stage_timeouts k in
  do! earth_rpc := connect_domain Earth in
  do! sender_pair := pair_of_seed (str_bytes "//Alice") in
  let sender_account := pair_account sender_pair in
  do! recipient := account_id_bytes_from_seed (str_bytes "//Eve") in
  do! runtime := runtime_metadata earth_rpc in
  do! nonce := account_next_index earth_rpc sender_account in
  let extrinsic := build_transfer_extrinsic sender_pair runtime nonce (target_domain k) recipient transfer_amount in
  do! extrinsic_hash := submit_extrinsic earth_rpc extrinsic in
  do! inclusion := wait_for_stage "transfer_included" (st_transfer_included timeouts) (
    do! included := find_finalized_extrinsic earth_rpc extrinsic_hash extrinsic in poll_when included) in
  do! export := wait_for_stage "export_record_visible" (st_export_record_visible timeouts) (
    do! epoch := current_epoch earth_rpc in
    do! matched := scan_epochs earth_rpc (is_transfer (ie_block_number inclusion) (target_domain k) recipient)
                     (seqZ 0 (default 0 epoch + 1)) in
    poll_when ((fun m => mkTransferOutcome extrinsic_hash (fst m) (el_source_epoch_id (er_leaf (snd m))) recipient
                           (el_amount (er_leaf (snd m)))) <$> matched)) in
  do! _ := assert_sender_hold earth_rpc sender_account (to_amount export) in
  ret export.

Definition wait_for_epoch_commitment (export_id : hash) : HarnessM N EpochSummaryHeader :=
  do! k := scenario in
  do! earth_rpc := connect_domain Earth in
  do! source_epoch_id := gets (fun s => ss_source_epoch_id (rn_summary s)) in
  match source_epoch_id with
  | None => fail (Panicked "source epoch set")
  | Some source_epoch_id =>
    wait_for_stage "epoch_closed_and_summary_staged" (st_epoch_closed_and_summary_staged (stage_timeouts k)) (
      do! r := export_record earth_rpc export_id in
      do! summary := summary_header earth_rpc source_epoch_id in
      poll_when match r, summary with
        | Some r, Some header => if bool_decide (er_status r = Exported) then Some header else None
        | _, _ => None
        end)
  end.

(** *** Following a package *)
Definition certified_and_submitted (r : Exporter.PackageRecord) : bool :=
  bool_decide (xr_status r = Certified) && bool_decide (xr_relay_submission_state r = Submitted).
Definition has_kind (kind : string) (r : Exporter.PackageRecord) : bool :=
  existsb (fun k => bool_decide (k = kind)) (xr_proof_kinds r).

Definition wait_for_exporter_package (source_epoch_id : Z) : HarnessM N Exporter.PackageRecord :=
  do! k := scenario in
  wait_for_stage "exporter_certified_and_submitted" (st_exporter_certified_and_submitted (stage_timeouts k)) (
    do! index := exporter_index (source_domain k) in
    poll_when match Exporter.record index source_epoch_id (target_domain k) with
      | Some r => if certified_and_submitted r then Some r else None
      | None => None
      end).

Definition wait_for_completion_exporter_package (export_id : hash) : HarnessM N Exporter.PackageRecord :=
  do! k := scenario in
  wait_for_stage "completion_exporter_certified_and_submitted"
    (st_completion_exporter_certified_and_submitted (stage_timeouts k)) (
    do! index := exporter_index (target_domain k) in
    poll_when (find (fun r => bool_decide (xr_target_domain r = source_domain k) && certified_and_submitted r
                              && existsb (fun id => bool_decide (id = hex_hash export_id)) (xr_export_ids r)
                              && has_kind "finalized_import_v1" r) (xi_packages index))).

Definition was_scheduled (r : RelayPackageRecord) : bool :=
  match rp_state r with
  | Scheduled' | BlockedByBlackout | Delivered | ImporterAcked => true
  | _ => false
  end.
(** The first package of the relay on a link, with a given hash if there is one. *)
Definition relay_package (source target : DomainId) (package_hash : option bytes) (index : RelayIndex)
    : option RelayPackageRecord :=
  find (fun r => bool_decide (rp_source_domain r = source) && bool_decide (rp_target_domain r = target)
                 && matches package_hash (rp_package_hash r)) (ri_packages index).
Definition scheduled_poll (source target : DomainId) (package_hash : option bytes)
    : HarnessM N (StagePoll RelayPackageRecord) :=
  do! index := relay_index in
  poll_when match relay_package source target package_hash index with
    | Some r => if was_scheduled r then Some r else None
    | None => None
    end.

Definition wait_for_relay_scheduled : HarnessM N RelayPackageRecord :=
  do! k := scenario in
  do! package_hash := gets (fun s => ss_package_hash (rn_summary s)) in
  wait_for_stage "relay_scheduled" (st_relay_scheduled (stage_timeouts k))
    (scheduled_poll (source_domain k) (target_domain k) package_hash).
Definition wait_for_completion_relay_scheduled : HarnessM N RelayPackageRecord :=
  do! k := scenario in
  do! package_hash := gets (fun s => ss_completion_package_hash (rn_summary s)) in
  wait_for_stage "completion_relay_scheduled" (st_completion_relay_scheduled (stage_timeouts k))
    (scheduled_poll (target_domain k) (source_domain k) package_hash).

Definition perform_relay_restart (relay_record : RelayPackageRecord) : HarnessM N unit :=
  do! payload := ask (relay_payload (rp_payload_path relay_record)) in
  do! entry_exists := ask (relay_entry_exists (rp_entry_path relay_record)) in
  do! _ := assert_stage "relay_restart_precondition" (bool_decide (is_Some payload) && entry_exists) in
  do! _ := stop (str_bytes "relay") in
  do! _ := act (sleep_millis 2000) in
  do! _ := start_relay "relay-restarted.log" in
  wait_for_services.

Definition assert_chains_progress_during_delay : HarnessM N unit :=
  do! k := scenario in
  do! earth_rpc := connect_domain Earth in
  do! target_rpc := connect_domain (target_domain k) in
  do! earth_start := finalized_number earth_rpc in
  do! target_start := finalized_number target_rpc in
  do! _ := act (sleep_millis 14000) in
  do! earth_end := finalized_number earth_rpc in
  do! target_end := finalized_number target_rpc in
  do! _ := relay_index in
  assert_stage "chains_progress_during_delay"
    ((sat_add u32_max earth_start 2 <=? earth_end) && (sat_add u32_max target_start 2 <=? target_end)).

Definition wait_for_relay_delivery : HarnessM N RelayPackageRecord :=
  do! k := scenario in
  let require_blocked := bool_decide (k = EarthToMarsBlackout) in
  wait_for_stage "relay_delivery_and_importer_ack" (st_relay_delivery_and_importer_ack (stage_timeouts k)) (
    do! index := relay_index in
    poll_when match last (List.filter (fun r => bool_decide (rp_target_domain r = target_domain k)) (ri_packages index)) with
      | Some r =>
        if bool_decide (rp_state r = ImporterAcked) && (negb require_blocked || rp_ever_blocked_by_blackout r)
        then Some r else None
      | None => None
      end).
Definition wait_for_completion_relay_delivery : HarnessM N RelayPackageRecord :=
  do! k := scenario in
  wait_for_stage "completion_relay_delivery_and_importer_ack"
    (st_completion_relay_delivery_and_importer_ack (stage_timeouts k)) (
    do! index := relay_index in
    poll_when match relay_package (target_domain k) (source_domain k) None index with
      | Some r => if bool_decide (rp_state r = ImporterAcked) then Some r else None
      | None => None
      end).

Definition verified_package (o : option Importer.PackageRecord) : option Importer.PackageRecord :=
  match o with Some r => if bool_decide (pr_state r = AckedVerified) then Some r else None | None => None end.
Definition wait_for_importer_terminal : HarnessM N Importer.PackageRecord :=
  do! k := scenario in
  wait_for_stage "importer_terminal_state" (st_relay_delivery_and_importer_ack (stage_timeouts k)) (
    do! index := importer_index (target_domain k) in
    poll_when (verified_package
      (find (fun r => bool_decide (pr_target_domain r = target_domain k)) (ii_packages index)))).
Definition wait_for_source_importer_terminal : HarnessM N Importer.PackageRecord :=
  do! k := scenario in
  do! package_hash := gets (fun s => ss_completion_package_hash (rn_summary s)) in
  wait_for_stage "source_importer_terminal_state" (st_completion_relay_delivery_and_importer_ack (stage_timeouts k)) (
    do! index := importer_index (source_domain k) in
    poll_when (verified_package
      (find (fun r => bool_decide (pr_source_domain r = target_domain k)
                      && bool_decide (pr_target_domain r = source_domain k)
                      && matches package_hash (pr_package_hash r)) (ii_packages index)))).

(** *** The end of a transfer *)
Definition observed_as_expected (k : ScenarioKind) (transfer : TransferOutcome) (expected_summary_hash : hash)
    (expected_package_hash : bytes) (r : ObservedImportRecord) : bool :=
  bool_decide (oir_status r = ImportRemoteFinalized)
  && bool_decide (oir_source_domain r = source_domain k)
  && bool_decide (oir_target_domain r = target_domain k)
  && (oir_source_epoch_id r =? to_source_epoch_id transfer)
  && (oir_amount r =? to_amount transfer)
  && bool_decide (oir_recipient r = to_recipient transfer)
  && bool_decide (oir_summary_hash r = expected_summary_hash)
  && bool_decide (expected_package_hash = hex_hash (oir_package_hash r)).
Definition evidence (r : ObservedImportRecord) (recipient_free_balance : Z) : DestinationObservationEvidence := {|
  de_export_id := hex_hash (oir_export_id r);
  de_source_domain := oir_source_domain r;
  de_target_domain := oir_target_domain r;
  de_source_epoch_id := oir_source_epoch_id r;
  de_amount := oir_amount r;
  de_recipient := hex_hash (oir_recipient r);
  de_summary_hash := hex_hash (oir_summary_hash r);
  de_package_hash := hex_hash (oir_package_hash r);
  de_observed_at_local_block_height := oir_observed_at_local_block_height r;
  de_observer_account := hex_hash (oir_observer_account r);
  de_finalized_at_local_block_height := oir_finalized_at_local_block_height r;
  de_finalizer_account := hex_hash <$> oir_finalizer_account r;
  de_recipient_free_balance := decimal recipient_free_balance;
  de_status := oir_status r
|}.

Definition wait_for_destination_observation (transfer : TransferOutcome) (header : EpochSummaryHeader)
    (destination_initial_balance : Z) (recipient_account : AccountId) : HarnessM N DestinationObservationEvidence :=
  do! k := scenario in
  do! target_rpc := connect_domain (target_domain k) in
  do! package_hash := gets (fun s => ss_package_hash (rn_summary s)) in
  do! expected_package_hash := require package_hash "package hash missing before destination observation" in
  wait_for_stage "destination_remote_finalized" (st_destination_remote_observed (stage_timeouts k)) (
    do! r := observed_import target_rpc (to_export_id transfer) in
    do! balance := free_balance target_rpc recipient_account in
    let recipient_free_balance := default 0 balance in
    poll_when match r with
      | Some r =>
        if observed_as_expected k transfer (sh_summary_hash header) expected_package_hash r
           && (recipient_free_balance =? sat_add u128_max destination_initial_balance (to_amount transfer))
        then Some (evidence r recipient_free_balance) else None
      | None => None
      end).

Definition resolved_as_expected (expected_completion_package_hash : bytes) (r : ExportRecord) : bool :=
  bool_decide (er_status r = RemoteFinalized)
  && bool_decide (hex_hash <$> er_completion_package_hash r = Some expected_completion_package_hash)
  && bool_decide (is_Some (er_resolved_at_source_block_height r)).

Definition wait_for_source_settlement_resolution (transfer : TransferOutcome) : HarnessM N unit :=
  do! k := scenario in
  do! source_rpc := connect_domain (source_domain k) in
  do! sender_account := account_id_from_seed (str_bytes "//Alice") in
  do! package_hash := gets (fun s => ss_completion_package_hash (rn_summary s)) in
  do! expected := require package_hash "completion package hash missing before source settlement resolution" in
  wait_for_stage "source_remote_finalized" (st_source_remote_finalized (stage_timeouts k)) (
    do! r := export_record source_rpc (to_export_id transfer) in
    do! holds := balance_holds source_rpc sender_account in
    poll_when match r with
      | Some r => if resolved_as_expected expected r && negb (has_hold holds (to_amount transfer)) then Some tt else None
      | None => None
      end).

(** *** Governance *)
Fixpoint vote_each (rpc : bytes) (runtime : RuntimeMetadata) (proposal_id : hash) (seeds : list bytes) : HarnessM N unit :=
  match seeds with
  | [] => ret tt
  | seed :: seeds =>
    do! keypair := pair_of_seed seed in
    do! nonce := account_next_index rpc (pair_account keypair) in
    do! _ := submit_extrinsic rpc (build_governance_cast_vote_extrinsic keypair runtime nonce proposal_id Yes) in
    vote_each rpc runtime proposal_id seeds
  end.

Definition is_finalized_status (s : GovernanceProposalStatus) : bool :=
  match s with LocallyFinalized | Scheduled | Activated => true | _ => false end.

Definition close_poll (rpc : bytes) (proposal_id : hash) (close_extrinsic : bytes)
    : HarnessM N (StagePoll GovernanceProposalOutcome) :=
  do! epoch := current_epoch rpc in
  do! proposal := governance_proposal rpc proposal_id in
  do! close_submitted := gets rn_close_submitted in
  let due := match proposal with
    | Some p => bool_decide (gp_status p = Voting) && (gp_voting_end_epoch p <=? default 0 epoch) && negb close_submitted
    | None => false
    end in
  do! _ := if due then
      do! _ := submit_extrinsic rpc close_extrinsic in modify (fun s => s {{ rn_close_submitted := true }})
    else ret tt in
  poll_when match proposal with
    | Some p =>
      if is_finalized_status (gp_status p)
      then Some (mkGovernanceProposalOutcome proposal_id (default 0 (gp_approval_epoch p)) (gp_activation_epoch p))
      else None
    | None => None
    end.

Definition originate_governance_proposal : HarnessM N GovernanceProposalOutcome :=
  let timeout := 120 in
  do! earth_rpc := connect_domain Earth in
  do! config := node_config Earth in
  do! earth_config := load_domain Earth (dr_config_path config) in
  do! alice_pair := pair_of_seed (str_bytes "//Alice") in
  let alice_account := pair_account alice_pair in
  do! runtime := runtime_metadata earth_rpc in
  let proposal_id := governance_proposal_id Earth 0 in
  do! create_nonce := account_next_index earth_rpc alice_account in
  let create_extrinsic := build_governance_create_proposal_extrinsic alice_pair runtime create_nonce [Moon] 2 in
  do! create_hash := submit_extrinsic earth_rpc create_extrinsic in
  do! _ := wait_for_stage "governance_proposal_created" timeout (
    do! proposal := governance_proposal earth_rpc proposal_id in
    do! _ := find_finalized_extrinsic earth_rpc create_hash create_extrinsic in
    poll_when match proposal with
      | Some p => if bool_decide (gp_status p = Voting) then Some tt else None
      | None => None
      end) in
  let vote_seeds := dedup (sort_by bytes_cmp (bs_endowed_accounts (dc_bootstrap earth_config))) in
  do! _ := vote_each earth_rpc runtime proposal_id vote_seeds in
  do! _ := wait_for_stage "governance_votes_recorded" timeout (
    do! proposal := governance_proposal earth_rpc proposal_id in
    poll_when match proposal with
      | Some p => if 0 <? gp_yes_voting_power p then Some tt else None
      | None => None
      end) in
  do! close_nonce := account_next_index earth_rpc alice_account in
  let close_extrinsic := build_governance_close_proposal_extrinsic alice_pair runtime close_nonce proposal_id in
  do! _ := modify (fun s => s {{ rn_close_submitted := false }}) in
  wait_for_stage "governance_proposal_finalized" timeout (close_poll earth_rpc proposal_id close_extrinsic).

Definition wait_for_governance_epoch_commitment (epoch_id : Z) : HarnessM N EpochSummaryHeader :=
  do! earth_rpc := connect_domain Earth in
  wait_for_stage "governance_summary_staged" 120 (
    do! summary := summary_header earth_rpc epoch_id in
    poll_when match summary with
      | Some header =>
        if bool_decide (sh_governance_root header
             <> governance_merkle_empty_root (sh_domain_id header) (sh_epoch_id header)
                  (sh_start_block_height header) (sh_end_block_height header))
        then Some header else None
      | None => None
      end).

Definition wait_for_governance_exporter_package (source target : DomainId) (epoch_id : option Z)
    : HarnessM N Exporter.PackageRecord :=
  wait_for_stage "governance_exporter_certified_and_submitted" 120 (
    do! index := exporter_index source in
    poll_when match find (fun r => bool_decide (xr_target_domain r = target) && matches epoch_id (xr_epoch_id r))
                      (xi_packages index) with
      | Some r => if certified_and_submitted r && has_kind "governance_v1" r then Some r else None
      | None => None
      end).

(** The three facts the governance stages read from one chain. *)
Definition governance_view (rpc : bytes) (proposal_id : hash) (acknowledging : DomainId)
    : HarnessM N (option GovernanceProposal * option GovernanceAckRecord * option Z) :=
  do! proposal := governance_proposal rpc proposal_id in
  do! ack := governance_ack_record rpc proposal_id acknowledging in
  do! version := governance_protocol_version rpc in
  ret (proposal, ack, version).

Definition wait_for_target_governance_acceptance (proposal_id : hash) (activation_epoch : Z) : HarnessM N unit :=
  do! k := scenario in
  do! target_rpc := connect_domain (target_domain k) in
  wait_for_stage "target_governance_accepted" 120 (
    do! view := governance_view target_rpc proposal_id (target_domain k) in
    poll_when match view with
      | (Some p, Some _, Some 1) =>
        if (gp_activation_epoch p =? activation_epoch)
           && (bool_decide (gp_status p = Scheduled) || bool_decide (gp_status p = LocallyFinalized))
        then Some tt else None
      | _ => None
      end).

Definition wait_for_source_governance_ack (proposal_id : hash) (activation_epoch : Z) : HarnessM N unit :=
  do! k := scenario in
  do! source_rpc := connect_domain (source_domain k) in
  wait_for_stage "source_governance_ack_known" 120 (
    do! view := governance_view source_rpc proposal_id (target_domain k) in
    poll_when match view with
      | (Some p, Some _, Some 1) =>
        if (gp_activation_epoch p =? activation_epoch) && bool_decide (gp_status p = Scheduled) then Some tt else None
      | _ => None
      end).

(** The protocol versions of the two chains. *)
Definition protocol_versions (source_rpc target_rpc : bytes) : HarnessM N (Z * Z) :=
  do! source_version := governance_protocol_version source_rpc in
  do! target_version := governance_protocol_version target_rpc in
  ret (default 0 source_version, default 0 target_version).

Definition assert_protocol_versions_before_activation : HarnessM N unit :=
  do! k := scenario in
  do! source_rpc := connect_domain (source_domain k) in
  do! target_rpc := connect_domain (target_domain k) in
  do! versions := protocol_versions source_rpc target_rpc in
  assert_stage "protocol_versions_before_activation" ((fst versions =? 1) && (snd versions =? 1)).

Definition is_activated (o : option GovernanceProposal) : bool :=
  match o with Some p => bool_decide (gp_status p = Activated) | None => false end.

Definition wait_for_governance_activation (proposal_id : hash) (activation_epoch : Z) : HarnessM N unit :=
  do! k := scenario in
  do! source_rpc := connect_domain (source_domain k) in
  do! target_rpc := connect_domain (target_domain k) in
  do! versions := wait_for_stage "governance_activation" 180 (
    do! source_epoch := current_epoch source_rpc in
    do! target_epoch := current_epoch target_rpc in
    do! versions := protocol_versions source_rpc target_rpc in
    do! source_proposal := governance_proposal source_rpc proposal_id in
    do! target_proposal := governance_proposal target_rpc proposal_id in
    poll_when (if is_activated source_proposal && is_activated target_proposal
                  && (activation_epoch <=? default 0 source_epoch) && (activation_epoch <=? default 0 target_epoch)
                  && (fst versions =? 2) && (snd versions =? 2)
               then Some versions else None)) in
  note (fun summary => summary {{ ss_source_protocol_version_after := Some (fst versions) }}
                               {{ ss_target_protocol_version_after := Some (snd versions) }}).

Definition is_success (http_status : Z) : bool := (200 <=? http_status) && (http_status <? 300).

Definition replay_duplicate_governance_package (relay_record : RelayPackageRecord) : HarnessM N unit :=
  do! k := scenario in
  do! payload := ask (relay_payload (rp_payload_path relay_record)) in
  do! payload := require payload "failed to read relay payload" in
  do! transport := gets rn_transport_config in
  do! importer := require (transport ≫= fun config => tc_importers config !! target_domain k)
                    "target importer config missing" in
  do! http_status := call (post_body (str_bytes "http://" ++ it_listen_addr importer ++ str_bytes "/api/v1/packages") payload) in
  do! source_rpc := connect_domain (source_domain k) in
  do! target_rpc := connect_domain (target_domain k) in
  do! versions := protocol_versions source_rpc target_rpc in
  assert_stage "governance_duplicate_replay_safe"
    (is_success http_status && (fst versions =? 2) && (snd versions =? 2)).

(** *** Scenarios *)
Definition run_governance_activation : HarnessM N unit :=
  do! k := scenario in
  do! source_rpc := connect_domain (source_domain k) in
  do! target_rpc := connect_domain (target_domain k) in
  do! source_before := governance_protocol_version source_rpc in
  do! _ := note (fun summary => summary {{ ss_source_protocol_version_before := source_before }}) in
  do! target_before := governance_protocol_version target_rpc in
  do! _ := note (fun summary => summary {{ ss_target_protocol_version_before := target_before }}) in
  do! proposal := originate_governance_proposal in
  let id := go_proposal_id proposal in
  let activation_epoch := go_activation_epoch proposal in
  do! _ := note (fun summary => summary {{ ss_proposal_id := Some (hex_hash id) }}
    {{ ss_source_epoch_id := Some (go_approval_epoch proposal) }} {{ ss_activation_epoch := Some activation_epoch }}) in
  do! header := wait_for_governance_epoch_commitment (go_approval_epoch proposal) in
  do! _ := note (fun summary => summary {{ ss_summary_hash := Some (hex_hash (sh_summary_hash header)) }}) in
  do! exporter_record := wait_for_governance_exporter_package (source_domain k) (target_domain k)
                           (Some (go_approval_epoch proposal)) in
  do! _ := note (fun summary => summary {{ ss_package_hash := xr_package_hash exporter_record }}) in
  do! relay_final := wait_for_relay_delivery in
  do! _ := note (fun summary => summary {{ ss_final_relay_state := Some (relay_state_name (rp_state relay_final)) }}) in
  do! importer_record := wait_for_importer_terminal in
  do! _ := note (fun summary => summary {{ ss_final_importer_package_state := Some (pr_state importer_record) }}) in
  do! _ := wait_for_target_governance_acceptance id activation_epoch in
  do! ack_exporter_record := wait_for_governance_exporter_package (target_domain k) (source_domain k) None in
  do! _ := note (fun summary => summary {{ ss_completion_package_hash := xr_package_hash ack_exporter_record }}) in
  do! ack_relay_final := wait_for_completion_relay_delivery in
  do! _ := note (fun summary => summary {{ ss_final_relay_state := Some (relay_state_name (rp_state ack_relay_final)) }}) in
  do! source_importer_record := wait_for_source_importer_terminal in
  do! _ := note (fun summary => summary {{ ss_final_importer_package_state := Some (pr_state source_importer_record) }}) in
  do! _ := wait_for_source_governance_ack id activation_epoch in
  do! _ := assert_protocol_versions_before_activation in
  do! _ := wait_for_governance_activation id activation_epoch in
  do! _ := replay_duplicate_governance_package relay_final in
  note (fun summary => summary {{ ss_success := true }}).

Definition when {E} (b : bool) (m : M (Runner N) E unit) : M (Runner N) E unit := if b then m else ret tt.

Definition run_transfer : HarnessM N unit :=
  do! k := scenario in
  do! destination_rpc := connect_domain (target_domain k) in
  do! recipient_account := account_id_from_seed (str_bytes "//Eve") in
  do! balance := free_balance destination_rpc recipient_account in
  let destination_initial_balance := default 0 balance in
  do! transfer := originate_transfer in
  do! _ := note (fun summary => summary {{ ss_extrinsic_hash := Some (hex_hash (to_extrinsic_hash transfer)) }}
    {{ ss_source_epoch_id := Some (to_source_epoch_id transfer) }}
    {{ ss_export_ids ::= fun ids => ids ++ [hex_hash (to_export_id transfer)] }}) in
  do! _ := when (has_source_follower k) (wait_for_source_follower_convergence "follower_sync_after_transfer") in
  do! header := wait_for_epoch_commitment (to_export_id transfer) in
  do! _ := note (fun summary => summary {{ ss_summary_hash := Some (hex_hash (sh_summary_hash header)) }}) in
  do! _ := when (has_source_follower k) (wait_for_source_follower_convergence "follower_sync_after_summary") in
  do! exporter_record := wait_for_exporter_package (to_source_epoch_id transfer) in
  do! _ := note (fun summary => summary {{ ss_package_hash := xr_package_hash exporter_record }}) in
  do! relay_record := wait_for_relay_scheduled in
  do! _ := when (bool_decide (k = EarthToMoonRelayRestart)) (perform_relay_restart relay_record) in
  do! _ := when (bool_decide (k = EarthToMarsDelay)) assert_chains_progress_during_delay in
  do! relay_final := wait_for_relay_delivery in
  do! _ := note (fun summary => summary {{ ss_final_relay_state := Some (relay_state_name (rp_state relay_final)) }}) in
  do! importer_record := wait_for_importer_terminal in
  do! _ := note (fun summary => summary {{ ss_final_importer_package_state := Some (pr_state importer_record) }}) in
  do! observed := wait_for_destination_observation transfer header destination_initial_balance recipient_account in
  do! _ := note (fun summary => summary {{ ss_destination_observation := Some observed }}) in
  do! completion_exporter_record := wait_for_completion_exporter_package (to_export_id transfer) in
  do! _ := note (fun summary => summary {{ ss_completion_package_hash := xr_package_hash completion_exporter_record }}) in
  do! _ := wait_for_completion_relay_scheduled in
  do! completion_relay_final := wait_for_completion_relay_delivery in
  do! _ := note (fun summary => summary {{ ss_final_relay_state := Some (relay_state_name (rp_state completion_relay_final)) }}) in
  do! source_importer_record := wait_for_source_importer_terminal in
  do! _ := note (fun summary => summary {{ ss_final_importer_package_state := Some (pr_state source_importer_record) }}) in
  do! _ := wait_for_source_settlement_resolution transfer in
  note (fun summary => summary {{ ss_success := true }}).

Definition run : HarnessM N unit :=
  do! k := scenario in
  do! binaries := gets rn_binaries in
  do! _ := call (prepare_binaries binaries) in
  do! _ := prepare_domain_configs in
  do! _ := start_authority_nodes in
  do! _ := wait_for_node_readiness in
  do! _ := wait_for_chain_finality in
  do! _ := when (has_source_follower k)
    (do! _ := start_source_follower in wait_for_follower_sync "follower_sync_ready") in
  do! _ := prepare_transport_config in
  do! _ := start_services in
  do! _ := wait_for_services in
  if bool_decide (k = EarthToMoonGovernanceActivation) then run_governance_activation else run_transfer.

Definition note_error (error : option HarnessError) : HarnessM N unit :=
  match error with
  | Some error => note (fun summary => summary
      {{ ss_failed_stage ::= fun failed => match failed with Some stage => Some stage | None => Some "unhandled_error"%string end }}
      {{ ss_failure_message := Some error }})
  | None => ret tt
  end.
Definition finalize (error : option HarnessError) : HarnessM N ScenarioSummary :=
  do! _ := note_error error in
  do! now := call unix_now_millis in
  do! _ := note (fun summary => summary {{ ss_ended_at_unix_ms := Some now }}) in
  do! l := layout in
  do! summary := gets rn_summary in
  do! _ := call (write_summary (join (al_root l) (str_bytes "summary.json")) summary) in
  do! _ := shutdown_all in
  ret summary.

(** *** Starting a scenario

    A panic skips [finalize]. *)
Definition new_summary (k : ScenarioKind) (now : Z) : ScenarioSummary :=
  mkScenarioSummary k false now None None None (source_domain k) (target_domain k) None None [] None None None None None
    None None None None None None None [].
Definition new_runner (k : ScenarioKind) (binaries : BinaryPaths) (l : ArtifactLayout) (now : Z) (n : N) : Runner N :=
  mkRunner k binaries l ∅ (new_summary k now) ∅ None None None false n.

Definition WorldM : Type -> Type := M N HarnessError.
Definition world_call {A} (f : N -> N * result Text A) : WorldM A :=
  fun n => let '(n, res) := f n in (n, match res with Ok a => Ok a | Err t => Err (Outside t) end).

Fixpoint create_dirs (dirs : list bytes) : WorldM unit :=
  match dirs with [] => ret tt | dir :: dirs => do! _ := world_call (create_dir_all dir) in create_dirs dirs end.

(** [ScenarioRunner::new], [run] and [finalize]: the summary, and the error of the run. *)
Definition run_scenario (k : ScenarioKind) (binaries : BinaryPaths) (artifact_root : bytes)
    : WorldM (ScenarioSummary * option HarnessError) :=
  let l := artifact_layout artifact_root in
  do! _ := create_dirs [al_configs_dir l; al_chains_dir l; al_stores_dir l; al_logs_dir l] in
  do! now := world_call unix_now_millis in
  fun n =>
    let '(s, res) := run (new_runner k binaries l now n) in
    let error := match res with Ok _ => None | Err e => Some e end in
    match res with
    | Err (Panicked what) => (rn_world s, Err (Panicked what))
    | _ =>
      let '(s, summary) := finalize error s in
      (rn_world s, match summary with Ok summary => Ok (summary, error) | Err e => Err e end)
    end.

Fixpoint check_binaries (paths : list bytes) : WorldM unit :=
  match paths with
  | [] => ret tt
  | path :: paths =>
    fun n => let '(n, found) := path_exists path n in
      if found then check_binaries paths n else (n, Err (BinaryNotFound path))
  end.
(** [BinaryPaths::from_args]; [None] for a binary of the workspace. *)
Definition binary_paths (ialp_node exporter relay importer : option bytes) : WorldM BinaryPaths :=
  let target_debug name := join (join workspace_root (str_bytes "target/debug")) (binary_name name) in
  let paths := mkBinaryPaths (default (target_debug "ialp-node") ialp_node)
    (default (target_debug "ialp-summary-exporter") exporter) (default (target_debug "ialp-summary-relay") relay)
    (default (target_debug "ialp-summary-importer") importer) in
  do! _ := check_binaries [bp_ialp_node paths; bp_exporter paths; bp_relay paths; bp_importer paths] in
  ret paths.

Definition artifact_root (base : option bytes) (label : bytes) : WorldM bytes :=
  do! timestamp := world_call unix_now_millis in
  let root := join (join (default (join workspace_root (str_bytes "target/scenarios")) base) label) (decimal timestamp) in
  do! _ := world_call (create_dir_all root) in
  ret root.

Definition execute_run (k : ScenarioKind) (artifacts_dir ialp_node exporter relay importer : option bytes)
    : WorldM ScenarioSummary :=
  do! binaries := binary_paths ialp_node exporter relay importer in
  do! root := artifact_root artifacts_dir (scenario_name k) in
  do! outcome := run_scenario k binaries root in
  match snd outcome with
  | Some error => fail error
  | None => ret (fst outcome)
  end.

Definition all_scenarios : list ScenarioKind :=
  [EarthToMoonSuccess; EarthToMarsDelay; EarthToMarsBlackout; EarthToMoonRelayRestart; EarthToMoonGovernanceActivation].
Fixpoint run_each (binaries : BinaryPaths) (root : bytes) (kinds : list ScenarioKind)
    : WorldM (list (ScenarioSummary * option HarnessError)) :=
  match kinds with
  | [] => ret []
  | k :: kinds =>
    do! outcome := run_scenario k binaries (join root (scenario_name k)) in
    do! outcomes := run_each binaries root kinds in
    ret (outcome :: outcomes)
  end.
(** The summaries are printed before the failures are counted. *)
Definition execute_run_all (artifacts_dir ialp_node exporter relay importer : option bytes)
    : WorldM (list ScenarioSummary) :=
  do! binaries := binary_paths ialp_node exporter relay importer in
  do! root := artifact_root artifacts_dir (str_bytes "run-all") in
  do! outcomes := run_each binaries root all_scenarios in
  match omap (fun o => (fun _ => ss_scenario (fst o)) <$> snd o) outcomes with
  | [] => ret (map fst outcomes)
  | failures => fail (ScenariosFailed failures)
  end.
End Run.
