(* ===== verification/HarnessProofs.v ===== *)
(** * What a scenario's verdict means

    A scenario ends within its timeouts; its summary says success exactly when the
    run succeeded; and a transfer scenario that succeeds has settled its transfer
    on both chains. *)

From S2P Require Import Prelude Types Effects Handlers Codec Merkle Config Frame Domain Epochs Transfers TransfersProofs Governance GovernanceProofs Runtime RuntimeProofs Verify VerifyProofs Relay Importer ImporterProofs CrossChain Exporter Services Harness.

Create HintDb steady.

(** A goal about a handler, along the handler's definition: [rule] treats the
    operations, conditionals split, definitions unfold. *)
Ltac head_of t := lazymatch t with ?f _ => head_of f | _ => t end.
Ltac walk rule := repeat first
  [ assumption
  | rule
  | lazymatch goal with |- _ (match ?x with _ => _ end) => destruct x end
  | solve [eauto with steady]
  | lazymatch goal with |- _ ?m => let h := head_of m in unfold h; cbv zeta end ].

(** ** Calls move the world along *)
Section Keeps.
Context `{!Codec, !HexCodec, !Account, !StorageCodec, !Keys, !HarnessCodec, !Toml} {N : Type} `{!HarnessEnv N}.
Context {Multiaddr : Type} (multiaddr_from_str : bytes -> option Multiaddr) (has_p2p : Multiaddr -> bool).
Context (workspace_root : bytes).

(** Every call of the environment moves the world along [R]. *)
Record env_steps (R : N -> N -> Prop) : Prop := {
  es_instant : forall n, R n (instant_now n).1;
  es_unix : forall n, R n (unix_now_millis n).1;
  es_utc : forall n, R n (utc_now n).1;
  es_sleep : forall d n, R n (sleep_millis d n);
  es_prepare : forall b n, R n (prepare_binaries b n).1;
  es_exists : forall p n, R n (path_exists p n).1;
  es_mkdir : forall p n, R n (create_dir_all p n).1;
  es_read : forall p n, R n (read_file p n).1;
  es_write : forall p c n, R n (write_file p c n).1;
  es_summary : forall p c n, R n (write_summary p c n).1;
  es_spawn : forall name binary args log n, R n (spawn_process name binary args log n).1;
  es_kill : forall name n, R n (kill_process name n);
  es_port : forall n, R n (reserve_port n).1;
  es_tcp : forall a n, R n (tcp_ready a n).1;
  es_exporter : forall p n, R n (exporter_store p n).1;
  es_relay : forall p n, R n (relay_store p n).1;
  es_payload : forall p n, R n (relay_payload p n).1;
  es_entry : forall p n, R n (relay_entry_exists p n).1;
  es_importer : forall p n, R n (importer_store p n).1;
  es_post : forall u b n, R n (post_body u b n).1;
  es_connect : forall u n, R n (rpc_connect u n).1;
  es_head : forall u n, R n (chain_getFinalizedHead u n).1;
  es_header : forall u h n, R n (chain_getHeader u h n).1;
  es_block_hash : forall u i n, R n (chain_getBlockHash u i n).1;
  es_block : forall u h n, R n (chain_getBlock u h n).1;
  es_version : forall u n, R n (state_getRuntimeVersion u n).1;
  es_storage : forall u k n, R n (state_getStorage u k n).1;
  es_nonce : forall u a n, R n (system_accountNextIndex u a n).1;
  es_submit : forall u x n, R n (author_submitExtrinsic u x n).1;
  es_peer : forall u n, R n (system_localPeerId u n).1;
  es_addresses : forall u n, R n (system_localListenAddresses u n).1
}.

Context (R : N -> N -> Prop) `{!PreOrder R} (Henv : env_steps R).
(** What of the runner a handler leaves alone: nothing that any of them changes
    on its way. *)
Context {C : Type} (core : Runner N -> C).
Context (core_world : forall s n, core (s {{ rn_world := n }}) = core s).
Context (core_summary : forall s f, core (s {{ rn_summary ::= f }}) = core s).
Context (core_children : forall s f, core (s {{ rn_children ::= f }}) = core s).
Context (core_transport : forall s t p,
  core (s {{ rn_transport_config := t }} {{ rn_transport_config_path := p }}) = core s).
Context (core_close : forall s b, core (s {{ rn_close_submitted := b }}) = core s).

Definition kept (s s' : Runner N) : Prop := R (rn_world s) (rn_world s') /\ core s' = core s.
Definition steady {E A} (m : M (Runner N) E A) : Prop := forall s, kept s (m s).1.

#[export] Instance kept_preorder : PreOrder kept.
Proof.
  split; [by split|]. intros s1 s2 s3 [R1 C1] [R2 C2]. split; [by etransitivity|congruence].
Qed.

Lemma steady_ret {E A} (a : A) : steady (ret a : M _ E A).
Proof. done. Qed.
Lemma steady_fail {E A} (e : E) : steady (fail e : M _ E A).
Proof. done. Qed.
Lemma steady_lift {E A} (res : result E A) : steady (lift res).
Proof. done. Qed.
Lemma steady_gets {E A} (f : Runner N -> A) : steady (gets f : M _ E A).
Proof. done. Qed.
Lemma steady_bind {E A B} (m : M _ E A) (k : A -> M _ E B) : steady m -> (forall a, steady (k a)) -> steady (bind m k).
Proof.
  intros Hm Hk s. specialize (Hm s). unfold bind. destruct (m s) as [s' [a|e]]; [|done]. simpl in Hm. etransitivity; [done|apply Hk].
Qed.
Lemma steady_try {E E' A} (m : M _ E A) : steady m -> steady (try m : M _ E' _).
Proof. intros Hm s. specialize (Hm s). unfold try. by destruct (m s). Qed.
Lemma steady_map_err {E E' A} (f : E -> E') (m : M _ E A) : steady m -> steady (map_err f m).
Proof. intros Hm s. specialize (Hm s). unfold map_err. by destruct (m s). Qed.
Lemma steady_world {E A} (f : N -> N * A) (g : A -> result E A) :
  (forall n, R n (f n).1) ->
  steady (fun s => let '(n, a) := f (rn_world s) in (s {{ rn_world := n }}, g a)).
Proof. intros Hf s. specialize (Hf (rn_world s)). destruct (f (rn_world s)). split; [done|apply core_world]. Qed.
Lemma steady_call {A} (f : N -> N * result Text A) : (forall n, R n (f n).1) -> steady (call f).
Proof. intros Hf s. specialize (Hf (rn_world s)). unfold call. destruct (f (rn_world s)). split; [done|apply core_world]. Qed.
Lemma steady_ask {A} (f : N -> N * A) : (forall n, R n (f n).1) -> steady (ask f).
Proof. intros Hf s. specialize (Hf (rn_world s)). unfold ask. destruct (f (rn_world s)). split; [done|apply core_world]. Qed.
Lemma steady_act (f : N -> N) : (forall n, R n (f n)) -> steady (act f).
Proof. intros Hf s. split; [apply Hf|apply core_world]. Qed.
Lemma steady_read_config p : steady (read_config p).
Proof.
  intros s. unfold read_config. pose proof (es_read _ Henv p (rn_world s)). destruct (read_file p (rn_world s)).
  split; [done|apply core_world].
Qed.
Lemma steady_note f : steady (note (N := N) f).
Proof. intros s. split; [reflexivity|apply core_summary]. Qed.
Lemma steady_children f : steady (modify (fun s => s {{ rn_children ::= f }}) : HarnessM N unit).
Proof. intros s. split; [reflexivity|apply core_children]. Qed.
Lemma steady_transport t p :
  steady (modify (fun s => s {{ rn_transport_config := t }} {{ rn_transport_config_path := p }}) : HarnessM N unit).
Proof. intros s. split; [reflexivity|apply core_transport]. Qed.
Lemma steady_close b : steady (modify (fun s => s {{ rn_close_submitted := b }}) : HarnessM N unit).
Proof. intros s. split; [reflexivity|apply core_close]. Qed.

Ltac env_op := first
  [ apply es_storage | apply es_connect | apply es_instant | apply es_unix | apply es_utc | apply es_sleep
  | apply es_prepare | apply es_exists | apply es_mkdir | apply es_read | apply es_write | apply es_summary
  | apply es_spawn | apply es_kill | apply es_port | apply es_tcp | apply es_exporter | apply es_relay
  | apply es_payload | apply es_entry | apply es_importer | apply es_post | apply es_head | apply es_header
  | apply es_block_hash | apply es_block | apply es_version | apply es_nonce | apply es_submit | apply es_peer
  | apply es_addresses ]; exact Henv.
Ltac keep_rule := idtac;
  lazymatch goal with
  | |- steady (bind _ _) => apply steady_bind; [|intros ?]
  | |- steady (ret _) => apply steady_ret
  | |- steady (fail _) => apply steady_fail
  | |- steady (lift _) => apply steady_lift
  | |- steady (gets _) => apply steady_gets
  | |- steady (try _) => apply steady_try
  | |- steady (map_err _ _) => apply steady_map_err
  | |- steady (call _) => apply steady_call; intros ?; env_op
  | |- steady (ask _) => apply steady_ask; intros ?; env_op
  | |- steady (act _) => apply steady_act; intros ?; env_op
  | |- steady (note _) => apply steady_note
  | |- steady (read_config _) => apply steady_read_config
  | |- steady (modify _) => first [apply steady_children | apply steady_transport | apply steady_close]
  end.
Ltac keep := walk keep_rule.

Lemma steady_stage_loop {T} fuel stage timeout start (poll : HarnessM N (StagePoll T)) :
  steady poll -> steady (stage_loop fuel stage timeout start poll).
Proof. intros Hp. induction fuel as [|fuel IH]; simpl; keep. Qed.
Lemma steady_stage {T} stage timeout (poll : HarnessM N (StagePoll T)) : steady poll -> steady (wait_for_stage stage timeout poll).
Proof. intros Hp. apply steady_bind; [|intros start; by apply steady_stage_loop]. keep. Qed.
#[local] Hint Extern 1 (steady (wait_for_stage _ _ _)) => apply steady_stage; keep : steady.

Lemma steady_find_in_blocks rpc h numbers : steady (find_in_blocks (N := N) rpc h numbers).
Proof. induction numbers as [|i numbers IH]; simpl; keep. Qed.
Lemma steady_match_export rpc matched ids : steady (match_export (N := N) rpc matched ids).
Proof. induction ids as [|id ids IH]; simpl; keep. Qed.
#[local] Hint Resolve steady_find_in_blocks steady_match_export : steady.
Lemma steady_scan_epochs rpc matched epochs : steady (scan_epochs (N := N) rpc matched epochs).
Proof. induction epochs as [|e epochs IH]; simpl; keep. Qed.
Lemma steady_vote_each rpc runtime id seeds : steady (vote_each (N := N) rpc runtime id seeds).
Proof. induction seeds as [|seed seeds IH]; simpl; keep. Qed.
Lemma steady_allocate_node_ports names : steady (allocate_node_ports (N := N) names).
Proof. induction names as [|name names IH]; simpl; keep. Qed.
Lemma steady_stop_each names : steady (stop_each (N := N) names).
Proof. induction names as [|name names IH]; simpl; keep. Qed.
#[local] Hint Resolve steady_scan_epochs steady_vote_each steady_allocate_node_ports steady_stop_each : steady.

Lemma steady_originate_transfer : steady originate_transfer.
Proof. keep. Qed.
Lemma steady_originate_proposal : steady (originate_governance_proposal multiaddr_from_str has_p2p).
Proof. keep. Qed.
Lemma steady_services : steady wait_for_services.
Proof. keep. Qed.
#[local] Hint Resolve steady_originate_transfer steady_originate_proposal steady_services : steady.
Lemma steady_run_transfer : steady run_transfer.
Proof. keep. Qed.
Lemma steady_run_governance : steady (run_governance_activation multiaddr_from_str has_p2p).
Proof. keep. Qed.
#[local] Hint Resolve steady_run_transfer steady_run_governance : steady.
Lemma steady_finalize error : steady (finalize error).
Proof. keep. Qed.

(** ** Stages end *)

(** A clock: it does not go back, [Instant::now] reads it, and sleeping takes at
    least the time asked for. *)
Context (time : N -> Z) (time_mono : forall n n', R n n' -> time n <= time n').
Context (time_now : forall n, time n <= (instant_now n).2 <= time (instant_now n).1).
Context (time_sleep : forall d n, time n + d * 1000000 <= time (sleep_millis d n)).

Definition finishes {A} (m : HarnessM N A) : Prop := forall s, (m s).2 <> Err OutOfFuel.

Lemma finishes_ret {A} (a : A) : finishes (ret a).
Proof. done. Qed.
Lemma finishes_fail {A} e : e <> OutOfFuel -> finishes (fail e : HarnessM N A).
Proof. intros He s. simpl. congruence. Qed.
Lemma finishes_lift {A} (res : result HarnessError A) : res <> Err OutOfFuel -> finishes (lift res).
Proof. intros Hr s. exact Hr. Qed.
Lemma finishes_gets {A} (f : Runner N -> A) : finishes (gets f).
Proof. done. Qed.
Lemma finishes_modify f : finishes (modify f).
Proof. done. Qed.
Lemma finishes_bind {A B} (m : HarnessM N A) (k : A -> HarnessM N B) :
  finishes m -> (forall a, finishes (k a)) -> finishes (bind m k).
Proof.
  intros Hm Hk s. specialize (Hm s). unfold bind. destruct (m s) as [s' [a|e]]; [apply Hk|]. simpl in *. congruence.
Qed.
Lemma finishes_try {E A} (m : M _ E A) : finishes (try m).
Proof. intros s. unfold try. by destruct (m s). Qed.
Lemma finishes_map_err {E A} (f : E -> HarnessError) (m : M _ E A) : (forall e, f e <> OutOfFuel) -> finishes (map_err f m).
Proof. intros Hf s. unfold map_err. destruct (m s) as [s' [a|e]]; [done|]. simpl. specialize (Hf e). congruence. Qed.
Lemma finishes_call {A} (f : N -> N * result Text A) : finishes (call f).
Proof. intros s. unfold call. by destruct (f (rn_world s)) as [n [a|t]]. Qed.
Lemma finishes_ask {A} (f : N -> N * A) : finishes (ask f).
Proof. intros s. unfold ask. by destruct (f (rn_world s)). Qed.

(** With one poll per second left before the timeout, and one more, the loop ends. *)
Lemma stage_loop_finishes {T} fuel stage timeout start (poll : HarnessM N (StagePoll T)) s :
  steady poll -> (0 < fuel)%nat ->
  start + (timeout + 1 - Z.of_nat fuel) * nanos_per_second <= time (rn_world s) ->
  (stage_loop fuel stage timeout start poll s).2 <> Err OutOfFuel.
Proof.
  intros Hp. revert s. induction fuel as [|fuel IH]; intros s Hf Ht; [lia|]. cbn [stage_loop].
  unfold bind at 1, try. pose proof (Hp s) as [Hs1 _]. destruct (poll s) as [s1 [[v|]|e]]; simpl in Hs1.
  - unfold elapsed_millis, elapsed, bind, ask. by destruct (instant_now (rn_world s1)).
  - apply time_mono in Hs1. unfold elapsed. unfold bind at 1 2, ask. pose proof (time_now (rn_world s1)) as Hnow.
    destruct (instant_now (rn_world s1)) as [n1 now1]. simpl in Hnow.
    cbn [ret fst snd]. destruct (_ <=? _) eqn:E.
    + unfold elapsed_millis, elapsed, bind, ask. by destruct (instant_now _).
    + apply Z.leb_gt in E. unfold bind at 1, act. apply IH.
      * destruct fuel; [|lia]. unfold nanos_per_second in *. lia.
      * simpl. pose proof (time_sleep POLL_INTERVAL_MILLIS n1) as Hsl. unfold POLL_INTERVAL_MILLIS, nanos_per_second in *. lia.
  - simpl. destruct (is_panic e) eqn:Ee; [by destruct e|]. unfold elapsed_millis, elapsed, bind, ask. by destruct (instant_now (rn_world s1)).
Qed.
Lemma finishes_stage {T} stage timeout (poll : HarnessM N (StagePoll T)) :
  steady poll -> 0 <= timeout -> finishes (wait_for_stage stage timeout poll).
Proof.
  intros Hp Ht s. unfold wait_for_stage. unfold bind at 1, ask. pose proof (time_now (rn_world s)) as Hnow.
  destruct (instant_now (rn_world s)) as [n start]. simpl in Hnow. apply stage_loop_finishes; [done|lia|].
  simpl. unfold nanos_per_second. lia.
Qed.

Ltac pure_error :=
  unfold parse_h256, parse_hex_u32, decode_hex_bytes, canonical_bootnode, port_from_listen_addr, seed_flag;
  repeat first [congruence | case_match].
Ltac finish_rule := idtac;
  lazymatch goal with
  | |- finishes (bind _ _) => apply finishes_bind; [|intros ?]
  | |- finishes (ret _) => apply finishes_ret
  | |- finishes (fail _) => apply finishes_fail; congruence
  | |- finishes (lift _) => apply finishes_lift; solve [pure_error]
  | |- finishes (gets _) => apply finishes_gets
  | |- finishes (try _) => apply finishes_try
  | |- finishes (map_err _ _) => apply finishes_map_err; congruence
  | |- finishes (call _) => apply finishes_call
  | |- finishes (ask _) => apply finishes_ask
  | |- finishes (act _) => done
  | |- finishes (modify _) => apply finishes_modify
  | |- finishes (wait_for_stage _ _ _) => apply finishes_stage;
      [solve [keep]|by repeat match goal with k : ScenarioKind |- _ => destruct k end]
  end.
Ltac finish := walk finish_rule.

Lemma finishes_find_in_blocks rpc h numbers : finishes (find_in_blocks rpc h numbers).
Proof. induction numbers as [|i numbers IH]; simpl; finish. Qed.
Lemma finishes_vote_each rpc runtime id seeds : finishes (vote_each rpc runtime id seeds).
Proof. induction seeds as [|seed seeds IH]; simpl; finish. Qed.
Lemma finishes_allocate_node_ports names : finishes (allocate_node_ports names).
Proof. induction names as [|name names IH]; simpl; finish. Qed.
Lemma finishes_stop_each names : finishes (stop_each names).
Proof. induction names as [|name names IH]; simpl; finish. Qed.
#[local] Hint Resolve finishes_find_in_blocks finishes_vote_each finishes_allocate_node_ports finishes_stop_each : steady.

Lemma finishes_run_transfer : finishes run_transfer.
Proof. finish. Qed.
Lemma finishes_run_governance : finishes (run_governance_activation multiaddr_from_str has_p2p).
Proof. finish. Qed.
#[local] Hint Resolve finishes_run_transfer finishes_run_governance : steady.
Lemma finishes_run : finishes (run multiaddr_from_str has_p2p workspace_root).
Proof. finish. Qed.
Lemma finishes_finalize error : finishes (finalize error).
Proof. finish. Qed.

(** ** Preparing the domains *)
Lemma steady_prepare_domains :
  (forall s f, core (s {{ rn_node_configs ::= f }}) = core s) -> (forall s o, core (s {{ rn_source_follower := o }}) = core s) ->
  steady (prepare_domain_configs multiaddr_from_str has_p2p workspace_root).
Proof.
  intros Hn Hf.
  assert (forall f, steady (modify (fun s => s {{ rn_node_configs ::= f }}) : HarnessM N unit)) as Hn'
    by (intros f s; split; [reflexivity|apply Hn]).
  assert (forall o, steady (modify (fun s => s {{ rn_source_follower := o }}) : HarnessM N unit)) as Hf'
    by (intros o s; split; [reflexivity|apply Hf]).
  walk ltac:(idtac; first [keep_rule | apply Hn' | apply Hf']).
Qed.

(** ** Reading a chain *)
Context `{!CodecOk, !HexCodecOk, !AccountOk, !Currency B, !CurrencyOk B, !ScaleOk ExportRecord, !ScaleOk ObservedImportRecord}.
Context (chain_at : N -> DomainId -> Chain B) (node_domain : bytes -> DomainId).

(** The storage of a chain, at the keys of exports and imports. *)
Definition stores_transfers (ch : Chain B) (store : bytes -> option bytes) : Prop :=
  (forall id, store (export_record_storage_key id) = scale_encode <$> ts_exports_by_id (w_transfers (ch_world ch)) !! id) /\
  (forall id, store (observed_import_storage_key id)
     = scale_encode <$> ts_observed_imports_by_id (w_transfers (ch_world ch)) !! id).
(** The node at a URL answers from the storage of the chain it serves. *)
Definition serves_chains : Prop := forall url key n n' v,
  state_getStorage url (hex_hash key) n = (n', Ok v) ->
  exists store, stores_transfers (chain_at n' (node_domain url)) store /\ v = hex_hash <$> store key.
Context (Hserve : serves_chains).

Lemma load_reads {T} `{!Scale T, !ScaleOk T} rpc key (o : option T) s s' (find : Chain B -> option T) :
  (forall ch store, stores_transfers ch store -> store key = scale_encode <$> find ch) ->
  load_storage_value scale_decode rpc key s = (s', Ok o) -> o = find (chain_at (rn_world s') (node_domain rpc)).
Proof.
  intros Hk. unfold load_storage_value, bind, call.
  destruct (state_getStorage rpc (hex_hash key) (rn_world s)) as [n [v|]] eqn:E; [|done].
  destruct (Hserve _ _ _ _ _ E) as (store & Hst & ->). rewrite (Hk _ _ Hst).
  destruct (find _) as [v|] eqn:Ef; simpl; [|intros [= <- <-]; simpl; by rewrite Ef].
  unfold lift, decode_hex_bytes. simpl. rewrite hex_decode_encode, decode_whole. intros [= <- <-]. simpl. by rewrite Ef.
Qed.
Lemma export_read rpc id s s' o :
  export_record rpc id s = (s', Ok o) ->
  o = ts_exports_by_id (w_transfers (ch_world (chain_at (rn_world s') (node_domain rpc)))) !! id.
Proof. apply (load_reads _ _ _ _ _ (fun ch => ts_exports_by_id (w_transfers (ch_world ch)) !! id)). by intros ch store [Hx _]. Qed.
Lemma import_read rpc id s s' o :
  observed_import rpc id s = (s', Ok o) ->
  o = ts_observed_imports_by_id (w_transfers (ch_world (chain_at (rn_world s') (node_domain rpc)))) !! id.
Proof. apply (load_reads _ _ _ _ _ (fun ch => ts_observed_imports_by_id (w_transfers (ch_world ch)) !! id)). by intros ch store [_ Hx]. Qed.

(** A handler that does not change the summary or the runner's knowledge, up to its
    result: what the proofs below step over. *)
Lemma steady_ensures {E A} s (m : M (Runner N) E A) : steady m -> ensures (fun _ => True) kept s m (fun _ _ => True).
Proof. intros Hm. apply ensures_plain. specialize (Hm s). destruct (m s) as [s' [a|e]]; by split. Qed.

(** The poll that ended a stage. *)
Lemma stage_ready {T} stage timeout (poll : HarnessM N (StagePoll T)) s s' v :
  steady poll -> wait_for_stage stage timeout poll s = (s', Ok v) ->
  exists s1 s2, kept s s1 /\ poll s1 = (s2, Ok (PollReady v)) /\ kept s2 s'.
Proof.
  intros Hp. unfold wait_for_stage. unfold bind at 1. pose proof (steady_ask instant_now (es_instant _ Henv) s) as Hs.
  destruct (ask instant_now s) as [s0 [start|]]; [|done]. simpl in Hs. generalize (S (Z.to_nat timeout)). intros fuel.
  enough (forall s0, stage_loop fuel stage timeout start poll s0 = (s', Ok v) ->
    exists s1 s2, kept s0 s1 /\ poll s1 = (s2, Ok (PollReady v)) /\ kept s2 s') as Hl.
  { intros (s1 & s2 & K1 & E & K2)%Hl. exists s1, s2. split_and!; [by etransitivity|done|done]. }
  clear s Hs s0. induction fuel as [|fuel IH]; intros s; simpl; [done|]. unfold bind at 1, try.
  pose proof (Hp s) as Hs. destruct (poll s) as [s1 [[w|]|e]] eqn:E; simpl in Hs.
  - intros Hr. exists s, s1. assert (steady (do! duration_ms := elapsed_millis start in
      do! _ := record_stage_success_with_duration stage duration_ms in ret w)) as Hk by keep.
    specialize (Hk s1). revert Hr Hk. unfold elapsed_millis, elapsed, bind, ask. destruct (instant_now (rn_world s1)).
    intros [= <- <-] Hk. by split_and!.
  - intros Hr. assert (steady (elapsed start)) as Hk by keep. specialize (Hk s1). unfold bind at 1 in Hr.
    destruct (elapsed start s1) as [s2 [d|]]; [|done]. simpl in Hk. destruct (_ <=? _).
    + exfalso. revert Hr. unfold elapsed_millis, elapsed, bind, ask. by destruct (instant_now (rn_world s2)).
    + unfold bind at 1 in Hr. pose proof (steady_act (sleep_millis POLL_INTERVAL_MILLIS) (es_sleep _ Henv _) s2) as Hk'.
      destruct (act _ s2) as [s3 [u|]]; [|done]. simpl in Hk'. apply IH in Hr as (s4 & s5 & K1 & E' & K2).
      exists s4, s5. split_and!; [|done|done]. do 2 (etransitivity; [eassumption|]). by etransitivity.
  - destruct (is_panic e); [done|]. unfold elapsed_millis, elapsed, bind, ask. by destruct (instant_now (rn_world s1)).
Qed.

(** ** Following a transfer *)
Context (Hadvance : forall n n' d, R n n' -> rtc (transfers_step d) (transfers_conf (chain_at n d)) (transfers_conf (chain_at n' d))).
Context (Hreach : forall n d, transfers_reachable d (transfers_conf (chain_at n d))).
Context (export_ids_distinct : forall d s s',
  0 <= s < u64_max -> 0 <= s' < u64_max -> export_id d s = export_id d s' -> s = s').
Context (core_scenario : forall s s', core s = core s' -> rn_scenario s = rn_scenario s').
Context (core_nodes : forall s s', core s = core s' -> rn_node_configs s = rn_node_configs s').

(** The chain of [d] has an export, a resolved one, an import it has finalized. *)
Definition exported_at (n : N) (d : DomainId) (id : hash) (leaf : ExportLeaf) : Prop :=
  exists x, ts_exports_by_id (w_transfers (ch_world (chain_at n d))) !! id = Some x /\ er_leaf x = leaf.
Definition resolved_at (n : N) (d : DomainId) (id : hash) (leaf : ExportLeaf) : Prop :=
  exists x, ts_exports_by_id (w_transfers (ch_world (chain_at n d))) !! id = Some x /\ er_leaf x = leaf /\
    er_status x = RemoteFinalized.
Definition credited_at (n : N) (d : DomainId) (id : hash) (source : DomainId) (recipient : bytes) (amount : Z) : Prop :=
  exists r, ts_observed_imports_by_id (w_transfers (ch_world (chain_at n d))) !! id = Some r /\
    oir_status r = ImportRemoteFinalized /\ oir_source_domain r = source /\ oir_recipient r = recipient /\
    oir_amount r = amount.

Lemma exported_later n n' d id leaf : R n n' -> exported_at n d id leaf -> exported_at n' d id leaf.
Proof.
  intros Hn (x & Hx & El). destruct (resolved_persists d (export_ids_distinct d) _ _ id x (Hreach n d) (Hadvance _ _ d Hn) Hx)
    as (x' & Hx' & El' & _). exists x'. split; [done|congruence].
Qed.
Lemma credited_later n n' d id source recipient amount :
  R n n' -> credited_at n d id source recipient amount -> credited_at n' d id source recipient amount.
Proof.
  intros Hn (r & Hr & Hf & E1 & E2 & E3).
  destruct (finalized_persists d (export_ids_distinct d) _ _ id r (Hadvance _ _ d Hn) Hr Hf) as (r' & Hr' & Hs & Hf').
  unfold same_import in Hs. exists r'. split_and!; [done|done|intuition congruence..].
Qed.
Lemma resolved_later n n' d id leaf : R n n' -> resolved_at n d id leaf -> resolved_at n' d id leaf.
Proof.
  intros Hn (x & Hx & El & Hs). destruct (resolved_persists d (export_ids_distinct d) _ _ id x (Hreach n d) (Hadvance _ _ d Hn) Hx)
    as (x' & Hx' & El' & Hs'). exists x'. split_and!; [done|congruence|auto].
Qed.

Abbreviation runs s m Q := (ensures (fun _ => True) kept s m Q).

Lemma runs_skip {E A A'} s (m : M (Runner N) E A) (k : A -> M (Runner N) E A') Q :
  steady m -> (forall a s', kept s s' -> runs s' (k a) Q) -> runs s (bind m k) Q.
Proof. intros Hm Hk. eapply ensures_bind; [by apply steady_ensures|]. intros a s' Hs _. by apply Hk. Qed.
(** What holds of the result of a handler. *)
Lemma runs_if {E A} s (m : M (Runner N) E A) (Q : A -> Runner N -> Prop) :
  steady m -> (forall a s', m s = (s', Ok a) -> Q a s') -> runs s m Q.
Proof.
  intros Hm HQ. apply ensures_plain. specialize (Hm s). destruct (m s) as [s' [a|e]]; (split; [done|]); [by apply HQ|done].
Qed.

Lemma match_export_found rpc matched ids s :
  runs s (match_export rpc matched ids) (fun o s' => forall id r, o = Some (id, r) ->
    matched r = true /\ exported_at (rn_world s') (node_domain rpc) id (er_leaf r)).
Proof.
  revert s. induction ids as [|id ids IH]; intros s; simpl; [by apply ensures_ret|].
  eapply ensures_bind; [apply runs_if; [solve [keep]|]; intros o s' E; exact (export_read _ _ _ _ _ E)|].
  intros o s' _ Ho. simpl in Ho. destruct o as [r|]; [|apply IH]. destruct (matched r) eqn:Em; [|apply IH].
  apply ensures_ret. intros id' r' [= <- <-]. split; [done|]. by exists r.
Qed.
Lemma scan_epochs_found rpc matched epochs s :
  runs s (scan_epochs rpc matched epochs) (fun o s' => forall id r, o = Some (id, r) ->
    matched r = true /\ exported_at (rn_world s') (node_domain rpc) id (er_leaf r)).
Proof.
  revert s. induction epochs as [|e epochs IH]; intros s; simpl; [by apply ensures_ret|].
  apply runs_skip; [solve [keep]|]. intros ids s1 _. eapply ensures_bind; [apply match_export_found|].
  intros o s2 _ Ho. destruct o as [[id r]|]; [|apply IH]. apply ensures_ret. intros id' r' [= <- <-]. by apply Ho.
Qed.
(** A stage's result has what the poll that ended it found, if that lasts. *)
Lemma runs_stage {T} stage timeout (poll : HarnessM N (StagePoll T)) s (Q : T -> N -> Prop) :
  steady poll -> (forall v n n', R n n' -> Q v n -> Q v n') ->
  (forall s1, kept s s1 -> runs s1 poll (fun p s2 => forall v, p = PollReady v -> Q v (rn_world s2))) ->
  runs s (wait_for_stage stage timeout poll) (fun v s' => Q v (rn_world s')).
Proof.
  intros Hp Hl Hpoll. apply runs_if; [by apply steady_stage|]. intros v s' (s1 & s2 & K1 & E & [K2 _])%stage_ready; [|done].
  apply (Hl _ _ _ K2). specialize (Hpoll s1 K1). apply ensures_plain in Hpoll. rewrite E in Hpoll. by apply Hpoll.
Qed.
Lemma runs_gets {E A A'} s (f : Runner N -> A) (k : A -> M (Runner N) E A') Q : runs s (k (f s)) Q -> runs s (bind (gets f) k) Q.
Proof. done. Qed.

(** The node of a domain's configuration serves the domain. *)
Definition nodes_ok (s : Runner N) : Prop := forall d c, rn_node_configs s !! d = Some c -> node_domain (rpc_url c) = d.
Lemma nodes_kept s s' : kept s s' -> nodes_ok s -> nodes_ok s'.
Proof. intros [_ Hc] Hn d c. rewrite (core_nodes _ _ Hc). apply Hn. Qed.
Lemma scenario_kept s s' : kept s s' -> rn_scenario s' = rn_scenario s.
Proof. intros [_ Hc]. by apply core_scenario. Qed.

Lemma connects s d : nodes_ok s -> runs s (connect_domain d) (fun rpc _ => node_domain rpc = d).
Proof.
  intros Hn. unfold connect_domain, node_url, node_config. apply runs_if; [solve [keep]|]. intros rpc s'.
  unfold connect, bind, gets, call, ret. destruct (rn_node_configs s !! d) as [c|] eqn:E; [|done]. simpl.
  destruct (rpc_connect _ _) as [n [[]|]]; [|done]. simpl. intros [= _ <-]. by apply Hn.
Qed.

(** The account of the seed. *)
Definition seeds (seed : string) (account : bytes) : Prop :=
  exists keypair, pair_from_string (str_bytes seed) = Some keypair /\ account = account_to_bytes (pair_account keypair).
Lemma recipient_seeds s seed : runs s (account_id_bytes_from_seed (str_bytes seed)) (fun r _ => seeds seed r).
Proof.
  apply runs_if; [solve [keep]|]. intros r s'. unfold account_id_bytes_from_seed, account_id_from_seed, pair_of_seed, bind.
  destruct (pair_from_string _) as [keypair|] eqn:E; [|done]. intros [= _ <-]. by exists keypair.
Qed.

Definition transfer_leaf (k : ScenarioKind) (recipient : bytes) (leaf : ExportLeaf) : Prop :=
  el_target_domain leaf = target_domain k /\ el_recipient leaf = recipient /\ el_amount leaf = transfer_amount.
(** The transfer is an export of Earth, of the amount, to Eve. *)
Definition transfer_made (k : ScenarioKind) (t : TransferOutcome) (n : N) : Prop :=
  to_amount t = transfer_amount /\ seeds "//Eve" (to_recipient t) /\
  exists leaf, exported_at n Earth (to_export_id t) leaf /\ transfer_leaf k (to_recipient t) leaf.

Lemma transfer_made_later k t n n' : R n n' -> transfer_made k t n -> transfer_made k t n'.
Proof. intros Hn (Ha & Hr & leaf & Hx & Hl). split_and!; [done..|]. exists leaf. split; [|done]. by eapply exported_later. Qed.

Lemma originate_exports s :
  nodes_ok s -> runs s originate_transfer (fun t s' => transfer_made (rn_scenario s) t (rn_world s')).
Proof.
  intros Hn. unfold originate_transfer, scenario. apply runs_gets. cbv zeta.
  eapply ensures_bind; [by apply connects|]. intros rpc s1 _ Hrpc. simpl in Hrpc.
  apply runs_skip; [solve [keep]|]. intros sender s2 _.
  eapply ensures_bind; [apply recipient_seeds|]. intros recipient s3 _ Hr. simpl in Hr.
  do 4 (apply runs_skip; [solve [keep]|]; intros ? ? _).
  eapply ensures_bind.
  - apply (runs_stage _ _ _ _ (fun t n => transfer_made (rn_scenario s) t n)); [solve [keep]|intros *; apply transfer_made_later|].
    intros s4 _. apply runs_skip; [solve [keep]|]. intros epoch s5 _. eapply ensures_bind; [apply scan_epochs_found|].
    intros o s6 _ Ho. apply ensures_ret. intros t Ht. destruct o as [[id r]|]; [|done]. injection Ht as <-.
    destruct (Ho _ _ eq_refl) as [Hm Hx]. rewrite Hrpc in Hx. unfold is_transfer in Hm.
    apply andb_true_iff in Hm as [[[_ Et]%andb_true_iff Ea]%andb_true_iff Er].
    apply bool_decide_eq_true in Et, Er. apply Z.eqb_eq in Ea. split_and!; [done..|]. exists (er_leaf r). by split_and!.
  - intros t s4 Hs4 Ht. apply runs_skip; [solve [keep]|]. intros _ s5 [K _]. apply ensures_ret. by eapply transfer_made_later.
Qed.
Lemma destination_credits s transfer header balance account :
  nodes_ok s ->
  runs s (wait_for_destination_observation transfer header balance account) (fun _ s' =>
    credited_at (rn_world s') (target_domain (rn_scenario s)) (to_export_id transfer) (source_domain (rn_scenario s))
      (to_recipient transfer) (to_amount transfer)).
Proof.
  intros Hn. unfold wait_for_destination_observation, scenario. apply runs_gets.
  eapply ensures_bind; [by apply connects|]. intros rpc s1 _ Hrpc. simpl in Hrpc. apply runs_gets.
  apply runs_skip; [solve [keep]|]. intros expected s2 _.
  apply (runs_stage _ _ _ _ (fun _ n => credited_at n (target_domain (rn_scenario s)) (to_export_id transfer)
    (source_domain (rn_scenario s)) (to_recipient transfer) (to_amount transfer))); [solve [keep]|intros ? ? ?; apply credited_later|]. intros s3 _.
  eapply ensures_bind; [apply runs_if; [solve [keep]|]; intros o s' E; exact (import_read _ _ _ _ _ E)|].
  intros o s4 _ Ho. simpl in Ho. apply runs_skip; [solve [keep]|]. intros b s5 [K _]. apply ensures_ret. intros v Hv.
  apply (credited_later _ _ _ _ _ _ _ K). destruct o as [r|]; [|done]. rewrite Hrpc in Ho. exists r.
  destruct (observed_as_expected _ _ _ _ r) eqn:Eo; [|done]. unfold observed_as_expected in Eo.
  repeat (apply andb_true_iff in Eo as [Eo ?]). rewrite ?bool_decide_eq_true, ?Z.eqb_eq in *. by split_and!.
Qed.
Lemma settlement_resolves s transfer k leaf :
  nodes_ok s -> rn_scenario s = k -> exported_at (rn_world s) (source_domain k) (to_export_id transfer) leaf ->
  runs s (wait_for_source_settlement_resolution transfer) (fun _ s' =>
    resolved_at (rn_world s') (source_domain k) (to_export_id transfer) leaf).
Proof.
  intros Hn Hk Hx. unfold wait_for_source_settlement_resolution, scenario. apply runs_gets. rewrite Hk.
  eapply ensures_bind; [by apply connects|]. intros rpc s1 [K1 _] Hrpc. simpl in Hrpc.
  apply runs_skip; [solve [keep]|]. intros sender s2 [K2 _]. apply runs_gets.
  apply runs_skip; [solve [keep]|]. intros expected s3 [K3 _].
  apply (runs_stage _ _ _ _ (fun _ n => resolved_at n (source_domain k) (to_export_id transfer) leaf)); [solve [keep]|intros ? ? ?; apply resolved_later|]. intros s4 [K4 _].
  eapply ensures_bind; [apply runs_if; [solve [keep]|]; intros o s' E; exact (export_read _ _ _ _ _ E)|].
  intros o s5 [K5 _] Ho. simpl in Ho. apply runs_skip; [solve [keep]|]. intros b s6 [K6 _]. apply ensures_ret. intros v Hv.
  apply (resolved_later _ _ _ _ _ K6). destruct o as [r|]; [|done]. rewrite Hrpc in Ho.
  assert (R (rn_world s) (rn_world s5)) as K by (do 4 (etransitivity; [eassumption|]); done).
  destruct (exported_later _ _ _ _ _ K Hx) as (x & Ex & El). rewrite Ex in Ho. injection Ho as ->. exists x.
  destruct (resolved_as_expected expected x) eqn:Eo; [|done]. unfold resolved_as_expected in Eo.
  repeat (apply andb_true_iff in Eo as [Eo ?]). rewrite ?bool_decide_eq_true in *. by split_and!.
Qed.

(** The transfer settled: credited on the target's chain, resolved on Earth's. *)
Definition transfer_settled (k : ScenarioKind) (n : N) : Prop :=
  exists id recipient leaf, seeds "//Eve" recipient /\ transfer_leaf k recipient leaf /\
    resolved_at n (source_domain k) id leaf /\
    credited_at n (target_domain k) id (source_domain k) recipient transfer_amount.

(** Over handlers that only move the world along, from the state where [K] starts. *)
Ltac skip K := apply runs_skip; [solve [keep]|];
  let s := fresh "s" in let K' := fresh in let K'' := fresh in
  intros ? s K'; pose proof (transitivity K K') as K''; clear K K'; rename K'' into K.

Lemma run_transfer_settles s :
  nodes_ok s -> runs s run_transfer (fun _ s' => transfer_settled (rn_scenario s) (rn_world s')).
Proof.
  intros Hn. unfold run_transfer. unfold scenario at 1. apply runs_gets. set (k := rn_scenario s).
  assert (forall s', kept s s' -> nodes_ok s' /\ rn_scenario s' = k) as Hk
    by (intros s' K; split; [by eapply nodes_kept|by apply scenario_kept]).
  assert (source_domain k = Earth) as Hearth by (by destruct k).
  assert (kept s s) as K by done. do 3 skip K. destruct (Hk _ K) as [Hn1 Hk1].
  eapply ensures_bind; [by apply originate_exports|]. intros t s3 K3 Ht. simpl in Ht. rewrite Hk1 in Ht.
  pose proof (transitivity K K3) as Ks3. assert (kept s3 s3) as K1 by done. do 14 skip K1.
  destruct (Hk _ (transitivity Ks3 K1)) as [Hn2 Hk2].
  eapply ensures_bind; [by apply destination_credits|]. intros o s18 K18 Hc. simpl in Hc. rewrite Hk2 in Hc.
  pose proof (transitivity K1 K18) as K2. assert (kept s18 s18) as K3' by done. do 8 skip K3'.
  destruct Ht as (Ha & Hr & leaf & Hx & Hl). pose proof (transitivity K2 K3') as K4.
  destruct (Hk _ (transitivity Ks3 K4)) as [Hn3 Hk3].
  eapply ensures_bind.
  { apply (settlement_resolves _ _ k leaf); [done..|]. rewrite Hearth. eapply exported_later; [apply K4|done]. }
  intros ? s27 K27 Hres. simpl in Hres. eapply ensures_mono; [apply steady_ensures; solve [keep]|]. intros ? s28 [K28 _] _.
  exists (to_export_id t), (to_recipient t), leaf. split_and!; [done..| |].
  - by eapply resolved_later.
  - rewrite <- Ha. eapply credited_later; [|exact Hc]. etransitivity; [apply K3'|]. etransitivity; [apply K27|done].
Qed.

(** The preparation of a run, after which the nodes' configurations stay. *)
Definition preparation (s : Runner N) : HarnessM N unit :=
  do! _ := call (prepare_binaries (rn_binaries s)) in prepare_domain_configs multiaddr_from_str has_p2p workspace_root.
Lemma run_settles s s1 s' :
  preparation s s = (s1, Ok tt) -> rn_scenario s1 = rn_scenario s -> rn_scenario s <> EarthToMoonGovernanceActivation ->
  run multiaddr_from_str has_p2p workspace_root s = (s', Ok tt) -> nodes_ok s' -> transfer_settled (rn_scenario s) (rn_world s').
Proof.
  intros Hprep Hk Hgov Hrun Hn. unfold run, scenario in Hrun. unfold bind at 1 2, gets at 1 2 in Hrun.
  unfold preparation, bind in Hprep. unfold bind at 1 in Hrun. destruct (call _ s) as [s0 [u|]]; [|done].
  unfold bind at 1 in Hrun. rewrite Hprep in Hrun. rewrite bool_decide_eq_false_2 in Hrun by done.
  match type of Hrun with ?m s1 = _ => assert (steady m) as Hkeep by keep; pose proof (Hkeep s1) as K; rewrite Hrun in K;
    assert (runs s1 m (fun _ s2 => transfer_settled (rn_scenario s) (rn_world s2))) as Hsettle end.
  { assert (nodes_ok s1) as Hn1. { intros d c. rewrite <- (core_nodes _ _ (proj2 K)). apply Hn. }
    clear Hkeep Hrun. assert (kept s1 s1) as K1 by done. do 7 skip K1. rewrite <- Hk, <- (scenario_kept _ _ K1).
    apply run_transfer_settles. by eapply nodes_kept. }
  apply ensures_plain in Hsettle. rewrite Hrun in Hsettle. apply Hsettle.
Qed.
End Keeps.

(** ** The summary and the outcome *)
Section Verdict.
Context `{!Codec, !HexCodec, !Account, !StorageCodec, !Keys, !HarnessCodec, !Toml} {N : Type} `{!HarnessEnv N}.
Context {Multiaddr : Type} (multiaddr_from_str : bytes -> option Multiaddr) (has_p2p : Multiaddr -> bool).
Context (workspace_root : bytes).

Definition all_passed (l : list StageResult) : Prop := Forall (fun r => sr_success r = true) l.
(** While all goes well, after an error, and at the end. *)
Definition clean (x : ScenarioSummary) : Prop :=
  ss_success x = false /\ ss_failed_stage x = None /\ ss_failure_message x = None /\ all_passed (ss_stage_results x).
Definition stopped (x : ScenarioSummary) : Prop :=
  ss_success x = false /\ ss_failure_message x = None /\
  exists l r, ss_stage_results x = l ++ [r] /\ all_passed l /\ sr_success r = false /\ ss_failed_stage x = Some (sr_stage r).
Definition won (x : ScenarioSummary) : Prop :=
  ss_success x = true /\ ss_failed_stage x = None /\ ss_failure_message x = None /\ all_passed (ss_stage_results x).

(** The handler does not touch the summary. *)
Definition quiet {E A} (m : M (Runner N) E A) : Prop := forall s, rn_summary (m s).1 = rn_summary s.
(** From a clean summary the handler leaves one with [Q], or that of a failure. *)
Definition tidy (Q : ScenarioSummary -> Prop) {A} (m : HarnessM N A) : Prop :=
  forall s, clean (rn_summary s) ->
    match (m s).2 with Ok _ => Q (rn_summary (m s).1) | Err _ => clean (rn_summary (m s).1) \/ stopped (rn_summary (m s).1) end.

Lemma quiet_ret {E A} (a : A) : quiet (ret a : M _ E A).
Proof. done. Qed.
Lemma quiet_fail {E A} (e : E) : quiet (fail e : M _ E A).
Proof. done. Qed.
Lemma quiet_lift {E A} (res : result E A) : quiet (lift res).
Proof. done. Qed.
Lemma quiet_gets {E A} (f : Runner N -> A) : quiet (gets f : M _ E A).
Proof. done. Qed.
Lemma quiet_bind {E A B} (m : M _ E A) (k : A -> M _ E B) : quiet m -> (forall a, quiet (k a)) -> quiet (bind m k).
Proof.
  intros Hm Hk s. specialize (Hm s). unfold bind. destruct (m s) as [s' [a|e]]; [|done]. simpl in *. by rewrite Hk.
Qed.
Lemma quiet_try {E E' A} (m : M _ E A) : quiet m -> quiet (try m : M _ E' _).
Proof. intros Hm s. specialize (Hm s). unfold try. by destruct (m s). Qed.
Lemma quiet_map_err {E E' A} (f : E -> E') (m : M _ E A) : quiet m -> quiet (map_err f m).
Proof. intros Hm s. specialize (Hm s). unfold map_err. by destruct (m s). Qed.
Lemma quiet_call {A} (f : N -> N * result Text A) : quiet (call f).
Proof. intros s. unfold call. by destruct (f (rn_world s)). Qed.
Lemma quiet_ask {A} (f : N -> N * A) : quiet (ask f).
Proof. intros s. unfold ask. by destruct (f (rn_world s)). Qed.
Lemma quiet_read_config p : quiet (read_config p).
Proof. intros s. unfold read_config. by destruct (read_file p (rn_world s)). Qed.

Ltac quiet_rule := idtac;
  lazymatch goal with
  | |- quiet (bind _ _) => apply quiet_bind; [|intros ?]
  | |- quiet (ret _) => apply quiet_ret
  | |- quiet (fail _) => apply quiet_fail
  | |- quiet (lift _) => apply quiet_lift
  | |- quiet (gets _) => apply quiet_gets
  | |- quiet (try _) => apply quiet_try
  | |- quiet (map_err _ _) => apply quiet_map_err
  | |- quiet (call _) => apply quiet_call
  | |- quiet (ask _) => apply quiet_ask
  | |- quiet (act _) => done
  | |- quiet (modify _) => done
  | |- quiet (read_config _) => apply quiet_read_config
  end.
Ltac silent := walk quiet_rule.

Lemma quiet_find_in_blocks rpc h numbers : quiet (find_in_blocks (N := N) rpc h numbers).
Proof. induction numbers as [|i numbers IH]; simpl; silent. Qed.
Lemma quiet_match_export rpc matched ids : quiet (match_export (N := N) rpc matched ids).
Proof. induction ids as [|id ids IH]; simpl; silent. Qed.
#[local] Hint Resolve quiet_find_in_blocks quiet_match_export : steady.
Lemma quiet_scan_epochs rpc matched epochs : quiet (scan_epochs (N := N) rpc matched epochs).
Proof. induction epochs as [|e epochs IH]; simpl; silent. Qed.
Lemma quiet_vote_each rpc runtime id seeds : quiet (vote_each (N := N) rpc runtime id seeds).
Proof. induction seeds as [|seed seeds IH]; simpl; silent. Qed.
Lemma quiet_allocate_node_ports names : quiet (allocate_node_ports (N := N) names).
Proof. induction names as [|name names IH]; simpl; silent. Qed.
Lemma quiet_stop_each names : quiet (stop_each (N := N) names).
Proof. induction names as [|name names IH]; simpl; silent. Qed.
#[local] Hint Resolve quiet_scan_epochs quiet_vote_each quiet_allocate_node_ports quiet_stop_each : steady.

Lemma tidy_quiet {A} (m : HarnessM N A) : quiet m -> tidy clean m.
Proof. intros Hm s Hs. rewrite (Hm s). destruct (m s).2; [done|by left]. Qed.
Lemma tidy_bind Q {A B} (m : HarnessM N A) (k : A -> HarnessM N B) :
  tidy clean m -> (forall a, tidy Q (k a)) -> tidy Q (bind m k).
Proof.
  intros Hm Hk s Hs. specialize (Hm s Hs). unfold bind. destruct (m s) as [s' [a|e]]; simpl in Hm; [|done]. by apply Hk.
Qed.
Lemma tidy_note (Q : ScenarioSummary -> Prop) f : (forall x, clean x -> Q (f x)) -> tidy Q (note f).
Proof. intros Hf s Hs. by apply Hf. Qed.

Lemma clean_passed x r : clean x -> sr_success r = true -> clean (x {{ ss_stage_results ::= fun l => l ++ [r] }}).
Proof. intros (S1 & S2 & S3 & S4) Hr. split_and!; simpl; [done..|]. apply Forall_app. by split; [|constructor]. Qed.
Lemma tidy_failure {A} stage timed_out ms secs e :
  tidy clean (bind (record_stage_failure stage timed_out ms secs) (fun _ => fail e) : HarnessM N A).
Proof.
  intros s (S1 & S2 & S3 & S4). right. split_and!; [done..|]. exists (ss_stage_results (rn_summary s)).
  eexists. simpl. rewrite S2. by split_and!.
Qed.
Lemma tidy_success stage ms : tidy clean (record_stage_success_with_duration (N := N) stage ms).
Proof. intros s Hs. by apply clean_passed. Qed.
Lemma quiet_elapsed start : quiet (elapsed_millis (N := N) start).
Proof. silent. Qed.

Lemma tidy_stage {T} stage timeout (poll : HarnessM N (StagePoll T)) : quiet poll -> tidy clean (wait_for_stage stage timeout poll).
Proof.
  intros Hp. apply tidy_bind; [apply tidy_quiet; silent|]. intros start.
  generalize (S (Z.to_nat timeout)). intros fuel. induction fuel as [|fuel IH]; simpl; [apply tidy_quiet; silent|].
  apply tidy_bind; [by apply tidy_quiet, quiet_try|]. intros [[v|]|e].
  - apply tidy_bind; [apply tidy_quiet, quiet_elapsed|]. intros ms. apply tidy_bind; [apply tidy_success|].
    intros _. apply tidy_quiet. silent.
  - apply tidy_bind; [apply tidy_quiet; silent|]. intros d. destruct (_ <=? _).
    + apply tidy_bind; [apply tidy_quiet, quiet_elapsed|]. intros ms. apply tidy_failure.
    + apply tidy_bind; [by apply tidy_quiet|done].
  - destruct (is_panic e); [apply tidy_quiet; silent|].
    apply tidy_bind; [apply tidy_quiet, quiet_elapsed|]. intros ms. apply tidy_failure.
Qed.
Lemma tidy_assert stage b : tidy clean (assert_stage (N := N) stage b).
Proof. destruct b; [apply tidy_success|apply tidy_failure]. Qed.

Ltac tidy_rule := idtac;
  lazymatch goal with
  | |- tidy _ (wait_for_stage _ _ _) => apply tidy_stage; solve [silent]
  | |- tidy _ (assert_stage _ _) => apply tidy_assert
  | |- tidy _ (note _) => apply tidy_note; intros ? (? & ? & ? & ?); by split_and!
  | |- tidy _ (bind _ _) => apply tidy_bind; [|intros ?]
  | |- tidy clean _ => apply tidy_quiet; solve [silent]
  end.
Ltac tidy_up := walk tidy_rule.

Lemma tidy_originate_transfer : tidy clean originate_transfer.
Proof. tidy_up. Qed.
Lemma tidy_originate_proposal : tidy clean (originate_governance_proposal multiaddr_from_str has_p2p).
Proof. tidy_up. Qed.
Lemma tidy_services : tidy clean wait_for_services.
Proof. tidy_up. Qed.
#[local] Hint Resolve tidy_originate_transfer tidy_originate_proposal tidy_services : steady.
Lemma tidy_run_transfer : tidy won run_transfer.
Proof. tidy_up. Qed.
Lemma tidy_run_governance : tidy won (run_governance_activation multiaddr_from_str has_p2p).
Proof. tidy_up. Qed.
#[local] Hint Resolve tidy_run_transfer tidy_run_governance : steady.
Lemma tidy_run : tidy won (run multiaddr_from_str has_p2p workspace_root).
Proof. tidy_up. Qed.

(** The summary that is written, and returned. *)
Definition failed_at (error : option HarnessError) (stage : option string) : option string :=
  match error, stage with
  | Some _, None => Some "unhandled_error"%string
  | _, _ => stage
  end.
Lemma note_error_summary error (s : Runner N) : exists s1, note_error error s = (s1, Ok tt) /\
  ss_success (rn_summary s1) = ss_success (rn_summary s) /\
  ss_stage_results (rn_summary s1) = ss_stage_results (rn_summary s) /\
  ss_failed_stage (rn_summary s1) = failed_at error (ss_failed_stage (rn_summary s)) /\
  ss_failure_message (rn_summary s1) = match error with Some e => Some e | None => ss_failure_message (rn_summary s) end.
Proof. destruct error; eexists; (split; [reflexivity|]); simpl; by destruct (ss_failed_stage (rn_summary s)). Qed.
Lemma finalize_summary error (s s' : Runner N) summary :
  finalize error s = (s', Ok summary) ->
  let x := rn_summary s in
  ss_success summary = ss_success x /\ ss_stage_results summary = ss_stage_results x /\
  ss_failed_stage summary = failed_at error (ss_failed_stage x) /\
  ss_failure_message summary = match error with Some e => Some e | None => ss_failure_message x end.
Proof.
  unfold finalize. unfold bind at 1. destruct (note_error_summary error s) as (s1 & -> & E1 & E2 & E3 & E4).
  unfold bind at 1, call at 1. destruct (unix_now_millis (rn_world s1)) as [n1 [now|]]; [|done].
  unfold bind at 1, note, modify. unfold bind at 1, layout, gets. unfold bind at 1. unfold bind at 1, call.
  destruct (write_summary _ _ _) as [n2 [[]|]]; [|done]. unfold bind. destruct (shutdown_all _) as [s2 [[]|]]; [|done].
  intros [= _ <-]. simpl. by rewrite E1, E2, E3, E4.
Qed.

(** C40: the summary tells the outcome.  When a scenario has run, the summary it
    writes says success exactly when the run ended without an error, and then every
    stage has passed; otherwise it carries the error and names as failed the last
    stage on record, the only one that did not pass, or, when every recorded stage
    passed, an unhandled error. *)
Theorem summary_tells_outcome k binaries root n n' summary error :
  run_scenario multiaddr_from_str has_p2p workspace_root k binaries root n = (n', Ok (summary, error)) ->
  match error with
  | None => won summary
  | Some e =>
    ss_success summary = false /\ ss_failure_message summary = Some e /\
    (all_passed (ss_stage_results summary) /\ ss_failed_stage summary = Some "unhandled_error"%string \/
     exists l r, ss_stage_results summary = l ++ [r] /\ all_passed l /\ sr_success r = false /\
       ss_failed_stage summary = Some (sr_stage r))
  end.
Proof.
  unfold run_scenario. cbv zeta. unfold bind at 1. destruct (create_dirs _ n) as [n1 [[]|]]; [|done].
  unfold bind, world_call. destruct (unix_now_millis n1) as [n2 [now|]]; [|done].
  set (s0 := new_runner _ _ _ _ _). assert (clean (rn_summary s0)) as Hs0 by (split_and!; [done..|constructor]).
  pose proof (tidy_run s0 Hs0) as Hrun. destruct (run _ _ _ s0) as [s res]. cbn [fst snd] in Hrun.
  assert (forall x, match res with Err (Panicked what) => (rn_world s, Err (Panicked what)) | _ => x end = (n', Ok (summary, error)) ->
    x = (n', Ok (summary, error))) as Hpanic by (by destruct res as [|[]]).
  intros Hf%Hpanic. clear Hpanic.
  destruct (finalize _ s) as [s1 [x|]] eqn:E; [|done]. apply finalize_summary in E as (E1 & E2 & E3 & E4).
  injection Hf as _ -> <-. destruct res as [[]|e]; simpl in Hrun, E3, E4.
  - destruct Hrun as (S1 & S2 & S3 & S4). unfold won. rewrite E1, E2, E3, E4. by split_and!.
  - rewrite E1, E2, E3, E4. destruct Hrun as [(S1 & S2 & S3 & S4)|(S1 & S2 & l & r & S3 & S4 & S5 & S6)].
    + rewrite S2. split_and!; [done..|by left].
    + rewrite S6. split_and!; [done..|]. right. exists l, r. by split_and!.
Qed.
End Verdict.

(** ** Scenarios end *)
Section Ends.
Context `{!Codec, !HexCodec, !Account, !StorageCodec, !Keys, !HarnessCodec, !Toml} {N : Type} `{!HarnessEnv N}.
Context {Multiaddr : Type} (multiaddr_from_str : bytes -> option Multiaddr) (has_p2p : Multiaddr -> bool).
Context (workspace_root : bytes).

(** The clock of the machine: it does not go back, [Instant::now] reads it, and
    sleeping takes at least the time asked for. *)
Record Clock (time : N -> Z) : Prop := {
  ck_mono : env_steps (fun n n' => time n <= time n');
  ck_now : forall n, time n <= (instant_now n).2 <= time (instant_now n).1;
  ck_sleep : forall millis n, time n + millis * 1000000 <= time (sleep_millis millis n)
}.
Context (time : N -> Z) (Hclock : Clock time).

Lemma create_dirs_finish dirs (n : N) : (create_dirs dirs n).2 <> Err OutOfFuel.
Proof.
  revert n. induction dirs as [|dir dirs IH]; intros n; simpl; [done|]. unfold bind, world_call.
  destruct (create_dir_all dir n) as [n1 [[]|]]; [apply IH|done].
Qed.

(** C39: a scenario ends.  Whatever the nodes and the services answer, each of its
    stages gives up at the first poll that is over after its timeout (a poll may start
    after it, when the sleep before it ended after it); so one poll for each second
    of the timeout, and one more, are enough, and the scenario never runs out of
    polls. *)
Theorem scenario_ends k binaries root n :
  match (run_scenario multiaddr_from_str has_p2p workspace_root k binaries root n).2 with
  | Ok (_, error) => error <> Some OutOfFuel
  | Err e => e <> OutOfFuel
  end.
Proof.
  assert (PreOrder (fun n n' => time n <= time n')) as Hpre by (split; [intros ?; lia|intros ? ? ?; lia]).
  pose proof (finishes_run multiaddr_from_str has_p2p workspace_root _ (ck_mono _ Hclock) (fun _ => tt)
    ltac:(done) ltac:(done) time ltac:(auto) (ck_now _ Hclock) (ck_sleep _ Hclock)) as Hrun.
  unfold run_scenario. cbv zeta. unfold bind. pose proof create_dirs_finish as Hd.
  match goal with |- context[create_dirs ?l n] => specialize (Hd l n); destruct (create_dirs l n) as [n1 [[]|e]] end;
    [|simpl in *; congruence].
  unfold world_call. destruct (unix_now_millis n1) as [n2 [now|]]; [|done].
  specialize (Hrun (new_runner k binaries (artifact_layout root) now n2)).
  destruct (run _ _ _ _) as [s res]. simpl in Hrun. set (error := match res with Ok _ => None | Err e => Some e end).
  pose proof (finishes_finalize error s) as Hfin. destruct (finalize error s) as [s1 [x|e]]; simpl in Hfin.
  - subst error. destruct res as [|[]]; simpl in *; congruence.
  - subst error. destruct res as [|[]]; simpl in *; congruence.
Qed.
End Ends.

(** ** A green transfer has settled *)
Section Green.
Context `{!Codec, !CodecOk, !CodecSep, !HexCodec, !HexCodecOk, !Account, !AccountOk, !Currency B, !CurrencyOk B}.
Context `{!StorageCodec, !Keys, !HarnessCodec, !Toml, !ScaleOk ExportRecord, !ScaleOk ObservedImportRecord}.
Context {N : Type} `{!HarnessEnv N}.
Context {Multiaddr : Type} (multiaddr_from_str : bytes -> option Multiaddr) (has_p2p : Multiaddr -> bool).
Context (workspace_root : bytes) (L : DomainId -> Z) (HL : forall d, 1 <= L d).
Context (export_ids_distinct : forall d s s',
  0 <= s < u64_max -> 0 <= s' < u64_max -> export_id d s = export_id d s' -> s = s').
Context (proposal_ids_distinct : forall d1 d2 s1 s2,
  0 <= s1 < u64_max -> 0 <= s2 < u64_max ->
  governance_proposal_id d1 s1 = governance_proposal_id d2 s2 -> d1 = d2 /\ s1 = s2).

(** The chains at the time of a world, and the chain a node serves. *)
Context (chain_at : N -> DomainId -> Chain B) (node_domain : bytes -> DomainId).

(** A chain's next block. *)
Definition next_block (d : DomainId) (ch ch' : Chain B) : Prop := exists hist bl,
  chain_run d (L d) hist ch /\ sys_block_number (bl_sys bl) = Z.of_nat (length hist) + 1 /\
  sys_block_number (bl_sys bl) <= u32_max /\ admissible_all (bl_sys bl) 0 (bl_extrinsics bl) (enter_block bl ch) /\
  ch' = execute_block bl ch.
(** In the world, each chain only grows. *)
Definition chains_grow (n n' : N) : Prop := forall d, rtc (next_block d) (chain_at n d) (chain_at n' d).

(** What the harness relies on: chains of the runtime that grow and do not fork,
    and nodes that answer from their chain's storage. *)
Record ServedChains : Prop := {
  wo_run : forall n d, exists hist, chain_run d (L d) hist (chain_at n d);
  wo_grow : env_steps chains_grow;
  wo_serve : serves_chains chain_at node_domain
}.
Context (Hworld : ServedChains).

#[local] Instance chains_grow_preorder : PreOrder chains_grow.
Proof. split; [by intros n d|]. intros n1 n2 n3 H12 H23 d. exact (transitivity (H12 d) (H23 d)). Qed.
Lemma next_block_transfers d ch ch' :
  next_block d ch ch' -> rtc (transfers_step d) (transfers_conf ch) (transfers_conf ch').
Proof.
  intros (hist & bl & Hrun & Hn & Hmax & Hadm & ->).
  destruct (chain_run_ok d (L d) (HL d) (export_ids_distinct d) proposal_ids_distinct _ _ Hrun) as [He Hok].
  by destruct (execute_block_advances d (L d) (HL d) (export_ids_distinct d) proposal_ids_distinct hist bl ch Hok He Hn Hmax Hadm).
Qed.
Lemma chains_transfers n n' d :
  chains_grow n n' -> rtc (transfers_step d) (transfers_conf (chain_at n d)) (transfers_conf (chain_at n' d)).
Proof.
  intros Hg. specialize (Hg d). induction Hg as [|ch1 ch2 ch3 H12 _ IH]; [done|]. etransitivity; [by apply next_block_transfers|done].
Qed.
Lemma chains_reachable n d : transfers_reachable d (transfers_conf (chain_at n d)).
Proof.
  destruct (wo_run Hworld n d) as [hist Hrun].
  destruct (chain_run_ok d (L d) (HL d) (export_ids_distinct d) proposal_ids_distinct _ _ Hrun) as [_ Hok].
  exact (co_transfers _ _ Hok).
Qed.

(** C9: a green transfer scenario has settled its transfer.  When a scenario that
    transfers runs without an error, against nodes that serve the chains they are
    configured for, then at its end Earth's chain has an export of the amount to
    Eve's account on the target domain, resolved as finalized remotely, and the
    target's chain has finalized the import of that export, with the same amount
    and recipient. *)
Theorem green_transfer_settled k binaries l now n s' :
  k <> EarthToMoonGovernanceActivation ->
  run multiaddr_from_str has_p2p workspace_root (new_runner k binaries l now n) = (s', Ok tt) ->
  nodes_ok node_domain s' ->
  transfer_settled chain_at k (rn_world s').
Proof.
  intros Hgov Hrun Hn. set (s := new_runner k binaries l now n) in *.
  destruct (preparation multiaddr_from_str has_p2p workspace_root s s) as [s1 res] eqn:Eprep.
  assert (rn_scenario s1 = rn_scenario s) as Hk.
  { pose proof (steady_prepare_domains multiaddr_from_str has_p2p workspace_root chains_grow (wo_grow Hworld) rn_scenario
      ltac:(done) ltac:(done) ltac:(done)) as Hp. revert Eprep. unfold preparation, bind, call.
    destruct (prepare_binaries _ _) as [n1 [u|]]; [|by intros [= <- _]]. intros E.
    specialize (Hp (s {{ rn_world := n1 }})). rewrite E in Hp. apply Hp. }
  assert (res = Ok tt) as ->.
  { destruct res as [[]|e]; [done|]. exfalso. revert Hrun Eprep. unfold run, preparation, scenario, gets. unfold bind.
    destruct (call _ s) as [s0 [u|]]; [|done]. intros Hrun Eprep. by rewrite Eprep in Hrun. }
  change k with (rn_scenario s). eapply (run_settles multiaddr_from_str has_p2p workspace_root chains_grow (wo_grow Hworld)
    (fun s => (rn_scenario s, rn_node_configs s)) ltac:(done) ltac:(done) ltac:(done) ltac:(done) chain_at node_domain
    (wo_serve Hworld) chains_transfers chains_reachable export_ids_distinct); try done; intros ? ?; congruence.
Qed.
End Green.
