(* ===== verification/HarnessWitnesses.v ===== *)
(** * A scenario that succeeds

    The harness runs the delayed transfer from Earth to Mars of
    [NetworkExample.v].  The world is a clock, the files the harness has written and
    the ports it has reserved; time passes when the harness sleeps, and the chains
    and the services' stores follow the clock: Earth includes the transfer after
    three seconds, closes its epoch after four, Mars finalizes the import after
    twenty and Earth the acknowledgement after twenty-two. *)

From S2P Require Import Prelude Types Effects Codec Reference Merkle Config Frame Domain Epochs Transfers TransfersProofs Governance Runtime RuntimeProofs Verify VerifyProofs Relay RelayWitnesses Importer ImporterProofs CrossChain NetworkExample Exporter Services Harness HarnessProofs.

#[local] Existing Instance reference_codec.
#[local] Existing Instance reference_account.
#[local] Existing Instance reference_account_ok.
#[local] Existing Instance reference_currency.
#[local] Existing Instance reference_currency_ok.
#[local] Existing Instance plain_hex.
#[local] Existing Instance plain_hex_ok.
#[local] Existing Instance flat_light_client.

(** ** Codecs and keys *)

#[local] Instance world_storage_codec : StorageCodec := {|
  scale_account := tagged 30 Z;
  scale_observed_import := tagged 31 _;
  scale_export_record := tagged 32 _;
  scale_governance_proposal := tagged 33 _;
  scale_governance_ack_record := tagged 34 _
|}.
#[local] Instance world_keys : Keys := {|
  Pair := Z;
  Signature := unit;
  pair_from_string s :=
    if bool_decide (s = str_bytes "//Alice") then Some 1
    else if bool_decide (s = str_bytes "//Eve") then Some 2 else None;
  pair_account p := acct p;
  pair_sign _ _ := tt
|}.
#[local] Instance world_codec : HarnessCodec := {|
  hashes_decode b := fst <$> unflat (A := list (list Z)) b;
  holds_decode b := map (mkIdAmount TransfersHold) ∘ fst <$> unflat (A := list Z) b;
  account_info_decode b := (fun p => mkAccountInfo (fst (fst p)) (snd (fst p))) <$> unflat (A := Z * Z) b;
  u32_decode := head;
  extrinsic_encode x := replicate 32 (sx_nonce x)
|}.

(** A domain's file holds its domain and its ports. *)
Definition domain_number (d : DomainId) : Z := match d with Earth => 1 | Moon => 2 | Mars => 3 end.
Definition domain_file (d : DomainId) (network : NetworkConfig) : bytes :=
  [domain_number d; net_p2p_port network; net_rpc_port network; net_prometheus_port network].
Definition file_domain (d : DomainId) (p2p rpc prometheus : Z) : DomainConfig :=
  {| dc_domain_id := d; dc_chain_name := str_bytes "IALP"; dc_chain_id := str_bytes "ialp";
     dc_chain_type := Local; dc_token := mkTokenConfig (str_bytes "IALP") 12;
     dc_network := mkNetworkConfig p2p rpc prometheus [];
     dc_epoch := mkEpochConfig 12; dc_authorities := [mkAuthorityConfig [97] [97] [97] [97]];
     dc_bootstrap := mkBootstrapConfig [97] [98] [[97]] |}.
#[local] Instance world_toml : Toml := {|
  domain_from_toml b :=
    match b with
    | [1; p2p; rpc; prometheus] => Some (file_domain Earth p2p rpc prometheus)
    | [2; p2p; rpc; prometheus] => Some (file_domain Moon p2p rpc prometheus)
    | [3; p2p; rpc; prometheus] => Some (file_domain Mars p2p rpc prometheus)
    | _ => None
    end;
  domain_to_toml c := domain_file (dc_domain_id c) (dc_network c);
  transport_from_toml b := match b with [] => Some example_transport | _ => None end;
  transport_to_toml c := []
|}.
Definition no_multiaddr (_ : bytes) : option unit := None.
Definition any_peer (_ : unit) : bool := true.

(** ** The chains in time *)

Definition earth_1 : list System * Chain Ledger := next [plain_xt 1 earth_transfer] earth_0.
(** The time in milliseconds. *)
Definition earth_at (t : Z) : list System * Chain Ledger :=
  if t <? 3000 then earth_0 else if t <? 4000 then earth_1 else if t <? 22000 then earth_4 else earth_5.
Definition mars_at (t : Z) : list System * Chain Ledger := if t <? 20000 then mars_0 else mars_4.
Definition chains_at (t : Z) (d : DomainId) : list System * Chain Ledger :=
  match d with Earth => earth_at t | Moon => ([], network_genesis Moon) | Mars => mars_at t end.

(** The storage of a chain, as far as the harness reads it. *)
Definition chain_store (ch : Chain Ledger) : gmap bytes bytes :=
  let st := w_transfers (ch_world ch) in
  let ledger := w_balances (ch_world ch) in
  kmap export_record_storage_key (scale_encode <$> ts_exports_by_id st)
  ∪ (kmap observed_import_storage_key (scale_encode <$> ts_observed_imports_by_id st)
  ∪ (kmap summary_header_storage_key (scale_encode <$> es_summary_headers (ch_epochs ch))
  ∪ (kmap epoch_export_ids_storage_key ((flat (A := list (list Z))) <$> ts_epoch_export_ids st)
  ∪ list_to_map
      [(storage_value_key (str_bytes "Epochs") (str_bytes "CurrentEpoch"), scale_encode (es_current_epoch (ch_epochs ch)));
       (storage_map_key (str_bytes "Balances") (str_bytes "Holds") (scale_encode (acct 1)),
        flat (A := list Z) [cur_held ledger (acct 1)]);
       (storage_map_key (str_bytes "System") (str_bytes "Account") (scale_encode (acct 2)),
        flat (A := Z * Z) (0, cur_balance ledger (acct 2)))]))).

(** ** The world *)

Record Sandbox : Type := mkSandbox { sb_millis : Z; sb_files : gmap bytes bytes; sb_port : Z }.

(** The URLs of the nodes, from the ports as they are reserved. *)
Definition url_domain (url : bytes) : DomainId :=
  if bool_decide (url = str_bytes "ws://127.0.0.1:5001") then Earth
  else if bool_decide (url = str_bytes "ws://127.0.0.1:5004") then Moon else Mars.
Definition sandbox_chain (n : Sandbox) (d : DomainId) : Chain Ledger := snd (chains_at (sb_millis n) d).

(** Finalized blocks: one a second, whose hash repeats its number. *)
Definition finalized_at (n : Sandbox) : Z := sb_millis n / 1000.
Definition block_hash_text (i : Z) : bytes := hex_hash (replicate 32 i).
Definition number_text (i : Z) : bytes := [48; 120; 48 + i / 10; 48 + i mod 10].

(** What the services have stored. *)
Definition package_envelope (source target : DomainId) (pkg : CertifiedSummaryPackage) : RelayPackageEnvelopeV1 :=
  new_envelope source target 0 (sh_summary_hash (pkg_header pkg)) (pkg_package_hash pkg) [] 1 0.
Definition relayed (source target : DomainId) (pkg : CertifiedSummaryPackage) (acked : bool) : RelayPackageRecord :=
  (accepted_record (package_envelope source target pkg) 0) {{ rp_state := if acked then ImporterAcked else Scheduled' }}.
Definition sandbox_relay (t : Z) : Relay :=
  let index := mkRelayIndex Relay.INDEX_SCHEMA_VERSION
    [relayed Earth Mars earth_package (20000 <=? t); relayed Mars Earth mars_package (22000 <=? t)] in
  mkRelay index (Some index) ∅ ∅ [].
Definition exported_package (target : DomainId) (pkg : CertifiedSummaryPackage) (kind : string) : Exporter.PackageRecord :=
  {| xr_epoch_id := 0; xr_target_domain := target; xr_summary_hash := hex_hash (sh_summary_hash (pkg_header pkg));
     xr_staged_at_block_number := 3; xr_staged_at_block_hash := []; xr_export_ids := [hex_hash transfer_id];
     xr_export_count := 1; xr_status := Certified; xr_pending_reason := None;
     xr_package_hash := Some (hex_hash (pkg_package_hash pkg)); xr_package_scale_path := None;
     xr_package_manifest_path := None; xr_proof_block_number := Some 4; xr_proof_block_hash := None;
     xr_proof_count := Some 1; xr_proof_kinds := [kind]; xr_relay_submission_state := Submitted;
     xr_relay_last_submitted_at_unix_ms := None; xr_relay_submission_attempts := 1; xr_relay_last_error := None |}.
Definition sandbox_exporter (d : DomainId) : Exporter unit :=
  let package := match d with
    | Mars => exported_package Earth mars_package "finalized_import_v1"
    | _ => exported_package Mars earth_package "export_v1"
    end in
  mkExporter (Some (Exporter.CurrentIndex ((Exporter.new_index d) {{ xi_packages := [package] }}))) ∅ ∅ ∅ ∅ ∅ [] tt.
Definition imported_package (source target : DomainId) (pkg : CertifiedSummaryPackage) : Importer.PackageRecord :=
  {| pr_source_domain := source; pr_target_domain := target; pr_epoch_id := 0;
     pr_summary_hash := hex_hash (sh_summary_hash (pkg_header pkg)); pr_package_hash := hex_hash (pkg_package_hash pkg);
     pr_state := AckedVerified; pr_reason := None; pr_export_count := 1; pr_received_at_unix_ms := 0;
     pr_last_updated_at_unix_ms := 0; pr_completed_at_unix_ms := None; pr_tx_hashes := [];
     pr_payload_path := (source, target, 0, pkg_package_hash pkg) |}.
Definition sandbox_importer (d : DomainId) : Importer unit :=
  let package := match d with
    | Mars => imported_package Earth Mars earth_package
    | _ => imported_package Mars Earth mars_package
    end in
  let index := (Importer.new_index d) {{ ii_packages := [package] }} in
  mkImporter index (Some (Importer.CurrentIndex index)) ∅ ∅ ∅ tt.
Definition path_domain (path : bytes) : DomainId := if contains (str_bytes "/mars") path then Mars else Earth.

#[local] Instance sandbox_env : HarnessEnv Sandbox := {|
  instant_now n := (n, sb_millis n * 1000000);
  unix_now_millis n := (n, Ok (sb_millis n));
  utc_now n := (n, sb_millis n * 1000000);
  sleep_millis d n := mkSandbox (sb_millis n + Z.max 0 d) (sb_files n) (sb_port n);
  prepare_binaries _ n := (n, Ok tt);
  path_exists _ n := (n, true);
  create_dir_all _ n := (n, Ok tt);
  read_file path n := (n, match sb_files n !! path with Some contents => Ok contents | None => Err "not found"%string end);
  write_file path contents n := (mkSandbox (sb_millis n) (<[path := contents]> (sb_files n)) (sb_port n), Ok tt);
  write_summary _ _ n := (n, Ok tt);
  spawn_process _ _ _ _ n := (n, Ok tt);
  kill_process _ n := n;
  reserve_port n := (mkSandbox (sb_millis n) (sb_files n) (sb_port n + 1), Ok (sb_port n));
  tcp_ready _ n := (n, true);
  exporter_store path n := (n, Ok (sandbox_exporter (path_domain path)));
  relay_store _ n := (n, Ok (sandbox_relay (sb_millis n)));
  relay_payload _ n := (n, None);
  relay_entry_exists _ n := (n, false);
  importer_store path n := (n, Ok (sandbox_importer (path_domain path)));
  post_body _ _ n := (n, Ok 200);
  rpc_connect _ n := (n, Ok tt);
  chain_getFinalizedHead _ n := (n, Ok (block_hash_text (finalized_at n)));
  chain_getHeader _ h n := (n, Ok (number_text <$> head (strip_0x h)));
  chain_getBlockHash _ i n := (n, Ok (Some (block_hash_text i)));
  chain_getBlock _ h n :=
    (n, Ok (Some (if bool_decide (h = block_hash_text 1) && (3000 <=? sb_millis n) then [hex_hash (replicate 32 0)] else [])));
  state_getRuntimeVersion _ n := (n, Ok (mkRuntimeVersionView 1 1));
  state_getStorage url key n := (n, Ok (hex_hash <$> chain_store (sandbox_chain n (url_domain url)) !! strip_0x key));
  system_accountNextIndex _ _ n := (n, Ok 0);
  author_submitExtrinsic _ x n := (n, Ok x);
  system_localPeerId _ n := (n, Ok []);
  system_localListenAddresses _ n := (n, Ok [])
|}.

Definition workspace : bytes := str_bytes "/ialp".
Definition base_files : gmap bytes bytes :=
  list_to_map
    [(str_bytes "/ialp/config/domains/earth.toml", [1; 1; 2; 3]);
     (str_bytes "/ialp/config/domains/mars.toml", [3; 1; 2; 3]);
     (str_bytes "/ialp/config/transport/local.toml", [])].
Definition sandbox_0 : Sandbox := mkSandbox 0 base_files 5001.
Definition some_binaries : BinaryPaths := mkBinaryPaths [1] [2] [3] [4].
Definition started : Runner Sandbox :=
  new_runner EarthToMarsDelay some_binaries (artifact_layout (str_bytes "/tmp/run")) 0 sandbox_0.
Definition finished : Runner Sandbox * result HarnessError unit := run no_multiaddr any_peer workspace started.

(** ** The world is as the theorems take it *)

#[local] Ltac each_call := split; intros; simpl;
  repeat match goal with |- context[match ?x with _ => _ end] => destruct x end.

Definition sandbox_time (n : Sandbox) : Z := sb_millis n * 1000000.
Lemma sandbox_clock : Clock sandbox_time.
Proof. split; [each_call; unfold sandbox_time; simpl; lia|..]; intros; unfold sandbox_time; simpl; lia. Qed.

(** *** Chains that grow *)
Definition grow (d : DomainId) : Chain Ledger -> Chain Ledger -> Prop := next_block (fun _ => 2) d.
Definition in_network (d : DomainId) : list System * Chain Ledger -> Prop :=
  chain_state d 2 (acct 7) (signed_by_importer justified d).

Lemma grow_step d s s' : in_network d s -> network_step justified d s s' -> grow d (snd s) (snd s').
Proof.
  intros Hs Hstep. apply chain_state_run in Hs. destruct Hstep as [hist ch bl Hn Hmax Hadm _]. by exists hist, bl.
Qed.
Lemma grows_empty d s : in_network d s -> Z.of_nat (length (fst s)) + 1 <= u32_max ->
  in_network d (next [] s) /\ grow d (snd s) (snd (next [] s)).
Proof.
  intros Hs Hn. pose proof (empty_block justified d s Hn) as Hstep.
  split; [by eapply chain_state_next|by apply grow_step].
Qed.

Lemma earth_1_step : network_step justified Earth earth_0 earth_1.
Proof.
  apply next_step; [vm_compute; discriminate| |].
  - split; [|exact I]. apply plain_admissible. vm_compute. reflexivity.
  - apply Forall_singleton. intros call E. discriminate E.
Qed.
Lemma earth_1_state : in_network Earth earth_1.
Proof. eapply chain_state_next; [apply genesis_network|exact earth_1_step]. Qed.
Definition mars_1 : list System * Chain Ledger := next (map (plain_xt 7) (mars_observe ++ mars_finalize)) mars_0.
Lemma mars_1_step : network_step justified Mars mars_0 mars_1.
Proof.
  apply importer_block; [vm_compute; discriminate|exact mars_calls_certified|].
  unfold mars_observe, mars_finalize. apply Forall_app. split; by apply Forall_map_in.
Qed.
Lemma mars_1_state : in_network Mars mars_1.
Proof. eapply chain_state_next; [apply genesis_network|exact mars_1_step]. Qed.

(** The three empty blocks that close the epoch. *)
Lemma grows_three d s : in_network d s -> Z.of_nat (length (fst s)) + 3 <= u32_max ->
  rtc (grow d) (snd s) (snd (next [] (next [] (next [] s)))).
Proof.
  intros Hs Hn.
  destruct (grows_empty d s Hs ltac:(lia)) as [Hs1 G1].
  destruct (grows_empty d (next [] s) Hs1 ltac:(simpl; rewrite length_app; simpl; lia)) as [Hs2 G2].
  destruct (grows_empty d (next [] (next [] s)) Hs2 ltac:(simpl; rewrite !length_app; simpl; lia)) as [_ G3].
  do 2 (eapply rtc_l; [eassumption|]). by apply rtc_once.
Qed.

Lemma earth_0_1 : rtc (grow Earth) (snd earth_0) (snd earth_1).
Proof. apply rtc_once, grow_step; [apply genesis_network|exact earth_1_step]. Qed.
Lemma earth_1_4 : rtc (grow Earth) (snd earth_1) (snd earth_4).
Proof. apply (grows_three Earth earth_1 earth_1_state). vm_compute. discriminate. Qed.
Lemma earth_4_5 : rtc (grow Earth) (snd earth_4) (snd earth_5).
Proof. apply rtc_once, grow_step; [exact earth_4_state|exact earth_5_step]. Qed.
Lemma mars_0_4 : rtc (grow Mars) (snd mars_0) (snd mars_4).
Proof.
  eapply rtc_l; [apply grow_step; [apply genesis_network|exact mars_1_step]|].
  apply (grows_three Mars mars_1 mars_1_state). vm_compute. discriminate.
Qed.

(** Steps at three moments, or at one. *)
Lemma phases {S A} (f : S -> A) (R : relation A) (a b c e : S) t t' :
  rtc R (f a) (f b) -> rtc R (f b) (f c) -> rtc R (f c) (f e) -> t <= t' ->
  rtc R (f (if t <? 3000 then a else if t <? 4000 then b else if t <? 22000 then c else e))
        (f (if t' <? 3000 then a else if t' <? 4000 then b else if t' <? 22000 then c else e)).
Proof.
  intros Hab Hbc Hce Ht. pose proof (transitivity Hab Hbc). pose proof (transitivity Hbc Hce).
  assert (rtc R (f a) (f e)) by (by transitivity (f c)).
  repeat (case_match; rewrite ?Z.ltb_lt, ?Z.ltb_ge in *); solve [lia | done].
Qed.
Lemma phase {S A} (f : S -> A) (R : relation A) (a b : S) t t' :
  rtc R (f a) (f b) -> t <= t' -> rtc R (f (if t <? 20000 then a else b)) (f (if t' <? 20000 then a else b)).
Proof. intros Hab Ht. repeat (case_match; rewrite ?Z.ltb_lt, ?Z.ltb_ge in *); solve [lia | done]. Qed.

Lemma chains_grow_in_time t t' d : t <= t' -> rtc (grow d) (snd (chains_at t d)) (snd (chains_at t' d)).
Proof.
  intros Ht. destruct d; unfold chains_at; [|apply rtc_refl|].
  - exact (phases snd (grow Earth) earth_0 earth_1 earth_4 earth_5 t t' earth_0_1 earth_1_4 earth_4_5 Ht).
  - exact (phase snd (grow Mars) mars_0 mars_4 t t' mars_0_4 Ht).
Qed.
Lemma chains_at_state t d : in_network d (chains_at t d).
Proof.
  destruct d; [|exact (genesis_network justified Moon)|]; unfold chains_at, earth_at, mars_at.
  - destruct (t <? 3000); [exact (genesis_network justified Earth)|]. destruct (t <? 4000); [exact earth_1_state|].
    destruct (t <? 22000); [exact earth_4_state|exact (network_state Earth)].
  - destruct (t <? 20000); [exact (genesis_network justified Mars)|exact mars_4_state].
Qed.

(** *** Nodes that serve their chains *)
#[local] Instance export_key_inj : Inj (=) (=) export_record_storage_key.
Proof. intros i j [E _]%storage_map_key_inj. by apply scale_encode_inj in E. Qed.
#[local] Instance import_key_inj : Inj (=) (=) observed_import_storage_key.
Proof. intros i j [E _]%storage_map_key_inj. by apply scale_encode_inj in E. Qed.
#[local] Instance header_key_inj : Inj (=) (=) summary_header_storage_key.
Proof. intros i j. apply summary_header_key_inj. Qed.
#[local] Instance export_ids_key_inj : Inj (=) (=) epoch_export_ids_storage_key.
Proof. intros i j [E _]%storage_map_key_inj. by apply scale_encode_inj in E. Qed.

(** Two keys whose first 32 bytes, the hashes of the names, differ. *)
#[local] Ltac other_item E := exfalso; apply (f_equal (take 32)) in E; vm_compute in E; discriminate E.
Lemma elsewhere {A} `{Countable K} (f : K -> bytes) (m : gmap K A) key :
  Inj (=) (=) f -> (forall i, key <> f i) -> kmap (M2 := gmap bytes) f m !! key = None.
Proof. intros Hf Hne. apply lookup_kmap_None; [done|]. intros i E. destruct (Hne i E). Qed.

Lemma chain_store_transfers ch : stores_transfers ch (fun key => chain_store ch !! key).
Proof.
  split; intros id; unfold chain_store; cbv zeta.
  - rewrite lookup_union, lookup_kmap, lookup_fmap by apply _.
    destruct (ts_exports_by_id _ !! id); simpl; [by rewrite union_Some_l|]. rewrite (left_id_L None _).
    rewrite !lookup_union, !elsewhere; try apply _; try (intros i E; other_item E).
    rewrite !(left_id_L None _). simpl. rewrite !lookup_insert_ne; [done|..]; intros E; other_item E.
  - rewrite lookup_union, (elsewhere export_record_storage_key); [|apply _|intros i E; other_item E].
    rewrite (left_id_L None _). rewrite lookup_union, lookup_kmap, lookup_fmap by apply _.
    destruct (ts_observed_imports_by_id _ !! id); simpl; [by rewrite union_Some_l|]. rewrite (left_id_L None _).
    rewrite !lookup_union, !elsewhere; try apply _; try (intros i E; other_item E).
    rewrite !(left_id_L None _). simpl. rewrite !lookup_insert_ne; [done|..]; intros E; other_item E.
Qed.

Lemma sandbox_serves : serves_chains sandbox_chain url_domain.
Proof.
  intros url key n n' v E. simpl in E. injection E as <- <-.
  exists (fun key => chain_store (sandbox_chain n (url_domain url)) !! key). split; [apply chain_store_transfers|done].
Qed.
Lemma sandbox_served : ServedChains (fun _ => 2) sandbox_chain url_domain.
Proof.
  split; [| |exact sandbox_serves].
  - intros n d. exists (fst (chains_at (sb_millis n) d)). apply (chain_state_run _ _ _ _ _ (chains_at_state _ _)).
  - assert (forall n n', sb_millis n <= sb_millis n' -> chains_grow (fun _ => 2) sandbox_chain n n') as Hg
      by (intros n n' Ht d; exact (chains_grow_in_time _ _ d Ht)).
    each_call; apply Hg; simpl; lia.
Qed.

(** ** Witnesses *)

Lemma finished_ok : snd finished = Ok tt.
Proof. vm_compute. reflexivity. Qed.
Lemma finished_nodes : nodes_ok url_domain (fst finished).
Proof.
  assert (map_Forall (fun d c => url_domain (rpc_url c) = d) (rn_node_configs (fst finished))) as Hall; [|exact Hall].
  apply (bool_decide_unpack _). vm_compute. exact I.
Qed.

Lemma pair_with {A B} (p : A * B) b : snd p = b -> p = (fst p, b).
Proof. intros <-. apply surjective_pairing. Qed.
#[local] Instance export_record_ok : ScaleOk ExportRecord.
Proof. apply tagged_ok, _. Qed.
#[local] Instance observed_import_ok : ScaleOk ObservedImportRecord.
Proof. apply tagged_ok, _. Qed.

Lemma green_transfer_settled_witness :
  transfer_settled sandbox_chain EarthToMarsDelay (rn_world (fst finished)).
Proof.
  apply (green_transfer_settled no_multiaddr any_peer workspace (fun _ => 2) ltac:(lia) network_export_ids reference_proposal_ids
           sandbox_chain url_domain sandbox_served EarthToMarsDelay some_binaries (artifact_layout (str_bytes "/tmp/run")) 0
           sandbox_0 (fst finished)).
  - discriminate.
  - exact (pair_with (run no_multiaddr any_peer workspace started) (Ok tt) finished_ok).
  - exact finished_nodes.
Defined.

(** The same scenario, with its summary. *)
Abbreviation sandbox_run :=
  (run_scenario no_multiaddr any_peer workspace EarthToMarsDelay some_binaries (str_bytes "/tmp/run") sandbox_0).
Definition succeeded (res : result HarnessError (ScenarioSummary * option HarnessError)) : bool :=
  match res with Ok (_, None) => true | _ => false end.
Lemma sandbox_run_succeeded : succeeded (snd sandbox_run) = true.
Proof. vm_compute. reflexivity. Qed.
Lemma sandbox_outcome (res : Sandbox * result HarnessError (ScenarioSummary * option HarnessError)) :
  succeeded (snd res) = true -> exists n summary, res = (n, Ok (summary, None)).
Proof. destruct res as [n [[summary []]|]]; simpl; intros E; try discriminate E. by exists n, summary. Qed.

Lemma summary_tells_outcome_witness : exists n summary, sandbox_run = (n, Ok (summary, None)) /\ won summary.
Proof.
  destruct (sandbox_outcome sandbox_run sandbox_run_succeeded) as (n & summary & E). exists n, summary. split; [exact E|].
  exact (summary_tells_outcome no_multiaddr any_peer workspace EarthToMarsDelay some_binaries (str_bytes "/tmp/run") sandbox_0
           n summary None E).
Defined.

Lemma scenario_ends_witness :
  match snd sandbox_run with Ok (_, error) => error <> Some OutOfFuel | Err e => e <> OutOfFuel end.
Proof.
  pose proof (scenario_ends no_multiaddr any_peer workspace sandbox_time sandbox_clock EarthToMarsDelay some_binaries
           (str_bytes "/tmp/run") sandbox_0) as Hend.
  exact Hend.
Defined.

(** The services of [example_transport], from one file. *)
Definition read_anything (path : bytes) : M unit LoadError bytes :=
  ret (if bool_decide (path = str_bytes "local.toml") then [] else [1; 1; 2; 3]).
Lemma services_connect_witness : exists rs xs settings addr,
  xs_relay_url xs = str_bytes "http://" ++ rs_listen_addr rs /\ is_listen_addr settings = Some addr /\
  importer_base_url (rs_transport rs) Earth = Ok (str_bytes "http://" ++ addr).
Proof.
  destruct (load_relay_settings read_anything (Some (str_bytes "local.toml")) tt) as [[] [rs|]] eqn:E1;
    [|exfalso; vm_compute in E1; discriminate E1].
  destruct (load_exporter_settings no_multiaddr any_peer read_anything Earth None (Some (str_bytes "local.toml")) None None None tt)
    as [[] [xs|]] eqn:E2; [|exfalso; vm_compute in E2; discriminate E2].
  destruct (load_importer_settings no_multiaddr any_peer read_anything Earth None None (Some (str_bytes "local.toml")) None tt)
    as [[] [settings|]] eqn:E3; [|exfalso; vm_compute in E3; discriminate E3].
  destruct (services_connect (H := world_toml) no_multiaddr any_peer read_anything (str_bytes "local.toml") [] example_transport
              (fun s => ex_intro _ s eq_refl) eq_refl tt tt tt tt tt tt rs xs settings Earth Earth None None None None None None
              E1 E2 E3) as (Hx & addr & Ha & Hall).
  exists rs, xs, settings, addr. split; [exact Hx|]. split; [exact Ha|]. by apply Hall.
Defined.
